(** * atomix.h: a shallow embedding of the wait-free sound mixer

    The development follows [atomix.h] function by function.  The model is
    sequential: one thread at a time runs a whole function, so every
    compare-and-swap sees the value its caller loaded unless the model
    itself changed it in between.

    - [float] is IEEE-754 binary32, taken from the Standard Library's
      executable specification [SpecFloat] at precision 24 and [emax] 128,
      rounding to nearest even; every operation rounds to binary32, as SSE
      arithmetic does.
    - Arrays are lists read with a default out of range; the functions keep
      their indices in range on well-formed states ([mixer_ok], [carry_ok]).
    - The handle-addressed setters return [int]: 1 where the function body
      says "return success" and 0 where it says "return failure".
    - [uint32_t], [int32_t] and [uint8_t] values are [Z] with the
      wrap-around written out ([wrap_u32], [wrap_i32]).  C leaves signed
      overflow undefined; the model wraps.
    - [ATOMIX_LBITS], [ATOMIX_NO_SSE] and [ATOMIX_NO_CLIP] are build
      options: the first is a section variable, the second selects between
      the [Scalar] and [SSE] modules, the third is the [clip] argument of
      the mix entry points. *)

From Stdlib Require Import ZArith List Bool Lia.
From Stdlib Require Import Floats.SpecFloat.
From stdpp Require Import base list.

Local Open Scope Z_scope.

(** ** binary32 arithmetic *)

Module F32.

Definition prec : Z := 24.
Definition emax : Z := 128.

Definition float32 : Type := spec_float.

Definition add : float32 -> float32 -> float32 := SFadd prec emax.
Definition sub : float32 -> float32 -> float32 := SFsub prec emax.
Definition mul : float32 -> float32 -> float32 := SFmul prec emax.
Definition div : float32 -> float32 -> float32 := SFdiv prec emax.

(** [x < y] and [x <= y] as C evaluates them: false when either side is NaN. *)
Definition ltb : float32 -> float32 -> bool := SFltb.
Definition leb : float32 -> float32 -> bool := SFleb.

(** The conversion [(float)z] of a 32-bit integer. *)
Definition of_int (z : Z) : float32 := binary_normalize prec emax z 0 false.

Definition zero : float32 := S754_zero false.
Definition half : float32 := S754_finite false 8388608 (-24).
Definition one : float32 := S754_finite false 8388608 (-23).
Definition two : float32 := S754_finite false 8388608 (-22).
Definition neg_one : float32 := S754_finite true 8388608 (-23).

Definition valid (x : float32) : bool := valid_binary prec emax x.

Definition is_nan (x : float32) : bool :=
  match x with S754_nan => true | _ => false end.

Definition is_finite (x : float32) : bool :=
  match x with S754_zero _ | S754_finite _ _ _ => true | _ => false end.

(** Zero, or normal with magnitude at least [2^-125]: the floats whose half
    is exact in the normal range. *)
Definition halves_exactly (x : float32) : bool :=
  match x with
  | S754_zero _ => true
  | S754_finite _ m e => (Z.pos (digits2_pos m) =? 24) && (-148 <=? e)
  | _ => false
  end.

(** The exact value of a finite float in units of [2^-149], the spacing of
    the subnormals: every finite binary32 is an integer number of them. *)
Definition units (x : float32) : Z :=
  match x with
  | S754_finite s m e => (if s then -1 else 1) * Z.pos m * 2 ^ (e + 149)
  | _ => 0
  end.

(** The object representation: sign bit 31, biased exponent in bits 30..23,
    fraction in bits 22..0.  [SpecFloat] keeps no NaN payload, so every NaN
    is written as the default quiet NaN. *)
Definition sign_bit (s : bool) : Z := if s then 2 ^ 31 else 0.

Definition bits_of (x : float32) : Z :=
  match x with
  | S754_zero s => sign_bit s
  | S754_infinity s => sign_bit s + 255 * 2 ^ 23
  | S754_nan => 255 * 2 ^ 23 + 2 ^ 22
  | S754_finite s m e =>
      if Z.pos m <? 2 ^ 23 then sign_bit s + Z.pos m
      else sign_bit s + (e + 150) * 2 ^ 23 + (Z.pos m - 2 ^ 23)
  end.

Definition of_bits (b : Z) : float32 :=
  let s := Z.testbit b 31 in
  let e := Z.land (Z.shiftr b 23) 255 in
  let m := Z.land b (Z.ones 23) in
  if e =? 0 then
    match m with
    | Z.pos p => S754_finite s p (-149)
    | _ => S754_zero s
    end
  else if e =? 255 then
    (if m =? 0 then S754_infinity s else S754_nan)
  else S754_finite s (Z.to_pos (m + 2 ^ 23)) (e - 150).

End F32.

Export F32(float32).

#[global] Instance float32_inhabited : Inhabited float32 := populate F32.zero.

(** ** Machine integers *)

Definition wrap_u32 (z : Z) : Z := z mod 2 ^ 32.
Definition wrap_i32 (z : Z) : Z := (z + 2 ^ 31) mod 2 ^ 32 - 2 ^ 31.

(** [z & ~3] on a 32-bit integer; [~3] is [-4] in two's complement. *)
Definition trunc4 (z : Z) : Z := Z.land z (Z.lnot 3).

(** [atomic_compare_exchange_strong]: the new contents of the cell and
    whether the exchange took place. *)
Definition ATMX_CSWAP (cell expected desired : Z) : Z * bool :=
  if cell =? expected then (desired, true) else (cell, false).

(** ** Constants *)

Definition ATOMIX_STOP : Z := 1.
Definition ATOMIX_HALT : Z := 2.
Definition ATOMIX_PLAY : Z := 3.
Definition ATOMIX_LOOP : Z := 4.

(** ** Structs *)

(** [struct atomix_sound]: [snd_data] holds [snd_len * snd_cha] floats,
    interleaved for stereo.  The SSE build reads them four at a time. *)
Record atomix_sound : Type := {
  snd_cha : Z;
  snd_len : Z;
  snd_data : list float32
}.

Record atmx_f2 : Type := {
  f2_l : float32;
  f2_r : float32
}.

(** [struct atmx_layer]; [lay_snd] is [None] for the null pointer. *)
Record atmx_layer : Type := {
  lay_id : Z;
  lay_flag : Z;
  lay_cursor : Z;
  lay_gain : atmx_f2;
  lay_snd : option atomix_sound;
  lay_start : Z;
  lay_end : Z;
  lay_fade : Z;
  lay_fmax : Z
}.

(** [struct atomix_mixer].  [mix_rem] and [mix_data] exist in the SSE build
    only; [mix_data] is kept as the six 32-bit patterns of [float data[6]],
    because the mixer copies into it by bytes. *)
Record atomix_mixer : Type := {
  mix_nid : Z;
  mix_volume : float32;
  mix_lays : list atmx_layer;
  mix_fade : Z;
  mix_rem : Z;
  mix_data : list Z
}.

(** A layer as the zero-filling allocator leaves it. *)
Definition zero_layer : atmx_layer := {|
  lay_id := 0; lay_flag := 0; lay_cursor := 0;
  lay_gain := {| f2_l := F32.zero; f2_r := F32.zero |};
  lay_snd := None; lay_start := 0; lay_end := 0; lay_fade := 0; lay_fmax := 0
|}.

#[global] Instance atmx_layer_inhabited : Inhabited atmx_layer := populate zero_layer.

Definition null_sound : atomix_sound :=
  {| snd_cha := 0; snd_len := 0; snd_data := [] |}.

(** [lay->snd]: dereferencing; the null pointer reads as an empty sound. *)
Definition lay_sound (lay : atmx_layer) : atomix_sound :=
  default null_sound (lay_snd lay).

Definition set_lay_flag (lay : atmx_layer) (flag : Z) : atmx_layer := {|
  lay_id := lay_id lay; lay_flag := flag; lay_cursor := lay_cursor lay;
  lay_gain := lay_gain lay; lay_snd := lay_snd lay; lay_start := lay_start lay;
  lay_end := lay_end lay; lay_fade := lay_fade lay; lay_fmax := lay_fmax lay
|}.

Definition set_lay_cursor (lay : atmx_layer) (cursor : Z) : atmx_layer := {|
  lay_id := lay_id lay; lay_flag := lay_flag lay; lay_cursor := cursor;
  lay_gain := lay_gain lay; lay_snd := lay_snd lay; lay_start := lay_start lay;
  lay_end := lay_end lay; lay_fade := lay_fade lay; lay_fmax := lay_fmax lay
|}.

Definition set_lay_gain (lay : atmx_layer) (gain : atmx_f2) : atmx_layer := {|
  lay_id := lay_id lay; lay_flag := lay_flag lay; lay_cursor := lay_cursor lay;
  lay_gain := gain; lay_snd := lay_snd lay; lay_start := lay_start lay;
  lay_end := lay_end lay; lay_fade := lay_fade lay; lay_fmax := lay_fmax lay
|}.

Definition set_lay_fade (lay : atmx_layer) (fade : Z) : atmx_layer := {|
  lay_id := lay_id lay; lay_flag := lay_flag lay; lay_cursor := lay_cursor lay;
  lay_gain := lay_gain lay; lay_snd := lay_snd lay; lay_start := lay_start lay;
  lay_end := lay_end lay; lay_fade := fade; lay_fmax := lay_fmax lay
|}.

Definition set_mix_nid (mix : atomix_mixer) (nid : Z) : atomix_mixer := {|
  mix_nid := nid; mix_volume := mix_volume mix; mix_lays := mix_lays mix;
  mix_fade := mix_fade mix; mix_rem := mix_rem mix; mix_data := mix_data mix
|}.

Definition set_mix_lays (mix : atomix_mixer) (lays : list atmx_layer) : atomix_mixer := {|
  mix_nid := mix_nid mix; mix_volume := mix_volume mix; mix_lays := lays;
  mix_fade := mix_fade mix; mix_rem := mix_rem mix; mix_data := mix_data mix
|}.

Definition set_mix_volume (mix : atomix_mixer) (vol : float32) : atomix_mixer := {|
  mix_nid := mix_nid mix; mix_volume := vol; mix_lays := mix_lays mix;
  mix_fade := mix_fade mix; mix_rem := mix_rem mix; mix_data := mix_data mix
|}.

Definition set_mix_fade (mix : atomix_mixer) (fade : Z) : atomix_mixer := {|
  mix_nid := mix_nid mix; mix_volume := mix_volume mix; mix_lays := mix_lays mix;
  mix_fade := fade; mix_rem := mix_rem mix; mix_data := mix_data mix
|}.

Definition set_mix_carry (mix : atomix_mixer) (rem : Z) (data : list Z) : atomix_mixer := {|
  mix_nid := mix_nid mix; mix_volume := mix_volume mix; mix_lays := mix_lays mix;
  mix_fade := mix_fade mix; mix_rem := rem; mix_data := data
|}.

(** ** atmxGainf2 *)

Definition atmxGainf2 (gain pan : float32) : atmx_f2 :=
  let pan :=
    if F32.ltb pan F32.neg_one then F32.neg_one
    else if F32.ltb F32.one pan then F32.one
    else pan in
  {| f2_l := F32.mul gain (F32.sub F32.half (F32.div pan F32.two));
     f2_r := F32.mul gain (F32.add F32.half (F32.div pan F32.two)) |}.

(** ** atomixSoundNew

    [data] stands for the caller's buffer of [len * cha] floats; the null
    pointer is not modelled.  [size_t] has 64 bits (x86-64). *)
Definition wrap_size (z : Z) : Z := z mod 2 ^ 64.

(** [n*cha*sizeof(float)] with [n] an [int32_t] and [cha] a [uint8_t]: the
    product of the two is an [int], which is converted to [size_t] for the
    multiplication by [sizeof(float)]. *)
Definition float_bytes (n cha : Z) : Z :=
  wrap_size (wrap_size (wrap_i32 (n * cha)) * 4).

(** [PTRDIFF_MAX]: the allocator returns no object larger than this.  It
    is the one failure of [ATOMIX_ZALLOC] that the model has; the bytes of
    the struct and the 15 bytes of room for alignment that the request
    adds do not change the outcome ([sound_request_header]). *)
Definition ZALLOC_MAX : Z := 2 ^ 63 - 1.

(** The sound holds the [float_bytes rlen cha] bytes that were requested,
    all zero, with the first [float_bytes len cha] bytes of [data] copied
    over them.  For a stereo sound of more than [2^31 - 4] frames
    [rlen*cha] wraps to 0 and the copy overruns the allocation, which C
    leaves undefined; the model keeps the floats copied. *)
Definition atomixSoundNew (cha : Z) (data : list float32) (len : Z) : option atomix_sound :=
  if (cha <? 1) || (2 <? cha) || (len <? 1) then None
  else
    let rlen := Z.land (wrap_i32 (len + 3)) (Z.lnot 3) in
    let room := float_bytes rlen cha in
    if ZALLOC_MAX <? room then None
    else
      let copied := take (Z.to_nat (float_bytes len cha / 4)) data in
      Some {| snd_cha := cha; snd_len := rlen;
              snd_data := copied ++ replicate (Z.to_nat (room / 4) - length copied)%nat F32.zero |}.

Definition atomixSoundLength (snd : atomix_sound) : Z := snd_len snd.

(** The layer that [atomixMixerPlayAdv] fills in for handle [id]: the plain
    fields first, then gain, cursor and, last, the flag. *)
Definition new_layer (id : Z) (snd : atomix_sound) (flag : Z) (gain pan : float32)
    (start end_ fade : Z) : atmx_layer :=
  let fmax := if fade <? 0 then 0 else trunc4 fade in
  {| lay_id := id; lay_flag := flag; lay_cursor := trunc4 start;
     lay_gain := atmxGainf2 gain pan; lay_snd := Some snd;
     lay_start := trunc4 start; lay_end := trunc4 end_;
     lay_fade := if flag <? 3 then 0 else fmax; lay_fmax := fmax |}.

(** ** The controller's functions *)

Section Controller.

Variable ATOMIX_LBITS : Z.

Definition ATMX_LAYERS : Z := Z.shiftl 1 ATOMIX_LBITS.
Definition ATMX_LMASK : Z := ATMX_LAYERS - 1.

(** [&mix->lays[id & ATMX_LMASK]] *)
Definition slot (id : Z) : nat := Z.to_nat (Z.land id ATMX_LMASK).

Definition atomixMixerNew (vol : float32) (fade : Z) : atomix_mixer := {|
  mix_nid := 0;
  mix_volume := vol;
  mix_lays := replicate (Z.to_nat ATMX_LAYERS) zero_layer;
  mix_fade := if fade <? 0 then 0 else trunc4 fade;
  mix_rem := 0;
  mix_data := replicate 6 0
|}.

(** The body of the probing loop of [atomixMixerPlayAdv], [n] attempts left. *)
Fixpoint play_probe (n : nat) (mix : atomix_mixer) (snd : atomix_sound)
    (flag : Z) (gain pan : float32) (start end_ fade : Z) : atomix_mixer * Z :=
  match n with
  | O => (mix, 0)
  | S n' =>
      let id := mix_nid mix in
      let idx := slot id in
      let mix := set_mix_nid mix (wrap_u32 (id + 1)) in
      let lay := mix_lays mix !!! idx in
      if lay_flag lay =? 0 then
        let id := if id =? 0 then ATMX_LAYERS else id in
        let lay := new_layer id snd flag gain pan start end_ fade in
        (set_mix_lays mix (<[idx := lay]> (mix_lays mix)), id)
      else play_probe n' mix snd flag gain pan start end_ fade
  end.

Definition atomixMixerPlayAdv (mix : atomix_mixer) (snd : atomix_sound)
    (flag : Z) (gain pan : float32) (start end_ fade : Z) : atomix_mixer * Z :=
  if (flag <? 1) || (4 <? flag) then (mix, 0)
  else if (wrap_i32 (end_ - start) <? 4) || (end_ <? 4) then (mix, 0)
  else play_probe (Z.to_nat ATMX_LAYERS) mix snd flag gain pan start end_ fade.

Definition atomixMixerPlay (mix : atomix_mixer) (snd : atomix_sound)
    (flag : Z) (gain pan : float32) : atomix_mixer * Z :=
  atomixMixerPlayAdv mix snd flag gain pan 0 (snd_len snd) (mix_fade mix).

Definition atomixMixerSetGainPan (mix : atomix_mixer) (id : Z) (gain pan : float32)
    : atomix_mixer * Z :=
  let lay := mix_lays mix !!! slot id in
  if (id =? lay_id lay) && (1 <? lay_flag lay) then
    (set_mix_lays mix (<[slot id := set_lay_gain lay (atmxGainf2 gain pan)]> (mix_lays mix)), 1)
  else (mix, 0).

Definition atomixMixerSetCursor (mix : atomix_mixer) (id : Z) (cursor : Z)
    : atomix_mixer * Z :=
  let lay := mix_lays mix !!! slot id in
  if (id =? lay_id lay) && (1 <? lay_flag lay) then
    let cursor :=
      if cursor <? lay_start lay then lay_start lay
      else if lay_end lay <? cursor then lay_end lay
      else trunc4 cursor in
    (set_mix_lays mix (<[slot id := set_lay_cursor lay cursor]> (mix_lays mix)), 1)
  else (mix, 0).

Definition atomixMixerSetState (mix : atomix_mixer) (id : Z) (flag : Z)
    : atomix_mixer * Z :=
  if (flag <? 1) || (4 <? flag) then (mix, 0)
  else
    let lay := mix_lays mix !!! slot id in
    let prev := lay_flag lay in
    if (id =? lay_id lay) && (1 <? prev) then
      if prev =? flag then (mix, 1)
      else
        let '(cell, swapped) := ATMX_CSWAP (lay_flag lay) prev flag in
        if swapped
        then (set_mix_lays mix (<[slot id := set_lay_flag lay cell]> (mix_lays mix)), 1)
        else (mix, 0)
    else (mix, 0).

Definition atomixMixerVolume (mix : atomix_mixer) (vol : float32) : atomix_mixer :=
  set_mix_volume mix vol.

Definition atomixMixerFade (mix : atomix_mixer) (fade : Z) : atomix_mixer :=
  set_mix_fade mix (if fade <? 0 then 0 else trunc4 fade).

(** The three "all" functions visit [lays[0]] to [lays[ATMX_LAYERS-1]] in
    order and touch nothing but the visited layer's flag. *)
Definition stop_layer (lay : atmx_layer) : atmx_layer :=
  if 1 <? lay_flag lay then set_lay_flag lay ATOMIX_STOP else lay.

Definition halt_layer (lay : atmx_layer) : atmx_layer :=
  let flag := lay_flag lay in
  if 2 <? flag then set_lay_flag lay (fst (ATMX_CSWAP (lay_flag lay) flag ATOMIX_HALT))
  else lay.

Definition play_layer (lay : atmx_layer) : atmx_layer :=
  set_lay_flag lay (fst (ATMX_CSWAP (lay_flag lay) ATOMIX_HALT ATOMIX_PLAY)).

Definition atomixMixerStopAll (mix : atomix_mixer) : atomix_mixer :=
  set_mix_lays mix (map stop_layer (mix_lays mix)).

Definition atomixMixerHaltAll (mix : atomix_mixer) : atomix_mixer :=
  set_mix_lays mix (map halt_layer (mix_lays mix)).

Definition atomixMixerPlayAll (mix : atomix_mixer) : atomix_mixer :=
  set_mix_lays mix (map play_layer (mix_lays mix)).

End Controller.

(** ** The mixing thread, scalar build ([ATOMIX_NO_SSE])

    [atomixMixerMix] returns, next to the mixer it leaves behind, the
    floats it stores at [buff[0]], [buff[1]], ... in that order, and its
    return value.  The kernels work on that region of the caller's buffer
    after [memset] has cleared it. *)

Module Scalar.

(** [buff[i] += v] *)
Definition accum (buff : list float32) (i : nat) (v : float32) : list float32 :=
  <[i := F32.add (buff !!! i) v]> buff.

(** The left and right sample of the frame under the cursor: the mono
    kernels read [data[cur % len]] for both, the stereo kernels read
    [data[off]] and [data[off+1]] with [off = (cur % len) << 1]. *)
Definition frame_mono (snd : atomix_sound) (cur : Z) : float32 * float32 :=
  let sam := snd_data snd !!! Z.to_nat (Z.rem cur (snd_len snd)) in
  (sam, sam).

Definition frame_stereo (snd : atomix_sound) (cur : Z) : float32 * float32 :=
  let off := Z.shiftl (Z.rem cur (snd_len snd)) 1 in
  (snd_data snd !!! Z.to_nat off, snd_data snd !!! Z.to_nat (off + 1)).

(** [(float)lay->fade/(float)lay->fmax] *)
Definition fade_mul (lay : atmx_layer) : float32 :=
  F32.div (F32.of_int (lay_fade lay)) (F32.of_int (lay_fmax lay)).

(** [buff[i] += sl*fade*g.l; buff[i+1] += sr*fade*g.r] *)
Definition mix_faded (buff : list float32) (i : nat) (fr : float32 * float32)
    (fade : float32) (g : atmx_f2) : list float32 :=
  accum (accum buff i (F32.mul (F32.mul (fst fr) fade) (f2_l g)))
        (i + 1) (F32.mul (F32.mul (snd fr) fade) (f2_r g)).

(** [buff[i] += sl*g.l; buff[i+1] += sr*g.r] *)
Definition mix_plain (buff : list float32) (i : nat) (fr : float32 * float32)
    (g : atmx_f2) : list float32 :=
  accum (accum buff i (F32.mul (fst fr) (f2_l g)))
        (i + 1) (F32.mul (snd fr) (f2_r g)).

Section Kernels.

Variable frame : Z -> float32 * float32.
Variable g : atmx_f2.

(** The four loops, [n] iterations left, [i] the index of the left sample
    of the frame being written. *)

(** "perform fade out" *)
Fixpoint fade_out_loop (n i : nat) (lay : atmx_layer) (cur : Z) (buff : list float32)
    : atmx_layer * Z * list float32 :=
  match n with
  | O => (lay, cur, buff)
  | S n' =>
      if lay_fade lay =? 0 then (lay, cur, buff)
      else
        let buff := if 0 <=? cur then mix_faded buff i (frame cur) (fade_mul lay) g else buff in
        fade_out_loop n' (i + 2)%nat (set_lay_fade lay (wrap_i32 (lay_fade lay - 1)))
                      (wrap_i32 (cur + 1)) buff
  end.

(** "continue playback to end without fade out" *)
Fixpoint play_out_loop (n i : nat) (lay : atmx_layer) (cur : Z) (buff : list float32)
    : atmx_layer * Z * list float32 :=
  match n with
  | O => (lay, cur, buff)
  | S n' =>
      if cur =? lay_end lay then (lay, cur, buff)
      else
        let buff := if 0 <=? cur then mix_plain buff i (frame cur) g else buff in
        play_out_loop n' (i + 2)%nat lay (wrap_i32 (cur + 1)) buff
  end.

(** "perform fade in" *)
Fixpoint fade_in_loop (loop : bool) (n i : nat) (lay : atmx_layer) (cur : Z)
    (buff : list float32) : atmx_layer * Z * list float32 :=
  match n with
  | O => (lay, cur, buff)
  | S n' =>
      if (cur =? lay_end lay) && negb loop then (lay, cur, buff)
      else
        let cur := if cur =? lay_end lay then lay_start lay else cur in
        let buff := if 0 <=? cur then mix_faded buff i (frame cur) (fade_mul lay) g else buff in
        let lay :=
          if lay_fade lay <? lay_fmax lay
          then set_lay_fade lay (wrap_i32 (lay_fade lay + 1)) else lay in
        fade_in_loop loop n' (i + 2)%nat lay (wrap_i32 (cur + 1)) buff
  end.

(** "regular playback" *)
Fixpoint play_loop (loop : bool) (n i : nat) (lay : atmx_layer) (cur : Z)
    (buff : list float32) : atmx_layer * Z * list float32 :=
  match n with
  | O => (lay, cur, buff)
  | S n' =>
      if (cur =? lay_end lay) && negb loop then (lay, cur, buff)
      else
        let cur := if cur =? lay_end lay then lay_start lay else cur in
        let buff := if 0 <=? cur then mix_plain buff i (frame cur) g else buff in
        play_loop loop n' (i + 2)%nat lay (wrap_i32 (cur + 1)) buff
  end.

(** "swap back cursor if unchanged": on failure the exchange loads the
    cell into [old], and [cur = old] returns what the controller stored. *)
Definition swap_cursor (res : atmx_layer * Z * list float32) (old : Z)
    : atmx_layer * Z * list float32 :=
  let '(lay, cur, buff) := res in
  let '(cell, swapped) := ATMX_CSWAP (lay_cursor lay) old cur in
  (set_lay_cursor lay cell, if swapped then cur else cell, buff).

(** The count of iterations of [for (i = 0; i < fnum*2; i += 2)]. *)
Definition frames (fnum : Z) : nat := Z.to_nat (wrap_u32 (fnum * 2) / 2).

Definition mix_fade (lay : atmx_layer) (cur : Z) (buff : list float32) (fnum : Z)
    : atmx_layer * Z * list float32 :=
  let old := cur in
  swap_cursor
    (if lay_fade lay <? wrap_i32 (lay_end lay - cur)
     then fade_out_loop (frames fnum) 0 lay cur buff
     else play_out_loop (frames fnum) 0 lay cur buff) old.

Definition mix_play (lay : atmx_layer) (loop : bool) (cur : Z) (buff : list float32)
    (fnum : Z) : atmx_layer * Z * list float32 :=
  let old := cur in
  swap_cursor
    (if lay_fade lay <? lay_fmax lay
     then fade_in_loop loop (frames fnum) 0 lay cur buff
     else play_loop loop (frames fnum) 0 lay cur buff) old.

End Kernels.

Definition atmxMixFadeMono (lay : atmx_layer) (cur : Z) (g : atmx_f2)
    (buff : list float32) (fnum : Z) : atmx_layer * Z * list float32 :=
  mix_fade (frame_mono (lay_sound lay)) g lay cur buff fnum.

Definition atmxMixFadeStereo (lay : atmx_layer) (cur : Z) (g : atmx_f2)
    (buff : list float32) (fnum : Z) : atmx_layer * Z * list float32 :=
  mix_fade (frame_stereo (lay_sound lay)) g lay cur buff fnum.

Definition atmxMixPlayMono (lay : atmx_layer) (loop : bool) (cur : Z) (g : atmx_f2)
    (buff : list float32) (fnum : Z) : atmx_layer * Z * list float32 :=
  mix_play (frame_mono (lay_sound lay)) g lay loop cur buff fnum.

Definition atmxMixPlayStereo (lay : atmx_layer) (loop : bool) (cur : Z) (g : atmx_f2)
    (buff : list float32) (fnum : Z) : atmx_layer * Z * list float32 :=
  mix_play (frame_stereo (lay_sound lay)) g lay loop cur buff fnum.

Definition atmxMixLayer (lay : atmx_layer) (vol : float32) (buff : list float32)
    (fnum : Z) : atmx_layer * list float32 :=
  let flag := lay_flag lay in
  if flag =? 0 then (lay, buff)
  else
    let cur := lay_cursor lay in
    let g := lay_gain lay in
    let g := {| f2_l := F32.mul (f2_l g) vol; f2_r := F32.mul (f2_r g) vol |} in
    if flag <? 3 then
      let '(lay, cur, buff) :=
        if (0 <? lay_fade lay) && (cur <? lay_end lay) then
          if snd_cha (lay_sound lay) =? 1
          then atmxMixFadeMono lay cur g buff fnum
          else atmxMixFadeStereo lay cur g buff fnum
        else (lay, cur, buff) in
      let lay :=
        if (flag =? ATOMIX_STOP) && ((lay_fade lay =? 0) || (cur =? lay_end lay))
        then set_lay_flag lay 0 else lay in
      (lay, buff)
    else
      let '(lay, cur, buff) :=
        if snd_cha (lay_sound lay) =? 1
        then atmxMixPlayMono lay (flag =? ATOMIX_LOOP) cur g buff fnum
        else atmxMixPlayStereo lay (flag =? ATOMIX_LOOP) cur g buff fnum in
      let lay :=
        if (flag =? ATOMIX_PLAY) && (cur =? lay_end lay)
        then set_lay_flag lay (fst (ATMX_CSWAP (lay_flag lay) flag 0)) else lay in
      (lay, buff).

(** [for (i = 0; i < ATMX_LAYERS; i++) atmxMixLayer(&mix->lays[i], ...)] *)
Fixpoint mix_layers (lays : list atmx_layer) (vol : float32) (buff : list float32)
    (fnum : Z) : list atmx_layer * list float32 :=
  match lays with
  | [] => ([], buff)
  | lay :: lays =>
      let '(lay, buff) := atmxMixLayer lay vol buff fnum in
      let '(lays, buff) := mix_layers lays vol buff fnum in
      (lay :: lays, buff)
  end.

(** [(b < -1.0f) ? -1.0f : (b > 1.0f) ? 1.0f : b] *)
Definition clip_sample (b : float32) : float32 :=
  if F32.ltb b F32.neg_one then F32.neg_one
  else if F32.ltb F32.one b then F32.one
  else b.

Definition atomixMixerMix (clip : bool) (mix : atomix_mixer) (fnum : Z)
    : atomix_mixer * list float32 * Z :=
  let buff := replicate (Z.to_nat (wrap_u32 (fnum * 2))) F32.zero in
  let vol := mix_volume mix in
  let '(lays, buff) := mix_layers (mix_lays mix) vol buff fnum in
  let buff := if clip then map clip_sample buff else buff in
  (set_mix_lays mix lays, buff, fnum).

End Scalar.

(** ** The mixing thread, SSE build (the default) *)

Module SSE.

(** [__m128]: four packed floats, [ps0] at the lowest address. *)
Record __m128 : Type := {
  ps0 : float32;
  ps1 : float32;
  ps2 : float32;
  ps3 : float32
}.

Definition lanewise (f : float32 -> float32 -> float32) (a b : __m128) : __m128 :=
  {| ps0 := f (ps0 a) (ps0 b); ps1 := f (ps1 a) (ps1 b);
     ps2 := f (ps2 a) (ps2 b); ps3 := f (ps3 a) (ps3 b) |}.

Definition _mm_setzero_ps : __m128 :=
  {| ps0 := F32.zero; ps1 := F32.zero; ps2 := F32.zero; ps3 := F32.zero |}.
Definition _mm_set_ps1 (x : float32) : __m128 :=
  {| ps0 := x; ps1 := x; ps2 := x; ps3 := x |}.
Definition _mm_setr_ps (a b c d : float32) : __m128 :=
  {| ps0 := a; ps1 := b; ps2 := c; ps3 := d |}.
Definition _mm_add_ps : __m128 -> __m128 -> __m128 := lanewise F32.add.
Definition _mm_mul_ps : __m128 -> __m128 -> __m128 := lanewise F32.mul.
Definition _mm_unpacklo_ps (a b : __m128) : __m128 :=
  {| ps0 := ps0 a; ps1 := ps0 b; ps2 := ps1 a; ps3 := ps1 b |}.
Definition _mm_unpackhi_ps (a b : __m128) : __m128 :=
  {| ps0 := ps2 a; ps1 := ps2 b; ps2 := ps3 a; ps3 := ps3 b |}.

(** MAXPS and MINPS return their second operand unless the first is
    strictly greater, respectively smaller: so also when one is NaN. *)
Definition _mm_max_ps : __m128 -> __m128 -> __m128 :=
  lanewise (fun a b => if F32.ltb b a then a else b).
Definition _mm_min_ps : __m128 -> __m128 -> __m128 :=
  lanewise (fun a b => if F32.ltb a b then a else b).

#[global] Instance m128_inhabited : Inhabited __m128 := populate _mm_setzero_ps.

(** [(float* )align]: the floats of an array of [__m128] in memory order. *)
Definition floats_of (align : list __m128) : list float32 :=
  concat (map (fun v => [ps0 v; ps1 v; ps2 v; ps3 v]) align).

(** [snd->data[k]] with [data] a pointer to [__m128]. *)
Definition snd_m128 (snd : atomix_sound) (k : Z) : __m128 :=
  let d := snd_data snd in
  let i := Z.to_nat (4 * k) in
  {| ps0 := d !!! i; ps1 := d !!! (i + 1)%nat;
     ps2 := d !!! (i + 2)%nat; ps3 := d !!! (i + 3)%nat |}.

(** The four frames under the cursor as two [__m128] of interleaved stereo. *)
Definition frames_mono (snd : atomix_sound) (cur : Z) : __m128 * __m128 :=
  let sam := snd_m128 snd (Z.shiftr (Z.rem cur (snd_len snd)) 2) in
  (_mm_unpacklo_ps sam sam, _mm_unpackhi_ps sam sam).

Definition frames_stereo (snd : atomix_sound) (cur : Z) : __m128 * __m128 :=
  let off := Z.shiftr (Z.rem cur (snd_len snd)) 1 in
  (snd_m128 snd off, snd_m128 snd (off + 1)).

(** [align[i] = _mm_add_ps(align[i], _mm_mul_ps(x, m))] *)
Definition accum (align : list __m128) (i : nat) (x m : __m128) : list __m128 :=
  <[i := _mm_add_ps (align !!! i) (_mm_mul_ps x m)]> align.

Definition mix_block (align : list __m128) (i : nat) (fr : __m128 * __m128)
    (m : __m128) : list __m128 :=
  accum (accum align i (fst fr) m) (i + 1) (snd fr) m.

(** [_mm_mul_ps(_mm_set_ps1((float)lay->fade/(float)lay->fmax), gmul)] *)
Definition fmul (lay : atmx_layer) (gmul : __m128) : __m128 :=
  _mm_mul_ps
    (_mm_set_ps1 (F32.div (F32.of_int (lay_fade lay)) (F32.of_int (lay_fmax lay))))
    gmul.

Section Kernels.

Variable frames : Z -> __m128 * __m128.
Variable gmul : __m128.

(** "perform fade out" *)
Fixpoint fade_out_loop (n i : nat) (lay : atmx_layer) (cur : Z) (align : list __m128)
    : atmx_layer * Z * list __m128 :=
  match n with
  | O => (lay, cur, align)
  | S n' =>
      if lay_fade lay =? 0 then (lay, cur, align)
      else
        let align := if 0 <=? cur then mix_block align i (frames cur) (fmul lay gmul) else align in
        fade_out_loop n' (i + 2)%nat (set_lay_fade lay (wrap_i32 (lay_fade lay - 4)))
                      (wrap_i32 (cur + 4)) align
  end.

(** "continue playback to end without fade out" *)
Fixpoint play_out_loop (n i : nat) (lay : atmx_layer) (cur : Z) (align : list __m128)
    : atmx_layer * Z * list __m128 :=
  match n with
  | O => (lay, cur, align)
  | S n' =>
      if cur =? lay_end lay then (lay, cur, align)
      else
        let align := if 0 <=? cur then mix_block align i (frames cur) gmul else align in
        play_out_loop n' (i + 2)%nat lay (wrap_i32 (cur + 4)) align
  end.

(** "perform fade in" *)
Fixpoint fade_in_loop (loop : bool) (n i : nat) (lay : atmx_layer) (cur : Z)
    (align : list __m128) : atmx_layer * Z * list __m128 :=
  match n with
  | O => (lay, cur, align)
  | S n' =>
      if (cur =? lay_end lay) && negb loop then (lay, cur, align)
      else
        let cur := if cur =? lay_end lay then lay_start lay else cur in
        let align := if 0 <=? cur then mix_block align i (frames cur) (fmul lay gmul) else align in
        let lay :=
          if lay_fade lay <? lay_fmax lay
          then set_lay_fade lay (wrap_i32 (lay_fade lay + 4)) else lay in
        fade_in_loop loop n' (i + 2)%nat lay (wrap_i32 (cur + 4)) align
  end.

(** "regular playback" *)
Fixpoint play_loop (loop : bool) (n i : nat) (lay : atmx_layer) (cur : Z)
    (align : list __m128) : atmx_layer * Z * list __m128 :=
  match n with
  | O => (lay, cur, align)
  | S n' =>
      if (cur =? lay_end lay) && negb loop then (lay, cur, align)
      else
        let cur := if cur =? lay_end lay then lay_start lay else cur in
        let align := if 0 <=? cur then mix_block align i (frames cur) gmul else align in
        play_loop loop n' (i + 2)%nat lay (wrap_i32 (cur + 4)) align
  end.

Definition swap_cursor (res : atmx_layer * Z * list __m128) (old : Z)
    : atmx_layer * Z * list __m128 :=
  let '(lay, cur, align) := res in
  let '(cell, swapped) := ATMX_CSWAP (lay_cursor lay) old cur in
  (set_lay_cursor lay cell, if swapped then cur else cell, align).

(** The count of iterations of [for (i = 0; i < asize; i += 2)]. *)
Definition blocks (asize : Z) : nat := Z.to_nat ((asize + 1) / 2).

Definition mix_fade (lay : atmx_layer) (cur : Z) (align : list __m128) (asize : Z)
    : atmx_layer * Z * list __m128 :=
  let old := cur in
  swap_cursor
    (if lay_fade lay <? wrap_i32 (lay_end lay - cur)
     then fade_out_loop (blocks asize) 0 lay cur align
     else play_out_loop (blocks asize) 0 lay cur align) old.

Definition mix_play (lay : atmx_layer) (loop : bool) (cur : Z) (align : list __m128)
    (asize : Z) : atmx_layer * Z * list __m128 :=
  let old := cur in
  swap_cursor
    (if lay_fade lay <? lay_fmax lay
     then fade_in_loop loop (blocks asize) 0 lay cur align
     else play_loop loop (blocks asize) 0 lay cur align) old.

End Kernels.

Definition atmxMixFadeMono (lay : atmx_layer) (cur : Z) (gmul : __m128)
    (align : list __m128) (asize : Z) : atmx_layer * Z * list __m128 :=
  mix_fade (frames_mono (lay_sound lay)) gmul lay cur align asize.

Definition atmxMixFadeStereo (lay : atmx_layer) (cur : Z) (gmul : __m128)
    (align : list __m128) (asize : Z) : atmx_layer * Z * list __m128 :=
  mix_fade (frames_stereo (lay_sound lay)) gmul lay cur align asize.

Definition atmxMixPlayMono (lay : atmx_layer) (loop : bool) (cur : Z) (gmul : __m128)
    (align : list __m128) (asize : Z) : atmx_layer * Z * list __m128 :=
  mix_play (frames_mono (lay_sound lay)) gmul lay loop cur align asize.

Definition atmxMixPlayStereo (lay : atmx_layer) (loop : bool) (cur : Z) (gmul : __m128)
    (align : list __m128) (asize : Z) : atmx_layer * Z * list __m128 :=
  mix_play (frames_stereo (lay_sound lay)) gmul lay loop cur align asize.

Definition atmxMixLayer (lay : atmx_layer) (vol : __m128) (align : list __m128)
    (asize : Z) : atmx_layer * list __m128 :=
  let flag := lay_flag lay in
  if flag =? 0 then (lay, align)
  else
    let cur := lay_cursor lay in
    let g := lay_gain lay in
    let gmul := _mm_mul_ps (_mm_setr_ps (f2_l g) (f2_r g) (f2_l g) (f2_r g)) vol in
    if flag <? 3 then
      let '(lay, cur, align) :=
        if (0 <? lay_fade lay) && (cur <? lay_end lay) then
          if snd_cha (lay_sound lay) =? 1
          then atmxMixFadeMono lay cur gmul align asize
          else atmxMixFadeStereo lay cur gmul align asize
        else (lay, cur, align) in
      let lay :=
        if (flag =? ATOMIX_STOP) && ((lay_fade lay =? 0) || (cur =? lay_end lay))
        then set_lay_flag lay 0 else lay in
      (lay, align)
    else
      let '(lay, cur, align) :=
        if snd_cha (lay_sound lay) =? 1
        then atmxMixPlayMono lay (flag =? ATOMIX_LOOP) cur gmul align asize
        else atmxMixPlayStereo lay (flag =? ATOMIX_LOOP) cur gmul align asize in
      let lay :=
        if (flag =? ATOMIX_PLAY) && (cur =? lay_end lay)
        then set_lay_flag lay (fst (ATMX_CSWAP (lay_flag lay) flag 0)) else lay in
      (lay, align).

Fixpoint mix_layers (lays : list atmx_layer) (vol : __m128) (align : list __m128)
    (asize : Z) : list atmx_layer * list __m128 :=
  match lays with
  | [] => ([], align)
  | lay :: lays =>
      let '(lay, align) := atmxMixLayer lay vol align asize in
      let '(lays, align) := mix_layers lays vol align asize in
      (lay :: lays, align)
  end.

(** [_mm_min_ps(_mm_max_ps(v, neg1), pos1)] *)
Definition clip_m128 (v : __m128) : __m128 :=
  _mm_min_ps (_mm_max_ps v (_mm_set_ps1 F32.neg_one)) (_mm_set_ps1 F32.one).

(** [memcpy] of [n] bytes between arrays of 32-bit words on a
    little-endian machine (SSE is x86): whole words while four bytes or
    more remain, then the low [n] bytes of one more word. *)
Definition splice_bytes (n : Z) (src dst : Z) : Z :=
  Z.lor (Z.land src (Z.ones (8 * n))) (Z.ldiff dst (Z.ones (8 * n))).

Fixpoint memcpy_bytes (dst src : list Z) (n : Z) : list Z :=
  match dst, src with
  | d :: dst', s :: src' =>
      if 4 <=? n then s :: memcpy_bytes dst' src' (n - 4)
      else if 0 <? n then splice_bytes n s d :: dst'
      else dst
  | _, _ => dst
  end.

(** [memcpy]/[memmove] of [n] whole floats to the front of [dst]. *)
Definition memcpy_words (dst src : list Z) (n : nat) : list Z :=
  take n src ++ drop n dst.

(** "asize in __m128 (__m128 = 2 frames) and multiple of 2":
    [((rnum + 3) & ~3) >> 1] *)
Definition asize_of (rnum : Z) : Z :=
  Z.shiftr (Z.land (wrap_u32 (rnum + 3)) (wrap_u32 (Z.lnot 3))) 1.

(** The part of [atomixMixerMix] from "asize in __m128" on: [out] is what
    the carry already delivered, [rnum] the frames still to deliver. *)
Definition mix_new (clip : bool) (mix : atomix_mixer) (out : list float32)
    (rnum fnum : Z) : atomix_mixer * list float32 * Z :=
  let asize := asize_of rnum in
  let align := replicate (Z.to_nat asize) _mm_setzero_ps in
  let vol := _mm_set_ps1 (mix_volume mix) in
  let '(lays, align) := mix_layers (mix_lays mix) vol align asize in
  let align := if clip then map clip_m128 align else align in
  let out := out ++ take (Z.to_nat (wrap_u32 (rnum * 2))) (floats_of align) in
  let rem := wrap_u32 (asize * 2 - rnum) in
  let data :=
    if rem =? 0 then mix_data mix
    else memcpy_bytes (mix_data mix)
           (map F32.bits_of (drop (Z.to_nat (wrap_u32 (rnum * 2))) (floats_of align))) rem in
  (set_mix_carry (set_mix_lays mix lays) rem data, out, fnum).

Definition atomixMixerMix (clip : bool) (mix : atomix_mixer) (fnum : Z)
    : atomix_mixer * list float32 * Z :=
  let rnum := fnum in
  let rem := mix_rem mix in
  if rem =? 0 then mix_new clip mix [] rnum fnum
  else if rem <? rnum then
    let out := map F32.of_bits (take (Z.to_nat (wrap_u32 (rem * 2))) (mix_data mix)) in
    mix_new clip (set_mix_carry mix 0 (mix_data mix)) out (wrap_u32 (rnum - rem)) fnum
  else
    let out := map F32.of_bits (take (Z.to_nat (wrap_u32 (rnum * 2))) (mix_data mix)) in
    let rem := wrap_u32 (rem - rnum) in
    let data :=
      if rem =? 0 then mix_data mix
      else memcpy_words (mix_data mix)
             (drop (Z.to_nat (wrap_u32 (rnum * 2))) (mix_data mix))
             (Z.to_nat (wrap_u32 ((3 - rnum) * 2))) in
    (set_mix_carry mix rem data, out, fnum).

End SSE.

(** ** Well-formed states and observations *)

(** A flag holds one of the five states [0] (free) to [ATOMIX_LOOP]. *)
Definition flag_ok (lay : atmx_layer) : bool :=
  (0 <=? lay_flag lay) && (lay_flag lay <=? 4).

(** The layer array has [ATMX_LAYERS] entries, each with a proper flag. *)
Definition mixer_ok (ATOMIX_LBITS : Z) (mix : atomix_mixer) : bool :=
  (length (mix_lays mix) =? Z.to_nat (ATMX_LAYERS ATOMIX_LBITS))%nat
  && forallb flag_ok (mix_lays mix)
  && (0 <=? mix_nid mix) && (mix_nid mix <? 2 ^ 32).

(** What the SSE mixer keeps of its carry: a count of at most three frames,
    and six words of which only the low three bytes of the first were ever
    written. *)
Definition carry_ok (mix : atomix_mixer) : bool :=
  (0 <=? mix_rem mix) && (mix_rem mix <=? 3)
  && match mix_data mix with
     | [b; 0; 0; 0; 0; 0] => (0 <=? b) && (b <? 2 ^ 24)
     | _ => false
     end.

(** The left samples [out[0]], [out[2]], ... of interleaved stereo. *)
Fixpoint left_channel (out : list float32) : list float32 :=
  match out with
  | a :: _ :: out' => a :: left_channel out'
  | _ => []
  end.

(** [-1 <= s <= 1] *)
Definition in_unit_range (s : float32) : bool :=
  F32.leb F32.neg_one s && F32.leb s F32.one.

(** The layer a handle addresses. *)
Definition layer_of (ATOMIX_LBITS : Z) (mix : atomix_mixer) (h : Z) : atmx_layer :=
  mix_lays mix !!! slot ATOMIX_LBITS h.

(** A mono sound of [n] frames, every sample [1.0f]. *)
Definition constant_one (n : nat) : atomix_sound :=
  default null_sound (atomixSoundNew 1 (replicate n F32.one) (Z.of_nat n)).

(** What the mixing kernels leave alone in a layer: everything but the
    cursor and the fade counter. *)
Definition kept (lay lay' : atmx_layer) : Prop :=
  lay_id lay' = lay_id lay /\ lay_flag lay' = lay_flag lay /\
  lay_gain lay' = lay_gain lay /\ lay_snd lay' = lay_snd lay /\
  lay_start lay' = lay_start lay /\ lay_end lay' = lay_end lay /\
  lay_fmax lay' = lay_fmax lay.

(** The mixers a program can hold: made by [atomixMixerNew] and passed
    through the library's functions, with arguments in the range of their C
    types where that matters. *)
Inductive reachable (ATOMIX_LBITS : Z) : atomix_mixer -> Prop :=
  | reach_new vol fade :
      reachable ATOMIX_LBITS (atomixMixerNew ATOMIX_LBITS vol fade)
  | reach_play mix snd flag gain pan :
      reachable ATOMIX_LBITS mix ->
      reachable ATOMIX_LBITS (atomixMixerPlay ATOMIX_LBITS mix snd flag gain pan).1
  | reach_play_adv mix snd flag gain pan start end_ fade :
      reachable ATOMIX_LBITS mix ->
      reachable ATOMIX_LBITS
        (atomixMixerPlayAdv ATOMIX_LBITS mix snd flag gain pan start end_ fade).1
  | reach_set_gain_pan mix id gain pan :
      reachable ATOMIX_LBITS mix ->
      reachable ATOMIX_LBITS (atomixMixerSetGainPan ATOMIX_LBITS mix id gain pan).1
  | reach_set_cursor mix id cursor :
      reachable ATOMIX_LBITS mix ->
      reachable ATOMIX_LBITS (atomixMixerSetCursor ATOMIX_LBITS mix id cursor).1
  | reach_set_state mix id flag :
      reachable ATOMIX_LBITS mix ->
      reachable ATOMIX_LBITS (atomixMixerSetState ATOMIX_LBITS mix id flag).1
  | reach_volume mix vol :
      reachable ATOMIX_LBITS mix ->
      reachable ATOMIX_LBITS (atomixMixerVolume mix vol)
  | reach_fade mix fade :
      reachable ATOMIX_LBITS mix ->
      reachable ATOMIX_LBITS (atomixMixerFade mix fade)
  | reach_stop_all mix :
      reachable ATOMIX_LBITS mix ->
      reachable ATOMIX_LBITS (atomixMixerStopAll mix)
  | reach_halt_all mix :
      reachable ATOMIX_LBITS mix ->
      reachable ATOMIX_LBITS (atomixMixerHaltAll mix)
  | reach_play_all mix :
      reachable ATOMIX_LBITS mix ->
      reachable ATOMIX_LBITS (atomixMixerPlayAll mix)
  | reach_mix_scalar clip mix fnum :
      0 <= fnum < 2 ^ 32 ->
      reachable ATOMIX_LBITS mix ->
      reachable ATOMIX_LBITS (Scalar.atomixMixerMix clip mix fnum).1.1
  | reach_mix_sse clip mix fnum :
      0 <= fnum < 2 ^ 32 ->
      reachable ATOMIX_LBITS mix ->
      reachable ATOMIX_LBITS (SSE.atomixMixerMix clip mix fnum).1.1.

(** ** Scenarios

    The default build has [ATOMIX_LBITS = 8], that is 256 layers. *)

Definition fresh_mixer : atomix_mixer := atomixMixerNew 8 F32.one 0.

(** [atomixMixerPlayAdv] over the whole of [snd] with its own fade length. *)
Definition playing (mix : atomix_mixer) (snd : atomix_sound) (flag : Z)
    (gain pan : float32) (fade : Z) : atomix_mixer * Z :=
  atomixMixerPlayAdv 8 mix snd flag gain pan 0 (snd_len snd) fade.

(** One layer of ones started halted with fade 4; its handle is 256. *)
Definition halted : atomix_mixer * Z :=
  playing fresh_mixer (constant_one 8) ATOMIX_HALT F32.one F32.zero 4.

(** [k/n] as a float *)
Definition ratio (k n : Z) : float32 := F32.div (F32.of_int k) (F32.of_int n).

(** A mono sound of eight frames rising from 1/8 to 1. *)
Definition ramp_sound : atomix_sound :=
  default null_sound
    (atomixSoundNew 1 (map (fun k => ratio k 8) [1; 2; 3; 4; 5; 6; 7; 8]) 8).

(** A stereo sound of four frames of ones, and the mono sound 1, 2, 3, 4. *)
Definition stereo_ones : atomix_sound :=
  default null_sound (atomixSoundNew 2 (replicate 8 F32.one) 4).

Definition count_sound : atomix_sound :=
  default null_sound (atomixSoundNew 1 (map F32.of_int [1; 2; 3; 4]) 4).

(** A mono sound of four frames with one silent frame. *)
Definition gap_sound : atomix_sound :=
  default null_sound (atomixSoundNew 1 [F32.one; F32.zero; F32.one; F32.one] 4).

(** The largest finite float, [FLT_MAX]. *)
Definition FLT_MAX : float32 := S754_finite false 16777215 104.

(** One layer playing [gap_sound] at gain [FLT_MAX] under volume 4. *)
Definition loud_mixer : atomix_mixer :=
  (playing (atomixMixerNew 8 (F32.of_int 4) 0) gap_sound ATOMIX_PLAY FLT_MAX F32.zero 0).1.

(** A build with [ATOMIX_LBITS = 2] whose four layers are all looping. *)
Definition full_mixer : atomix_mixer :=
  Nat.iter 4
    (fun mix => (atomixMixerPlay 2 mix (constant_one 4) ATOMIX_LOOP F32.one F32.zero).1)
    (atomixMixerNew 2 F32.one 0).

(** [full_mixer] with the id counter at [2^32 - 4], where a program gets
    by calling [atomixMixerPlay] in vain another [2^30 - 2] times
    ([wrapping_mixer_reachable]). *)
Definition wrapping_mixer : atomix_mixer := set_mix_nid full_mixer (2 ^ 32 - 4).

(** [loud_mixer] after a call for one frame in the SSE build with
    clipping: three frames wait in the carry. *)
Definition loud_carry : atomix_mixer := (SSE.atomixMixerMix true loud_mixer 1).1.1.

(** ** Further observations

    What the later theorems about the controller and the mixing thread are
    stated with. *)

(** What a mix call may do to a layer: move the cursor and the fade
    counter, and free a layer that was stopped or playing; a free layer is
    left as it is. *)
Definition mixed (lay lay' : atmx_layer) : Prop :=
  lay_id lay' = lay_id lay /\ lay_gain lay' = lay_gain lay /\
  lay_snd lay' = lay_snd lay /\ lay_start lay' = lay_start lay /\
  lay_end lay' = lay_end lay /\ lay_fmax lay' = lay_fmax lay /\
  (lay_flag lay' = lay_flag lay \/
   lay_flag lay' = 0 /\ (lay_flag lay = ATOMIX_STOP \/ lay_flag lay = ATOMIX_PLAY)) /\
  (lay_flag lay = 0 -> lay' = lay).

(** The numbers of an occupied layer in the ranges the library keeps them
    in: a window of at least one frame inside [int32_t] that starts at a
    multiple of four, the cursor inside the window, the fade counter
    between 0 and its maximum.  A free layer holds whatever was left. *)
Definition window_ok (lay : atmx_layer) : bool :=
  (- 2 ^ 31 <=? lay_start lay) && (lay_start lay mod 4 =? 0)
  && (lay_start lay <? lay_end lay)
  && (lay_start lay <=? lay_cursor lay) && (lay_cursor lay <=? lay_end lay)
  && (lay_end lay <? 2 ^ 31)
  && (0 <=? lay_fade lay) && (lay_fade lay <=? lay_fmax lay)
  && (lay_fmax lay <? 2 ^ 31).

Definition layer_ok (lay : atmx_layer) : bool :=
  (lay_flag lay =? 0) || window_ok lay.

(** What the SSE build needs on top: cursor, end and fade counters at
    multiples of four, so that each block of four frames lies inside the
    window and the fade counter meets 0 and its maximum exactly. *)
Definition window_aligned (lay : atmx_layer) : bool :=
  (lay_cursor lay mod 4 =? 0) && (lay_end lay mod 4 =? 0)
  && (lay_fade lay mod 4 =? 0) && (lay_fmax lay mod 4 =? 0).

Definition layer_aligned (lay : atmx_layer) : bool :=
  (lay_flag lay =? 0) || window_aligned lay.

(** The mixers of a program that passes arguments in the range of their C
    types and is built with or without SSE. *)
Inductive runs (ATOMIX_LBITS : Z) (sse : bool) : atomix_mixer -> Prop :=
  | run_new vol fade :
      - 2 ^ 31 <= fade < 2 ^ 31 ->
      runs ATOMIX_LBITS sse (atomixMixerNew ATOMIX_LBITS vol fade)
  | run_play mix snd flag gain pan :
      - 2 ^ 31 <= snd_len snd < 2 ^ 31 ->
      runs ATOMIX_LBITS sse mix ->
      runs ATOMIX_LBITS sse (atomixMixerPlay ATOMIX_LBITS mix snd flag gain pan).1
  | run_play_adv mix snd flag gain pan start end_ fade :
      - 2 ^ 31 <= start < 2 ^ 31 -> - 2 ^ 31 <= end_ < 2 ^ 31 ->
      - 2 ^ 31 <= fade < 2 ^ 31 ->
      runs ATOMIX_LBITS sse mix ->
      runs ATOMIX_LBITS sse
        (atomixMixerPlayAdv ATOMIX_LBITS mix snd flag gain pan start end_ fade).1
  | run_set_gain_pan mix id gain pan :
      runs ATOMIX_LBITS sse mix ->
      runs ATOMIX_LBITS sse (atomixMixerSetGainPan ATOMIX_LBITS mix id gain pan).1
  | run_set_cursor mix id cursor :
      - 2 ^ 31 <= cursor < 2 ^ 31 ->
      runs ATOMIX_LBITS sse mix ->
      runs ATOMIX_LBITS sse (atomixMixerSetCursor ATOMIX_LBITS mix id cursor).1
  | run_set_state mix id flag :
      runs ATOMIX_LBITS sse mix ->
      runs ATOMIX_LBITS sse (atomixMixerSetState ATOMIX_LBITS mix id flag).1
  | run_volume mix vol :
      runs ATOMIX_LBITS sse mix ->
      runs ATOMIX_LBITS sse (atomixMixerVolume mix vol)
  | run_fade mix fade :
      - 2 ^ 31 <= fade < 2 ^ 31 ->
      runs ATOMIX_LBITS sse mix ->
      runs ATOMIX_LBITS sse (atomixMixerFade mix fade)
  | run_stop_all mix :
      runs ATOMIX_LBITS sse mix ->
      runs ATOMIX_LBITS sse (atomixMixerStopAll mix)
  | run_halt_all mix :
      runs ATOMIX_LBITS sse mix ->
      runs ATOMIX_LBITS sse (atomixMixerHaltAll mix)
  | run_play_all mix :
      runs ATOMIX_LBITS sse mix ->
      runs ATOMIX_LBITS sse (atomixMixerPlayAll mix)
  | run_mix clip mix fnum :
      0 <= fnum < 2 ^ 32 ->
      runs ATOMIX_LBITS sse mix ->
      runs ATOMIX_LBITS sse
        (if sse then SSE.atomixMixerMix clip mix fnum
         else Scalar.atomixMixerMix clip mix fnum).1.1.

(** Every layer is free. *)
Definition all_free (mix : atomix_mixer) : bool :=
  forallb (fun lay => lay_flag lay =? 0) (mix_lays mix).

(** Where the cursor of a looping layer stands after [n] frames. *)
Definition loop_cursor (start end_ cur n : Z) : Z :=
  if n =? 0 then cur else start + (cur - start + n - 1) mod (end_ - start) + 1.

(** A layer as the given build keeps it. *)
Definition layer_fits (sse : bool) (lay : atmx_layer) : bool :=
  layer_ok lay && (negb sse || layer_aligned lay).

(** The default fade is a multiple of four in [0, 2^31), and every layer
    fits the build. *)
Definition mixer_fits (sse : bool) (mix : atomix_mixer) : bool :=
  (0 <=? mix_fade mix) && (mix_fade mix <? 2 ^ 31) && (mix_fade mix mod 4 =? 0)
  && forallb (layer_fits sse) (mix_lays mix).

(** A build with [ATOMIX_LBITS = 2]: four layers, all free. *)
Definition small_mixer : atomix_mixer := atomixMixerNew 2 F32.one 0.

(** Eight ones playing in it; the first handle is 4. *)
Definition small_playing : atomix_mixer * Z :=
  atomixMixerPlay 2 small_mixer (constant_one 8) ATOMIX_PLAY F32.one F32.zero.

(** The same sound started halted with a fade of four frames, then set to
    play: the layer fades in. *)
Definition small_fading : atomix_mixer :=
  (atomixMixerSetState 2
     (atomixMixerPlayAdv 2 small_mixer (constant_one 8) ATOMIX_HALT F32.one F32.zero
        0 8 4).1 4 ATOMIX_PLAY).1.

(** The same sound started playing with a fade of four frames, then
    stopped: the layer fades out. *)
Definition small_stopping : atomix_mixer :=
  (atomixMixerSetState 2
     (atomixMixerPlayAdv 2 small_mixer (constant_one 8) ATOMIX_PLAY F32.one F32.zero
        0 8 4).1 4 ATOMIX_STOP).1.

(** The same sound with eight frames of silence before it. *)
Definition small_delayed : atomix_mixer :=
  (atomixMixerPlayAdv 2 small_mixer (constant_one 8) ATOMIX_PLAY F32.one F32.zero
     (-8) 8 0).1.

(** A layer that is not fading: free, stopped or halted with the fade
    counter at 0, or playing or looping at its full fade a sound whose
    length is a multiple of four, as [atomixSoundNew] makes them. *)
Definition plays_steadily (lay : atmx_layer) : bool :=
  (lay_flag lay =? 0)
  || ((lay_flag lay <? 3) && (lay_fade lay =? 0))
  || ((3 <=? lay_flag lay) && (lay_fmax lay <=? lay_fade lay)
      && (0 <? snd_len (lay_sound lay)) && (snd_len (lay_sound lay) mod 4 =? 0)).

(** * Properties *)

(** ** Machine integers and the layer index *)

Lemma wrap_u32_range z : 0 <= wrap_u32 z < 2 ^ 32.
Proof. unfold wrap_u32. apply Z.mod_pos_bound. lia. Qed.

Lemma wrap_u32_small z : 0 <= z < 2 ^ 32 -> wrap_u32 z = z.
Proof. intros H. unfold wrap_u32. apply Z.mod_small. exact H. Qed.

Lemma wrap_u32_add_l a b : wrap_u32 (wrap_u32 a + b) = wrap_u32 (a + b).
Proof. unfold wrap_u32. apply Zplus_mod_idemp_l. Qed.

Lemma wrap_i32_small z : - 2 ^ 31 <= z < 2 ^ 31 -> wrap_i32 z = z.
Proof. intros H. unfold wrap_i32. rewrite Z.mod_small; lia. Qed.

Section Layers.

Variable LBITS : Z.
Hypothesis LBITS_range : 0 <= LBITS <= 30.

Abbreviation L := (ATMX_LAYERS LBITS).

Lemma ATMX_LAYERS_pow2 : L = 2 ^ LBITS.
Proof. unfold ATMX_LAYERS. apply Z.shiftl_1_l. Qed.

Lemma ATMX_LAYERS_pos : 0 < L.
Proof. rewrite ATMX_LAYERS_pow2. apply Z.pow_pos_nonneg; lia. Qed.

Lemma ATMX_LAYERS_bound : L <= 2 ^ 30.
Proof. rewrite ATMX_LAYERS_pow2. apply Z.pow_le_mono_r; lia. Qed.

Lemma ATMX_LAYERS_divides : 2 ^ 32 = L * 2 ^ (32 - LBITS).
Proof. rewrite ATMX_LAYERS_pow2, <- Z.pow_add_r by lia. f_equal. lia. Qed.

Lemma land_LMASK id : Z.land id (ATMX_LMASK LBITS) = id mod L.
Proof.
  unfold ATMX_LMASK. rewrite ATMX_LAYERS_pow2.
  rewrite <- Z.land_ones by lia. f_equal.
  rewrite Z.ones_equiv. lia.
Qed.

Lemma slot_spec id : slot LBITS id = Z.to_nat (id mod L).
Proof. unfold slot. now rewrite land_LMASK. Qed.

Lemma slot_lt id : (slot LBITS id < Z.to_nat L)%nat.
Proof.
  rewrite slot_spec. pose proof (Z.mod_pos_bound id L ATMX_LAYERS_pos). lia.
Qed.

Lemma slot_LAYERS : slot LBITS L = slot LBITS 0.
Proof.
  rewrite !slot_spec. rewrite Z.mod_same by (pose proof ATMX_LAYERS_pos; lia).
  now rewrite Z.mod_0_l by (pose proof ATMX_LAYERS_pos; lia).
Qed.

Lemma slot_wrap id : slot LBITS (wrap_u32 id) = slot LBITS id.
Proof.
  rewrite !slot_spec. unfold wrap_u32. f_equal.
  apply Z.mod_mod_divide.
  exists (2 ^ (32 - LBITS)). rewrite ATMX_LAYERS_divides. lia.
Qed.

(** ** Well-formed mixers *)

Lemma mixer_ok_length mix :
  mixer_ok LBITS mix = true -> length (mix_lays mix) = Z.to_nat L.
Proof.
  unfold mixer_ok. rewrite !andb_true_iff. intros [[[H _] _] _].
  now apply Nat.eqb_eq in H.
Qed.

Lemma mixer_ok_nid mix :
  mixer_ok LBITS mix = true -> 0 <= mix_nid mix < 2 ^ 32.
Proof.
  unfold mixer_ok. rewrite !andb_true_iff. intros [[_ H1] H2]. lia.
Qed.

Lemma mixer_ok_flag mix i :
  mixer_ok LBITS mix = true -> 0 <= lay_flag (mix_lays mix !!! i) <= 4.
Proof.
  unfold mixer_ok. rewrite !andb_true_iff. intros [[[_ H] _] _].
  rewrite forallb_forall in H.
  destruct (mix_lays mix !! i) as [lay|] eqn:E.
  - rewrite (list_lookup_total_correct _ _ _ E).
    assert (Hin : In lay (mix_lays mix)).
    { apply list_elem_of_In. eapply list_elem_of_lookup_2. exact E. }
    apply H in Hin. unfold flag_ok in Hin. lia.
  - rewrite list_lookup_total_alt, E. simpl. lia.
Qed.

Lemma mixer_ok_intro mix :
  length (mix_lays mix) = Z.to_nat L ->
  (forall lay, In lay (mix_lays mix) -> 0 <= lay_flag lay <= 4) ->
  0 <= mix_nid mix < 2 ^ 32 ->
  mixer_ok LBITS mix = true.
Proof.
  intros Hlen Hflag Hnid. unfold mixer_ok. rewrite !andb_true_iff.
  repeat split; try lia.
  - now apply Nat.eqb_eq.
  - apply forallb_forall. intros lay Hin. apply Hflag in Hin.
    unfold flag_ok. lia.
Qed.

Lemma atomixMixerNew_ok vol fade : mixer_ok LBITS (atomixMixerNew LBITS vol fade) = true.
Proof.
  apply mixer_ok_intro; simpl.
  - apply length_replicate.
  - intros lay Hin. apply list_elem_of_In, elem_of_replicate in Hin.
    destruct Hin as [-> _]. simpl. lia.
  - lia.
Qed.

(** ** Allocation: the probing loop *)

(** A probe that hits only occupied layers consumes one id per attempt. *)
Lemma play_probe_full n : forall mix snd flag gain pan start end_ fade,
  (forall id, lay_flag (mix_lays mix !!! slot LBITS id) <> 0) ->
  play_probe LBITS n mix snd flag gain pan start end_ fade
  = (set_mix_nid mix (Nat.iter n (fun id => wrap_u32 (id + 1)) (mix_nid mix)), 0).
Proof.
  induction n as [|n IH]; intros mix snd flag gain pan start end_ fade Hfull.
  - simpl. now destruct mix.
  - cbn [play_probe]. simpl mix_lays.
    destruct (Z.eqb_spec (lay_flag (mix_lays mix !!! slot LBITS (mix_nid mix))) 0) as [E|_].
    + now apply Hfull in E.
    + rewrite IH by exact Hfull. rewrite Nat.iter_succ_r. reflexivity.
Qed.

Lemma iter_wrap_succ n : forall id,
  0 < Z.of_nat n ->
  Nat.iter n (fun id => wrap_u32 (id + 1)) id = wrap_u32 (id + Z.of_nat n).
Proof.
  induction n as [|n IH]; intros id Hn; [lia|].
  rewrite Nat.iter_succ_r. destruct n as [|n].
  - simpl. f_equal.
  - rewrite IH by lia. rewrite wrap_u32_add_l. f_equal. lia.
Qed.

(** A probe that returns a handle found its layer free and wrote only it. *)
Lemma play_probe_alloc n : forall mix snd flag gain pan start end_ fade mix' h,
  play_probe LBITS n mix snd flag gain pan start end_ fade = (mix', h) ->
  h <> 0 ->
  exists id k,
    (k < n)%nat /\
    id = Nat.iter k (fun id => wrap_u32 (id + 1)) (mix_nid mix) /\
    lay_flag (mix_lays mix !!! slot LBITS id) = 0 /\
    h = (if id =? 0 then L else id) /\
    slot LBITS h = slot LBITS id /\
    mix' = set_mix_lays (set_mix_nid mix (wrap_u32 (id + 1)))
             (<[slot LBITS h := new_layer h snd flag gain pan start end_ fade]> (mix_lays mix)).
Proof.
  induction n as [|n IH]; intros mix snd flag gain pan start end_ fade mix' h Hrun Hh.
  - simpl in Hrun. congruence.
  - cbn [play_probe] in Hrun. simpl mix_lays in Hrun.
    destruct (Z.eqb_spec (lay_flag (mix_lays mix !!! slot LBITS (mix_nid mix))) 0) as [E|_].
    + injection Hrun as <- <-.
      assert (Hslot : slot LBITS (if mix_nid mix =? 0 then L else mix_nid mix)
                      = slot LBITS (mix_nid mix)).
      { destruct (Z.eqb_spec (mix_nid mix) 0) as [->|_]; [apply slot_LAYERS | reflexivity]. }
      exists (mix_nid mix), 0%nat. repeat split; try lia; try assumption.
      now rewrite Hslot.
    + apply IH in Hrun; [|exact Hh].
      destruct Hrun as (id & k & Hk & Hid & Hfree & Hh' & Hslot & Hmix).
      exists id, (S k). rewrite Nat.iter_succ_r.
      repeat split; try lia; assumption.
Qed.

Lemma layer_of_alloc (lays : list atmx_layer) mix h lay :
  length lays = Z.to_nat L ->
  layer_of LBITS (set_mix_lays mix (<[slot LBITS h := lay]> lays)) h = lay.
Proof.
  intros Hlen. unfold layer_of. simpl.
  apply list_lookup_total_insert_eq. rewrite Hlen. apply slot_lt.
Qed.

Lemma map_lookup_total (f : atmx_layer -> atmx_layer) (lays : list atmx_layer) i :
  (i < length lays)%nat -> map f lays !!! i = f (lays !!! i).
Proof.
  revert i. induction lays as [|lay lays IH]; intros i Hi; simpl in Hi; [lia|].
  destruct i as [|i]; [reflexivity|]. simpl. apply IH. lia.
Qed.

Lemma set_mix_lays_id mix : set_mix_lays mix (mix_lays mix) = mix.
Proof. now destruct mix. Qed.

Lemma set_lay_flag_id lay : set_lay_flag lay (lay_flag lay) = lay.
Proof. now destruct lay. Qed.

Lemma insert_lookup_total_id (lays : list atmx_layer) i :
  <[i := lays !!! i]> lays = lays.
Proof.
  destruct (lays !! i) as [lay|] eqn:E.
  - rewrite (list_lookup_total_correct _ _ _ E). now apply list_insert_id.
  - apply list_insert_ge. now apply lookup_ge_None.
Qed.

(** What a successful allocation leaves behind. *)
Lemma play_adv_alloc mix snd flag gain pan start end_ fade :
  mixer_ok LBITS mix = true ->
  let r := atomixMixerPlayAdv LBITS mix snd flag gain pan start end_ fade in
  r.2 <> 0 ->
  1 <= flag <= 4 /\
  layer_of LBITS r.1 r.2 = new_layer r.2 snd flag gain pan start end_ fade /\
  exists id,
    lay_flag (layer_of LBITS mix id) = 0 /\
    mix_nid r.1 = wrap_u32 (id + 1) /\
    r.2 = (if id =? 0 then L else id) /\
    slot LBITS r.2 = slot LBITS id /\
    mix_lays r.1 = <[slot LBITS id := new_layer r.2 snd flag gain pan start end_ fade]> (mix_lays mix).
Proof.
  intros Hok r Hh. subst r. unfold atomixMixerPlayAdv in *.
  destruct ((flag <? 1) || (4 <? flag)) eqn:Eflag; [simpl in Hh; lia|].
  destruct ((wrap_i32 (end_ - start) <? 4) || (end_ <? 4)) eqn:Earg; [simpl in Hh; lia|].
  apply orb_false_iff in Eflag as [E1 E2].
  destruct (play_probe LBITS (Z.to_nat L) mix snd flag gain pan start end_ fade)
    as [mix' h] eqn:Hrun.
  simpl in Hh |- *.
  destruct (play_probe_alloc _ _ _ _ _ _ _ _ _ _ _ Hrun Hh)
    as (id & k & _ & _ & Hfree & Hh' & Hslot & ->).
  split; [lia|]. split.
  - apply layer_of_alloc. now apply mixer_ok_length.
  - exists id. simpl. rewrite Hslot. repeat split; assumption.
Qed.

(** ** Allocation: handles, rejected arguments, exhaustion *)

(** C6: a successful [atomixMixerPlayAdv] or [atomixMixerPlay] returns a
    nonzero handle [h]; right after the call the layer at index
    [h & ATMX_LMASK] has [id = h] and the requested flag.  The handle is the
    value [id] of the counter at the successful probe, except that
    [ATMX_LAYERS] stands in for [id = 0]; both address the same layer, and
    [ATMX_LAYERS] addresses index 0. *)
Theorem C6_play_handle_addresses_its_layer mix snd flag gain pan start end_ fade :
  mixer_ok LBITS mix = true ->
  (let r := atomixMixerPlayAdv LBITS mix snd flag gain pan start end_ fade in
   r.2 <> 0 ->
   lay_id (mix_lays r.1 !!! Z.to_nat (Z.land r.2 (ATMX_LMASK LBITS))) = r.2 /\
   lay_flag (mix_lays r.1 !!! Z.to_nat (Z.land r.2 (ATMX_LMASK LBITS))) = flag /\
   exists id,
     mix_nid r.1 = wrap_u32 (id + 1) /\
     r.2 = (if id =? 0 then L else id) /\
     Z.land r.2 (ATMX_LMASK LBITS) = Z.land id (ATMX_LMASK LBITS)) /\
  (let r := atomixMixerPlay LBITS mix snd flag gain pan in
   r.2 <> 0 ->
   lay_id (mix_lays r.1 !!! Z.to_nat (Z.land r.2 (ATMX_LMASK LBITS))) = r.2 /\
   lay_flag (mix_lays r.1 !!! Z.to_nat (Z.land r.2 (ATMX_LMASK LBITS))) = flag) /\
  Z.land L (ATMX_LMASK LBITS) = 0.
Proof.
  intros Hok.
  assert (Hland : forall a b, slot LBITS a = slot LBITS b ->
                  Z.land a (ATMX_LMASK LBITS) = Z.land b (ATMX_LMASK LBITS)).
  { intros a b. unfold slot. rewrite !land_LMASK.
    pose proof (Z.mod_pos_bound a L ATMX_LAYERS_pos).
    pose proof (Z.mod_pos_bound b L ATMX_LAYERS_pos). lia. }
  split; [|split].
  - intros r Hh.
    destruct (play_adv_alloc _ snd flag gain pan start end_ fade Hok Hh)
      as (_ & Hlay & id & _ & Hnid & Hid & Hslot & _).
    fold r in Hlay, Hnid, Hid, Hslot. unfold layer_of, slot in Hlay.
    rewrite Hlay. simpl. repeat split.
    exists id. repeat split; try assumption. now apply Hland.
  - intros r Hh. unfold atomixMixerPlay in r.
    destruct (play_adv_alloc _ snd flag gain pan 0 (snd_len snd) (mix_fade mix) Hok Hh)
      as (_ & Hlay & _).
    fold r in Hlay. unfold layer_of, slot in Hlay.
    rewrite Hlay. simpl. now split.
  - rewrite land_LMASK. apply Z.mod_same. pose proof ATMX_LAYERS_pos. lia.
Qed.

(** C8: [atomixMixerPlayAdv] returns 0 and leaves the mixer as it was,
    [nid] included, whenever the flag is outside 1..4, or [end - start < 4],
    or [end < 4]; the probing loop is not entered. *)
Theorem C8_play_adv_rejects_bad_arguments mix snd flag gain pan start end_ fade :
  - 2 ^ 31 <= start < 2 ^ 31 ->
  - 2 ^ 31 <= end_ < 2 ^ 31 ->
  flag < 1 \/ 4 < flag \/ end_ - start < 4 \/ end_ < 4 ->
  atomixMixerPlayAdv LBITS mix snd flag gain pan start end_ fade = (mix, 0).
Proof.
  intros Hstart Hend Hbad. unfold atomixMixerPlayAdv.
  destruct ((flag <? 1) || (4 <? flag)) eqn:Eflag; [reflexivity|].
  apply orb_false_iff in Eflag as [E1 E2].
  destruct ((wrap_i32 (end_ - start) <? 4) || (end_ <? 4)) eqn:Earg; [reflexivity|].
  apply orb_false_iff in Earg as [E3 E4]. exfalso.
  assert (H4 : 4 <= end_) by lia.
  assert (Hdiff : end_ - start < 4) by lia.
  rewrite wrap_i32_small in E3 by lia. lia.
Qed.

(** C10: with valid arguments and no free layer, [atomixMixerPlayAdv]
    returns 0, has written no layer, and leaves [nid] increased by
    [ATMX_LAYERS] in 32-bit unsigned arithmetic, so [nid] modulo
    [ATMX_LAYERS], the index the next allocation probes first, is the same. *)
Theorem C10_play_adv_without_free_layer mix snd flag gain pan start end_ fade :
  mixer_ok LBITS mix = true ->
  1 <= flag <= 4 ->
  4 <= wrap_i32 (end_ - start) ->
  4 <= end_ ->
  forallb (fun lay => negb (lay_flag lay =? 0)) (mix_lays mix) = true ->
  let r := atomixMixerPlayAdv LBITS mix snd flag gain pan start end_ fade in
  r.2 = 0 /\
  r.1 = set_mix_nid mix (wrap_u32 (mix_nid mix + L)) /\
  mix_lays r.1 = mix_lays mix /\
  mix_nid r.1 mod L = mix_nid mix mod L /\
  (mix_nid mix + L < 2 ^ 32 -> mix_nid r.1 = mix_nid mix + L).
Proof.
  intros Hok Hflag Hdiff Hend Hfull r.
  assert (Hprobe : forall id, lay_flag (mix_lays mix !!! slot LBITS id) <> 0).
  { intros id. rewrite forallb_forall in Hfull.
    pose proof (slot_lt id) as Hlt. rewrite <- (mixer_ok_length _ Hok) in Hlt.
    destruct (lookup_lt_is_Some_2 _ _ Hlt) as [lay E].
    rewrite (list_lookup_total_correct _ _ _ E).
    assert (Hin : In lay (mix_lays mix)).
    { apply list_elem_of_In. eapply list_elem_of_lookup_2. exact E. }
    apply Hfull in Hin. lia. }
  assert (Hr : r = (set_mix_nid mix (wrap_u32 (mix_nid mix + L)), 0)).
  { subst r. unfold atomixMixerPlayAdv.
    replace ((flag <? 1) || (4 <? flag)) with false by lia.
    replace ((wrap_i32 (end_ - start) <? 4) || (end_ <? 4)) with false by lia.
    rewrite play_probe_full by exact Hprobe.
    rewrite iter_wrap_succ by (pose proof ATMX_LAYERS_pos; lia).
    rewrite Z2Nat.id by (pose proof ATMX_LAYERS_pos; lia). reflexivity. }
  rewrite Hr. simpl. pose proof (mixer_ok_nid _ Hok) as Hnid.
  repeat split.
  - unfold wrap_u32. rewrite Z.mod_mod_divide
      by (exists (2 ^ (32 - LBITS)); rewrite ATMX_LAYERS_divides; lia).
    rewrite <- (Z.mul_1_l L) at 1. apply Z.mod_add. pose proof ATMX_LAYERS_pos. lia.
  - intros Hfit. apply wrap_u32_small. pose proof ATMX_LAYERS_pos. lia.
Qed.

(** The fade counter a successful allocation starts with. *)
Lemma play_adv_fade_init mix snd flag gain pan start end_ fade :
  mixer_ok LBITS mix = true ->
  let r := atomixMixerPlayAdv LBITS mix snd flag gain pan start end_ fade in
  r.2 <> 0 ->
  let lay := layer_of LBITS r.1 r.2 in
  lay_fmax lay = (if fade <? 0 then 0 else trunc4 fade) /\
  (flag = ATOMIX_STOP \/ flag = ATOMIX_HALT -> lay_fade lay = 0) /\
  (flag = ATOMIX_PLAY \/ flag = ATOMIX_LOOP -> lay_fade lay = lay_fmax lay).
Proof.
  intros Hok r Hh lay.
  destruct (play_adv_alloc _ snd flag gain pan start end_ fade Hok Hh) as (_ & Hlay & _).
  subst lay. fold r in Hlay. rewrite Hlay. unfold ATOMIX_STOP, ATOMIX_HALT, ATOMIX_PLAY, ATOMIX_LOOP.
  simpl. repeat split.
  - intros [-> | ->]; reflexivity.
  - intros [-> | ->]; reflexivity.
Qed.

(** ** Handle-addressed controls *)

(** A handle passes validation only on a layer that is halted, playing or
    looping: [(id == lay->id) && (flag > 1)]. *)
Lemma set_state_rejected mix id flag :
  lay_flag (layer_of LBITS mix id) <= 1 ->
  atomixMixerSetState LBITS mix id flag = (mix, 0).
Proof.
  intros Hflag. unfold atomixMixerSetState, layer_of in *.
  destruct ((flag <? 1) || (4 <? flag)); [reflexivity|].
  replace (1 <? lay_flag (mix_lays mix !!! slot LBITS id)) with false by lia.
  now rewrite andb_false_r.
Qed.

Lemma set_gain_pan_rejected mix id gain pan :
  lay_flag (layer_of LBITS mix id) <= 1 ->
  atomixMixerSetGainPan LBITS mix id gain pan = (mix, 0).
Proof.
  intros Hflag. unfold atomixMixerSetGainPan, layer_of in *.
  replace (1 <? lay_flag (mix_lays mix !!! slot LBITS id)) with false by lia.
  now rewrite andb_false_r.
Qed.

Lemma set_cursor_rejected mix id cursor :
  lay_flag (layer_of LBITS mix id) <= 1 ->
  atomixMixerSetCursor LBITS mix id cursor = (mix, 0).
Proof.
  intros Hflag. unfold atomixMixerSetCursor, layer_of in *.
  replace (1 <? lay_flag (mix_lays mix !!! slot LBITS id)) with false by lia.
  now rewrite andb_false_r.
Qed.

(** [atomixMixerSetState] either leaves the mixer alone or rewrites the
    flag of the addressed layer, from a value above 1 to the flag asked for. *)
Lemma set_state_cases mix id flag :
  let r := atomixMixerSetState LBITS mix id flag in
  r = (mix, 0) \/
  (1 <= flag <= 4 /\ 1 < lay_flag (layer_of LBITS mix id) /\
   id = lay_id (layer_of LBITS mix id) /\ r.2 = 1 /\
   r.1 = set_mix_lays mix
           (<[slot LBITS id := set_lay_flag (layer_of LBITS mix id) flag]> (mix_lays mix))).
Proof.
  intros r. subst r. unfold atomixMixerSetState, layer_of, ATMX_CSWAP.
  destruct ((flag <? 1) || (4 <? flag)) eqn:Eflag; [now left|].
  apply orb_false_iff in Eflag as [E1 E2].
  set (lay := mix_lays mix !!! slot LBITS id).
  destruct (Z.eqb_spec id (lay_id lay)) as [Eid|_]; [|now left].
  destruct (Z.ltb_spec 1 (lay_flag lay)) as [Hgt|_]; [|now left].
  simpl. right. rewrite Z.eqb_refl.
  destruct (Z.eqb_spec (lay_flag lay) flag) as [Esame|_].
  - repeat split; try lia; try assumption. simpl.
    rewrite <- Esame, set_lay_flag_id. subst lay.
    now rewrite insert_lookup_total_id, set_mix_lays_id.
  - repeat split; try lia; assumption.
Qed.

(** C3, as the code has it: for every handle whose layer carries that id
    and is halted, playing or looping, [atomixMixerSetState] succeeds for
    each of the four target states and changes nothing but that layer's
    flag; on a layer that is stopped or free it fails and writes nothing;
    and no call moves any layer to or from the free state. *)
Theorem C3_set_state_transitions mix :
  mixer_ok LBITS mix = true ->
  (forall id flag,
     lay_id (layer_of LBITS mix id) = id ->
     ATOMIX_HALT <= lay_flag (layer_of LBITS mix id) <= ATOMIX_LOOP ->
     ATOMIX_STOP <= flag <= ATOMIX_LOOP ->
     let r := atomixMixerSetState LBITS mix id flag in
     r.2 = 1 /\
     lay_flag (layer_of LBITS r.1 id) = flag /\
     r.1 = set_mix_lays mix
             (<[slot LBITS id := set_lay_flag (layer_of LBITS mix id) flag]> (mix_lays mix))) /\
  (forall id flag,
     lay_flag (layer_of LBITS mix id) = ATOMIX_STOP \/ lay_flag (layer_of LBITS mix id) = 0 ->
     atomixMixerSetState LBITS mix id flag = (mix, 0)) /\
  (forall id flag i,
     lay_flag (mix_lays (atomixMixerSetState LBITS mix id flag).1 !!! i) = 0 <->
     lay_flag (mix_lays mix !!! i) = 0).
Proof.
  intros Hok. unfold ATOMIX_STOP, ATOMIX_HALT, ATOMIX_LOOP. split; [|split].
  - intros id flag Hid Hfrom Hto. cbv zeta.
    destruct (set_state_cases mix id flag) as [Hrej | (_ & _ & _ & Hret & Hmix)].
    + exfalso. revert Hrej. unfold atomixMixerSetState, ATMX_CSWAP.
      fold (layer_of LBITS mix id).
      replace ((flag <? 1) || (4 <? flag)) with false by lia.
      rewrite Hid, Z.eqb_refl.
      replace (1 <? lay_flag (layer_of LBITS mix id)) with true by lia.
      simpl. rewrite Z.eqb_refl.
      destruct (lay_flag (layer_of LBITS mix id) =? flag); intros [=].
    + repeat split; try assumption.
      rewrite Hmix. rewrite layer_of_alloc by now apply mixer_ok_length.
      reflexivity.
  - intros id flag Hflag. apply set_state_rejected. lia.
  - intros id flag i.
    destruct (set_state_cases mix id flag) as [-> | (Hto & Hfrom & _ & _ & ->)];
      [reflexivity|].
    simpl. destruct (decide (i = slot LBITS id)) as [->|Hne].
    + rewrite list_lookup_total_insert_eq
        by (rewrite (mixer_ok_length _ Hok); apply slot_lt).
      simpl. unfold layer_of in Hfrom. lia.
    + rewrite list_lookup_total_insert_ne by congruence. reflexivity.
Qed.

(** [atomixMixerStopAll] leaves no flag above [ATOMIX_STOP]. *)
Lemma stop_layer_flag lay :
  0 <= lay_flag lay <= 4 ->
  lay_flag (stop_layer lay) = 0 \/ lay_flag (stop_layer lay) = ATOMIX_STOP.
Proof.
  intros Hrange. unfold stop_layer, ATOMIX_STOP.
  destruct (Z.ltb_spec 1 (lay_flag lay)); simpl; lia.
Qed.

Lemma stop_all_flags mix :
  mixer_ok LBITS mix = true ->
  forall lay, In lay (mix_lays (atomixMixerStopAll mix)) ->
  lay_flag lay = 0 \/ lay_flag lay = ATOMIX_STOP.
Proof.
  intros Hok lay Hin. simpl in Hin. apply in_map_iff in Hin.
  destruct Hin as (lay0 & <- & Hin0). apply stop_layer_flag.
  apply list_elem_of_In, list_elem_of_lookup_1 in Hin0. destruct Hin0 as [i E].
  pose proof (mixer_ok_flag mix i Hok) as Hf.
  now rewrite (list_lookup_total_correct _ _ _ E) in Hf.
Qed.

(** C7: after [atomixMixerStopAll] every flag is 0 (free) or [ATOMIX_STOP];
    from then on [atomixMixerSetGainPan], [atomixMixerSetCursor] and
    [atomixMixerSetState] return 0, their failure value, for every handle
    and leave the mixer untouched, because validation asks for a flag
    above [ATOMIX_STOP]. *)
Theorem C7_stop_all_invalidates_handles mix :
  mixer_ok LBITS mix = true ->
  let mix' := atomixMixerStopAll mix in
  (forall lay, In lay (mix_lays mix') -> lay_flag lay = 0 \/ lay_flag lay = ATOMIX_STOP) /\
  (forall id gain pan cursor flag,
     atomixMixerSetGainPan LBITS mix' id gain pan = (mix', 0) /\
     atomixMixerSetCursor LBITS mix' id cursor = (mix', 0) /\
     atomixMixerSetState LBITS mix' id flag = (mix', 0)).
Proof.
  intros Hok mix'. split; [now apply stop_all_flags|].
  assert (Hflag : forall id, lay_flag (layer_of LBITS mix' id) <= 1).
  { intros id. unfold layer_of. subst mix'. simpl.
    rewrite map_lookup_total
      by (rewrite (mixer_ok_length _ Hok); apply slot_lt).
    destruct (stop_layer_flag (mix_lays mix !!! slot LBITS id)) as [E|E];
      [now apply mixer_ok_flag | |]; rewrite E; unfold ATOMIX_STOP; lia. }
  intros id gain pan cursor flag. repeat split.
  - now apply set_gain_pan_rejected.
  - now apply set_cursor_rejected.
  - now apply set_state_rejected.
Qed.

(** ** Allocation succeeds while a layer is free *)

(** A probe that returns 0 found every layer it looked at occupied. *)
Lemma play_probe_zero n : forall mix snd flag gain pan start end_ fade,
  (play_probe LBITS n mix snd flag gain pan start end_ fade).2 = 0 ->
  forall k, (k < n)%nat ->
  lay_flag (mix_lays mix
            !!! slot LBITS (Nat.iter k (fun id => wrap_u32 (id + 1)) (mix_nid mix))) <> 0.
Proof.
  induction n as [|n IH]; intros mix snd flag gain pan start end_ fade Hzero k Hk; [lia|].
  cbn [play_probe] in Hzero. simpl mix_lays in Hzero.
  destruct (Z.eqb_spec (lay_flag (mix_lays mix !!! slot LBITS (mix_nid mix))) 0) as [E|Hne].
  - simpl in Hzero. pose proof ATMX_LAYERS_pos.
    destruct (Z.eqb_spec (mix_nid mix) 0); lia.
  - destruct k as [|k]; [exact Hne|].
    rewrite Nat.iter_succ_r.
    apply (IH (set_mix_nid mix (wrap_u32 (mix_nid mix + 1))) snd flag gain pan start end_ fade
              Hzero k). lia.
Qed.

(** The [ATMX_LAYERS] probes visit every layer. *)
Lemma probes_cover nid i :
  (i < Z.to_nat L)%nat ->
  exists k, (k < Z.to_nat L)%nat /\
            slot LBITS (Nat.iter k (fun id => wrap_u32 (id + 1)) nid) = i.
Proof.
  intros Hi. pose proof ATMX_LAYERS_pos as HL.
  pose proof (Z.mod_pos_bound (Z.of_nat i - nid) L HL) as Hk.
  exists (Z.to_nat ((Z.of_nat i - nid) mod L)). split; [lia|].
  assert (Hslot : (nid + (Z.of_nat i - nid) mod L) mod L = Z.of_nat i).
  { rewrite Zplus_mod_idemp_r. replace (nid + (Z.of_nat i - nid)) with (Z.of_nat i) by lia.
    apply Z.mod_small. lia. }
  destruct (Z.eq_dec ((Z.of_nat i - nid) mod L) 0) as [E0|Hnz].
  - rewrite E0 in *. simpl. rewrite slot_spec.
    rewrite Z.add_0_r in Hslot. rewrite Hslot. lia.
  - rewrite iter_wrap_succ by lia. rewrite slot_wrap, slot_spec.
    rewrite Z2Nat.id by lia. rewrite Hslot. lia.
Qed.

(** With valid arguments and a free layer, allocation returns a handle. *)
Lemma play_adv_succeeds mix snd flag gain pan start end_ fade i :
  1 <= flag <= 4 ->
  4 <= wrap_i32 (end_ - start) ->
  4 <= end_ ->
  (i < Z.to_nat L)%nat ->
  lay_flag (mix_lays mix !!! i) = 0 ->
  (atomixMixerPlayAdv LBITS mix snd flag gain pan start end_ fade).2 <> 0.
Proof.
  intros Hflag Hdiff Hend Hi Hfree Hzero. unfold atomixMixerPlayAdv in Hzero.
  replace ((flag <? 1) || (4 <? flag)) with false in Hzero by lia.
  replace ((wrap_i32 (end_ - start) <? 4) || (end_ <? 4)) with false in Hzero by lia.
  destruct (probes_cover (mix_nid mix) i Hi) as (k & Hk & Hslot).
  apply (play_probe_zero _ _ _ _ _ _ _ _ _ Hzero k Hk). now rewrite Hslot.
Qed.

End Layers.

(** ** The mixing thread: how much is written

    Every kernel accumulates into the buffer in place, so the buffer keeps
    its length through the loops, the layers and the clipping pass. *)

Module ScalarFacts.
Import Scalar.

Lemma accum_length buff i v : length (accum buff i v) = length buff.
Proof. apply length_insert. Qed.

Lemma mix_faded_length buff i fr fade g :
  length (mix_faded buff i fr fade g) = length buff.
Proof. unfold mix_faded. now rewrite !accum_length. Qed.

Lemma mix_plain_length buff i fr g : length (mix_plain buff i fr g) = length buff.
Proof. unfold mix_plain. now rewrite !accum_length. Qed.

Ltac loop_step IH :=
  simpl;
  repeat match goal with
  | |- context [if ?c then _ else _] => destruct c; simpl; try reflexivity
  end;
  rewrite ?IH, ?mix_faded_length, ?mix_plain_length; reflexivity.

Lemma fade_out_loop_length frame g n : forall i lay cur buff,
  length (fade_out_loop frame g n i lay cur buff).2 = length buff.
Proof. induction n as [|n IH]; intros; [reflexivity | loop_step IH]. Qed.

Lemma play_out_loop_length frame g n : forall i lay cur buff,
  length (play_out_loop frame g n i lay cur buff).2 = length buff.
Proof. induction n as [|n IH]; intros; [reflexivity | loop_step IH]. Qed.

Lemma fade_in_loop_length frame g loop n : forall i lay cur buff,
  length (fade_in_loop frame g loop n i lay cur buff).2 = length buff.
Proof. induction n as [|n IH]; intros; [reflexivity | loop_step IH]. Qed.

Lemma play_loop_length frame g loop n : forall i lay cur buff,
  length (play_loop frame g loop n i lay cur buff).2 = length buff.
Proof. induction n as [|n IH]; intros; [reflexivity | loop_step IH]. Qed.

Lemma swap_cursor_buffer res old : (swap_cursor res old).2 = res.2.
Proof.
  destruct res as [[lay cur] buff]. unfold swap_cursor.
  now destruct (ATMX_CSWAP (lay_cursor lay) old cur).
Qed.

Lemma mix_fade_length frame g lay cur buff fnum :
  length (mix_fade frame g lay cur buff fnum).2 = length buff.
Proof.
  unfold mix_fade. rewrite swap_cursor_buffer.
  destruct (lay_fade lay <? wrap_i32 (lay_end lay - cur));
    [apply fade_out_loop_length | apply play_out_loop_length].
Qed.

Lemma mix_play_length frame g lay loop cur buff fnum :
  length (mix_play frame g lay loop cur buff fnum).2 = length buff.
Proof.
  unfold mix_play. rewrite swap_cursor_buffer.
  destruct (lay_fade lay <? lay_fmax lay);
    [apply fade_in_loop_length | apply play_loop_length].
Qed.

Lemma atmxMixLayer_length lay vol buff fnum :
  length (atmxMixLayer lay vol buff fnum).2 = length buff.
Proof.
  unfold atmxMixLayer, atmxMixFadeMono, atmxMixFadeStereo, atmxMixPlayMono,
    atmxMixPlayStereo.
  destruct (lay_flag lay =? 0); [reflexivity|].
  destruct (lay_flag lay <? 3).
  - destruct ((0 <? lay_fade lay) && (lay_cursor lay <? lay_end lay)); [|reflexivity].
    destruct (snd_cha (lay_sound lay) =? 1);
      match goal with
      | |- context [mix_fade ?f ?g ?l ?c ?b ?n] =>
          pose proof (mix_fade_length f g l c b n) as H;
          destruct (mix_fade f g l c b n) as [[? ?] ?]; exact H
      end.
  - destruct (snd_cha (lay_sound lay) =? 1);
      match goal with
      | |- context [mix_play ?f ?g ?l ?lp ?c ?b ?n] =>
          pose proof (mix_play_length f g l lp c b n) as H;
          destruct (mix_play f g l lp c b n) as [[? ?] ?]; exact H
      end.
Qed.

Lemma mix_layers_length lays : forall vol buff fnum,
  length (mix_layers lays vol buff fnum).2 = length buff.
Proof.
  induction lays as [|lay lays IH]; intros vol buff fnum; [reflexivity|].
  simpl. pose proof (atmxMixLayer_length lay vol buff fnum) as H1.
  destruct (atmxMixLayer lay vol buff fnum) as [lay' buff1].
  pose proof (IH vol buff1 fnum) as H2.
  destruct (mix_layers lays vol buff1 fnum) as [lays' buff2].
  simpl in *. congruence.
Qed.

Lemma atomixMixerMix_returns clip mix fnum : (atomixMixerMix clip mix fnum).2 = fnum.
Proof.
  unfold atomixMixerMix.
  now destruct (mix_layers _ _ _ _).
Qed.

Lemma atomixMixerMix_length clip mix fnum :
  length (atomixMixerMix clip mix fnum).1.2 = Z.to_nat (wrap_u32 (fnum * 2)).
Proof.
  unfold atomixMixerMix.
  match goal with
  | |- context [mix_layers ?l ?v ?b ?n] =>
      pose proof (mix_layers_length l v b n) as H;
      destruct (mix_layers l v b n) as [lays buff]
  end.
  simpl in *. rewrite length_replicate in H.
  destruct clip; [rewrite length_map|]; exact H.
Qed.

(** The clipping pass maps every stored sample through [clip_sample]. *)
Lemma atomixMixerMix_clipped mix fnum s :
  In s (atomixMixerMix true mix fnum).1.2 -> exists b, s = clip_sample b.
Proof.
  unfold atomixMixerMix. destruct (mix_layers _ _ _ _) as [lays buff]. simpl.
  intros Hin. apply in_map_iff in Hin. destruct Hin as (b & <- & _). now exists b.
Qed.

End ScalarFacts.

Module SSEFacts.
Import SSE.

Lemma sse_accum_length align i x m : length (accum align i x m) = length align.
Proof. apply length_insert. Qed.

Lemma mix_block_length align i fr m : length (mix_block align i fr m) = length align.
Proof. unfold mix_block. now rewrite !sse_accum_length. Qed.

Ltac loop_step IH :=
  simpl;
  repeat match goal with
  | |- context [if ?c then _ else _] => destruct c; simpl; try reflexivity
  end;
  rewrite ?IH, ?mix_block_length; reflexivity.

Lemma sse_fade_out_loop_length frames gmul n : forall i lay cur align,
  length (fade_out_loop frames gmul n i lay cur align).2 = length align.
Proof. induction n as [|n IH]; intros; [reflexivity | loop_step IH]. Qed.

Lemma sse_play_out_loop_length frames gmul n : forall i lay cur align,
  length (play_out_loop frames gmul n i lay cur align).2 = length align.
Proof. induction n as [|n IH]; intros; [reflexivity | loop_step IH]. Qed.

Lemma sse_fade_in_loop_length frames gmul loop n : forall i lay cur align,
  length (fade_in_loop frames gmul loop n i lay cur align).2 = length align.
Proof. induction n as [|n IH]; intros; [reflexivity | loop_step IH]. Qed.

Lemma sse_play_loop_length frames gmul loop n : forall i lay cur align,
  length (play_loop frames gmul loop n i lay cur align).2 = length align.
Proof. induction n as [|n IH]; intros; [reflexivity | loop_step IH]. Qed.

Lemma sse_swap_cursor_buffer res old : (swap_cursor res old).2 = res.2.
Proof.
  destruct res as [[lay cur] align]. unfold swap_cursor.
  now destruct (ATMX_CSWAP (lay_cursor lay) old cur).
Qed.

Lemma sse_mix_fade_length frames gmul lay cur align asize :
  length (mix_fade frames gmul lay cur align asize).2 = length align.
Proof.
  unfold mix_fade. rewrite sse_swap_cursor_buffer.
  destruct (lay_fade lay <? wrap_i32 (lay_end lay - cur));
    [apply sse_fade_out_loop_length | apply sse_play_out_loop_length].
Qed.

Lemma sse_mix_play_length frames gmul lay loop cur align asize :
  length (mix_play frames gmul lay loop cur align asize).2 = length align.
Proof.
  unfold mix_play. rewrite sse_swap_cursor_buffer.
  destruct (lay_fade lay <? lay_fmax lay);
    [apply sse_fade_in_loop_length | apply sse_play_loop_length].
Qed.

Lemma sse_atmxMixLayer_length lay vol align asize :
  length (atmxMixLayer lay vol align asize).2 = length align.
Proof.
  unfold atmxMixLayer, atmxMixFadeMono, atmxMixFadeStereo, atmxMixPlayMono,
    atmxMixPlayStereo.
  destruct (lay_flag lay =? 0); [reflexivity|].
  destruct (lay_flag lay <? 3).
  - destruct ((0 <? lay_fade lay) && (lay_cursor lay <? lay_end lay)); [|reflexivity].
    destruct (snd_cha (lay_sound lay) =? 1);
      match goal with
      | |- context [mix_fade ?f ?g ?l ?c ?b ?n] =>
          pose proof (sse_mix_fade_length f g l c b n) as H;
          destruct (mix_fade f g l c b n) as [[? ?] ?]; exact H
      end.
  - destruct (snd_cha (lay_sound lay) =? 1);
      match goal with
      | |- context [mix_play ?f ?g ?l ?lp ?c ?b ?n] =>
          pose proof (sse_mix_play_length f g l lp c b n) as H;
          destruct (mix_play f g l lp c b n) as [[? ?] ?]; exact H
      end.
Qed.

Lemma sse_mix_layers_length lays : forall vol align asize,
  length (mix_layers lays vol align asize).2 = length align.
Proof.
  induction lays as [|lay lays IH]; intros vol align asize; [reflexivity|].
  simpl. pose proof (sse_atmxMixLayer_length lay vol align asize) as H1.
  destruct (atmxMixLayer lay vol align asize) as [lay' align1].
  pose proof (IH vol align1 asize) as H2.
  destruct (mix_layers lays vol align1 asize) as [lays' align2].
  simpl in *. congruence.
Qed.

Lemma floats_of_length align : length (floats_of align) = (4 * length align)%nat.
Proof.
  unfold floats_of. induction align as [|v align IH]; [reflexivity|].
  simpl in *. rewrite IH. lia.
Qed.

End SSEFacts.

(** ** Clipping *)

Module F32Facts.

Lemma SFcompare_antisym x y : SFcompare y x = option_map CompOpp (SFcompare x y).
Proof.
  destruct x as [sx|sx| |sx mx ex], y as [sy|sy| |sy my ey]; simpl;
    try reflexivity;
    try (destruct sx; reflexivity); try (destruct sy; reflexivity);
    try (destruct sx, sy; reflexivity).
  destruct sx, sy; simpl; try reflexivity;
    rewrite (Z.compare_antisym ex ey); destruct (ex ?= ey); simpl; try reflexivity;
    rewrite (Pos.compare_cont_antisym mx my Eq); reflexivity.
Qed.

(** Of two floats that are not NaN, one is below the other or they are equal. *)
Lemma not_ltb_leb x y :
  F32.is_nan x = false -> F32.is_nan y = false ->
  F32.ltb x y = false -> F32.leb y x = true.
Proof.
  unfold F32.ltb, F32.leb, SFltb, SFleb. intros Hx Hy.
  rewrite (SFcompare_antisym x y).
  destruct (SFcompare x y) as [[| |]|] eqn:E; simpl; try reflexivity; try discriminate.
  destruct x, y; simpl in *; try discriminate;
    repeat match goal with s : bool |- _ => destruct s end; discriminate.
Qed.

Lemma ltb_leb x y : F32.ltb x y = true -> F32.leb x y = true.
Proof.
  unfold F32.ltb, F32.leb, SFltb, SFleb.
  now destruct (SFcompare x y) as [[| |]|].
Qed.

(** The scalar clamp: NaN fails both comparisons and passes through. *)
Lemma clip_sample_range b :
  in_unit_range (Scalar.clip_sample b) = true \/ Scalar.clip_sample b = S754_nan.
Proof.
  unfold Scalar.clip_sample.
  destruct (F32.ltb b F32.neg_one) eqn:Elow; [now left|].
  destruct (F32.ltb F32.one b) eqn:Ehigh; [now left|].
  destruct (F32.is_nan b) eqn:Enan.
  - right. now destruct b.
  - left. unfold in_unit_range.
    rewrite (not_ltb_leb b F32.neg_one), (not_ltb_leb F32.one b); auto.
Qed.

Lemma clip_sample_nan : Scalar.clip_sample S754_nan = S754_nan.
Proof. reflexivity. Qed.

(** The SSE clamp: [MAXPS] against -1 replaces NaN. *)
Lemma clip_lane_range x :
  let y := if F32.ltb F32.neg_one x then x else F32.neg_one in
  in_unit_range (if F32.ltb y F32.one then y else F32.one) = true.
Proof.
  cbv zeta. unfold in_unit_range.
  destruct (F32.ltb F32.neg_one x) eqn:Elow.
  - destruct (F32.ltb x F32.one) eqn:Ehigh; [|reflexivity].
    now rewrite (ltb_leb _ _ Elow), (ltb_leb _ _ Ehigh).
  - reflexivity.
Qed.

(** A word whose top byte is zero reads as a float of magnitude below
    [2^-125]. *)
Lemma of_bits_low_range b :
  0 <= b < 2 ^ 24 -> in_unit_range (F32.of_bits b) = true.
Proof.
  intros Hb. unfold F32.of_bits.
  assert (Hs : Z.testbit b 31 = false).
  { destruct (Z.eq_dec b 0) as [->|Hnz]; [reflexivity|].
    apply Z.bits_above_log2; [lia|].
    assert (Z.log2 b < 24) by (apply Z.log2_lt_pow2; lia). lia. }
  rewrite Hs.
  assert (He : Z.land (Z.shiftr b 23) 255 = 0 \/ Z.land (Z.shiftr b 23) 255 = 1).
  { rewrite Z.shiftr_div_pow2 by lia. change 255 with (Z.ones 8).
    rewrite Z.land_ones by lia.
    assert (0 <= b / 2 ^ 23 < 2) by (split; [apply Z.div_pos; lia | apply Z.div_lt_upper_bound; lia]).
    rewrite Z.mod_small by lia. lia. }
  assert (Hm : 0 <= Z.land b (Z.ones 23) < 2 ^ 23).
  { rewrite Z.land_ones by lia. apply Z.mod_pos_bound. lia. }
  destruct He as [-> | ->]; simpl.
  - destruct (Z.land b (Z.ones 23)); reflexivity.
  - destruct (Z.land b (Z.ones 23) + 8388608) eqn:E; try lia. reflexivity.
Qed.

End F32Facts.

(** ** The SSE carry *)

Module CarryFacts.
Import SSE SSEFacts.

Lemma trunc4_spec z : trunc4 z = 4 * (z / 4).
Proof.
  unfold trunc4. rewrite <- Z.ldiff_land. change 3 with (Z.ones 2).
  rewrite Z.ldiff_ones_r by lia.
  rewrite Z.shiftl_mul_pow2, Z.shiftr_div_pow2 by lia. change (2 ^ 2) with 4. lia.
Qed.

Lemma land_mask_u32 y :
  0 <= y < 2 ^ 32 -> Z.land y (wrap_u32 (Z.lnot 3)) = 4 * (y / 4).
Proof.
  intros Hy. change (wrap_u32 (Z.lnot 3)) with (Z.land (Z.lnot 3) (Z.ones 32)).
  rewrite (Z.land_comm (Z.lnot 3)), Z.land_assoc, Z.land_ones by lia.
  rewrite Z.mod_small by lia. apply trunc4_spec.
Qed.

Lemma asize_of_spec rnum : asize_of rnum = 2 * (wrap_u32 (rnum + 3) / 4).
Proof.
  unfold asize_of. rewrite land_mask_u32 by apply wrap_u32_range.
  rewrite Z.shiftr_div_pow2 by lia. change (2 ^ 1) with 2.
  Z.div_mod_to_equations. lia.
Qed.

Lemma asize_of_nonneg rnum : 0 <= asize_of rnum.
Proof.
  rewrite asize_of_spec. pose proof (wrap_u32_range (rnum + 3)).
  Z.div_mod_to_equations. lia.
Qed.

(** The surplus [asize*2 - rnum] is at most three frames. *)
Lemma surplus_range rnum :
  0 <= rnum < 2 ^ 32 -> 0 <= wrap_u32 (asize_of rnum * 2 - rnum) <= 3.
Proof.
  intros Hr. rewrite asize_of_spec. unfold wrap_u32.
  Z.div_mod_to_equations. lia.
Qed.

Lemma asize_covers rnum :
  0 <= rnum < 2 ^ 31 -> rnum * 2 <= 4 * asize_of rnum.
Proof.
  intros Hr. rewrite asize_of_spec. unfold wrap_u32.
  Z.div_mod_to_equations. lia.
Qed.

Lemma lor_bound a b n :
  0 < n -> 0 <= a < 2 ^ n -> 0 <= b < 2 ^ n -> 0 <= Z.lor a b < 2 ^ n.
Proof.
  intros Hn Ha Hb. split; [apply Z.lor_nonneg; lia|].
  destruct (Z.eq_dec (Z.lor a b) 0) as [->|Hnz]; [lia|].
  assert (0 <= Z.lor a b) by (apply Z.lor_nonneg; lia).
  apply Z.log2_lt_pow2; [lia|]. rewrite Z.log2_lor by lia.
  assert (Hlog : forall c, 0 <= c < 2 ^ n -> Z.log2 c < n).
  { intros c Hc. destruct (Z.eq_dec c 0) as [->|Hc0]; [simpl; lia|].
    apply Z.log2_lt_pow2; lia. }
  apply Z.max_lub_lt; apply Hlog; assumption.
Qed.

(** Copying up to three bytes never reaches the top byte of the word. *)
Lemma splice_bytes_low n src dst :
  1 <= n <= 3 -> 0 <= dst < 2 ^ 24 -> 0 <= splice_bytes n src dst < 2 ^ 24.
Proof.
  intros Hn Hdst. unfold splice_bytes. apply lor_bound; [lia| |].
  - rewrite Z.land_ones by lia.
    pose proof (Z.mod_pos_bound src (2 ^ (8 * n))) as Hmod.
    assert (2 ^ (8 * n) <= 2 ^ 24) by (apply Z.pow_le_mono_r; lia).
    assert (0 < 2 ^ (8 * n)) by (apply Z.pow_pos_nonneg; lia). lia.
  - rewrite Z.ldiff_ones_r by lia.
    rewrite Z.shiftl_mul_pow2, Z.shiftr_div_pow2 by lia.
    assert (0 < 2 ^ (8 * n)) by (apply Z.pow_pos_nonneg; lia).
    pose proof (Z.mul_div_le dst (2 ^ (8 * n))).
    assert (0 <= dst / 2 ^ (8 * n)) by (apply Z.div_pos; lia). nia.
Qed.

Lemma carry_ok_intro mix b :
  0 <= mix_rem mix <= 3 -> mix_data mix = [b; 0; 0; 0; 0; 0] -> 0 <= b < 2 ^ 24 ->
  carry_ok mix = true.
Proof.
  intros Hrem Hdata Hb. unfold carry_ok. rewrite Hdata.
  rewrite !andb_true_iff. repeat split; lia.
Qed.

Lemma carry_ok_elim mix :
  carry_ok mix = true ->
  0 <= mix_rem mix <= 3 /\
  exists b, mix_data mix = [b; 0; 0; 0; 0; 0] /\ 0 <= b < 2 ^ 24.
Proof.
  unfold carry_ok. rewrite !andb_true_iff. intros [[H1 H2] H3].
  split; [lia|].
  destruct (mix_data mix) as [|b [|[] [|[] [|[] [|[] [|[] []]]]]]]; try discriminate.
  exists b. split; [reflexivity | lia].
Qed.

Lemma atomixMixerNew_carry_ok LBITS vol fade :
  carry_ok (atomixMixerNew LBITS vol fade) = true.
Proof. reflexivity. Qed.

(** [mix_new] rewrites the carry from the clipped or unclipped surplus. *)
Lemma mix_new_carry_ok clip mix out rnum fnum :
  carry_ok mix = true -> 0 <= rnum < 2 ^ 32 ->
  carry_ok (mix_new clip mix out rnum fnum).1.1 = true.
Proof.
  intros Hok Hr. destruct (carry_ok_elim _ Hok) as (_ & b & Hdata & Hb).
  unfold mix_new.
  destruct (mix_layers _ _ _ _) as [lays align]. cbn [fst snd].
  pose proof (surplus_range rnum Hr) as Hrem.
  set (rem := wrap_u32 (asize_of rnum * 2 - rnum)) in *.
  destruct (Z.eqb_spec rem 0) as [E0|Hnz].
  - eapply carry_ok_intro; simpl; [lia | exact Hdata | exact Hb].
  - rewrite Hdata.
    destruct (map F32.bits_of _) as [|s src].
    + eapply carry_ok_intro; simpl; [lia | reflexivity | exact Hb].
    + simpl. replace (4 <=? rem) with false by lia.
      replace (0 <? rem) with true by lia.
      eapply carry_ok_intro; simpl; [lia | reflexivity |].
      apply splice_bytes_low; lia.
Qed.

(** The carry invariant holds across every mix call. *)
Lemma atomixMixerMix_carry_ok clip mix fnum :
  carry_ok mix = true -> 0 <= fnum < 2 ^ 32 ->
  carry_ok (atomixMixerMix clip mix fnum).1.1 = true.
Proof.
  intros Hok Hf. destruct (carry_ok_elim _ Hok) as (Hrem & b & Hdata & Hb).
  unfold atomixMixerMix.
  destruct (Z.eqb_spec (mix_rem mix) 0) as [_|Hnz].
  - now apply mix_new_carry_ok.
  - destruct (Z.ltb_spec (mix_rem mix) fnum) as [Hlt|Hge].
    + apply mix_new_carry_ok.
      * eapply carry_ok_intro; simpl; [lia | exact Hdata | exact Hb].
      * apply wrap_u32_range.
    + cbn [fst snd].
      assert (Hrem' : wrap_u32 (mix_rem mix - fnum) = mix_rem mix - fnum)
        by (apply wrap_u32_small; lia).
      rewrite Hrem'.
      destruct (Z.eqb_spec (mix_rem mix - fnum) 0) as [E0|Hnz'].
      * eapply carry_ok_intro; simpl; [lia | exact Hdata | exact Hb].
      * rewrite Hdata.
        assert (Hcase : fnum = 0 \/ fnum = 1 \/ fnum = 2) by lia.
        destruct Hcase as [-> | [-> | ->]]; vm_compute wrap_u32; simpl;
          eapply carry_ok_intro; simpl; try reflexivity; lia.
Qed.

End CarryFacts.

(** ** The SSE mix entry point: how much is written, and its range *)

Module SSEMixFacts.
Import SSE SSEFacts CarryFacts.

Lemma mix_new_returns clip mix out rnum fnum : (mix_new clip mix out rnum fnum).2 = fnum.
Proof. unfold mix_new. now destruct (mix_layers _ _ _ _). Qed.

Lemma sse_atomixMixerMix_returns clip mix fnum : (atomixMixerMix clip mix fnum).2 = fnum.
Proof.
  unfold atomixMixerMix.
  destruct (mix_rem mix =? 0); [apply mix_new_returns|].
  destruct (mix_rem mix <? fnum); [apply mix_new_returns | reflexivity].
Qed.

Lemma mix_new_length clip mix out rnum fnum :
  0 <= rnum < 2 ^ 31 ->
  length (mix_new clip mix out rnum fnum).1.2 = (length out + Z.to_nat (rnum * 2))%nat.
Proof.
  intros Hr. unfold mix_new.
  match goal with
  | |- context [mix_layers ?l ?v ?b ?n] =>
      pose proof (sse_mix_layers_length l v b n) as H;
      destruct (mix_layers l v b n) as [lays align]
  end.
  cbn [fst snd] in *. rewrite length_replicate in H.
  rewrite length_app, length_take, floats_of_length.
  assert (Hlen : length (if clip then map clip_m128 align else align)
                 = Z.to_nat (asize_of rnum))
    by (destruct clip; [rewrite length_map|]; exact H).
  rewrite Hlen, (wrap_u32_small (rnum * 2)) by lia.
  pose proof (asize_covers rnum Hr). pose proof (asize_of_nonneg rnum). lia.
Qed.

Lemma sse_atomixMixerMix_length clip mix fnum :
  carry_ok mix = true -> 0 <= fnum < 2 ^ 31 ->
  length (atomixMixerMix clip mix fnum).1.2 = Z.to_nat (2 * fnum).
Proof.
  intros Hok Hf. destruct (carry_ok_elim _ Hok) as (Hrem & b & Hdata & Hb).
  unfold atomixMixerMix.
  destruct (Z.eqb_spec (mix_rem mix) 0) as [_|Hnz].
  - rewrite mix_new_length by lia. simpl. lia.
  - destruct (Z.ltb_spec (mix_rem mix) fnum) as [Hlt|Hge].
    + rewrite (wrap_u32_small (fnum - mix_rem mix)) by lia.
      rewrite mix_new_length by lia.
      rewrite length_map, length_take, Hdata, wrap_u32_small by lia.
      simpl length. lia.
    + cbn [fst snd]. rewrite length_map, length_take, Hdata, wrap_u32_small by lia.
      simpl length. lia.
Qed.

Lemma clip_m128_range v s :
  In s [ps0 (clip_m128 v); ps1 (clip_m128 v); ps2 (clip_m128 v); ps3 (clip_m128 v)] ->
  in_unit_range s = true.
Proof.
  unfold clip_m128, _mm_min_ps, _mm_max_ps, _mm_set_ps1, lanewise. simpl.
  intros [<- | [<- | [<- | [<- | []]]]]; apply F32Facts.clip_lane_range.
Qed.

Lemma floats_of_clipped align s :
  In s (floats_of (map clip_m128 align)) -> in_unit_range s = true.
Proof.
  unfold floats_of. rewrite map_map. intros Hin.
  apply in_concat in Hin. destruct Hin as (blk & Hblk & Hs).
  apply in_map_iff in Hblk. destruct Hblk as (v & <- & _).
  now apply (clip_m128_range v).
Qed.

Lemma In_take {A} (x : A) n l : In x (take n l) -> In x l.
Proof.
  revert l. induction n as [|n IH]; intros [|y l] H; simpl in *; try contradiction.
  destruct H as [H|H]; [now left | right; now apply IH].
Qed.

Lemma mix_new_range mix out rnum fnum s :
  (forall x, In x out -> in_unit_range x = true) ->
  In s (mix_new true mix out rnum fnum).1.2 -> in_unit_range s = true.
Proof.
  intros Hout. unfold mix_new. destruct (mix_layers _ _ _ _) as [lays align].
  cbn [fst snd]. intros Hin. apply in_app_or in Hin. destruct Hin as [Hin|Hin].
  - now apply Hout.
  - apply In_take in Hin. now apply floats_of_clipped in Hin.
Qed.

Lemma carry_range mix n s :
  carry_ok mix = true ->
  In s (map F32.of_bits (take n (mix_data mix))) -> in_unit_range s = true.
Proof.
  intros Hok Hin. destruct (carry_ok_elim _ Hok) as (_ & b & Hdata & Hb).
  apply in_map_iff in Hin. destruct Hin as (w & <- & Hw).
  apply In_take in Hw. rewrite Hdata in Hw.
  simpl in Hw. destruct Hw as [<- | Hw].
  - now apply F32Facts.of_bits_low_range.
  - assert (w = 0) as -> by (repeat destruct Hw as [<- | Hw]; try reflexivity; destruct Hw).
    reflexivity.
Qed.

Lemma atomixMixerMix_range mix fnum s :
  carry_ok mix = true ->
  In s (atomixMixerMix true mix fnum).1.2 -> in_unit_range s = true.
Proof.
  intros Hok. unfold atomixMixerMix.
  destruct (mix_rem mix =? 0).
  - apply mix_new_range. intros x [].
  - destruct (mix_rem mix <? fnum).
    + apply mix_new_range. intros x Hx. simpl in Hx. eapply carry_range; eauto.
    + cbn [fst snd]. now apply carry_range.
Qed.

End SSEMixFacts.

(** ** The pan law *)

Module GainFacts.

Lemma digits2_shift23 m :
  Z.pos (digits2_pos (m * 8388608)) = Z.pos (digits2_pos m) + 23.
Proof.
  rewrite Pos.mul_comm.
  change (8388608 * m)%positive with (Pos.iter xO m 23).
  simpl. rewrite !Pos2Z.inj_succ. unfold Z.succ.
  generalize (digits2_pos m). intros d. lia.
Qed.

Lemma shr_exact23 m :
  SpecFloat.iter_pos shr_1 23 (shr_record_of_loc (Z.pos (m * 8388608)) loc_Exact)
  = {| shr_m := Z.pos m; shr_r := false; shr_s := false |}.
Proof.
  rewrite Pos.mul_comm.
  change (8388608 * m)%positive with (Pos.iter xO m 23). reflexivity.
Qed.

(** The product with [1.0f] has the same digits 23 places up; rounding
    shifts them back without loss. *)
Lemma mul_one_finite s m e :
  bounded F32.prec F32.emax m e = true ->
  F32.mul (S754_finite s m e) F32.one = S754_finite s m e.
Proof.
  unfold bounded, canonical_mantissa. rewrite andb_true_iff.
  intros [Hcanon Hmax]. apply Z.eqb_eq in Hcanon.
  unfold F32.mul, F32.one, SFmul, binary_round_aux, shr_fexp.
  rewrite xorb_false_r.
  unfold Zdigits2 at 1. rewrite digits2_shift23.
  replace (Z.pos (digits2_pos m) + 23 + (e + -23)) with (Z.pos (digits2_pos m) + e) by lia.
  rewrite Hcanon.
  replace (e - (e + -23)) with 23 by lia.
  unfold shr at 1. rewrite shr_exact23.
  cbn [shr_m loc_of_shr_record round_nearest_even shr_record_of_loc Zdigits2].
  replace (e + -23 + 23) with e by lia.
  rewrite Hcanon, Z.sub_diag. cbn [shr shr_m].
  now rewrite Hmax.
Qed.

Lemma mul_one g :
  F32.is_finite g = true -> F32.valid g = true -> F32.mul g F32.one = g.
Proof.
  destruct g as [s|s| |s m e]; try discriminate; intros _ Hv.
  - now destruct s.
  - now apply mul_one_finite.
Qed.

(** The sign of a finite float. *)
Lemma mul_zero g :
  F32.is_finite g = true ->
  exists s, F32.mul g F32.zero = S754_zero s /\ F32.add g (S754_zero s) = g
            /\ F32.add (S754_zero s) g = g.
Proof.
  destruct g as [s|s| |s m e]; try discriminate; intros _; exists s.
  - now destruct s.
  - now destruct s.
Qed.

(** Halving a normal float above the bottom of the range lowers its
    exponent by one, and adding the half to itself restores it. *)
Lemma mul_half_normal s m e :
  bounded F32.prec F32.emax m e = true ->
  Z.pos (digits2_pos m) = 24 -> -148 <= e ->
  F32.mul (S754_finite s m e) F32.half = S754_finite s m (e - 1).
Proof.
  unfold bounded, canonical_mantissa. rewrite andb_true_iff.
  intros [Hcanon Hmax] Hdig He. apply Z.eqb_eq in Hcanon. apply Z.leb_le in Hmax.
  unfold F32.mul, F32.half, SFmul, binary_round_aux, shr_fexp.
  rewrite xorb_false_r.
  unfold Zdigits2 at 1. rewrite digits2_shift23, Hdig.
  assert (Hfexp : fexp F32.prec F32.emax (24 + 23 + (e + -24)) = e - 1).
  { unfold fexp, emin, F32.prec, F32.emax. lia. }
  rewrite Hfexp.
  replace (e - 1 - (e + -24)) with 23 by lia.
  unfold shr at 1. rewrite shr_exact23.
  cbn [shr_m loc_of_shr_record round_nearest_even shr_record_of_loc Zdigits2].
  rewrite Hdig.
  replace (e + -24 + 23) with (e - 1) by lia.
  assert (Hfexp' : fexp F32.prec F32.emax (24 + (e - 1)) = e - 1).
  { unfold fexp, emin, F32.prec, F32.emax. lia. }
  rewrite Hfexp', Z.sub_diag. cbn [shr shr_m].
  replace (e - 1 <=? F32.emax - F32.prec) with true by lia.
  reflexivity.
Qed.

Lemma add_self_normal s m e :
  bounded F32.prec F32.emax m e = true ->
  Z.pos (digits2_pos m) = 24 -> -148 <= e ->
  F32.add (S754_finite s m (e - 1)) (S754_finite s m (e - 1)) = S754_finite s m e.
Proof.
  unfold bounded, canonical_mantissa. rewrite andb_true_iff.
  intros [Hcanon Hmax] Hdig He. apply Z.eqb_eq in Hcanon. apply Z.leb_le in Hmax.
  unfold F32.add, SFadd. rewrite Z.min_id.
  unfold shl_align. rewrite Z.sub_diag. cbn [fst].
  assert (Hsum : cond_Zopp s (Z.pos m) + cond_Zopp s (Z.pos m) = cond_Zopp s (Z.pos m~0)).
  { destruct s; unfold cond_Zopp.
    - change (- Z.pos m) with (Z.neg m). change (Z.neg m + Z.neg m) with (Z.neg (m + m)).
      now rewrite Pos.add_diag.
    - change (Z.pos m + Z.pos m) with (Z.pos (m + m)). now rewrite Pos.add_diag. }
  rewrite Hsum.
  assert (Hround : binary_round F32.prec F32.emax s m~0 (e - 1) = S754_finite s m e).
  { unfold binary_round, shl_align. cbn [digits2_pos].
    rewrite Pos2Z.inj_succ, Hdig.
    assert (Hfexp : fexp F32.prec F32.emax (Z.succ 24 + (e - 1)) = e).
    { unfold fexp, emin, F32.prec, F32.emax. lia. }
    rewrite Hfexp. replace (e - (e - 1)) with 1 by lia.
    unfold binary_round_aux, shr_fexp. cbn [Zdigits2 digits2_pos].
    rewrite Pos2Z.inj_succ, Hdig, Hfexp.
    replace (e - (e - 1)) with 1 by lia.
    cbn [shr shr_record_of_loc SpecFloat.iter_pos shr_1 shr_m loc_of_shr_record
         round_nearest_even orb Zdigits2].
    rewrite Hdig. replace (e - 1 + 1) with e by lia.
    assert (Hfexp' : fexp F32.prec F32.emax (24 + e) = e).
    { unfold fexp, emin, F32.prec, F32.emax. lia. }
    rewrite Hfexp', Z.sub_diag. cbn [shr shr_m].
    now replace (e <=? F32.emax - F32.prec) with true by lia. }
  destruct s; simpl; exact Hround.
Qed.

Lemma halves_add_up g :
  F32.valid g = true -> F32.halves_exactly g = true ->
  F32.add (F32.mul g F32.half) (F32.mul g F32.half) = g.
Proof.
  destruct g as [s|s| |s m e]; try discriminate; intros Hv Hh.
  - now destruct s.
  - unfold F32.halves_exactly in Hh. apply andb_true_iff in Hh as [Hdig He].
    apply Z.eqb_eq in Hdig. apply Z.leb_le in He.
    rewrite mul_half_normal by assumption. now apply add_self_normal.
Qed.

Lemma gain_left g : (atmxGainf2 g F32.neg_one) = {| f2_l := F32.mul g F32.one; f2_r := F32.mul g F32.zero |}.
Proof. reflexivity. Qed.

Lemma gain_right g : (atmxGainf2 g F32.one) = {| f2_l := F32.mul g F32.zero; f2_r := F32.mul g F32.one |}.
Proof. reflexivity. Qed.

Lemma gain_centre g : (atmxGainf2 g F32.zero) = {| f2_l := F32.mul g F32.half; f2_r := F32.mul g F32.half |}.
Proof. reflexivity. Qed.

End GainFacts.

(** ** What the kernels leave alone *)

Lemma kept_refl lay : kept lay lay.
Proof. unfold kept. tauto. Qed.

Lemma kept_trans a b c : kept a b -> kept b c -> kept a c.
Proof. unfold kept. intuition congruence. Qed.

Lemma kept_fade lay fade : kept lay (set_lay_fade lay fade).
Proof. unfold kept. simpl. tauto. Qed.

Lemma kept_cursor lay cursor : kept lay (set_lay_cursor lay cursor).
Proof. unfold kept. simpl. tauto. Qed.

Ltac kept_step IH :=
  simpl;
  repeat match goal with
  | |- context [if ?c then _ else _] => destruct c; simpl
  end;
  try apply kept_refl;
  try (eapply kept_trans; [|apply IH]; try apply kept_fade; apply kept_refl).

Ltac kept_kernel kernel lemma :=
  match goal with
  | |- context [kernel ?f ?g ?l ?a ?b ?c] =>
      let H := fresh "Hkept" in
      pose proof (lemma f g l a b c) as H;
      destruct (kernel f g l a b c) as [[? ?] ?];
      simpl in H |- *; destruct H as (? & ? & _)
  | |- context [kernel ?f ?g ?l ?lp ?a ?b ?c] =>
      let H := fresh "Hkept" in
      pose proof (lemma f g l lp a b c) as H;
      destruct (kernel f g l lp a b c) as [[? ?] ?];
      simpl in H |- *; destruct H as (? & ? & _)
  end.

Module ScalarFrame.
Import Scalar.

Lemma fade_out_loop_kept frame g n : forall i lay cur buff,
  kept lay (fade_out_loop frame g n i lay cur buff).1.1.
Proof. induction n as [|n IH]; intros; [apply kept_refl | kept_step IH]. Qed.

Lemma play_out_loop_kept frame g n : forall i lay cur buff,
  kept lay (play_out_loop frame g n i lay cur buff).1.1.
Proof. induction n as [|n IH]; intros; [apply kept_refl | kept_step IH]. Qed.

Lemma fade_in_loop_kept frame g loop n : forall i lay cur buff,
  kept lay (fade_in_loop frame g loop n i lay cur buff).1.1.
Proof. induction n as [|n IH]; intros; [apply kept_refl | kept_step IH]. Qed.

Lemma play_loop_kept frame g loop n : forall i lay cur buff,
  kept lay (play_loop frame g loop n i lay cur buff).1.1.
Proof. induction n as [|n IH]; intros; [apply kept_refl | kept_step IH]. Qed.

Lemma swap_cursor_kept res old : kept res.1.1 (swap_cursor res old).1.1.
Proof.
  destruct res as [[lay cur] buff]. unfold swap_cursor.
  destruct (ATMX_CSWAP (lay_cursor lay) old cur). simpl. apply kept_cursor.
Qed.

Lemma mix_fade_kept frame g lay cur buff fnum :
  kept lay (mix_fade frame g lay cur buff fnum).1.1.
Proof.
  unfold mix_fade. eapply kept_trans; [|apply swap_cursor_kept].
  destruct (lay_fade lay <? wrap_i32 (lay_end lay - cur));
    [apply fade_out_loop_kept | apply play_out_loop_kept].
Qed.

Lemma mix_play_kept frame g lay loop cur buff fnum :
  kept lay (mix_play frame g lay loop cur buff fnum).1.1.
Proof.
  unfold mix_play. eapply kept_trans; [|apply swap_cursor_kept].
  destruct (lay_fade lay <? lay_fmax lay);
    [apply fade_in_loop_kept | apply play_loop_kept].
Qed.

(** The mixing thread keeps a layer's id and never raises its flag: the
    flag stays or drops to 0. *)
Lemma atmxMixLayer_flag lay vol buff fnum :
  let lay' := (atmxMixLayer lay vol buff fnum).1 in
  lay_id lay' = lay_id lay /\
  (lay_flag lay' = lay_flag lay \/ lay_flag lay' = 0).
Proof.
  unfold atmxMixLayer, atmxMixFadeMono, atmxMixFadeStereo, atmxMixPlayMono,
    atmxMixPlayStereo.
  destruct (lay_flag lay =? 0); [simpl; tauto|].
  destruct (lay_flag lay <? 3).
  - destruct ((0 <? lay_fade lay) && (lay_cursor lay <? lay_end lay)).
    + destruct (snd_cha (lay_sound lay) =? 1); kept_kernel mix_fade mix_fade_kept;
        match goal with |- context [if ?c then _ else _] => destruct c end;
        simpl; split; auto.
    + match goal with |- context [if ?c then _ else _] => destruct c end;
        simpl; split; auto.
  - destruct (snd_cha (lay_sound lay) =? 1); kept_kernel mix_play mix_play_kept;
      match goal with |- context [if ?c then _ else _] => destruct c end;
      simpl; split; auto; unfold ATMX_CSWAP;
      match goal with H : lay_flag _ = lay_flag _ |- _ => rewrite H end;
      rewrite Z.eqb_refl; simpl; auto.
Qed.

Lemma mix_layers_flags lays : forall vol buff fnum,
  Forall2 (fun lay lay' =>
             lay_id lay' = lay_id lay /\
             (lay_flag lay' = lay_flag lay \/ lay_flag lay' = 0))
          lays (mix_layers lays vol buff fnum).1.
Proof.
  induction lays as [|lay lays IH]; intros vol buff fnum; [constructor|].
  simpl. pose proof (atmxMixLayer_flag lay vol buff fnum) as H1.
  destruct (atmxMixLayer lay vol buff fnum) as [lay' buff1].
  pose proof (IH vol buff1 fnum) as H2.
  destruct (mix_layers lays vol buff1 fnum) as [lays' buff2].
  simpl in *. now constructor.
Qed.

Lemma atomixMixerMix_layers clip mix fnum :
  let mix' := (atomixMixerMix clip mix fnum).1.1 in
  mix_nid mix' = mix_nid mix /\
  mix_rem mix' = mix_rem mix /\ mix_data mix' = mix_data mix /\
  Forall2 (fun lay lay' =>
             lay_id lay' = lay_id lay /\
             (lay_flag lay' = lay_flag lay \/ lay_flag lay' = 0))
          (mix_lays mix) (mix_lays mix').
Proof.
  unfold atomixMixerMix.
  match goal with
  | |- context [mix_layers ?l ?v ?b ?n] =>
      pose proof (mix_layers_flags l v b n) as H;
      destruct (mix_layers l v b n) as [lays buff]
  end.
  simpl in *. auto.
Qed.

End ScalarFrame.

Module SSEFrame.
Import SSE.

Lemma sse_fade_out_loop_kept frames gmul n : forall i lay cur align,
  kept lay (fade_out_loop frames gmul n i lay cur align).1.1.
Proof. induction n as [|n IH]; intros; [apply kept_refl | kept_step IH]. Qed.

Lemma sse_play_out_loop_kept frames gmul n : forall i lay cur align,
  kept lay (play_out_loop frames gmul n i lay cur align).1.1.
Proof. induction n as [|n IH]; intros; [apply kept_refl | kept_step IH]. Qed.

Lemma sse_fade_in_loop_kept frames gmul loop n : forall i lay cur align,
  kept lay (fade_in_loop frames gmul loop n i lay cur align).1.1.
Proof. induction n as [|n IH]; intros; [apply kept_refl | kept_step IH]. Qed.

Lemma sse_play_loop_kept frames gmul loop n : forall i lay cur align,
  kept lay (play_loop frames gmul loop n i lay cur align).1.1.
Proof. induction n as [|n IH]; intros; [apply kept_refl | kept_step IH]. Qed.

Lemma sse_swap_cursor_kept res old : kept res.1.1 (swap_cursor res old).1.1.
Proof.
  destruct res as [[lay cur] align]. unfold swap_cursor.
  destruct (ATMX_CSWAP (lay_cursor lay) old cur). simpl. apply kept_cursor.
Qed.

Lemma sse_mix_fade_kept frames gmul lay cur align asize :
  kept lay (mix_fade frames gmul lay cur align asize).1.1.
Proof.
  unfold mix_fade. eapply kept_trans; [|apply sse_swap_cursor_kept].
  destruct (lay_fade lay <? wrap_i32 (lay_end lay - cur));
    [apply sse_fade_out_loop_kept | apply sse_play_out_loop_kept].
Qed.

Lemma sse_mix_play_kept frames gmul lay loop cur align asize :
  kept lay (mix_play frames gmul lay loop cur align asize).1.1.
Proof.
  unfold mix_play. eapply kept_trans; [|apply sse_swap_cursor_kept].
  destruct (lay_fade lay <? lay_fmax lay);
    [apply sse_fade_in_loop_kept | apply sse_play_loop_kept].
Qed.

Lemma sse_atmxMixLayer_flag lay vol align asize :
  let lay' := (atmxMixLayer lay vol align asize).1 in
  lay_id lay' = lay_id lay /\
  (lay_flag lay' = lay_flag lay \/ lay_flag lay' = 0).
Proof.
  unfold atmxMixLayer, atmxMixFadeMono, atmxMixFadeStereo, atmxMixPlayMono,
    atmxMixPlayStereo.
  destruct (lay_flag lay =? 0); [simpl; tauto|].
  destruct (lay_flag lay <? 3).
  - destruct ((0 <? lay_fade lay) && (lay_cursor lay <? lay_end lay)).
    + destruct (snd_cha (lay_sound lay) =? 1); kept_kernel mix_fade sse_mix_fade_kept;
        match goal with |- context [if ?c then _ else _] => destruct c end;
        simpl; split; auto.
    + match goal with |- context [if ?c then _ else _] => destruct c end;
        simpl; split; auto.
  - destruct (snd_cha (lay_sound lay) =? 1); kept_kernel mix_play sse_mix_play_kept;
      match goal with |- context [if ?c then _ else _] => destruct c end;
      simpl; split; auto; unfold ATMX_CSWAP;
      match goal with H : lay_flag _ = lay_flag _ |- _ => rewrite H end;
      rewrite Z.eqb_refl; simpl; auto.
Qed.

Lemma sse_mix_layers_flags lays : forall vol align asize,
  Forall2 (fun lay lay' =>
             lay_id lay' = lay_id lay /\
             (lay_flag lay' = lay_flag lay \/ lay_flag lay' = 0))
          lays (mix_layers lays vol align asize).1.
Proof.
  induction lays as [|lay lays IH]; intros vol align asize; [constructor|].
  simpl. pose proof (sse_atmxMixLayer_flag lay vol align asize) as H1.
  destruct (atmxMixLayer lay vol align asize) as [lay' align1].
  pose proof (IH vol align1 asize) as H2.
  destruct (mix_layers lays vol align1 asize) as [lays' align2].
  simpl in *. now constructor.
Qed.

Lemma sse_mix_new_layers clip mix out rnum fnum :
  let mix' := (mix_new clip mix out rnum fnum).1.1 in
  mix_nid mix' = mix_nid mix /\
  Forall2 (fun lay lay' =>
             lay_id lay' = lay_id lay /\
             (lay_flag lay' = lay_flag lay \/ lay_flag lay' = 0))
          (mix_lays mix) (mix_lays mix').
Proof.
  unfold mix_new.
  match goal with
  | |- context [mix_layers ?l ?v ?b ?n] =>
      pose proof (sse_mix_layers_flags l v b n) as H;
      destruct (mix_layers l v b n) as [lays align]
  end.
  simpl in *. auto.
Qed.

Lemma sse_atomixMixerMix_layers clip mix fnum :
  let mix' := (atomixMixerMix clip mix fnum).1.1 in
  mix_nid mix' = mix_nid mix /\
  Forall2 (fun lay lay' =>
             lay_id lay' = lay_id lay /\
             (lay_flag lay' = lay_flag lay \/ lay_flag lay' = 0))
          (mix_lays mix) (mix_lays mix').
Proof.
  unfold atomixMixerMix.
  destruct (mix_rem mix =? 0); [apply sse_mix_new_layers|].
  destruct (mix_rem mix <? fnum).
  - apply (sse_mix_new_layers clip (set_mix_carry mix 0 (mix_data mix))).
  - simpl. split; [reflexivity|].
    induction (mix_lays mix); constructor; auto.
Qed.

End SSEFrame.

(** ** Invariants of the mixer *)

Section Invariants.

Variable LBITS : Z.
Hypothesis LBITS_range : 0 <= LBITS <= 30.

Lemma forallb_insert (ok : atmx_layer -> bool) (lays : list atmx_layer) i lay :
  forallb ok lays = true -> ok lay = true -> forallb ok (<[i := lay]> lays) = true.
Proof.
  revert i. induction lays as [|x lays IH]; intros i Hall Hlay; [reflexivity|].
  simpl in Hall. apply andb_true_iff in Hall as [Hx Hrest].
  destruct i as [|i]; simpl.
  - now rewrite Hlay, Hrest.
  - rewrite Hx. now apply IH.
Qed.

Lemma forallb_lookup_total (ok : atmx_layer -> bool) (lays : list atmx_layer) i :
  forallb ok lays = true -> ok zero_layer = true -> ok (lays !!! i) = true.
Proof.
  revert i. induction lays as [|x lays IH]; intros i Hall Hzero.
  - now destruct i.
  - simpl in Hall. apply andb_true_iff in Hall as [Hx Hrest].
    destruct i as [|i]; [exact Hx | now apply IH].
Qed.

Lemma mixer_ok_parts mix :
  mixer_ok LBITS mix = true <->
  length (mix_lays mix) = Z.to_nat (ATMX_LAYERS LBITS) /\
  forallb flag_ok (mix_lays mix) = true /\
  0 <= mix_nid mix < 2 ^ 32.
Proof.
  unfold mixer_ok. rewrite !andb_true_iff, Nat.eqb_eq, Z.leb_le, Z.ltb_lt. tauto.
Qed.

(** Rewriting one layer by a layer with a proper flag keeps the mixer
    well formed, whatever in-range value [nid] takes. *)
Lemma mixer_ok_update mix i lay nid :
  mixer_ok LBITS mix = true -> flag_ok lay = true -> 0 <= nid < 2 ^ 32 ->
  mixer_ok LBITS (set_mix_lays (set_mix_nid mix nid) (<[i := lay]> (mix_lays mix))) = true.
Proof.
  rewrite !mixer_ok_parts. simpl. intros (Hlen & Hall & _) Hlay Hnid.
  rewrite length_insert. repeat split; try lia; try assumption.
  now apply forallb_insert.
Qed.

Lemma mixer_ok_set_lays mix i lay :
  mixer_ok LBITS mix = true -> flag_ok lay = true ->
  mixer_ok LBITS (set_mix_lays mix (<[i := lay]> (mix_lays mix))) = true.
Proof.
  intros Hok Hlay. pose proof (mixer_ok_nid LBITS mix Hok) as Hnid.
  rewrite mixer_ok_parts in *. simpl. destruct Hok as (Hlen & Hall & _).
  rewrite length_insert. repeat split; try lia; try assumption.
  now apply forallb_insert.
Qed.

Lemma mixer_ok_map mix (f : atmx_layer -> atmx_layer) :
  (forall lay, flag_ok lay = true -> flag_ok (f lay) = true) ->
  mixer_ok LBITS mix = true ->
  mixer_ok LBITS (set_mix_lays mix (map f (mix_lays mix))) = true.
Proof.
  intros Hf. rewrite !mixer_ok_parts. simpl. intros (Hlen & Hall & Hnid).
  rewrite length_map. repeat split; try lia; try assumption.
  rewrite forallb_forall in *. intros lay Hin.
  apply in_map_iff in Hin. destruct Hin as (lay0 & <- & Hin0). auto.
Qed.

Lemma play_probe_ok n : forall mix snd flag gain pan start end_ fade,
  mixer_ok LBITS mix = true -> 1 <= flag <= 4 ->
  mixer_ok LBITS (play_probe LBITS n mix snd flag gain pan start end_ fade).1 = true.
Proof.
  induction n as [|n IH]; intros mix snd flag gain pan start end_ fade Hok Hflag;
    [exact Hok|].
  cbn [play_probe]. simpl mix_lays.
  assert (Hnext : mixer_ok LBITS (set_mix_nid mix (wrap_u32 (mix_nid mix + 1))) = true).
  { rewrite mixer_ok_parts in *. simpl.
    pose proof (wrap_u32_range (mix_nid mix + 1)). tauto. }
  destruct (lay_flag (mix_lays mix !!! slot LBITS (mix_nid mix)) =? 0).
  - simpl. apply (mixer_ok_set_lays (set_mix_nid mix (wrap_u32 (mix_nid mix + 1))));
      [exact Hnext|].
    unfold flag_ok, new_layer. simpl. lia.
  - now apply IH.
Qed.

Lemma atomixMixerPlayAdv_ok mix snd flag gain pan start end_ fade :
  mixer_ok LBITS mix = true ->
  mixer_ok LBITS (atomixMixerPlayAdv LBITS mix snd flag gain pan start end_ fade).1 = true.
Proof.
  intros Hok. unfold atomixMixerPlayAdv.
  destruct ((flag <? 1) || (4 <? flag)) eqn:Eflag; [exact Hok|].
  apply orb_false_iff in Eflag as [E1 E2].
  destruct ((wrap_i32 (end_ - start) <? 4) || (end_ <? 4)); [exact Hok|].
  apply play_probe_ok; [exact Hok | lia].
Qed.

Lemma flag_ok_lookup mix i : mixer_ok LBITS mix = true -> flag_ok (mix_lays mix !!! i) = true.
Proof.
  intros Hok. apply mixer_ok_parts in Hok as (_ & Hall & _).
  now apply forallb_lookup_total.
Qed.

Lemma atomixMixerSetGainPan_ok mix id gain pan :
  mixer_ok LBITS mix = true ->
  mixer_ok LBITS (atomixMixerSetGainPan LBITS mix id gain pan).1 = true.
Proof.
  intros Hok. unfold atomixMixerSetGainPan.
  destruct ((id =? lay_id _) && (1 <? lay_flag _)); [|exact Hok].
  simpl. apply mixer_ok_set_lays; [exact Hok|].
  exact (flag_ok_lookup mix (slot LBITS id) Hok).
Qed.

Lemma atomixMixerSetCursor_ok mix id cursor :
  mixer_ok LBITS mix = true ->
  mixer_ok LBITS (atomixMixerSetCursor LBITS mix id cursor).1 = true.
Proof.
  intros Hok. unfold atomixMixerSetCursor.
  destruct ((id =? lay_id _) && (1 <? lay_flag _)); [|exact Hok].
  simpl. apply mixer_ok_set_lays; [exact Hok|].
  exact (flag_ok_lookup mix (slot LBITS id) Hok).
Qed.

Lemma atomixMixerSetState_ok mix id flag :
  mixer_ok LBITS mix = true ->
  mixer_ok LBITS (atomixMixerSetState LBITS mix id flag).1 = true.
Proof.
  intros Hok.
  destruct (set_state_cases LBITS mix id flag) as [-> | (Hflag & _ & _ & _ & ->)];
    [exact Hok|].
  apply mixer_ok_set_lays; [exact Hok|]. unfold flag_ok. simpl. lia.
Qed.

Lemma atomixMixerStopAll_ok mix :
  mixer_ok LBITS mix = true -> mixer_ok LBITS (atomixMixerStopAll mix) = true.
Proof.
  apply mixer_ok_map. intros lay Hlay. unfold stop_layer.
  destruct (1 <? lay_flag lay); [reflexivity | exact Hlay].
Qed.

Lemma atomixMixerHaltAll_ok mix :
  mixer_ok LBITS mix = true -> mixer_ok LBITS (atomixMixerHaltAll mix) = true.
Proof.
  apply mixer_ok_map. intros lay Hlay. unfold halt_layer, ATMX_CSWAP.
  destruct (2 <? lay_flag lay); [|exact Hlay].
  now rewrite Z.eqb_refl.
Qed.

Lemma atomixMixerPlayAll_ok mix :
  mixer_ok LBITS mix = true -> mixer_ok LBITS (atomixMixerPlayAll mix) = true.
Proof.
  apply mixer_ok_map. intros lay Hlay. unfold play_layer, ATMX_CSWAP.
  destruct (lay_flag lay =? ATOMIX_HALT); [reflexivity|].
  simpl. now rewrite set_lay_flag_id.
Qed.

(** Mixing keeps the layer count and lowers flags at most. *)
Lemma mixer_ok_lowered mix mix' :
  mix_nid mix' = mix_nid mix ->
  Forall2 (fun lay lay' =>
             lay_id lay' = lay_id lay /\
             (lay_flag lay' = lay_flag lay \/ lay_flag lay' = 0))
          (mix_lays mix) (mix_lays mix') ->
  mixer_ok LBITS mix = true -> mixer_ok LBITS mix' = true.
Proof.
  intros Hnid Hlays. rewrite !mixer_ok_parts. rewrite Hnid.
  intros (Hlen & Hall & Hrange).
  repeat split; try lia.
  - rewrite <- Hlen. symmetry. eapply Forall2_length. exact Hlays.
  - clear Hlen. induction Hlays as [|lay lay' lays lays' (_ & Hflag) _ IH]; [reflexivity|].
    simpl in *. apply andb_true_iff in Hall as [Hx Hrest].
    rewrite IH by exact Hrest. rewrite andb_true_r.
    unfold flag_ok in *. destruct Hflag as [-> | ->]; [exact Hx | reflexivity].
Qed.

Lemma scalar_atomixMixerMix_ok clip mix fnum :
  mixer_ok LBITS mix = true ->
  mixer_ok LBITS (Scalar.atomixMixerMix clip mix fnum).1.1 = true.
Proof.
  destruct (ScalarFrame.atomixMixerMix_layers clip mix fnum) as (Hnid & _ & _ & Hlays).
  now apply mixer_ok_lowered.
Qed.

Lemma sse_atomixMixerMix_ok clip mix fnum :
  mixer_ok LBITS mix = true ->
  mixer_ok LBITS (SSE.atomixMixerMix clip mix fnum).1.1 = true.
Proof.
  destruct (SSEFrame.sse_atomixMixerMix_layers clip mix fnum) as (Hnid & Hlays).
  now apply mixer_ok_lowered.
Qed.

(** The controller never touches the carry. *)
Lemma play_probe_carry n : forall mix snd flag gain pan start end_ fade,
  let mix' := (play_probe LBITS n mix snd flag gain pan start end_ fade).1 in
  mix_rem mix' = mix_rem mix /\ mix_data mix' = mix_data mix.
Proof.
  induction n as [|n IH]; intros mix snd flag gain pan start end_ fade; [now split|].
  cbn [play_probe]. simpl mix_lays.
  destruct (lay_flag (mix_lays mix !!! slot LBITS (mix_nid mix)) =? 0); [now split|].
  apply (IH (set_mix_nid mix (wrap_u32 (mix_nid mix + 1)))).
Qed.

Lemma carry_ok_same mix mix' :
  mix_rem mix' = mix_rem mix /\ mix_data mix' = mix_data mix ->
  carry_ok mix = true -> carry_ok mix' = true.
Proof. unfold carry_ok. now intros [-> ->]. Qed.

Lemma atomixMixerPlayAdv_carry mix snd flag gain pan start end_ fade :
  carry_ok mix = true ->
  carry_ok (atomixMixerPlayAdv LBITS mix snd flag gain pan start end_ fade).1 = true.
Proof.
  intros Hok. unfold atomixMixerPlayAdv.
  destruct ((flag <? 1) || (4 <? flag)); [exact Hok|].
  destruct ((wrap_i32 (end_ - start) <? 4) || (end_ <? 4)); [exact Hok|].
  eapply carry_ok_same; [apply play_probe_carry | exact Hok].
Qed.

(** Every mixer a program can hold is well formed, and so is its carry. *)
Theorem reachable_ok mix :
  reachable LBITS mix -> mixer_ok LBITS mix = true /\ carry_ok mix = true.
Proof.
  induction 1 as [vol fade | mix snd flag gain pan _ [IH1 IH2]
                 | mix snd flag gain pan start end_ fade _ [IH1 IH2]
                 | mix id gain pan _ [IH1 IH2] | mix id cursor _ [IH1 IH2]
                 | mix id flag _ [IH1 IH2] | mix vol _ [IH1 IH2] | mix fade _ [IH1 IH2]
                 | mix _ [IH1 IH2] | mix _ [IH1 IH2] | mix _ [IH1 IH2]
                 | clip mix fnum Hf _ [IH1 IH2] | clip mix fnum Hf _ [IH1 IH2]].
  - split; [now apply atomixMixerNew_ok | reflexivity].
  - split; [now apply atomixMixerPlayAdv_ok | now apply atomixMixerPlayAdv_carry].
  - split; [now apply atomixMixerPlayAdv_ok | now apply atomixMixerPlayAdv_carry].
  - split; [now apply atomixMixerSetGainPan_ok|].
    unfold atomixMixerSetGainPan. now destruct (_ && _).
  - split; [now apply atomixMixerSetCursor_ok|].
    unfold atomixMixerSetCursor. now destruct (_ && _).
  - split; [now apply atomixMixerSetState_ok|].
    now destruct (set_state_cases LBITS mix id flag) as [-> | (_ & _ & _ & _ & ->)].
  - now split.
  - now split.
  - split; [now apply atomixMixerStopAll_ok | exact IH2].
  - split; [now apply atomixMixerHaltAll_ok | exact IH2].
  - split; [now apply atomixMixerPlayAll_ok | exact IH2].
  - split; [now apply scalar_atomixMixerMix_ok|].
    destruct (ScalarFrame.atomixMixerMix_layers clip mix fnum) as (_ & Hrem & Hdata & _).
    eapply carry_ok_same; [split; eassumption | exact IH2].
  - split; [now apply sse_atomixMixerMix_ok|].
    now apply CarryFacts.atomixMixerMix_carry_ok.
Qed.

(** Once every flag is 0 or [ATOMIX_STOP], mixing keeps it so: handles
    stay invalid until a layer is allocated anew. *)
Lemma stopped_stays_stopped mix mix' :
  Forall2 (fun lay lay' =>
             lay_id lay' = lay_id lay /\
             (lay_flag lay' = lay_flag lay \/ lay_flag lay' = 0))
          (mix_lays mix) (mix_lays mix') ->
  (forall lay, In lay (mix_lays mix) -> lay_flag lay = 0 \/ lay_flag lay = ATOMIX_STOP) ->
  forall lay, In lay (mix_lays mix') -> lay_flag lay = 0 \/ lay_flag lay = ATOMIX_STOP.
Proof.
  intros Hlays. induction Hlays as [|lay0 lay1 lays lays' (_ & Hflag) _ IH];
    intros Hall lay Hin; [destruct Hin|].
  destruct Hin as [<- | Hin].
  - destruct Hflag as [-> | ->]; [apply Hall; now left | now left].
  - apply IH; [|exact Hin]. intros x Hx. apply Hall. now right.
Qed.

(** While every flag is 0 or [ATOMIX_STOP] no handle passes validation. *)
Lemma all_stopped_rejects mix :
  (forall lay, In lay (mix_lays mix) -> lay_flag lay = 0 \/ lay_flag lay = ATOMIX_STOP) ->
  forall id gain pan cursor flag,
    atomixMixerSetGainPan LBITS mix id gain pan = (mix, 0) /\
    atomixMixerSetCursor LBITS mix id cursor = (mix, 0) /\
    atomixMixerSetState LBITS mix id flag = (mix, 0).
Proof.
  intros Hall id gain pan cursor flag.
  assert (Hflag : lay_flag (layer_of LBITS mix id) <= 1).
  { unfold layer_of. destruct (mix_lays mix !! slot LBITS id) as [lay|] eqn:E.
    - rewrite (list_lookup_total_correct _ _ _ E).
      assert (Hin : In lay (mix_lays mix)).
      { apply list_elem_of_In. eapply list_elem_of_lookup_2. exact E. }
      destruct (Hall lay Hin) as [-> | ->]; unfold ATOMIX_STOP; lia.
    - rewrite list_lookup_total_alt, E. simpl. lia. }
  repeat split.
  - now apply set_gain_pan_rejected.
  - now apply set_cursor_rejected.
  - now apply set_state_rejected.
Qed.

(** Handles stay invalid through the mix calls that follow
    [atomixMixerStopAll], in either build. *)
Theorem stop_all_survives_mixing mix clip fnum :
  mixer_ok LBITS mix = true ->
  forall mix',
    mix' = (Scalar.atomixMixerMix clip (atomixMixerStopAll mix) fnum).1.1 \/
    mix' = (SSE.atomixMixerMix clip (atomixMixerStopAll mix) fnum).1.1 ->
  forall id gain pan cursor flag,
    atomixMixerSetGainPan LBITS mix' id gain pan = (mix', 0) /\
    atomixMixerSetCursor LBITS mix' id cursor = (mix', 0) /\
    atomixMixerSetState LBITS mix' id flag = (mix', 0).
Proof.
  intros Hok mix' Hmix'.
  pose proof (stop_all_flags LBITS mix Hok) as Hstopped.
  apply all_stopped_rejects.
  destruct Hmix' as [-> | ->].
  - destruct (ScalarFrame.atomixMixerMix_layers clip (atomixMixerStopAll mix) fnum)
      as (_ & _ & _ & Hlays).
    exact (stopped_stays_stopped _ _ Hlays Hstopped).
  - destruct (SSEFrame.sse_atomixMixerMix_layers clip (atomixMixerStopAll mix) fnum)
      as (_ & Hlays).
    exact (stopped_stays_stopped _ _ Hlays Hstopped).
Qed.

End Invariants.

(** ** The mixing thread and the pan law: main results *)

(** C1, as the code has it: a successful [atomixMixerPlayAdv] or
    [atomixMixerPlay] sets [fmax] to the fade length, negative read as 0 and
    truncated to a multiple of 4, and sets the fade counter to 0 when the
    initial state is [ATOMIX_STOP] or [ATOMIX_HALT] and to [fmax] when it is
    [ATOMIX_PLAY] or [ATOMIX_LOOP].  So a layer started in [ATOMIX_PLAY] with
    fade 4, gain 1, pan 0 under volume 1 on a mono sound of ones plays at
    once at its full level: the first four left samples of the scalar build
    are 0.5 each. *)
Theorem C1_initial_fade_counter :
  (forall LBITS mix snd flag gain pan start end_ fade,
     0 <= LBITS <= 30 ->
     mixer_ok LBITS mix = true ->
     let r := atomixMixerPlayAdv LBITS mix snd flag gain pan start end_ fade in
     r.2 <> 0 ->
     let lay := layer_of LBITS r.1 r.2 in
     lay_fmax lay = (if fade <? 0 then 0 else trunc4 fade) /\
     (flag = ATOMIX_STOP \/ flag = ATOMIX_HALT -> lay_fade lay = 0) /\
     (flag = ATOMIX_PLAY \/ flag = ATOMIX_LOOP -> lay_fade lay = lay_fmax lay)) /\
  (forall LBITS mix snd flag gain pan,
     0 <= LBITS <= 30 ->
     mixer_ok LBITS mix = true ->
     let r := atomixMixerPlay LBITS mix snd flag gain pan in
     r.2 <> 0 ->
     let lay := layer_of LBITS r.1 r.2 in
     lay_fmax lay = (if mix_fade mix <? 0 then 0 else trunc4 (mix_fade mix)) /\
     (flag = ATOMIX_STOP \/ flag = ATOMIX_HALT -> lay_fade lay = 0) /\
     (flag = ATOMIX_PLAY \/ flag = ATOMIX_LOOP -> lay_fade lay = lay_fmax lay)) /\
  (let r := playing fresh_mixer (constant_one 8) ATOMIX_PLAY F32.one F32.zero 4 in
   r.2 <> 0 /\
   lay_fmax (layer_of 8 r.1 r.2) = 4 /\
   lay_fade (layer_of 8 r.1 r.2) = 4 /\
   left_channel (Scalar.atomixMixerMix true r.1 4).1.2
   = [F32.half; F32.half; F32.half; F32.half]).
Proof.
  split; [|split].
  - intros LBITS mix snd flag gain pan start end_ fade HL Hok.
    exact (play_adv_fade_init LBITS HL mix snd flag gain pan start end_ fade Hok).
  - intros LBITS mix snd flag gain pan HL Hok.
    exact (play_adv_fade_init LBITS HL mix snd flag gain pan 0 (snd_len snd) (mix_fade mix) Hok).
  - vm_compute. repeat split; discriminate.
Qed.

(** The layer of the scenario starts with its fade counter at [fmax], not
    at 0, and its first four left samples are not 0, 0.25, 0.5, 0.75. *)
Lemma C1_counterexample_play_starts_open :
  let r := playing fresh_mixer (constant_one 8) ATOMIX_PLAY F32.one F32.zero 4 in
  r.2 <> 0 /\
  lay_flag (layer_of 8 r.1 r.2) = ATOMIX_PLAY /\
  lay_fade (layer_of 8 r.1 r.2) <> 0 /\
  left_channel (Scalar.atomixMixerMix true r.1 4).1.2
  <> [F32.zero; ratio 1 4; ratio 2 4; ratio 3 4].
Proof. vm_compute. repeat split; discriminate. Qed.

(** A layer started halted and then set to play does fade in: with pan 0
    each side carries half the gain, so the ramp ends below 0.5. *)
Example halted_layer_fades_in :
  let r := playing fresh_mixer (constant_one 8) ATOMIX_HALT F32.one F32.zero 4 in
  let mix := (atomixMixerSetState 8 r.1 r.2 ATOMIX_PLAY).1 in
  lay_fade (layer_of 8 r.1 r.2) = 0 /\
  left_channel (Scalar.atomixMixerMix true mix 4).1.2
  = [F32.zero; ratio 1 8; ratio 2 8; ratio 3 8].
Proof. vm_compute. now split. Qed.

(** C2 at its failing input: one layer plays the ramp 1/8, 2/8, ... at
    unit level.  A single call for four frames delivers the first four
    samples.  A call for one frame mixes the same block and should carry
    three frames over; it stores three bytes, the low bytes of the float
    2/8, so the next call delivers [2^-126] and silence in place of the
    frames 2/8, 3/8 and 4/8. *)
Theorem C2_carry_keeps_bytes_not_frames :
  let mix := (playing fresh_mixer ramp_sound ATOMIX_PLAY F32.two F32.zero 0).1 in
  let whole := SSE.atomixMixerMix true mix 4 in
  let first := SSE.atomixMixerMix true mix 1 in
  let second := SSE.atomixMixerMix true first.1.1 3 in
  left_channel whole.1.2 = [ratio 1 8; ratio 2 8; ratio 3 8; ratio 4 8] /\
  mix_rem first.1.1 = 3 /\
  mix_data first.1.1 = [Z.land (F32.bits_of (ratio 2 8)) (Z.ones 24); 0; 0; 0; 0; 0] /\
  left_channel (first.1.2 ++ second.1.2)
  = [ratio 1 8; S754_finite false 8388608 (-149); F32.zero; F32.zero] /\
  first.1.2 ++ second.1.2 <> whole.1.2.
Proof. vm_compute. repeat split; discriminate. Qed.

(** X23: With clipping enabled every sample the SSE build writes lies
    between -1 and 1, the frames delivered from the carry included, on
    every mixer with a well-formed carry and so on every mixer a program
    can reach; every sample the scalar build writes lies between -1 and 1
    or is NaN, which fails both comparisons of the scalar clamp and passes
    through. *)
Theorem X23_clipped_output_stays_in_range :
  (forall mix fnum s,
     carry_ok mix = true ->
     In s (SSE.atomixMixerMix true mix fnum).1.2 ->
     in_unit_range s = true) /\
  (forall LBITS mix fnum s,
     0 <= LBITS <= 30 ->
     reachable LBITS mix ->
     In s (SSE.atomixMixerMix true mix fnum).1.2 ->
     in_unit_range s = true) /\
  (forall mix fnum s,
     In s (Scalar.atomixMixerMix true mix fnum).1.2 ->
     in_unit_range s = true \/ s = S754_nan).
Proof.
  split; [|split].
  - intros mix fnum s Hok Hin. now apply (SSEMixFacts.atomixMixerMix_range mix fnum).
  - intros LBITS mix fnum s HL Hreach Hin.
    apply (SSEMixFacts.atomixMixerMix_range mix fnum); [|exact Hin].
    now apply (reachable_ok LBITS HL).
  - intros mix fnum s Hin.
    destruct (ScalarFacts.atomixMixerMix_clipped _ _ _ Hin) as [b ->].
    apply F32Facts.clip_sample_range.
Qed.

(** C4 at its failing input, the scalar build with clipping on: one layer
    plays the frames 1, 0, 1, 1 at gain [FLT_MAX] under volume 4.  The gain
    overflows to infinity and the silent frame times infinity is NaN.  The
    scalar clamp brings the infinite frames to 1, but NaN fails both of its
    comparisons and is written out, outside [-1, 1].  The SSE clamp, whose
    [MAXPS] returns its second operand on NaN, writes -1 for the same
    frame. *)
Theorem C4_scalar_clamp_lets_nan_through :
  (Scalar.atomixMixerMix false loud_mixer 4).1.2
  = [S754_infinity false; S754_infinity false; S754_nan; S754_nan;
     S754_infinity false; S754_infinity false; S754_infinity false; S754_infinity false] /\
  (Scalar.atomixMixerMix true loud_mixer 4).1.2
  = [F32.one; F32.one; S754_nan; S754_nan; F32.one; F32.one; F32.one; F32.one] /\
  in_unit_range S754_nan = false /\
  (SSE.atomixMixerMix true loud_mixer 4).1.2
  = [F32.one; F32.one; F32.neg_one; F32.neg_one; F32.one; F32.one; F32.one; F32.one] /\
  Scalar.clip_sample S754_nan = S754_nan /\
  SSE.clip_m128 (SSE._mm_set_ps1 S754_nan) = SSE._mm_set_ps1 F32.neg_one.
Proof. vm_compute. repeat split. Qed.

(** X22: atomixMixerMix returns the frame count it was given, and for N <
    2^31 it writes exactly 2N floats, in both builds (the SSE build on
    every mixer with a well-formed carry, and so on every mixer a program
    can reach); on a fresh mixer a call for 64 frames writes 128 zeros. *)
Theorem X22_mix_writes_the_requested_frames :
  (forall clip mix fnum,
     (Scalar.atomixMixerMix clip mix fnum).2 = fnum /\
     (SSE.atomixMixerMix clip mix fnum).2 = fnum) /\
  (forall clip mix fnum,
     0 <= fnum < 2 ^ 31 ->
     Z.of_nat (length (Scalar.atomixMixerMix clip mix fnum).1.2) = 2 * fnum) /\
  (forall clip mix fnum,
     carry_ok mix = true ->
     0 <= fnum < 2 ^ 31 ->
     Z.of_nat (length (SSE.atomixMixerMix clip mix fnum).1.2) = 2 * fnum) /\
  (forall LBITS clip mix fnum,
     0 <= LBITS <= 30 ->
     reachable LBITS mix ->
     0 <= fnum < 2 ^ 31 ->
     Z.of_nat (length (SSE.atomixMixerMix clip mix fnum).1.2) = 2 * fnum) /\
  (forall clip,
     (Scalar.atomixMixerMix clip (atomixMixerNew 8 F32.half 0) 64).1.2
     = replicate 128 F32.zero /\
     (SSE.atomixMixerMix clip (atomixMixerNew 8 F32.half 0) 64).1.2
     = replicate 128 F32.zero).
Proof.
  split; [|split; [|split; [|split]]].
  - intros clip mix fnum. split;
      [apply ScalarFacts.atomixMixerMix_returns | apply SSEMixFacts.sse_atomixMixerMix_returns].
  - intros clip mix fnum Hf. rewrite ScalarFacts.atomixMixerMix_length.
    rewrite wrap_u32_small by lia. lia.
  - intros clip mix fnum Hok Hf. rewrite SSEMixFacts.sse_atomixMixerMix_length by assumption.
    lia.
  - intros LBITS clip mix fnum HL Hreach Hf.
    rewrite SSEMixFacts.sse_atomixMixerMix_length;
      [lia | now apply (reachable_ok LBITS HL) | exact Hf].
  - intros [|]; vm_compute; now split.
Qed.

(** C5 at its failing input, a call for [2^31] frames: the count of floats
    [fnum*2] is taken in [uint32_t] and wraps to 0, so the call clears,
    mixes and copies nothing and still returns [2^31], in the scalar build
    on every mixer and in the SSE build on every mixer with an empty
    carry. *)
Theorem C5_count_wraps_at_2_31 :
  (forall clip mix,
     let r := Scalar.atomixMixerMix clip mix (2 ^ 31) in
     r.2 = 2 ^ 31 /\ r.1.2 = []) /\
  (forall clip mix,
     mix_rem mix = 0 ->
     let r := SSE.atomixMixerMix clip mix (2 ^ 31) in
     r.2 = 2 ^ 31 /\ r.1.2 = []).
Proof.
  split.
  - intros clip mix r. split; [apply ScalarFacts.atomixMixerMix_returns|].
    apply length_zero_iff_nil. unfold r.
    rewrite ScalarFacts.atomixMixerMix_length. reflexivity.
  - intros clip mix Hrem r. split; [apply SSEMixFacts.sse_atomixMixerMix_returns|].
    unfold r, SSE.atomixMixerMix. rewrite Hrem. cbn [Z.eqb].
    unfold SSE.mix_new.
    destruct (SSE.mix_layers _ _ _ _) as [lays align].
    change (wrap_u32 (2 ^ 31 * 2)) with 0. reflexivity.
Qed.

(** C9, as binary32 has it: [atmxGainf2] clamps the pan and returns
    [g*(0.5 - pan/2)] and [g*(0.5 + pan/2)], each operation rounded.  For
    every finite [g], pan -1 gives [g] on the left and a zero on the right,
    pan +1 the reverse, pan 0 gives [g*0.5] on both sides, and at pan -1 and
    +1 the two sides add up to [g]; at pan 0 they add up to [g] when [g] is
    zero or normal with magnitude at least [2^-125]. *)
Theorem C9_gainpan_linear_law :
  (forall g p,
     let q :=
       if F32.ltb p F32.neg_one then F32.neg_one
       else if F32.ltb F32.one p then F32.one else p in
     atmxGainf2 g p
     = {| f2_l := F32.mul g (F32.sub F32.half (F32.div q F32.two));
          f2_r := F32.mul g (F32.add F32.half (F32.div q F32.two)) |}) /\
  (forall g,
     F32.is_finite g = true ->
     F32.valid g = true ->
     (exists s, atmxGainf2 g F32.neg_one = {| f2_l := g; f2_r := S754_zero s |}) /\
     (exists s, atmxGainf2 g F32.one = {| f2_l := S754_zero s; f2_r := g |}) /\
     atmxGainf2 g F32.zero = {| f2_l := F32.mul g F32.half; f2_r := F32.mul g F32.half |} /\
     F32.add (f2_l (atmxGainf2 g F32.neg_one)) (f2_r (atmxGainf2 g F32.neg_one)) = g /\
     F32.add (f2_l (atmxGainf2 g F32.one)) (f2_r (atmxGainf2 g F32.one)) = g) /\
  (forall g,
     F32.valid g = true ->
     F32.halves_exactly g = true ->
     F32.add (f2_l (atmxGainf2 g F32.zero)) (f2_r (atmxGainf2 g F32.zero)) = g).
Proof.
  split; [reflexivity|]. split.
  - intros g Hfin Hval.
    destruct (GainFacts.mul_zero g Hfin) as (s & Hzero & Hadd_r & Hadd_l).
    rewrite GainFacts.gain_left, GainFacts.gain_right, GainFacts.gain_centre.
    rewrite (GainFacts.mul_one g Hfin Hval), Hzero. simpl.
    repeat split; try (now exists s); assumption.
  - intros g Hval Hhalf. rewrite GainFacts.gain_centre. simpl.
    now apply GainFacts.halves_add_up.
Qed.

(** Gain 0.1 at pan 0.2: the two sides are 0.04 and 0.06 as rounded, and
    neither their float sum nor their exact sum is the gain. *)
Lemma C9_counterexample_rounded_sum :
  let g := ratio 1 10 in
  let p := ratio 1 5 in
  let r := atmxGainf2 g p in
  in_unit_range p = true /\
  F32.add (f2_l r) (f2_r r) <> g /\
  F32.units (f2_l r) + F32.units (f2_r r) <> F32.units g.
Proof. vm_compute. repeat split; discriminate. Qed.

(** At pan 0 the smallest subnormal gain rounds to zero on both sides. *)
Example gainpan_centre_underflow :
  let g := S754_finite false 1 (-149) in
  F32.valid g = true /\
  atmxGainf2 g F32.zero = {| f2_l := F32.zero; f2_r := F32.zero |}.
Proof. vm_compute. now split. Qed.

(** A negative gain leaves a negative zero on the silent side, and an
    infinite gain leaves NaN there. *)
Example gainpan_silent_side :
  atmxGainf2 F32.neg_one F32.neg_one = {| f2_l := F32.neg_one; f2_r := S754_zero true |} /\
  atmxGainf2 (S754_infinity false) F32.neg_one
  = {| f2_l := S754_infinity false; f2_r := S754_nan |}.
Proof. vm_compute. now split. Qed.

(** ** The theorems at concrete inputs *)

Lemma C1_witness :
  0 <= 8 <= 30 /\
  mixer_ok 8 fresh_mixer = true /\
  halted.2 <> 0 /\
  lay_fade (layer_of 8 halted.1 halted.2) = 0.
Proof.
  assert (HL : 0 <= 8 <= 30) by lia.
  assert (Hok : mixer_ok 8 fresh_mixer = true) by (vm_compute; reflexivity).
  assert (Hh : halted.2 <> 0) by (vm_compute; discriminate).
  refine (conj HL (conj Hok (conj Hh _))).
  apply (proj1 C1_initial_fade_counter 8 fresh_mixer (constant_one 8) ATOMIX_HALT
           F32.one F32.zero 0 (snd_len (constant_one 8)) 4 HL Hok Hh).
  now right.
Defined.

Lemma C3_witness :
  0 <= 8 <= 30 /\
  mixer_ok 8 halted.1 = true /\
  lay_id (layer_of 8 halted.1 256) = 256 /\
  ATOMIX_HALT <= lay_flag (layer_of 8 halted.1 256) <= ATOMIX_LOOP /\
  ATOMIX_STOP <= ATOMIX_PLAY <= ATOMIX_LOOP /\
  (atomixMixerSetState 8 halted.1 256 ATOMIX_PLAY).2 = 1.
Proof.
  assert (HL : 0 <= 8 <= 30) by lia.
  assert (Hok : mixer_ok 8 halted.1 = true) by (vm_compute; reflexivity).
  assert (Hid : lay_id (layer_of 8 halted.1 256) = 256) by (vm_compute; reflexivity).
  assert (Hfrom : ATOMIX_HALT <= lay_flag (layer_of 8 halted.1 256) <= ATOMIX_LOOP)
    by (vm_compute; split; discriminate).
  assert (Hto : ATOMIX_STOP <= ATOMIX_PLAY <= ATOMIX_LOOP)
    by (vm_compute; split; discriminate).
  refine (conj HL (conj Hok (conj Hid (conj Hfrom (conj Hto _))))).
  apply (proj1 (C3_set_state_transitions 8 HL halted.1 Hok) 256 ATOMIX_PLAY Hid Hfrom Hto).
Defined.

(** The clamped NaN of [loud_mixer], and the frame that the next call
    takes from the carry. *)
Lemma X23_witness :
  carry_ok loud_mixer = true /\
  In F32.neg_one (SSE.atomixMixerMix true loud_mixer 4).1.2 /\
  in_unit_range F32.neg_one = true /\
  carry_ok loud_carry = true /\
  In (S754_finite false 8388608 (-149)) (SSE.atomixMixerMix true loud_carry 7).1.2 /\
  in_unit_range (S754_finite false 8388608 (-149)) = true.
Proof.
  assert (Hok : carry_ok loud_mixer = true) by (vm_compute; reflexivity).
  assert (Hin : In F32.neg_one (SSE.atomixMixerMix true loud_mixer 4).1.2)
    by (vm_compute; right; right; left; reflexivity).
  assert (Hok' : carry_ok loud_carry = true) by (vm_compute; reflexivity).
  assert (Hin' : In (S754_finite false 8388608 (-149))
                    (SSE.atomixMixerMix true loud_carry 7).1.2)
    by (vm_compute; left; reflexivity).
  refine (conj Hok (conj Hin (conj _ (conj Hok' (conj Hin' _))))).
  - apply (proj1 X23_clipped_output_stays_in_range loud_mixer 4 F32.neg_one Hok Hin).
  - apply (proj1 X23_clipped_output_stays_in_range loud_carry 7 _ Hok' Hin').
Defined.

(** Seven frames from [loud_carry]: three of the carry and a block of
    four. *)
Lemma X22_witness :
  carry_ok loud_carry = true /\
  0 <= 7 < 2 ^ 31 /\
  Z.of_nat (length (SSE.atomixMixerMix true loud_carry 7).1.2) = 2 * 7.
Proof.
  assert (Hok : carry_ok loud_carry = true) by (vm_compute; reflexivity).
  assert (Hf : 0 <= 7 < 2 ^ 31) by lia.
  refine (conj Hok (conj Hf _)).
  apply (proj1 (proj2 (proj2 X22_mix_writes_the_requested_frames)) true loud_carry 7 Hok Hf).
Defined.

Lemma C6_witness :
  0 <= 8 <= 30 /\
  mixer_ok 8 fresh_mixer = true /\
  halted.2 <> 0 /\
  lay_id (mix_lays halted.1 !!! Z.to_nat (Z.land halted.2 (ATMX_LMASK 8))) = halted.2 /\
  lay_flag (mix_lays halted.1 !!! Z.to_nat (Z.land halted.2 (ATMX_LMASK 8))) = ATOMIX_HALT.
Proof.
  assert (HL : 0 <= 8 <= 30) by lia.
  assert (Hok : mixer_ok 8 fresh_mixer = true) by (vm_compute; reflexivity).
  assert (Hh : halted.2 <> 0) by (vm_compute; discriminate).
  destruct (proj1 (C6_play_handle_addresses_its_layer 8 HL fresh_mixer (constant_one 8)
                     ATOMIX_HALT F32.one F32.zero 0 (snd_len (constant_one 8)) 4 Hok) Hh)
    as (Hid & Hflag & _).
  exact (conj HL (conj Hok (conj Hh (conj Hid Hflag)))).
Defined.

Lemma C7_witness :
  0 <= 8 <= 30 /\
  mixer_ok 8 halted.1 = true /\
  atomixMixerSetState 8 (atomixMixerStopAll halted.1) 256 ATOMIX_PLAY
  = (atomixMixerStopAll halted.1, 0).
Proof.
  assert (HL : 0 <= 8 <= 30) by lia.
  assert (Hok : mixer_ok 8 halted.1 = true) by (vm_compute; reflexivity).
  refine (conj HL (conj Hok _)).
  apply (proj2 (C7_stop_all_invalidates_handles 8 HL halted.1 Hok)
           256 F32.one F32.zero 0 ATOMIX_PLAY).
Defined.

Lemma C8_witness :
  - 2 ^ 31 <= 0 < 2 ^ 31 /\
  - 2 ^ 31 <= 2 < 2 ^ 31 /\
  (ATOMIX_PLAY < 1 \/ 4 < ATOMIX_PLAY \/ 2 - 0 < 4 \/ 2 < 4) /\
  atomixMixerPlayAdv 8 fresh_mixer (constant_one 8) ATOMIX_PLAY F32.one F32.zero 0 2 0
  = (fresh_mixer, 0).
Proof.
  assert (Hs : - 2 ^ 31 <= 0 < 2 ^ 31) by lia.
  assert (He : - 2 ^ 31 <= 2 < 2 ^ 31) by lia.
  assert (Hbad : ATOMIX_PLAY < 1 \/ 4 < ATOMIX_PLAY \/ 2 - 0 < 4 \/ 2 < 4)
    by (right; right; left; lia).
  refine (conj Hs (conj He (conj Hbad _))).
  apply (C8_play_adv_rejects_bad_arguments 8 fresh_mixer (constant_one 8) ATOMIX_PLAY
           F32.one F32.zero 0 2 0 Hs He Hbad).
Defined.

Lemma C9_witness :
  F32.is_finite (ratio 1 10) = true /\
  F32.valid (ratio 1 10) = true /\
  F32.add (f2_l (atmxGainf2 (ratio 1 10) F32.neg_one))
          (f2_r (atmxGainf2 (ratio 1 10) F32.neg_one)) = ratio 1 10.
Proof.
  assert (Hfin : F32.is_finite (ratio 1 10) = true) by (vm_compute; reflexivity).
  assert (Hval : F32.valid (ratio 1 10) = true) by (vm_compute; reflexivity).
  refine (conj Hfin (conj Hval _)).
  apply (proj1 (proj2 C9_gainpan_linear_law) (ratio 1 10) Hfin Hval).
Defined.

Lemma C10_witness :
  0 <= 2 <= 30 /\
  mixer_ok 2 full_mixer = true /\
  1 <= ATOMIX_PLAY <= 4 /\
  4 <= wrap_i32 (4 - 0) /\
  4 <= 4 /\
  forallb (fun lay => negb (lay_flag lay =? 0)) (mix_lays full_mixer) = true /\
  (atomixMixerPlayAdv 2 full_mixer (constant_one 4) ATOMIX_PLAY F32.one F32.zero 0 4 0).2 = 0.
Proof.
  assert (HL : 0 <= 2 <= 30) by lia.
  assert (Hok : mixer_ok 2 full_mixer = true) by (vm_compute; reflexivity).
  assert (Hflag : 1 <= ATOMIX_PLAY <= 4) by (vm_compute; split; discriminate).
  assert (Hdiff : 4 <= wrap_i32 (4 - 0)) by (vm_compute; discriminate).
  assert (Hend : 4 <= 4) by lia.
  assert (Hfull : forallb (fun lay => negb (lay_flag lay =? 0)) (mix_lays full_mixer) = true)
    by (vm_compute; reflexivity).
  refine (conj HL (conj Hok (conj Hflag (conj Hdiff (conj Hend (conj Hfull _)))))).
  apply (C10_play_adv_without_free_layer 2 HL full_mixer (constant_one 4) ATOMIX_PLAY
           F32.one F32.zero 0 4 0 Hok Hflag Hdiff Hend Hfull).
Defined.

(** A call of [atomixMixerPlay] on [full_mixer], whatever its counter,
    finds no layer and moves the counter on by four. *)
Lemma full_mixer_refuses (nid : Z) :
  (atomixMixerPlay 2 (set_mix_nid full_mixer nid) (constant_one 4) ATOMIX_LOOP
     F32.one F32.zero).1
  = set_mix_nid full_mixer (wrap_u32 (nid + 4)).
Proof.
  unfold atomixMixerPlay, atomixMixerPlayAdv.
  change ((ATOMIX_LOOP <? 1) || (4 <? ATOMIX_LOOP)) with false.
  change ((wrap_i32 (snd_len (constant_one 4) - 0) <? 4)
          || (snd_len (constant_one 4) <? 4)) with false.
  cbv iota.
  rewrite (play_probe_full 2).
  - change (Z.to_nat (ATMX_LAYERS 2)) with 4%nat.
    rewrite iter_wrap_succ by lia. reflexivity.
  - intros id. change (mix_lays (set_mix_nid full_mixer nid)) with (mix_lays full_mixer).
    pose proof (slot_lt 2 ltac:(lia) id) as Hlt.
    change (Z.to_nat (ATMX_LAYERS 2)) with 4%nat in Hlt.
    destruct (slot 2 id) as [|[|[|[|k]]]]; try (vm_compute; discriminate). lia.
Qed.

(** The counter of [full_mixer] comes round: [2^30 - 2] calls in vain take
    it from 4 to [2^32 - 4]. *)
Lemma wrapping_mixer_reachable : reachable 2 wrapping_mixer.
Proof.
  assert (Hreach : forall k : nat,
            4 + 4 * Z.of_nat k < 2 ^ 32 ->
            reachable 2 (set_mix_nid full_mixer (4 + 4 * Z.of_nat k))).
  { induction k as [|k IH]; intros Hk.
    - change (set_mix_nid full_mixer (4 + 4 * Z.of_nat 0)) with full_mixer.
      unfold full_mixer. cbn [Nat.iter].
      repeat apply reach_play. apply reach_new.
    - replace (4 + 4 * Z.of_nat (S k)) with (wrap_u32 (4 + 4 * Z.of_nat k + 4))
        by (rewrite wrap_u32_small; lia).
      rewrite <- full_mixer_refuses. apply reach_play. apply IH. lia. }
  unfold wrapping_mixer.
  replace (2 ^ 32 - 4) with (4 + 4 * Z.of_nat (Z.to_nat (2 ^ 30 - 2)))
    by (rewrite Z2Nat.id by lia; reflexivity).
  apply Hreach. rewrite Z2Nat.id by lia. reflexivity.
Qed.

(** C10 as it was worded fails in two ways.  The counter is a [uint32_t]:
    from [nid = 2^32 - 4] a call in vain on the four occupied layers of a
    mixer that a program can reach leaves [nid = 0], not [nid + 4].  And the
    difference [end - start] is taken in [int32_t]: with [start = -2^31]
    and [end = 2^31 - 4], which lie more than four frames apart, it wraps
    to -4, the call is refused as a bad argument and [nid] stays at 4. *)
Lemma C10_counterexample_counter_wraps :
  reachable 2 wrapping_mixer /\
  mixer_ok 2 wrapping_mixer = true /\
  forallb (fun lay => negb (lay_flag lay =? 0)) (mix_lays wrapping_mixer) = true /\
  (let r := atomixMixerPlayAdv 2 wrapping_mixer (constant_one 4) ATOMIX_PLAY
              F32.one F32.zero 0 4 0 in
   r.2 = 0 /\ mix_nid r.1 = 0 /\
   mix_nid r.1 <> mix_nid wrapping_mixer + ATMX_LAYERS 2) /\
  (let r := atomixMixerPlayAdv 2 full_mixer (constant_one 4) ATOMIX_PLAY
              F32.one F32.zero (- 2 ^ 31) (2 ^ 31 - 4) 0 in
   4 <= (2 ^ 31 - 4) - (- 2 ^ 31) /\ 4 <= 2 ^ 31 - 4 /\
   r.2 = 0 /\ mix_nid r.1 = mix_nid full_mixer /\
   mix_nid r.1 <> mix_nid full_mixer + ATMX_LAYERS 2).
Proof.
  split; [exact wrapping_mixer_reachable|].
  vm_compute. repeat split; discriminate.
Qed.

(** A mono sound of ones at gain 1, pan 0 comes out as 0.5 on both sides. *)
Example mono_constant :
  let mix := (playing fresh_mixer (constant_one 8) ATOMIX_PLAY F32.one F32.zero 0).1 in
  (Scalar.atomixMixerMix true mix 8).1.2 = replicate 16 F32.half /\
  (SSE.atomixMixerMix true mix 8).1.2 = replicate 16 F32.half.
Proof. vm_compute. now split. Qed.

(** Pan +1 silences the left side of a stereo sound. *)
Example stereo_full_right :
  let mix := (playing fresh_mixer stereo_ones ATOMIX_PLAY F32.one F32.one 0).1 in
  let out := [F32.zero; F32.one; F32.zero; F32.one; F32.zero; F32.one; F32.zero; F32.one] in
  (Scalar.atomixMixerMix true mix 4).1.2 = out /\
  (SSE.atomixMixerMix true mix 4).1.2 = out.
Proof. vm_compute. now split. Qed.

(** A looping layer whose end lies past the sound reads it again from the
    start; without clipping the samples 1, 2, 3, 4 come out twice. *)
Example loop_wraparound :
  let mix := (atomixMixerPlayAdv 8 fresh_mixer count_sound ATOMIX_LOOP F32.two F32.zero
                0 8 0).1 in
  let left := map F32.of_int [1; 2; 3; 4; 1; 2; 3; 4] in
  left_channel (Scalar.atomixMixerMix false mix 8).1.2 = left /\
  left_channel (SSE.atomixMixerMix false mix 8).1.2 = left.
Proof. vm_compute. now split. Qed.

(** Four layers, six calls to play: the fifth and the sixth return 0. *)
Example exhaustion_with_four_layers :
  let play mix := atomixMixerPlay 2 mix (constant_one 4) ATOMIX_PLAY F32.one F32.zero in
  let m4 := Nat.iter 4 (fun mix => (play mix).1) (atomixMixerNew 2 F32.one 0) in
  (play m4).2 = 0 /\ (play (play m4).1).2 = 0.
Proof. vm_compute. now split. Qed.

(** On a layer that was started stopped, the handle carries the layer's id
    and the layer is not free, yet [atomixMixerSetState] fails. *)
Lemma C3_counterexample_stopped_layer :
  let r := playing fresh_mixer (constant_one 8) ATOMIX_STOP F32.one F32.zero 0 in
  r.2 <> 0 /\
  lay_id (layer_of 8 r.1 r.2) = r.2 /\
  lay_flag (layer_of 8 r.1 r.2) = ATOMIX_STOP /\
  lay_flag (layer_of 8 r.1 r.2) <> 0 /\
  atomixMixerSetState 8 r.1 r.2 ATOMIX_PLAY = (r.1, 0).
Proof. vm_compute. repeat split; discriminate. Qed.

(** * Further properties

    The functions one by one, then the mixing thread layer by layer, then
    whole runs of a program. *)

Module TruncFacts.

Lemma trunc4_mod z : trunc4 z mod 4 = 0.
Proof.
  rewrite CarryFacts.trunc4_spec, Z.mul_comm. apply Z.mod_mul. lia.
Qed.

Lemma trunc4_bounds z : trunc4 z <= z < trunc4 z + 4.
Proof.
  rewrite CarryFacts.trunc4_spec.
  pose proof (Z.div_mod z 4 ltac:(lia)).
  pose proof (Z.mod_pos_bound z 4 ltac:(lia)). lia.
Qed.

Lemma trunc4_fixed z : z mod 4 = 0 -> trunc4 z = z.
Proof.
  intros H. rewrite CarryFacts.trunc4_spec.
  pose proof (Z.div_mod z 4 ltac:(lia)). lia.
Qed.

Lemma trunc4_nonneg z : 0 <= z -> 0 <= trunc4 z.
Proof.
  intros H. rewrite CarryFacts.trunc4_spec.
  pose proof (Z.div_pos z 4 H ltac:(lia)). lia.
Qed.

Lemma trunc4_mono a b : a <= b -> trunc4 a <= trunc4 b.
Proof.
  intros H. rewrite !CarryFacts.trunc4_spec.
  pose proof (Z.div_le_mono a b 4 ltac:(lia) H). lia.
Qed.

Lemma trunc4_gap a b : a + 4 <= b -> trunc4 a + 4 <= trunc4 b.
Proof.
  intros H. rewrite !CarryFacts.trunc4_spec.
  pose proof (Z.div_le_mono (a + 1 * 4) b 4 ltac:(lia) ltac:(lia)) as Hd.
  rewrite Z.div_add in Hd by lia. lia.
Qed.

(** The default fade as [atomixMixerNew] and [atomixMixerFade] store it. *)
Lemma fade_norm fade :
  let f := if fade <? 0 then 0 else trunc4 fade in
  0 <= f /\ f mod 4 = 0 /\ (0 <= fade -> f <= fade < f + 4) /\ (fade < 0 -> f = 0).
Proof.
  cbv zeta. destruct (Z.ltb_spec fade 0).
  - repeat split; try lia.
  - pose proof (trunc4_bounds fade). pose proof (trunc4_nonneg fade ltac:(lia)).
    pose proof (trunc4_mod fade). repeat split; try lia.
Qed.

End TruncFacts.

Import TruncFacts.

(** ** atomixSoundNew: the sizes it computes *)

Module SoundFacts.

Lemma float_bytes_small n cha :
  0 <= n * cha < 2 ^ 31 -> float_bytes n cha = 4 * (n * cha).
Proof.
  intros H. unfold float_bytes, wrap_size.
  rewrite wrap_i32_small by lia.
  rewrite (Z.mod_small (n * cha)) by lia.
  rewrite Z.mod_small by lia. lia.
Qed.

(** The padded length, and how many samples it takes. *)
Lemma padded_length cha len :
  1 <= cha <= 2 -> 1 <= len <= 2 ^ 31 / cha - 4 ->
  let rlen := trunc4 (len + 3) in
  rlen mod 4 = 0 /\ len <= rlen < len + 4 /\
  0 <= len * cha <= rlen * cha /\ rlen * cha < 2 ^ 31.
Proof.
  intros Hcha Hlen rlen.
  pose proof (trunc4_mod (len + 3)) as Hm.
  pose proof (trunc4_bounds (len + 3)) as Hb.
  fold rlen in Hm, Hb.
  assert (Hge : len <= rlen).
  { unfold rlen in *. rewrite CarryFacts.trunc4_spec in *.
    Z.div_mod_to_equations. lia. }
  assert (Hc : cha = 1 \/ cha = 2) by lia.
  destruct Hc as [-> | ->].
  - change (2 ^ 31 / 1) with (2 ^ 31) in Hlen. repeat split; lia.
  - change (2 ^ 31 / 2) with (2 ^ 30) in Hlen.
    assert (rlen <= 2 ^ 30 - 4) by (Z.div_mod_to_equations; lia).
    repeat split; lia.
Qed.

(** While the padded count of samples fits [int], the allocation is
    granted and the sound is the caller's samples with zeros after them. *)
Lemma sound_new_fits cha data len :
  1 <= cha <= 2 -> 1 <= len <= 2 ^ 31 / cha - 4 ->
  atomixSoundNew cha data len =
  Some {| snd_cha := cha; snd_len := trunc4 (len + 3);
          snd_data :=
            take (Z.to_nat (len * cha)) data
            ++ replicate (Z.to_nat (trunc4 (len + 3) * cha)
                          - length (take (Z.to_nat (len * cha)) data))%nat F32.zero |}.
Proof.
  intros Hcha Hlen.
  destruct (padded_length cha len Hcha Hlen) as (Hm & Hb & Hsam & Hfit).
  assert (Hle : len <= 2 ^ 31 - 4).
  { assert (Hc : cha = 1 \/ cha = 2) by lia.
    destruct Hc as [-> | ->];
      [change (2 ^ 31 / 1) with (2 ^ 31) in Hlen
      |change (2 ^ 31 / 2) with (2 ^ 30) in Hlen]; lia. }
  unfold atomixSoundNew.
  destruct (Z.ltb_spec cha 1); [lia|].
  destruct (Z.ltb_spec 2 cha); [lia|].
  destruct (Z.ltb_spec len 1); [lia|]. cbn [orb].
  rewrite wrap_i32_small by lia. fold (trunc4 (len + 3)).
  rewrite !float_bytes_small by lia.
  unfold ZALLOC_MAX.
  destruct (Z.ltb_spec (2 ^ 63 - 1) (4 * (trunc4 (len + 3) * cha))); [lia|].
  rewrite !(Z.mul_comm 4), !Z.div_mul by lia. reflexivity.
Qed.

(** The request [sizeof(struct atomix_sound) + rlen*cha*sizeof(float)],
    with or without the 15 bytes of room for alignment: the bytes added to
    those of the samples never decide whether the allocator can serve it. *)
Lemma sound_request_header cha len header :
  1 <= cha <= 2 -> 1 <= len < 2 ^ 31 -> 0 <= header <= 31 ->
  let room := float_bytes (trunc4 (wrap_i32 (len + 3))) cha in
  (ZALLOC_MAX <? wrap_size (header + room)) = (ZALLOC_MAX <? room).
Proof.
  intros Hcha Hlen Hh room.
  set (rlen := trunc4 (wrap_i32 (len + 3))) in *.
  set (p := wrap_i32 (rlen * cha)).
  assert (Hp : (0 <= p < 2 ^ 31 \/ - 2 ^ 31 <= p <= - 8)).
  { unfold p, rlen. rewrite CarryFacts.trunc4_spec. unfold wrap_i32.
    assert (Hc : cha = 1 \/ cha = 2) by lia.
    destruct Hc as [-> | ->]; Z.div_mod_to_equations; lia. }
  assert (Hroom : room = if p <? 0 then 2 ^ 64 + 4 * p else 4 * p).
  { unfold room, float_bytes, wrap_size. fold p.
    destruct (Z.ltb_spec p 0); Z.div_mod_to_equations; lia. }
  rewrite Hroom. unfold wrap_size, ZALLOC_MAX.
  destruct (Z.ltb_spec p 0).
  - rewrite Z.mod_small by lia.
    destruct (Z.ltb_spec (2 ^ 63 - 1) (header + (2 ^ 64 + 4 * p))); [|lia].
    destruct (Z.ltb_spec (2 ^ 63 - 1) (2 ^ 64 + 4 * p)); [reflexivity|lia].
  - rewrite Z.mod_small by lia.
    destruct (Z.ltb_spec (2 ^ 63 - 1) (header + 4 * p)); [lia|].
    destruct (Z.ltb_spec (2 ^ 63 - 1) (4 * p)); [lia|reflexivity].
Qed.

End SoundFacts.

(** X1: atomixSoundNew, given one or two channels and a length of at least
    1 and at most 2^31/channels - 4 (so that the padded count of samples
    fits int), returns a sound whose length (as atomixSoundLength reports
    it) is the least multiple of four that holds the frames, and whose
    data is the caller's data followed by zeros up to that length. *)
Theorem X1_sound_new_pads_to_block (cha : Z) (data : list float32) (len : Z) :
  1 <= cha <= 2 -> 1 <= len <= 2 ^ 31 / cha - 4 ->
  length data = Z.to_nat (len * cha) ->
  exists snd,
    atomixSoundNew cha data len = Some snd /\
    snd_cha snd = cha /\
    atomixSoundLength snd mod 4 = 0 /\
    len <= atomixSoundLength snd < len + 4 /\
    length (snd_data snd) = Z.to_nat (atomixSoundLength snd * cha) /\
    snd_data snd =
      data ++ replicate (Z.to_nat ((atomixSoundLength snd - len) * cha)) F32.zero.
Proof.
  intros Hcha Hlen Hdata.
  rewrite (SoundFacts.sound_new_fits cha data len Hcha Hlen).
  destruct (SoundFacts.padded_length cha len Hcha Hlen) as (Hm & Hb & Hsam & Hfit).
  eexists. split; [reflexivity|]. unfold atomixSoundLength. cbn [snd_cha snd_len snd_data].
  set (rlen := trunc4 (len + 3)) in *.
  rewrite firstn_all2 by lia.
  assert (Hn : (Z.to_nat (rlen * cha) - length data)%nat
               = Z.to_nat ((rlen - len) * cha)).
  { rewrite Hdata. nia. }
  rewrite Hn.
  repeat split; try lia; try assumption.
  rewrite length_app, length_replicate, Hdata. nia.
Qed.

Section ControllerFacts.

Variable LBITS : Z.
Hypothesis LBITS_range : 0 <= LBITS <= 30.

Lemma insert_lookup_total_ne (lays : list atmx_layer) (i j : nat) (x : atmx_layer) :
  i <> j -> <[i := x]> lays !!! j = lays !!! j.
Proof.
  intros H. rewrite !list_lookup_total_alt.
  rewrite list_lookup_insert_ne by assumption. reflexivity.
Qed.

Lemma insert_lookup_total_eq (lays : list atmx_layer) (i : nat) (x : atmx_layer) :
  (i < length lays)%nat -> <[i := x]> lays !!! i = x.
Proof.
  intros H. rewrite list_lookup_total_alt.
  rewrite list_lookup_insert_eq by assumption. reflexivity.
Qed.

Lemma play_probe_settings (n : nat) (mix : atomix_mixer) (snd : atomix_sound)
    (flag : Z) (gain pan : float32) (start end_ fade : Z) :
  let mix' := (play_probe LBITS n mix snd flag gain pan start end_ fade).1 in
  mix_volume mix' = mix_volume mix /\ mix_fade mix' = mix_fade mix.
Proof.
  revert mix. induction n as [|n IH]; intros mix; simpl; [split; reflexivity|].
  destruct (_ =? 0); [split; reflexivity|].
  destruct (IH (set_mix_nid mix (wrap_u32 (mix_nid mix + 1)))) as [Hv Hf].
  split; assumption.
Qed.

Lemma play_adv_settings (mix : atomix_mixer) (snd : atomix_sound)
    (flag : Z) (gain pan : float32) (start end_ fade : Z) :
  let mix' := (atomixMixerPlayAdv LBITS mix snd flag gain pan start end_ fade).1 in
  mix_volume mix' = mix_volume mix /\ mix_fade mix' = mix_fade mix.
Proof.
  unfold atomixMixerPlayAdv.
  destruct (_ || _); [split; reflexivity|]. destruct (_ || _); [split; reflexivity|].
  apply play_probe_settings.
Qed.

(** X2: atomixMixerFade stores the fade rounded down to a multiple of four
    (negative fades as 0), leaves the layers alone, and a layer that
    atomixMixerPlay adds afterwards has that value as its fade maximum. *)
Theorem X2_default_fade_reaches_new_layers (mix : atomix_mixer) (fade : Z)
    (snd : atomix_sound) (flag : Z) (gain pan : float32) :
  mixer_ok LBITS mix = true ->
  let mix1 := atomixMixerFade mix fade in
  let r := atomixMixerPlay LBITS mix1 snd flag gain pan in
  r.2 <> 0 ->
  mix_lays mix1 = mix_lays mix /\
  0 <= mix_fade mix1 /\ mix_fade mix1 mod 4 = 0 /\
  (0 <= fade -> mix_fade mix1 <= fade < mix_fade mix1 + 4) /\
  (fade < 0 -> mix_fade mix1 = 0) /\
  lay_fmax (layer_of LBITS r.1 r.2) = mix_fade mix1 /\
  mix_fade r.1 = mix_fade mix1.
Proof.
  intros Hok mix1 r Hr.
  pose proof (fade_norm fade) as (H0 & Hm & Hb & Hn).
  assert (Hok1 : mixer_ok LBITS mix1 = true) by exact Hok.
  pose proof (play_adv_fade_init LBITS LBITS_range mix1 snd flag gain pan 0
                (snd_len snd) (mix_fade mix1) Hok1 Hr) as (Hfmax & _).
  pose proof (play_adv_alloc LBITS LBITS_range mix1 snd flag gain pan 0
                (snd_len snd) (mix_fade mix1) Hok1 Hr)
    as (_ & _ & id & _ & _ & _ & _ & Hlays).
  fold r in Hlays.
  assert (Hfade : mix_fade r.1 = mix_fade mix1).
  { apply play_adv_settings. }
  split; [reflexivity|]. split; [exact H0|]. split; [exact Hm|].
  split; [exact Hb|]. split; [exact Hn|]. split; [|exact Hfade].
  unfold r, atomixMixerPlay. rewrite Hfmax.
  change (mix_fade mix1) with (if fade <? 0 then 0 else trunc4 fade).
  destruct (Z.ltb_spec fade 0); [reflexivity|].
  destruct (Z.ltb_spec (trunc4 fade) 0).
  - pose proof (trunc4_nonneg fade ltac:(lia)). lia.
  - apply trunc4_fixed, trunc4_mod.
Qed.

(** X3: On success atomixMixerPlayAdv took a free layer and changed no
    other; the new layer holds the sound, start and end rounded down to
    multiples of four, the cursor at start, and a window of at least four
    frames ending at frame 4 or later. *)
Theorem X3_play_adv_window (mix : atomix_mixer) (snd : atomix_sound) (flag : Z)
    (gain pan : float32) (start end_ fade : Z) :
  mixer_ok LBITS mix = true ->
  - 2 ^ 31 <= start < 2 ^ 31 -> - 2 ^ 31 <= end_ < 2 ^ 31 ->
  let r := atomixMixerPlayAdv LBITS mix snd flag gain pan start end_ fade in
  r.2 <> 0 ->
  let lay := layer_of LBITS r.1 r.2 in
  lay_snd lay = Some snd /\
  lay_start lay mod 4 = 0 /\ lay_start lay <= start < lay_start lay + 4 /\
  lay_end lay mod 4 = 0 /\ lay_end lay <= end_ < lay_end lay + 4 /\
  lay_cursor lay = lay_start lay /\
  lay_start lay + 4 <= lay_end lay /\ 4 <= lay_end lay /\
  lay_flag (layer_of LBITS mix r.2) = 0 /\
  forall i : nat, i <> slot LBITS r.2 -> mix_lays r.1 !!! i = mix_lays mix !!! i.
Proof.
  intros Hok Hs He r Hr lay.
  pose proof (play_adv_alloc LBITS LBITS_range mix snd flag gain pan start end_
                fade Hok Hr) as (Hflag & Hlay & id & Hfree & _ & _ & Hslot & Hlays).
  fold r in Hlay, Hslot, Hlays.
  assert (Hargs : start + 4 <= end_ /\ 4 <= end_).
  { unfold r, atomixMixerPlayAdv in Hr.
    destruct (_ || _); [contradiction Hr; reflexivity|].
    destruct (Z.ltb_spec (wrap_i32 (end_ - start)) 4) as [|Hw];
      [contradiction Hr; reflexivity|].
    destruct (Z.ltb_spec end_ 4) as [|H4]; [contradiction Hr; reflexivity|].
    split; [|assumption].
    destruct (Z.lt_ge_cases (end_ - start) (2 ^ 31)) as [Hlt|Hge].
    - rewrite wrap_i32_small in Hw by lia. lia.
    - unfold wrap_i32 in Hw.
      replace (end_ - start + 2 ^ 31)
        with (end_ - start - 2 ^ 31 + 1 * 2 ^ 32) in Hw by lia.
      rewrite Z_mod_plus_full, Z.mod_small in Hw by lia. lia. }
  destruct Hargs as [Hgap H4].
  unfold lay. rewrite Hlay. simpl.
  pose proof (trunc4_mod start). pose proof (trunc4_bounds start).
  pose proof (trunc4_mod end_). pose proof (trunc4_bounds end_).
  pose proof (trunc4_gap start end_ Hgap).
  pose proof (trunc4_mono 4 end_ H4) as H4'.
  rewrite (trunc4_fixed 4) in H4' by reflexivity.
  split; [reflexivity|]. split; [assumption|]. split; [assumption|].
  split; [assumption|]. split; [assumption|]. split; [reflexivity|].
  split; [assumption|]. split; [assumption|]. split.
  - unfold layer_of. rewrite Hslot. exact Hfree.
  - intros i Hi. rewrite Hlays, <- Hslot.
    apply insert_lookup_total_ne. congruence.
Qed.

(** X4: On a valid handle atomixMixerSetCursor returns 1 and changes only
    that layer's cursor: to start when the request lies before it, to end
    when it lies after it, else to the request rounded down to a multiple
    of four; the new cursor is inside the window and a multiple of four. *)
Theorem X4_set_cursor_clamps (mix : atomix_mixer) (id cursor : Z) :
  mixer_ok LBITS mix = true ->
  let lay := layer_of LBITS mix id in
  lay_id lay = id -> 1 < lay_flag lay ->
  lay_start lay mod 4 = 0 -> lay_end lay mod 4 = 0 ->
  lay_start lay <= lay_end lay ->
  let r := atomixMixerSetCursor LBITS mix id cursor in
  let c := lay_cursor (layer_of LBITS r.1 id) in
  r.2 = 1 /\
  layer_of LBITS r.1 id = set_lay_cursor lay c /\
  c mod 4 = 0 /\ lay_start lay <= c <= lay_end lay /\
  (cursor < lay_start lay -> c = lay_start lay) /\
  (lay_end lay < cursor -> c = lay_end lay) /\
  (lay_start lay <= cursor <= lay_end lay -> c <= cursor < c + 4) /\
  forall i : nat, i <> slot LBITS id -> mix_lays r.1 !!! i = mix_lays mix !!! i.
Proof.
  intros Hok lay Hid Hflag Hs He Hse r c.
  pose proof (mixer_ok_length LBITS mix Hok) as Hlen.
  pose proof (slot_lt LBITS LBITS_range id) as Hlt.
  assert (Hr : r = (set_mix_lays mix
                       (<[slot LBITS id :=
                            set_lay_cursor lay
                              (if cursor <? lay_start lay then lay_start lay
                               else if lay_end lay <? cursor then lay_end lay
                               else trunc4 cursor)]> (mix_lays mix)), 1)).
  { unfold r, atomixMixerSetCursor. fold (layer_of LBITS mix id). fold lay.
    rewrite Hid, Z.eqb_refl. destruct (Z.ltb_spec 1 (lay_flag lay)); [|lia].
    reflexivity. }
  assert (Hlay : layer_of LBITS r.1 id = set_lay_cursor lay
                   (if cursor <? lay_start lay then lay_start lay
                    else if lay_end lay <? cursor then lay_end lay
                    else trunc4 cursor)).
  { rewrite Hr. unfold layer_of. simpl. apply insert_lookup_total_eq. lia. }
  assert (Hc : c = if cursor <? lay_start lay then lay_start lay
                   else if lay_end lay <? cursor then lay_end lay
                   else trunc4 cursor).
  { unfold c. rewrite Hlay. reflexivity. }
  pose proof (trunc4_mod cursor). pose proof (trunc4_bounds cursor).
  assert (Hmono : lay_start lay <= cursor -> lay_start lay <= trunc4 cursor).
  { intros Hle. rewrite <- (trunc4_fixed (lay_start lay)) at 1 by assumption.
    apply trunc4_mono, Hle. }
  split; [rewrite Hr; reflexivity|].
  split; [rewrite Hlay, Hc; reflexivity|].
  split; [|split; [|split; [|split; [|split]]]].
  - rewrite Hc. destruct (_ <? _); [assumption|]. destruct (_ <? _); assumption.
  - rewrite Hc. destruct (Z.ltb_spec cursor (lay_start lay)); [lia|].
    destruct (Z.ltb_spec (lay_end lay) cursor); [lia|].
    specialize (Hmono ltac:(assumption)). lia.
  - intros Hlow. rewrite Hc. destruct (Z.ltb_spec cursor (lay_start lay)); [reflexivity|lia].
  - intros Hhigh. rewrite Hc. destruct (Z.ltb_spec cursor (lay_start lay)); [lia|].
    destruct (Z.ltb_spec (lay_end lay) cursor); [reflexivity|lia].
  - intros Hin. rewrite Hc. destruct (Z.ltb_spec cursor (lay_start lay)); [lia|].
    destruct (Z.ltb_spec (lay_end lay) cursor); [lia|]. assumption.
  - intros i Hi. rewrite Hr. simpl. apply insert_lookup_total_ne. congruence.
Qed.


Lemma set_gain_pan_valid (mix : atomix_mixer) (id : Z) (gain pan : float32) :
  lay_id (layer_of LBITS mix id) = id -> 1 < lay_flag (layer_of LBITS mix id) ->
  atomixMixerSetGainPan LBITS mix id gain pan =
  (set_mix_lays mix
     (<[slot LBITS id := set_lay_gain (layer_of LBITS mix id) (atmxGainf2 gain pan)]>
        (mix_lays mix)), 1).
Proof.
  intros Hid Hflag. unfold atomixMixerSetGainPan. fold (layer_of LBITS mix id).
  rewrite Hid, Z.eqb_refl. destruct (Z.ltb_spec 1 (lay_flag (layer_of LBITS mix id))); [|lia].
  reflexivity.
Qed.

Lemma set_cursor_valid (mix : atomix_mixer) (id cursor : Z) :
  lay_id (layer_of LBITS mix id) = id -> 1 < lay_flag (layer_of LBITS mix id) ->
  atomixMixerSetCursor LBITS mix id cursor =
  (set_mix_lays mix
     (<[slot LBITS id :=
          set_lay_cursor (layer_of LBITS mix id)
            (if cursor <? lay_start (layer_of LBITS mix id)
             then lay_start (layer_of LBITS mix id)
             else if lay_end (layer_of LBITS mix id) <? cursor
                  then lay_end (layer_of LBITS mix id)
                  else trunc4 cursor)]>
        (mix_lays mix)), 1).
Proof.
  intros Hid Hflag. unfold atomixMixerSetCursor. fold (layer_of LBITS mix id).
  rewrite Hid, Z.eqb_refl. destruct (Z.ltb_spec 1 (lay_flag (layer_of LBITS mix id))); [|lia].
  reflexivity.
Qed.

(** X5: atomixMixerSetGainPan and atomixMixerSetCursor on valid handles
    (the same or two different ones) give the same mixer in either order;
    both succeed, the gain is atmxGainf2 of the request and the flags are
    untouched. *)
Theorem X5_set_gain_pan_and_set_cursor_commute (mix : atomix_mixer) (id1 id2 : Z)
    (gain pan : float32) (cursor : Z) :
  mixer_ok LBITS mix = true ->
  lay_id (layer_of LBITS mix id1) = id1 -> 1 < lay_flag (layer_of LBITS mix id1) ->
  lay_id (layer_of LBITS mix id2) = id2 -> 1 < lay_flag (layer_of LBITS mix id2) ->
  let a := atomixMixerSetCursor LBITS (atomixMixerSetGainPan LBITS mix id1 gain pan).1
             id2 cursor in
  let b := atomixMixerSetGainPan LBITS (atomixMixerSetCursor LBITS mix id2 cursor).1
             id1 gain pan in
  a = b /\ a.2 = 1 /\
  lay_gain (layer_of LBITS a.1 id1) = atmxGainf2 gain pan /\
  lay_flag (layer_of LBITS a.1 id1) = lay_flag (layer_of LBITS mix id1) /\
  lay_flag (layer_of LBITS a.1 id2) = lay_flag (layer_of LBITS mix id2).
Proof.
  intros Hok Hid1 Hf1 Hid2 Hf2.
  pose proof (mixer_ok_length LBITS mix Hok) as Hlen.
  pose proof (slot_lt LBITS LBITS_range id1) as Hlt1.
  pose proof (slot_lt LBITS LBITS_range id2) as Hlt2.
  rewrite (set_gain_pan_valid mix id1 gain pan Hid1 Hf1).
  rewrite (set_cursor_valid mix id2 cursor Hid2 Hf2). simpl.
  destruct (decide (slot LBITS id1 = slot LBITS id2)) as [Heq|Hne].
  - assert (Hsame : id1 = id2).
    { rewrite <- Hid1, <- Hid2. unfold layer_of. rewrite Heq. reflexivity. }
    subst id2. clear Heq Hid2 Hf2 Hlt2.
    rewrite set_cursor_valid, set_gain_pan_valid;
      unfold layer_of in *; simpl; rewrite ?insert_lookup_total_eq by lia;
      simpl; try assumption.
    rewrite !list_insert_insert_eq. simpl.
    rewrite !insert_lookup_total_eq by (rewrite ?length_insert; lia).
    repeat split; reflexivity.
  - assert (Hl12 : <[slot LBITS id2 := set_lay_cursor (layer_of LBITS mix id2) 0]>
                     (mix_lays mix) !!! slot LBITS id1 = layer_of LBITS mix id1)
      by (apply insert_lookup_total_ne; congruence).
    rewrite set_cursor_valid, set_gain_pan_valid;
      unfold layer_of in *; simpl;
      rewrite ?insert_lookup_total_ne by congruence; try assumption.
    rewrite (list_insert_insert_ne _ (slot LBITS id2) (slot LBITS id1)) by congruence.
    simpl. split; [reflexivity|]. split; [reflexivity|].
    rewrite (insert_lookup_total_ne _ (slot LBITS id1) (slot LBITS id2)) by congruence.
    rewrite !insert_lookup_total_eq by (rewrite ?length_insert; lia).
    repeat split; reflexivity.
Qed.

Lemma slot_zero : slot LBITS 0 = 0%nat.
Proof.
  rewrite slot_spec by assumption.
  rewrite Z.mod_0_l; [reflexivity|].
  pose proof (ATMX_LAYERS_pos LBITS LBITS_range). lia.
Qed.

(** X6: atomixMixerHaltAll turns playing and looping layers into halted
    ones and nothing else; atomixMixerPlayAll turns halted layers into
    playing ones and nothing else; so after both every layer that was
    halted, playing or looping plays, a loop included, and free and
    stopped layers are as before. Halting twice is halting once. *)
Theorem X6_halt_all_then_play_all (mix : atomix_mixer) (i : nat) :
  mixer_ok LBITS mix = true ->
  (i < Z.to_nat (ATMX_LAYERS LBITS))%nat ->
  let lay := mix_lays mix !!! i in
  let h := mix_lays (atomixMixerHaltAll mix) !!! i in
  let p := mix_lays (atomixMixerPlayAll (atomixMixerHaltAll mix)) !!! i in
  h = (if 2 <? lay_flag lay then set_lay_flag lay ATOMIX_HALT else lay) /\
  p = (if 1 <? lay_flag lay then set_lay_flag lay ATOMIX_PLAY else lay) /\
  mix_lays (atomixMixerPlayAll mix) !!! i =
    (if lay_flag lay =? ATOMIX_HALT then set_lay_flag lay ATOMIX_PLAY else lay) /\
  atomixMixerHaltAll (atomixMixerHaltAll mix) = atomixMixerHaltAll mix.
Proof.
  intros Hok Hi lay h p.
  pose proof (mixer_ok_length LBITS mix Hok) as Hlen.
  pose proof (mixer_ok_flag LBITS mix i Hok) as Hflag. fold lay in Hflag.
  assert (Hh : h = halt_layer lay).
  { unfold h, atomixMixerHaltAll. simpl. apply map_lookup_total. lia. }
  assert (Hp : p = play_layer (halt_layer lay)).
  { unfold p, atomixMixerPlayAll, atomixMixerHaltAll. simpl.
    rewrite map_map. apply (map_lookup_total (fun x => play_layer (halt_layer x))). lia. }
  assert (Hq : mix_lays (atomixMixerPlayAll mix) !!! i = play_layer lay).
  { unfold atomixMixerPlayAll. simpl. apply map_lookup_total. lia. }
  rewrite Hh, Hp, Hq. clear Hh Hp Hq h p.
  split; [|split; [|split]].
  - unfold halt_layer, ATMX_CSWAP. rewrite Z.eqb_refl. reflexivity.
  - unfold play_layer, halt_layer, ATMX_CSWAP. rewrite Z.eqb_refl.
    destruct (Z.ltb_spec 2 (lay_flag lay)); simpl.
    + destruct (Z.ltb_spec 1 (lay_flag lay)); [reflexivity|lia].
    + destruct (Z.eqb_spec (lay_flag lay) ATOMIX_HALT) as [He|Hn]; simpl.
      * rewrite He. reflexivity.
      * destruct (Z.ltb_spec 1 (lay_flag lay)); [unfold ATOMIX_HALT in Hn; lia|].
        apply set_lay_flag_id.
  - unfold play_layer, ATMX_CSWAP.
    destruct (Z.eqb_spec (lay_flag lay) ATOMIX_HALT); simpl; [reflexivity|].
    apply set_lay_flag_id.
  - unfold atomixMixerHaltAll. simpl. f_equal. rewrite map_map.
    apply map_ext. intros x. unfold halt_layer, ATMX_CSWAP.
    rewrite !Z.eqb_refl. simpl.
    destruct (Z.ltb_spec 2 (lay_flag x)); simpl; [reflexivity|].
    destruct (Z.ltb_spec 2 (lay_flag x)); [lia|reflexivity].
Qed.

(** X7: With layer 0 free and valid arguments, atomixMixerPlayAdv returns
    the handle ATMX_LAYERS both when the id counter is 0 and when it is
    ATMX_LAYERS: the handle a fresh mixer issues first is issued a second
    time once the counter has gone round the layers. *)
Theorem X7_first_handle_issued_twice (mix : atomix_mixer) (snd : atomix_sound)
    (flag : Z) (gain pan : float32) (start end_ fade : Z) :
  1 <= flag <= 4 -> 4 <= wrap_i32 (end_ - start) -> 4 <= end_ ->
  lay_flag (mix_lays mix !!! 0%nat) = 0 ->
  mix_nid mix = 0 \/ mix_nid mix = ATMX_LAYERS LBITS ->
  (atomixMixerPlayAdv LBITS mix snd flag gain pan start end_ fade).2
    = ATMX_LAYERS LBITS.
Proof.
  intros Hflag Hlen H4 Hfree Hnid.
  pose proof (ATMX_LAYERS_pos LBITS LBITS_range) as Hpos.
  unfold atomixMixerPlayAdv.
  destruct (Z.ltb_spec flag 1); [lia|]. destruct (Z.ltb_spec 4 flag); [lia|].
  destruct (Z.ltb_spec (wrap_i32 (end_ - start)) 4); [lia|].
  destruct (Z.ltb_spec end_ 4); [lia|]. simpl.
  destruct (Z.to_nat (ATMX_LAYERS LBITS)) as [|n] eqn:Hn; [lia|].
  simpl.
  assert (Hslot : slot LBITS (mix_nid mix) = 0%nat).
  { destruct Hnid as [-> | ->]; [|rewrite slot_LAYERS by assumption]; apply slot_zero. }
  rewrite Hslot, Hfree. simpl.
  destruct Hnid as [-> | ->]; [reflexivity|].
  destruct (Z.eqb_spec (ATMX_LAYERS LBITS) 0); [lia|reflexivity].
Qed.

(** X8: Every sound that atomixSoundNew returns for one or two channels
    and a length between 1 and 2^31/channels - 4 can be played whole: with
    a valid state and some free layer atomixMixerPlay returns a handle,
    and the new layer starts at frame 0 and ends at the sound's length. *)
Theorem X8_play_accepts_every_sound (mix : atomix_mixer) (cha : Z)
    (data : list float32) (len flag : Z) (gain pan : float32) (i : nat) :
  mixer_ok LBITS mix = true ->
  1 <= cha <= 2 -> 1 <= len <= 2 ^ 31 / cha - 4 -> 1 <= flag <= 4 ->
  (i < Z.to_nat (ATMX_LAYERS LBITS))%nat -> lay_flag (mix_lays mix !!! i) = 0 ->
  exists snd,
    atomixSoundNew cha data len = Some snd /\
    let r := atomixMixerPlay LBITS mix snd flag gain pan in
    let lay := layer_of LBITS r.1 r.2 in
    r.2 <> 0 /\ lay_id lay = r.2 /\ lay_flag lay = flag /\ lay_snd lay = Some snd /\
    lay_start lay = 0 /\ lay_cursor lay = 0 /\ lay_end lay = atomixSoundLength snd.
Proof.
  intros Hok Hcha Hlen Hflag Hi Hfree.
  rewrite (SoundFacts.sound_new_fits cha data len Hcha Hlen).
  destruct (SoundFacts.padded_length cha len Hcha Hlen) as (Hm & Hb & Hsam & Hfit).
  eexists. split; [reflexivity|].
  pose proof (trunc4_mono 4 (len + 3) ltac:(lia)) as H4.
  rewrite (trunc4_fixed 4) in H4 by reflexivity.
  unfold atomixMixerPlay, atomixSoundLength. simpl.
  set (rlen := trunc4 (len + 3)) in *.
  set (snd := {| snd_cha := cha; snd_len := rlen; snd_data := _ |}).
  assert (Hr : (atomixMixerPlayAdv LBITS mix snd flag gain pan 0 rlen (mix_fade mix)).2 <> 0).
  { apply (play_adv_succeeds LBITS LBITS_range) with (i := i); try assumption.
    - rewrite Z.sub_0_r, wrap_i32_small by lia. lia. }
  pose proof (play_adv_alloc LBITS LBITS_range mix snd flag gain pan 0 rlen
                (mix_fade mix) Hok Hr) as (_ & Hlay & _).
  split; [exact Hr|]. rewrite Hlay. simpl.
  rewrite (trunc4_fixed rlen) by assumption.
  repeat split; reflexivity.
Qed.

End ControllerFacts.

(** ** What a mix call may do to a layer *)

Lemma mixed_refl lay : mixed lay lay.
Proof. unfold mixed. tauto. Qed.

Lemma mixed_kept lay lay' : lay_flag lay <> 0 -> kept lay lay' -> mixed lay lay'.
Proof. unfold mixed, kept. intros Hf (? & ? & ? & ? & ? & ? & ?). tauto. Qed.

Lemma mixed_freed lay lay' :
  lay_flag lay = ATOMIX_STOP \/ lay_flag lay = ATOMIX_PLAY ->
  kept lay lay' -> mixed lay (set_lay_flag lay' 0).
Proof.
  unfold mixed, kept. intros Hf (? & ? & ? & ? & ? & ? & ?). simpl.
  repeat split; try assumption.
  - right. split; [reflexivity|assumption].
  - intros Hz. unfold ATOMIX_STOP, ATOMIX_PLAY in Hf. lia.
Qed.

Ltac mixed_fade_kernel kernel lemma :=
  match goal with
  | |- context [kernel ?f ?g ?l ?a ?b ?c] =>
      let H := fresh "Hkept" in
      pose proof (lemma f g l a b c) as H;
      destruct (kernel f g l a b c) as [[? ?] ?]; simpl in H |- *
  end.

Ltac mixed_play_kernel kernel lemma :=
  match goal with
  | |- context [kernel ?f ?g ?l ?lp ?a ?b ?c] =>
      let H := fresh "Hkept" in
      pose proof (lemma f g l lp a b c) as H;
      destruct (kernel f g l lp a b c) as [[? ?] ?]; simpl in H |- *
  end.

Ltac mixed_if :=
  match goal with
  | |- context [if ?c then _ else _] => destruct c
  end.

Ltac mixed_stop Hused :=
  match goal with
  | |- mixed ?lay _ =>
      destruct (Z.eqb_spec (lay_flag lay) ATOMIX_STOP); simpl;
      [ mixed_if;
        [ apply mixed_freed; [tauto | assumption || apply kept_refl]
        | apply mixed_kept; [exact Hused | assumption || apply kept_refl] ]
      | apply mixed_kept; [exact Hused | assumption || apply kept_refl] ]
  end.

Ltac mixed_play Hused :=
  match goal with
  | H : kept ?lay _ |- mixed ?lay _ =>
      destruct (Z.eqb_spec (lay_flag lay) ATOMIX_PLAY); simpl;
      [ mixed_if;
        [ unfold ATMX_CSWAP; rewrite (proj1 (proj2 H)), Z.eqb_refl; simpl;
          apply mixed_freed; [tauto | exact H]
        | apply mixed_kept; [exact Hused | exact H] ]
      | apply mixed_kept; [exact Hused | exact H] ]
  end.

Ltac mixed_layer fade_kernel fade_lemma play_kernel play_lemma :=
  match goal with
  | |- mixed ?lay _ =>
      let Hused := fresh "Hused" in
      destruct (Z.eqb_spec (lay_flag lay) 0) as [|Hused]; [apply mixed_refl|];
      destruct (lay_flag lay <? 3);
      [ destruct ((0 <? lay_fade lay) && (lay_cursor lay <? lay_end lay));
        [ destruct (snd_cha (lay_sound lay) =? 1);
          mixed_fade_kernel fade_kernel fade_lemma; mixed_stop Hused
        | mixed_stop Hused ]
      | destruct (snd_cha (lay_sound lay) =? 1);
        mixed_play_kernel play_kernel play_lemma; mixed_play Hused ]
  end.

Lemma scalar_atmxMixLayer_mixed lay vol buff fnum :
  mixed lay (Scalar.atmxMixLayer lay vol buff fnum).1.
Proof.
  unfold Scalar.atmxMixLayer, Scalar.atmxMixFadeMono, Scalar.atmxMixFadeStereo,
    Scalar.atmxMixPlayMono, Scalar.atmxMixPlayStereo.
  mixed_layer Scalar.mix_fade ScalarFrame.mix_fade_kept
              Scalar.mix_play ScalarFrame.mix_play_kept.
Qed.

Lemma sse_atmxMixLayer_mixed lay vol align asize :
  mixed lay (SSE.atmxMixLayer lay vol align asize).1.
Proof.
  unfold SSE.atmxMixLayer, SSE.atmxMixFadeMono, SSE.atmxMixFadeStereo,
    SSE.atmxMixPlayMono, SSE.atmxMixPlayStereo.
  mixed_layer SSE.mix_fade SSEFrame.sse_mix_fade_kept
              SSE.mix_play SSEFrame.sse_mix_play_kept.
Qed.

Lemma scalar_mix_layers_mixed lays : forall vol buff fnum,
  Forall2 mixed lays (Scalar.mix_layers lays vol buff fnum).1.
Proof.
  induction lays as [|lay lays IH]; intros vol buff fnum; [constructor|].
  simpl. pose proof (scalar_atmxMixLayer_mixed lay vol buff fnum) as H1.
  destruct (Scalar.atmxMixLayer lay vol buff fnum) as [lay' buff1].
  pose proof (IH vol buff1 fnum) as H2.
  destruct (Scalar.mix_layers lays vol buff1 fnum) as [lays' buff2].
  simpl in *. now constructor.
Qed.

Lemma sse_mix_layers_mixed lays : forall vol align asize,
  Forall2 mixed lays (SSE.mix_layers lays vol align asize).1.
Proof.
  induction lays as [|lay lays IH]; intros vol align asize; [constructor|].
  simpl. pose proof (sse_atmxMixLayer_mixed lay vol align asize) as H1.
  destruct (SSE.atmxMixLayer lay vol align asize) as [lay' align1].
  pose proof (IH vol align1 asize) as H2.
  destruct (SSE.mix_layers lays vol align1 asize) as [lays' align2].
  simpl in *. now constructor.
Qed.

Lemma Forall2_mixed_refl lays : Forall2 mixed lays lays.
Proof. induction lays; constructor; [apply mixed_refl|assumption]. Qed.

Lemma sse_mix_new_mixed clip mix out rnum fnum :
  let mix' := (SSE.mix_new clip mix out rnum fnum).1.1 in
  mix_nid mix' = mix_nid mix /\ mix_volume mix' = mix_volume mix /\
  mix_fade mix' = mix_fade mix /\ Forall2 mixed (mix_lays mix) (mix_lays mix').
Proof.
  unfold SSE.mix_new.
  match goal with
  | |- context [SSE.mix_layers ?l ?v ?b ?n] =>
      pose proof (sse_mix_layers_mixed l v b n) as H;
      destruct (SSE.mix_layers l v b n) as [lays align]
  end.
  simpl in *. auto.
Qed.

Lemma atomixMixerMix_fade (sse clip : bool) (mix : atomix_mixer) (fnum : Z) :
  mix_fade (if sse then SSE.atomixMixerMix clip mix fnum
            else Scalar.atomixMixerMix clip mix fnum).1.1 = mix_fade mix.
Proof.
  destruct sse.
  - unfold SSE.atomixMixerMix.
    destruct (mix_rem mix =? 0); [apply sse_mix_new_mixed|].
    destruct (mix_rem mix <? fnum); [|reflexivity].
    apply (sse_mix_new_mixed clip (set_mix_carry mix 0 (mix_data mix))).
  - unfold Scalar.atomixMixerMix.
    destruct (Scalar.mix_layers _ _ _ _) as [lays buff]. reflexivity.
Qed.

(** X9: In both builds atomixMixerMix keeps the id counter, the volume and
    the default fade, and in every layer the id, gain, sound, start, end
    and fade maximum; a flag stays or drops to free, and only from stopped
    or playing; a free layer is left exactly as it is. *)
Theorem X9_mixing_moves_cursor_and_fade_only (sse clip : bool) (mix : atomix_mixer)
    (fnum : Z) :
  let mix' := (if sse then SSE.atomixMixerMix clip mix fnum
               else Scalar.atomixMixerMix clip mix fnum).1.1 in
  mix_nid mix' = mix_nid mix /\ mix_volume mix' = mix_volume mix /\
  mix_fade mix' = mix_fade mix /\ Forall2 mixed (mix_lays mix) (mix_lays mix').
Proof.
  destruct sse; cbv zeta.
  - unfold SSE.atomixMixerMix.
    destruct (mix_rem mix =? 0); [apply sse_mix_new_mixed|].
    destruct (mix_rem mix <? fnum).
    + apply (sse_mix_new_mixed clip (set_mix_carry mix 0 (mix_data mix))).
    + simpl. repeat split. apply Forall2_mixed_refl.
  - unfold Scalar.atomixMixerMix.
    match goal with
    | |- context [Scalar.mix_layers ?l ?v ?b ?n] =>
        pose proof (scalar_mix_layers_mixed l v b n) as H;
        destruct (Scalar.mix_layers l v b n) as [lays buff]
    end.
    simpl in *. auto.
Qed.

Module SilenceFacts.

Lemma scalar_mix_layers_free lays : forall vol buff fnum,
  forallb (fun lay => lay_flag lay =? 0) lays = true ->
  Scalar.mix_layers lays vol buff fnum = (lays, buff).
Proof.
  induction lays as [|lay lays IH]; intros vol buff fnum Hfree; [reflexivity|].
  simpl in Hfree. apply andb_true_iff in Hfree as [H1 H2].
  simpl. unfold Scalar.atmxMixLayer. rewrite H1. rewrite IH by assumption. reflexivity.
Qed.

Lemma sse_mix_layers_free lays : forall vol align asize,
  forallb (fun lay => lay_flag lay =? 0) lays = true ->
  SSE.mix_layers lays vol align asize = (lays, align).
Proof.
  induction lays as [|lay lays IH]; intros vol align asize Hfree; [reflexivity|].
  simpl in Hfree. apply andb_true_iff in Hfree as [H1 H2].
  simpl. unfold SSE.atmxMixLayer. rewrite H1. rewrite IH by assumption. reflexivity.
Qed.

Lemma map_replicate {A B} (f : A -> B) n x : map f (replicate n x) = replicate n (f x).
Proof. induction n; simpl; congruence. Qed.

Lemma floats_of_zero n :
  SSE.floats_of (replicate n SSE._mm_setzero_ps) = replicate (4 * n) F32.zero.
Proof.
  induction n as [|n IH]; [reflexivity|].
  replace (4 * S n)%nat with (4 + 4 * n)%nat by lia.
  unfold SSE.floats_of in *. simpl. rewrite IH. reflexivity.
Qed.

Lemma memcpy_bytes_zero k n :
  0 <= n <= 3 ->
  SSE.memcpy_bytes (replicate 6 0) (replicate k 0) n = replicate 6 0.
Proof.
  intros Hn. destruct k as [|k]; [reflexivity|]. simpl.
  destruct (Z.leb_spec 4 n); [lia|].
  destruct (Z.ltb_spec 0 n); [|reflexivity].
  unfold SSE.splice_bytes. rewrite Z.land_0_l, Z.ldiff_0_l. reflexivity.
Qed.

Lemma sse_mix_new_silent clip mix out rnum fnum :
  all_free mix = true -> mix_data mix = replicate 6 0 -> 0 <= rnum < 2 ^ 31 ->
  let r := SSE.mix_new clip mix out rnum fnum in
  r.1.2 = out ++ replicate (Z.to_nat (2 * rnum)) F32.zero /\
  mix_lays r.1.1 = mix_lays mix /\ mix_data r.1.1 = replicate 6 0 /\
  0 <= mix_rem r.1.1 <= 3.
Proof.
  intros Hfree Hdata Hrnum. unfold SSE.mix_new.
  rewrite sse_mix_layers_free by exact Hfree.
  pose proof (CarryFacts.surplus_range rnum ltac:(lia)) as Hrem.
  pose proof (CarryFacts.asize_covers rnum Hrnum) as Hcov.
  pose proof (CarryFacts.asize_of_nonneg rnum) as Hnn.
  set (asize := SSE.asize_of rnum) in *.
  assert (Halign : (if clip then map SSE.clip_m128 (replicate (Z.to_nat asize) SSE._mm_setzero_ps)
                    else replicate (Z.to_nat asize) SSE._mm_setzero_ps)
                   = replicate (Z.to_nat asize) SSE._mm_setzero_ps).
  { destruct clip; [|reflexivity]. rewrite map_replicate. reflexivity. }
  rewrite Halign. cbv zeta. simpl.
  rewrite floats_of_zero, (wrap_u32_small (rnum * 2)) by lia.
  split; [|split; [reflexivity|split; [|exact Hrem]]].
  - f_equal. rewrite take_replicate. f_equal. lia.
  - destruct (_ =? 0); [exact Hdata|].
    rewrite drop_replicate, map_replicate, Hdata.
    apply memcpy_bytes_zero. exact Hrem.
Qed.

End SilenceFacts.

Import SilenceFacts.

(** X10: On a mixer whose layers are all free and whose carry holds zeros,
    atomixMixerMix for N < 2^31 frames writes 2N zeros in both builds and
    leaves the layers free and the carry zero. *)
Theorem X10_free_mixer_is_silent (sse clip : bool) (mix : atomix_mixer) (fnum : Z) :
  all_free mix = true -> 0 <= fnum < 2 ^ 31 ->
  mix_data mix = replicate 6 0 -> 0 <= mix_rem mix <= 3 ->
  let r := if sse then SSE.atomixMixerMix clip mix fnum
           else Scalar.atomixMixerMix clip mix fnum in
  r.1.2 = replicate (Z.to_nat (2 * fnum)) F32.zero /\
  mix_lays r.1.1 = mix_lays mix /\
  mix_data r.1.1 = replicate 6 0 /\ 0 <= mix_rem r.1.1 <= 3.
Proof.
  intros Hfree Hfnum Hdata Hrem. destruct sse; cbv zeta.
  - unfold SSE.atomixMixerMix.
    destruct (Z.eqb_spec (mix_rem mix) 0) as [H0|Hn0].
    + apply (sse_mix_new_silent clip mix [] fnum fnum Hfree Hdata Hfnum).
    + destruct (Z.ltb_spec (mix_rem mix) fnum) as [Hlt|Hge].
      * rewrite (wrap_u32_small (mix_rem mix * 2)), (wrap_u32_small (fnum - mix_rem mix)) by lia.
        pose proof (sse_mix_new_silent clip (set_mix_carry mix 0 (mix_data mix))
                      (map F32.of_bits (take (Z.to_nat (mix_rem mix * 2)) (mix_data mix)))
                      (fnum - mix_rem mix) fnum Hfree Hdata ltac:(lia))
          as (Hout & Hlays & Hd & Hr).
        split; [|split; [exact Hlays|split; [exact Hd|exact Hr]]].
        rewrite Hout, Hdata, take_replicate, map_replicate.
        change (F32.of_bits 0) with F32.zero.
        rewrite <- replicate_add. f_equal. lia.
      * simpl. rewrite Hdata.
        rewrite (wrap_u32_small (fnum * 2)), (wrap_u32_small (mix_rem mix - fnum)) by lia.
        rewrite take_replicate, map_replicate.
        change (F32.of_bits 0) with F32.zero.
        split; [f_equal; lia|]. split; [reflexivity|]. split; [|lia].
        destruct (_ =? 0); [reflexivity|].
        unfold SSE.memcpy_words.
        assert (Hc : fnum = 0 \/ fnum = 1 \/ fnum = 2 \/ fnum = 3) by lia.
        destruct Hc as [-> | [-> | [-> | ->]]]; reflexivity.
  - unfold Scalar.atomixMixerMix.
    rewrite scalar_mix_layers_free by exact Hfree. simpl.
    rewrite (wrap_u32_small (fnum * 2)) by lia.
    split; [|split; [reflexivity|split; [exact Hdata|exact Hrem]]].
    replace (fnum * 2) with (2 * fnum) by lia.
    destruct clip; [|reflexivity]. rewrite map_replicate. reflexivity.
Qed.

Lemma set_lay_fade_id lay : set_lay_fade lay (lay_fade lay) = lay.
Proof. destruct lay; reflexivity. Qed.

Lemma set_lay_cursor_id lay : set_lay_cursor lay (lay_cursor lay) = lay.
Proof. destruct lay; reflexivity. Qed.

Lemma set_lay_fade_twice lay a b : set_lay_fade (set_lay_fade lay a) b = set_lay_fade lay b.
Proof. reflexivity. Qed.

Lemma loop_cursor_step start end_ cur n :
  start < end_ -> start <= cur <= end_ -> 0 <= n ->
  loop_cursor start end_ ((if cur =? end_ then start else cur) + 1) n
  = loop_cursor start end_ cur (n + 1).
Proof.
  intros Hse Hc Hn. unfold loop_cursor.
  destruct (Z.eqb_spec (n + 1) 0); [lia|].
  replace (cur - start + (n + 1) - 1) with (cur - start + n) by lia.
  destruct (Z.eqb_spec n 0) as [->|Hn0].
  - rewrite Z.add_0_r. destruct (Z.eqb_spec cur end_) as [->|Hne].
    + rewrite Z_mod_same_full. lia.
    + rewrite Z.mod_small by lia. lia.
  - destruct (Z.eqb_spec cur end_) as [->|Hne].
    + replace (start + 1 - start + n - 1) with n by lia.
      replace (end_ - start + n) with (n + 1 * (end_ - start)) by lia.
      rewrite Z_mod_plus_full. reflexivity.
    + replace (cur + 1 - start + n - 1) with (cur - start + n) by lia. reflexivity.
Qed.

Lemma loop_cursor_range start end_ cur n :
  start < end_ -> start <= cur <= end_ -> 0 <= n ->
  start <= loop_cursor start end_ cur n <= end_.
Proof.
  intros Hse Hc Hn. unfold loop_cursor. destruct (n =? 0); [lia|].
  pose proof (Z.mod_pos_bound (cur - start + n - 1) (end_ - start) ltac:(lia)). lia.
Qed.

Module ScalarProgress.
Import Scalar.

Section Loops.

Variable frame : Z -> float32 * float32.
Variable g : atmx_f2.

Lemma play_out_loop_spec n : forall i lay cur buff,
  - 2 ^ 31 <= cur <= lay_end lay -> lay_end lay < 2 ^ 31 ->
  let r := play_out_loop frame g n i lay cur buff in
  r.1.1 = lay /\ r.1.2 = Z.min (cur + Z.of_nat n) (lay_end lay).
Proof.
  induction n as [|n IH]; intros i lay cur buff Hc He.
  - simpl. split; [reflexivity|lia].
  - rewrite Nat2Z.inj_succ. cbn [play_out_loop].
    destruct (Z.eqb_spec cur (lay_end lay)); [simpl; split; [reflexivity|lia]|].
    rewrite wrap_i32_small by lia.
    match goal with |- context [play_out_loop _ _ _ ?i' _ _ ?b'] =>
      destruct (IH i' lay (cur + 1) b' ltac:(lia) He) as [H1 H2] end.
    cbv zeta. rewrite H1, H2. split; [reflexivity|lia].
Qed.

Lemma play_loop_once n : forall i lay cur buff,
  - 2 ^ 31 <= cur <= lay_end lay -> lay_end lay < 2 ^ 31 ->
  let r := play_loop frame g false n i lay cur buff in
  r.1.1 = lay /\ r.1.2 = Z.min (cur + Z.of_nat n) (lay_end lay).
Proof.
  induction n as [|n IH]; intros i lay cur buff Hc He.
  - simpl. split; [reflexivity|lia].
  - rewrite Nat2Z.inj_succ. cbn [play_loop].
    destruct (Z.eqb_spec cur (lay_end lay)); [simpl; split; [reflexivity|lia]|].
    cbn [negb andb]. rewrite wrap_i32_small by lia.
    match goal with |- context [play_loop _ _ _ _ ?i' _ _ ?b'] =>
      destruct (IH i' lay (cur + 1) b' ltac:(lia) He) as [H1 H2] end.
    cbv zeta. rewrite H1, H2. split; [reflexivity|lia].
Qed.

Lemma play_loop_wraps n : forall i lay cur buff,
  lay_start lay < lay_end lay ->
  - 2 ^ 31 <= lay_start lay -> lay_start lay <= cur <= lay_end lay ->
  lay_end lay < 2 ^ 31 ->
  let r := play_loop frame g true n i lay cur buff in
  r.1.1 = lay /\
  r.1.2 = loop_cursor (lay_start lay) (lay_end lay) cur (Z.of_nat n).
Proof.
  induction n as [|n IH]; intros i lay cur buff Hse Hs Hc He.
  - simpl. split; reflexivity.
  - rewrite Nat2Z.inj_succ. cbn [play_loop]. rewrite andb_false_r.
    unfold Z.succ. rewrite <- loop_cursor_step by lia.
    assert (Hc' : lay_start lay <= (if cur =? lay_end lay then lay_start lay else cur) + 1
                  <= lay_end lay)
      by (destruct (Z.eqb_spec cur (lay_end lay)); lia).
    rewrite wrap_i32_small by lia.
    match goal with |- context [play_loop _ _ _ _ ?i' _ ?c' ?b'] =>
      destruct (IH i' lay c' b' Hse Hs Hc' He) as [H1 H2] end.
    cbv zeta. rewrite H1, H2. split; reflexivity.
Qed.

Lemma fade_out_loop_spec n : forall i lay cur buff,
  0 <= lay_fade lay < 2 ^ 31 -> - 2 ^ 31 <= cur -> cur + lay_fade lay < 2 ^ 31 ->
  let r := fade_out_loop frame g n i lay cur buff in
  r.1.1 = set_lay_fade lay (lay_fade lay - Z.min (Z.of_nat n) (lay_fade lay)) /\
  r.1.2 = cur + Z.min (Z.of_nat n) (lay_fade lay).
Proof.
  induction n as [|n IH]; intros i lay cur buff Hf Hc Hcf.
  - simpl. rewrite Z.min_l, Z.sub_0_r, set_lay_fade_id by lia. split; [reflexivity|lia].
  - rewrite Nat2Z.inj_succ. cbn [fade_out_loop].
    destruct (Z.eqb_spec (lay_fade lay) 0) as [H0|Hn0].
    + simpl. rewrite H0, Z.min_r, Z.sub_0_r, <- H0, set_lay_fade_id by lia.
      split; [reflexivity|lia].
    + rewrite !wrap_i32_small by lia.
      match goal with |- context [fade_out_loop _ _ _ ?i' ?l' ?c' ?b'] =>
        destruct (IH i' l' c' b') as [H1 H2]; simpl; try lia end.
      cbv zeta. rewrite H1, H2. simpl.
      split; [f_equal; lia|lia].
Qed.

Lemma fade_in_loop_once n : forall i lay cur buff,
  - 2 ^ 31 <= cur <= lay_end lay -> lay_end lay < 2 ^ 31 ->
  - 2 ^ 31 <= lay_fade lay <= lay_fmax lay -> lay_fmax lay < 2 ^ 31 ->
  let r := fade_in_loop frame g false n i lay cur buff in
  let k := Z.min (Z.of_nat n) (lay_end lay - cur) in
  r.1.1 = set_lay_fade lay (Z.min (lay_fade lay + k) (lay_fmax lay)) /\
  r.1.2 = cur + k.
Proof.
  induction n as [|n IH]; intros i lay cur buff Hc He Hf Hm.
  - cbn [fade_in_loop fst snd]. change (Z.of_nat 0) with 0. cbv zeta.
    rewrite (Z.min_l 0) by lia. rewrite Z.add_0_r, Z.min_l, set_lay_fade_id by lia.
    split; [reflexivity|lia].
  - rewrite Nat2Z.inj_succ. cbn [fade_in_loop].
    destruct (Z.eqb_spec cur (lay_end lay)) as [Heq|Hne].
    + cbn [negb andb fst snd]. cbv zeta. rewrite (Z.min_r (Z.succ _)) by lia.
      replace (lay_end lay - cur) with 0 by lia.
      rewrite Z.add_0_r, Z.min_l, set_lay_fade_id by lia. split; [reflexivity|lia].
    + cbn [negb andb]. rewrite (wrap_i32_small (cur + 1)) by lia.
      destruct (Z.ltb_spec (lay_fade lay) (lay_fmax lay)) as [Hlt|Hge].
      * rewrite wrap_i32_small by lia.
        match goal with |- context [fade_in_loop _ _ _ _ ?i' ?l' ?c' ?b'] =>
          destruct (IH i' l' c' b') as [H1 H2]; simpl; try lia end.
        cbv zeta. rewrite H1, H2. simpl. split; [f_equal; lia|lia].
      * match goal with |- context [fade_in_loop _ _ _ _ ?i' ?l' ?c' ?b'] =>
          destruct (IH i' l' c' b') as [H1 H2]; simpl; try lia end.
        cbv zeta. rewrite H1, H2. split; [f_equal; lia|lia].
Qed.

Lemma fade_in_loop_wraps n : forall i lay cur buff,
  lay_start lay < lay_end lay ->
  - 2 ^ 31 <= lay_start lay -> lay_start lay <= cur <= lay_end lay ->
  lay_end lay < 2 ^ 31 ->
  - 2 ^ 31 <= lay_fade lay <= lay_fmax lay -> lay_fmax lay < 2 ^ 31 ->
  let r := fade_in_loop frame g true n i lay cur buff in
  r.1.1 = set_lay_fade lay (Z.min (lay_fade lay + Z.of_nat n) (lay_fmax lay)) /\
  r.1.2 = loop_cursor (lay_start lay) (lay_end lay) cur (Z.of_nat n).
Proof.
  induction n as [|n IH]; intros i lay cur buff Hse Hs Hc He Hf Hm.
  - cbn [fade_in_loop fst snd]. change (Z.of_nat 0) with 0. cbv zeta.
    rewrite Z.add_0_r, Z.min_l, set_lay_fade_id by lia. split; reflexivity.
  - rewrite Nat2Z.inj_succ. cbn [fade_in_loop]. rewrite andb_false_r.
    unfold Z.succ. rewrite <- loop_cursor_step by lia.
    assert (Hc' : lay_start lay <= (if cur =? lay_end lay then lay_start lay else cur) + 1
                  <= lay_end lay)
      by (destruct (Z.eqb_spec cur (lay_end lay)); lia).
    rewrite (wrap_i32_small ((if cur =? lay_end lay then lay_start lay else cur) + 1))
      by lia.
    destruct (Z.ltb_spec (lay_fade lay) (lay_fmax lay)) as [Hlt|Hge].
    + rewrite wrap_i32_small by lia.
      match goal with |- context [fade_in_loop _ _ _ _ ?i' ?l' ?c' ?b'] =>
        destruct (IH i' l' c' b') as [H1 H2]; simpl; try lia end.
      cbv zeta. rewrite H1, H2. simpl. split; [f_equal; lia|reflexivity].
    + match goal with |- context [fade_in_loop _ _ _ _ ?i' ?l' ?c' ?b'] =>
        destruct (IH i' l' c' b') as [H1 H2]; simpl; try lia end.
      cbv zeta. rewrite H1, H2. split; [f_equal; lia|reflexivity].
Qed.

End Loops.
End ScalarProgress.

Lemma window_ok_elim lay :
  window_ok lay = true ->
  - 2 ^ 31 <= lay_start lay /\ lay_start lay mod 4 = 0 /\
  lay_start lay < lay_end lay /\
  lay_start lay <= lay_cursor lay <= lay_end lay /\ lay_end lay < 2 ^ 31 /\
  0 <= lay_fade lay <= lay_fmax lay /\ lay_fmax lay < 2 ^ 31.
Proof.
  unfold window_ok. intros H.
  repeat (apply andb_true_iff in H as [H ?]). lia.
Qed.

Lemma window_ok_intro lay :
  - 2 ^ 31 <= lay_start lay -> lay_start lay mod 4 = 0 ->
  lay_start lay < lay_end lay ->
  lay_start lay <= lay_cursor lay <= lay_end lay -> lay_end lay < 2 ^ 31 ->
  0 <= lay_fade lay <= lay_fmax lay -> lay_fmax lay < 2 ^ 31 ->
  window_ok lay = true.
Proof.
  unfold window_ok. intros. repeat (apply andb_true_iff; split); lia.
Qed.

Lemma layer_ok_used lay :
  layer_ok lay = true -> lay_flag lay <> 0 -> window_ok lay = true.
Proof.
  unfold layer_ok. intros H Hf. apply orb_true_iff in H as [H|H]; [lia|exact H].
Qed.

Module ScalarLayer.
Import Scalar ScalarProgress.

Lemma frames_small fnum : 0 <= fnum < 2 ^ 31 -> Z.of_nat (frames fnum) = fnum.
Proof.
  intros H. unfold frames. rewrite wrap_u32_small by lia.
  rewrite Z.div_mul by lia. lia.
Qed.

Section Kernels.

Variable frame : Z -> float32 * float32.
Variable g : atmx_f2.

Lemma mix_play_once lay buff fnum :
  window_ok lay = true -> 0 <= fnum < 2 ^ 31 ->
  let k := Z.min fnum (lay_end lay - lay_cursor lay) in
  (mix_play frame g lay false (lay_cursor lay) buff fnum).1 =
  (set_lay_cursor
     (set_lay_fade lay (Z.min (lay_fade lay + k) (lay_fmax lay)))
     (lay_cursor lay + k),
   lay_cursor lay + k).
Proof.
  intros Hok Hfnum k. apply window_ok_elim in Hok as (Hs & _ & Hse & Hc & He & Hf & Hm).
  pose proof (frames_small fnum Hfnum) as Hn.
  unfold mix_play, swap_cursor.
  destruct (Z.ltb_spec (lay_fade lay) (lay_fmax lay)) as [Hlt|Hge].
  - pose proof (fade_in_loop_once frame g (frames fnum) 0 lay (lay_cursor lay) buff
                  ltac:(lia) He ltac:(lia) Hm) as [H1 H2].
    rewrite Hn in H1, H2. fold k in H1, H2.
    destruct (fade_in_loop _ _ _ _ _ _ _ _) as [[lay1 cur1] buff1]. simpl in H1, H2.
    subst lay1 cur1. simpl. unfold ATMX_CSWAP. rewrite Z.eqb_refl. reflexivity.
  - pose proof (play_loop_once frame g (frames fnum) 0 lay (lay_cursor lay) buff
                  ltac:(lia) He) as [H1 H2].
    rewrite Hn in H2.
    destruct (play_loop _ _ _ _ _ _ _ _) as [[lay1 cur1] buff1]. simpl in H1, H2.
    subst lay1 cur1. simpl. unfold ATMX_CSWAP. rewrite Z.eqb_refl.
    replace (Z.min (lay_fade lay + k) (lay_fmax lay)) with (lay_fade lay)
      by (unfold k; lia).
    rewrite set_lay_fade_id.
    replace (Z.min (lay_cursor lay + fnum) (lay_end lay)) with (lay_cursor lay + k)
      by (unfold k; lia).
    reflexivity.
Qed.

Lemma mix_play_wraps lay buff fnum :
  window_ok lay = true -> 0 <= fnum < 2 ^ 31 ->
  let c := loop_cursor (lay_start lay) (lay_end lay) (lay_cursor lay) fnum in
  (mix_play frame g lay true (lay_cursor lay) buff fnum).1 =
  (set_lay_cursor (set_lay_fade lay (Z.min (lay_fade lay + fnum) (lay_fmax lay))) c, c).
Proof.
  intros Hok Hfnum c. apply window_ok_elim in Hok as (Hs & _ & Hse & Hc & He & Hf & Hm).
  pose proof (frames_small fnum Hfnum) as Hn.
  unfold mix_play, swap_cursor.
  destruct (Z.ltb_spec (lay_fade lay) (lay_fmax lay)) as [Hlt|Hge].
  - pose proof (fade_in_loop_wraps frame g (frames fnum) 0 lay (lay_cursor lay) buff
                  Hse Hs Hc He ltac:(lia) Hm) as [H1 H2].
    rewrite Hn in H1, H2. fold c in H2.
    destruct (fade_in_loop _ _ _ _ _ _ _ _) as [[lay1 cur1] buff1]. simpl in H1, H2.
    subst lay1 cur1. simpl. unfold ATMX_CSWAP. rewrite Z.eqb_refl. reflexivity.
  - pose proof (play_loop_wraps frame g (frames fnum) 0 lay (lay_cursor lay) buff
                  Hse Hs Hc He) as [H1 H2].
    rewrite Hn in H2. fold c in H2.
    destruct (play_loop _ _ _ _ _ _ _ _) as [[lay1 cur1] buff1]. simpl in H1, H2.
    subst lay1 cur1. simpl. unfold ATMX_CSWAP. rewrite Z.eqb_refl.
    replace (Z.min (lay_fade lay + fnum) (lay_fmax lay)) with (lay_fade lay) by lia.
    rewrite set_lay_fade_id. reflexivity.
Qed.

(** The fade-out kernel: which of its two loops runs, and for how long. *)
Lemma mix_fade_spec lay buff fnum :
  window_ok lay = true -> 0 <= fnum < 2 ^ 31 ->
  let fading := lay_fade lay <? wrap_i32 (lay_end lay - lay_cursor lay) in
  let k := if fading then Z.min fnum (lay_fade lay)
           else Z.min fnum (lay_end lay - lay_cursor lay) in
  (mix_fade frame g lay (lay_cursor lay) buff fnum).1 =
  (set_lay_cursor
     (set_lay_fade lay (if fading then lay_fade lay - k else lay_fade lay))
     (lay_cursor lay + k),
   lay_cursor lay + k).
Proof.
  intros Hok Hfnum fading k.
  apply window_ok_elim in Hok as (Hs & _ & Hse & Hc & He & Hf & Hm).
  pose proof (frames_small fnum Hfnum) as Hn.
  assert (Hgap : wrap_i32 (lay_end lay - lay_cursor lay) = lay_end lay - lay_cursor lay
                 \/ wrap_i32 (lay_end lay - lay_cursor lay) < 0).
  { destruct (Z.lt_ge_cases (lay_end lay - lay_cursor lay) (2 ^ 31));
      [left; apply wrap_i32_small; lia|right].
    unfold wrap_i32. Z.div_mod_to_equations. lia. }
  unfold mix_fade, swap_cursor. fold fading.
  unfold k. clear k.
  destruct (Z.ltb_spec (lay_fade lay) (wrap_i32 (lay_end lay - lay_cursor lay)))
    as [Hlt|Hge]; subst fading; cbv iota.
  - pose proof (fade_out_loop_spec frame g (frames fnum) 0 lay (lay_cursor lay) buff
                  ltac:(lia) ltac:(lia) ltac:(lia)) as [H1 H2].
    rewrite Hn in H1, H2.
    destruct (fade_out_loop _ _ _ _ _ _ _) as [[lay1 cur1] buff1]. simpl in H1, H2.
    subst lay1 cur1. simpl. unfold ATMX_CSWAP. rewrite Z.eqb_refl. reflexivity.
  - pose proof (play_out_loop_spec frame g (frames fnum) 0 lay (lay_cursor lay) buff
                  ltac:(lia) He) as [H1 H2].
    rewrite Hn in H2.
    destruct (play_out_loop _ _ _ _ _ _ _) as [[lay1 cur1] buff1]. simpl in H1, H2.
    subst lay1 cur1. simpl. unfold ATMX_CSWAP. rewrite Z.eqb_refl.
    rewrite set_lay_fade_id.
    replace (Z.min (lay_cursor lay + fnum) (lay_end lay))
      with (lay_cursor lay + Z.min fnum (lay_end lay - lay_cursor lay)) by lia.
    reflexivity.
Qed.

End Kernels.
End ScalarLayer.

Import ScalarLayer.

(** X11: Scalar build: mixing N < 2^31 frames moves a playing layer's
    cursor by N or up to its end, raises the fade counter by as much or up
    to its maximum, and frees the layer exactly when the cursor has
    reached the end. *)
Theorem X11_playing_layer_runs_to_its_end (lay : atmx_layer) (vol : float32)
    (buff : list float32) (fnum : Z) :
  layer_ok lay = true -> lay_flag lay = ATOMIX_PLAY -> 0 <= fnum < 2 ^ 31 ->
  let k := Z.min fnum (lay_end lay - lay_cursor lay) in
  (Scalar.atmxMixLayer lay vol buff fnum).1 =
  set_lay_flag
    (set_lay_cursor
       (set_lay_fade lay (Z.min (lay_fade lay + k) (lay_fmax lay)))
       (lay_cursor lay + k))
    (if lay_cursor lay + k =? lay_end lay then 0 else ATOMIX_PLAY).
Proof.
  intros Hok Hflag Hfnum k.
  assert (Hw : window_ok lay = true)
    by (apply layer_ok_used; [exact Hok | rewrite Hflag; discriminate]).
  unfold Scalar.atmxMixLayer, Scalar.atmxMixPlayMono, Scalar.atmxMixPlayStereo.
  rewrite Hflag. cbn [Z.eqb Z.ltb Z.compare ATOMIX_PLAY ATOMIX_LOOP Pos.compare
                      Pos.compare_cont Pos.eqb andb].
  destruct (snd_cha (lay_sound lay) =? 1);
    match goal with |- context [Scalar.mix_play ?f ?g' lay false (lay_cursor lay) buff fnum] =>
      pose proof (mix_play_once f g' lay buff fnum Hw Hfnum) as Hspec;
      destruct (Scalar.mix_play f g' lay false (lay_cursor lay) buff fnum)
        as [[lay1 cur1] buff1]
    end;
    simpl in Hspec; injection Hspec as -> ->; fold k; simpl;
    destruct (Z.eqb_spec (lay_cursor lay + k) (lay_end lay)); unfold ATMX_CSWAP;
    simpl; rewrite ?Hflag; try reflexivity;
    destruct lay; simpl in *; subst; reflexivity.
Qed.

(** X12: Scalar build: mixing N < 2^31 frames moves a looping layer's
    cursor N frames round the window from start to end, raises the fade
    counter by N or up to its maximum, and keeps the layer looping. *)
Theorem X12_looping_layer_wraps_around (lay : atmx_layer) (vol : float32)
    (buff : list float32) (fnum : Z) :
  layer_ok lay = true -> lay_flag lay = ATOMIX_LOOP -> 0 <= fnum < 2 ^ 31 ->
  let c := loop_cursor (lay_start lay) (lay_end lay) (lay_cursor lay) fnum in
  (Scalar.atmxMixLayer lay vol buff fnum).1 =
    set_lay_cursor (set_lay_fade lay (Z.min (lay_fade lay + fnum) (lay_fmax lay))) c /\
  lay_start lay <= c <= lay_end lay /\ (0 < fnum -> lay_start lay < c).
Proof.
  intros Hok Hflag Hfnum c.
  assert (Hw : window_ok lay = true)
    by (apply layer_ok_used; [exact Hok | rewrite Hflag; discriminate]).
  split.
  - unfold Scalar.atmxMixLayer, Scalar.atmxMixPlayMono, Scalar.atmxMixPlayStereo.
    rewrite Hflag. cbn [Z.eqb Z.ltb Z.compare ATOMIX_PLAY ATOMIX_LOOP Pos.compare
                        Pos.compare_cont Pos.eqb andb].
    destruct (snd_cha (lay_sound lay) =? 1);
      match goal with |- context [Scalar.mix_play ?f ?g' lay true (lay_cursor lay) buff fnum] =>
        pose proof (mix_play_wraps f g' lay buff fnum Hw Hfnum) as Hspec;
        destruct (Scalar.mix_play f g' lay true (lay_cursor lay) buff fnum)
          as [[lay1 cur1] buff1]
      end;
      simpl in Hspec; injection Hspec as -> ->; reflexivity.
  - apply window_ok_elim in Hw as (Hs & _ & Hse & Hc & He & Hf & Hm).
    split; [apply loop_cursor_range; lia|].
    intros Hpos. unfold c, loop_cursor. destruct (Z.eqb_spec fnum 0); [lia|].
    pose proof (Z.mod_pos_bound (lay_cursor lay - lay_start lay + fnum - 1)
                  (lay_end lay - lay_start lay) ltac:(lia)). lia.
Qed.

Lemma scalar_fading_layer (lay : atmx_layer) (vol : float32)
    (buff : list float32) (fnum : Z) :
  window_ok lay = true ->
  lay_flag lay = ATOMIX_STOP \/ lay_flag lay = ATOMIX_HALT ->
  0 <= fnum < 2 ^ 31 ->
  let left := lay_end lay - lay_cursor lay in
  let fading := lay_fade lay <? wrap_i32 left in
  let k := if lay_fade lay =? 0 then 0
           else if fading then Z.min fnum (lay_fade lay) else Z.min fnum left in
  let fade' := if fading then lay_fade lay - k else lay_fade lay in
  (Scalar.atmxMixLayer lay vol buff fnum).1 =
  set_lay_flag
    (set_lay_cursor (set_lay_fade lay fade') (lay_cursor lay + k))
    (if (lay_flag lay =? ATOMIX_STOP)
        && ((fade' =? 0) || (lay_cursor lay + k =? lay_end lay))
     then 0 else lay_flag lay).
Proof.
  intros Hw Hflag Hfnum left fading k fade'.
  pose proof (window_ok_elim lay Hw) as (Hs & _ & Hse & Hc & He & Hf & Hm).
  unfold Scalar.atmxMixLayer, Scalar.atmxMixFadeMono, Scalar.atmxMixFadeStereo.
  destruct (Z.eqb_spec (lay_flag lay) 0) as [H0|_];
    [unfold ATOMIX_STOP, ATOMIX_HALT in Hflag; lia|].
  destruct (Z.ltb_spec (lay_flag lay) 3) as [_|H3];
    [|unfold ATOMIX_STOP, ATOMIX_HALT in Hflag; lia].
  destruct ((0 <? lay_fade lay) && (lay_cursor lay <? lay_end lay)) eqn:Hrun.
  - apply andb_true_iff in Hrun as [Hpos Hlt].
    assert (Hk : k = if fading then Z.min fnum (lay_fade lay) else Z.min fnum left).
    { unfold k. destruct (Z.eqb_spec (lay_fade lay) 0); [lia|reflexivity]. }
    destruct (snd_cha (lay_sound lay) =? 1);
      match goal with |- context [Scalar.mix_fade ?f ?g' lay (lay_cursor lay) buff fnum] =>
        pose proof (mix_fade_spec f g' lay buff fnum Hw Hfnum) as Hspec;
        destruct (Scalar.mix_fade f g' lay (lay_cursor lay) buff fnum)
          as [[lay1 cur1] buff1]
      end;
      simpl in Hspec; fold left in Hspec; fold fading in Hspec; rewrite <- Hk in Hspec;
      fold fade' in Hspec; injection Hspec as -> ->; simpl;
      destruct ((lay_flag lay =? ATOMIX_STOP)
                && ((fade' =? 0) || (lay_cursor lay + k =? lay_end lay)));
      try reflexivity; destruct lay; reflexivity.
  - assert (Hrest : k = 0 /\ fade' = lay_fade lay).
    { apply andb_false_iff in Hrun as [Hzero|Hend].
      - assert (Hk : k = 0)
          by (unfold k; destruct (Z.eqb_spec (lay_fade lay) 0); [reflexivity|lia]).
        split; [exact Hk|]. unfold fade'. rewrite Hk. destruct fading; lia.
      - assert (Hleft : left = 0) by (unfold left; lia).
        assert (Hfading : fading = false).
        { unfold fading. rewrite Hleft. change (wrap_i32 0) with 0. lia. }
        assert (Hk : k = 0).
        { unfold k. rewrite Hfading, Hleft.
          destruct (Z.eqb_spec (lay_fade lay) 0); lia. }
        split; [exact Hk|]. unfold fade'. rewrite Hfading. reflexivity. }
    destruct Hrest as [Hk Hf'].
    rewrite Hk, Hf', Z.add_0_r, set_lay_fade_id, set_lay_cursor_id.
    destruct ((lay_flag lay =? ATOMIX_STOP)
              && ((lay_fade lay =? 0) || (lay_cursor lay =? lay_end lay)));
      [reflexivity|]. symmetry. apply set_lay_flag_id.
Qed.

(** X13: Scalar build, mixing N < 2^31 frames: a stopped or halted layer
    whose fade counter is 0 does not move; one whose fade counter is below
    the frames left, end - cursor taken in int32 as the code takes it,
    fades out (counter and cursor move by N or until the counter is 0);
    any other plays on by N or to its end without fading; a stopped layer
    is freed once the counter is 0 or the cursor at the end, a halted
    layer never. *)
Theorem X13_stopped_layer_fades_out (lay : atmx_layer) (vol : float32)
    (buff : list float32) (fnum : Z) :
  layer_ok lay = true ->
  lay_flag lay = ATOMIX_STOP \/ lay_flag lay = ATOMIX_HALT ->
  0 <= fnum < 2 ^ 31 ->
  let left := lay_end lay - lay_cursor lay in
  let fading := lay_fade lay <? wrap_i32 left in
  let k := if lay_fade lay =? 0 then 0
           else if fading then Z.min fnum (lay_fade lay) else Z.min fnum left in
  let fade' := if fading then lay_fade lay - k else lay_fade lay in
  (Scalar.atmxMixLayer lay vol buff fnum).1 =
  set_lay_flag
    (set_lay_cursor (set_lay_fade lay fade') (lay_cursor lay + k))
    (if (lay_flag lay =? ATOMIX_STOP)
        && ((fade' =? 0) || (lay_cursor lay + k =? lay_end lay))
     then 0 else lay_flag lay).
Proof.
  intros Hok Hflag. apply scalar_fading_layer; [|exact Hflag].
  apply layer_ok_used; [exact Hok|].
  unfold ATOMIX_STOP, ATOMIX_HALT in Hflag. lia.
Qed.

Lemma scalar_stopped_layer_freed (lay : atmx_layer) (vol : float32)
    (buff : list float32) (fnum : Z) :
  layer_ok lay = true -> lay_flag lay = 0 \/ lay_flag lay = ATOMIX_STOP ->
  0 <= fnum < 2 ^ 31 -> lay_end lay - lay_cursor lay < 2 ^ 31 ->
  lay_fade lay <= fnum ->
  lay_flag (Scalar.atmxMixLayer lay vol buff fnum).1 = 0.
Proof.
  intros Hok [H0|Hstop] Hfnum Hgap Hfade.
  - unfold Scalar.atmxMixLayer. rewrite H0. exact H0.
  - assert (Hw : window_ok lay = true)
      by (apply layer_ok_used; [exact Hok | rewrite Hstop; discriminate]).
    rewrite (scalar_fading_layer lay vol buff fnum Hw (or_introl Hstop) Hfnum).
    rewrite wrap_i32_small by (pose proof (window_ok_elim lay Hw); lia).
    pose proof (window_ok_elim lay Hw) as (Hs & _ & Hse & Hc & He & Hf & Hm).
    simpl. rewrite Hstop. cbn [Z.eqb ATOMIX_STOP Pos.eqb andb].
    destruct (Z.ltb_spec (lay_fade lay) (lay_end lay - lay_cursor lay)).
    + destruct (Z.eqb_spec (lay_fade lay) 0) as [Hz|_].
      * rewrite Z.sub_0_r, Hz. reflexivity.
      * rewrite (Z.min_r fnum) by lia. rewrite Z.sub_diag. reflexivity.
    + destruct (Z.eqb_spec (lay_fade lay) 0) as [Hz|_].
      * reflexivity.
      * rewrite (Z.min_r fnum) by lia.
        replace (lay_cursor lay + (lay_end lay - lay_cursor lay)) with (lay_end lay) by lia.
        rewrite Z.eqb_refl, orb_true_r. reflexivity.
Qed.

Lemma scalar_mix_layers_freed lays : forall vol buff fnum,
  Forall (fun lay =>
            layer_ok lay = true /\ (lay_flag lay = 0 \/ lay_flag lay = ATOMIX_STOP) /\
            lay_end lay - lay_cursor lay < 2 ^ 31 /\ lay_fade lay <= fnum) lays ->
  0 <= fnum < 2 ^ 31 ->
  forallb (fun lay => lay_flag lay =? 0) (Scalar.mix_layers lays vol buff fnum).1 = true.
Proof.
  induction lays as [|lay lays IH]; intros vol buff fnum Hall Hfnum; [reflexivity|].
  inversion Hall as [|? ? (Hok & Hflag & Hgap & Hfade) Hrest]; subst.
  simpl.
  pose proof (scalar_stopped_layer_freed lay vol buff fnum Hok Hflag Hfnum Hgap Hfade) as H1.
  destruct (Scalar.atmxMixLayer lay vol buff fnum) as [lay' buff1].
  pose proof (IH vol buff1 fnum Hrest Hfnum) as H2.
  destruct (Scalar.mix_layers lays vol buff1 fnum) as [lays' buff2].
  simpl in *. rewrite H1, H2. reflexivity.
Qed.

(** ** The scalar kernels keep an occupied layer in its window *)

Module ScalarWindow.
Import Scalar ScalarProgress ScalarLayer.

Section Kernels.

Variable frame : Z -> float32 * float32.
Variable g : atmx_f2.

Lemma mix_play_window lay loop buff fnum :
  window_ok lay = true ->
  let r := mix_play frame g lay loop (lay_cursor lay) buff fnum in
  window_ok r.1.1 = true /\ r.1.2 = lay_cursor r.1.1.
Proof.
  intros Hok. pose proof (window_ok_elim lay Hok) as (Hs & Hs4 & Hse & Hc & He & Hf & Hm).
  unfold mix_play, swap_cursor.
  destruct loop; destruct (Z.ltb_spec (lay_fade lay) (lay_fmax lay)) as [Hlt|Hge].
  - pose proof (fade_in_loop_wraps frame g (frames fnum) 0 lay (lay_cursor lay) buff
                  Hse Hs Hc He ltac:(lia) Hm) as [H1 H2].
    pose proof (loop_cursor_range (lay_start lay) (lay_end lay) (lay_cursor lay)
                  (Z.of_nat (frames fnum)) Hse Hc ltac:(lia)) as Hr.
    destruct (fade_in_loop _ _ _ _ _ _ _ _) as [[lay1 cur1] buff1]. simpl in H1, H2.
    subst lay1 cur1. simpl. unfold ATMX_CSWAP. rewrite Z.eqb_refl. simpl.
    split; [|reflexivity]. apply window_ok_intro; simpl; lia.
  - pose proof (play_loop_wraps frame g (frames fnum) 0 lay (lay_cursor lay) buff
                  Hse Hs Hc He) as [H1 H2].
    pose proof (loop_cursor_range (lay_start lay) (lay_end lay) (lay_cursor lay)
                  (Z.of_nat (frames fnum)) Hse Hc ltac:(lia)) as Hr.
    destruct (play_loop _ _ _ _ _ _ _ _) as [[lay1 cur1] buff1]. simpl in H1, H2.
    subst lay1 cur1. simpl. unfold ATMX_CSWAP. rewrite Z.eqb_refl. simpl.
    split; [|reflexivity]. apply window_ok_intro; simpl; lia.
  - pose proof (fade_in_loop_once frame g (frames fnum) 0 lay (lay_cursor lay) buff
                  ltac:(lia) He ltac:(lia) Hm) as [H1 H2].
    destruct (fade_in_loop _ _ _ _ _ _ _ _) as [[lay1 cur1] buff1]. simpl in H1, H2.
    subst lay1 cur1. simpl. unfold ATMX_CSWAP. rewrite Z.eqb_refl. simpl.
    split; [|reflexivity]. apply window_ok_intro; simpl; lia.
  - pose proof (play_loop_once frame g (frames fnum) 0 lay (lay_cursor lay) buff
                  ltac:(lia) He) as [H1 H2].
    destruct (play_loop _ _ _ _ _ _ _ _) as [[lay1 cur1] buff1]. simpl in H1, H2.
    subst lay1 cur1. simpl. unfold ATMX_CSWAP. rewrite Z.eqb_refl. simpl.
    split; [|reflexivity]. apply window_ok_intro; simpl; lia.
Qed.

Lemma wrap_i32_high z : 2 ^ 31 <= z < 2 ^ 32 -> wrap_i32 z = z - 2 ^ 32.
Proof.
  intros H. unfold wrap_i32.
  replace (z + 2 ^ 31) with (z - 2 ^ 31 + 1 * 2 ^ 32) by lia.
  rewrite Z_mod_plus_full, Z.mod_small by lia. lia.
Qed.

Lemma mix_fade_window lay buff fnum :
  window_ok lay = true ->
  let r := mix_fade frame g lay (lay_cursor lay) buff fnum in
  window_ok r.1.1 = true /\ r.1.2 = lay_cursor r.1.1.
Proof.
  intros Hok. pose proof (window_ok_elim lay Hok) as (Hs & Hs4 & Hse & Hc & He & Hf & Hm).
  unfold mix_fade, swap_cursor.
  destruct (Z.ltb_spec (lay_fade lay) (wrap_i32 (lay_end lay - lay_cursor lay)))
    as [Hlt|Hge].
  - assert (Hgap : lay_end lay - lay_cursor lay < 2 ^ 31).
    { destruct (Z.lt_ge_cases (lay_end lay - lay_cursor lay) (2 ^ 31)) as [|Hbig];
        [assumption|].
      rewrite wrap_i32_high in Hlt by lia. lia. }
    rewrite wrap_i32_small in Hlt by lia.
    pose proof (fade_out_loop_spec frame g (frames fnum) 0 lay (lay_cursor lay) buff
                  ltac:(lia) ltac:(lia) ltac:(lia)) as [H1 H2].
    destruct (fade_out_loop _ _ _ _ _ _ _) as [[lay1 cur1] buff1]. simpl in H1, H2.
    subst lay1 cur1. simpl. unfold ATMX_CSWAP. rewrite Z.eqb_refl. simpl.
    split; [|reflexivity]. apply window_ok_intro; simpl; lia.
  - pose proof (play_out_loop_spec frame g (frames fnum) 0 lay (lay_cursor lay) buff
                  ltac:(lia) He) as [H1 H2].
    destruct (play_out_loop _ _ _ _ _ _ _) as [[lay1 cur1] buff1]. simpl in H1, H2.
    subst lay1 cur1. simpl. unfold ATMX_CSWAP. rewrite Z.eqb_refl. simpl.
    split; [|reflexivity]. apply window_ok_intro; simpl; lia.
Qed.

End Kernels.

Lemma window_ok_flag lay flag : window_ok (set_lay_flag lay flag) = window_ok lay.
Proof. reflexivity. Qed.

Lemma layer_ok_window lay : window_ok lay = true -> layer_ok lay = true.
Proof. unfold layer_ok. intros ->. apply orb_true_r. Qed.

Lemma atmxMixLayer_ok lay vol buff fnum :
  layer_ok lay = true -> layer_ok (atmxMixLayer lay vol buff fnum).1 = true.
Proof.
  intros Hok. unfold atmxMixLayer, atmxMixFadeMono, atmxMixFadeStereo,
    atmxMixPlayMono, atmxMixPlayStereo.
  destruct (Z.eqb_spec (lay_flag lay) 0) as [|Hused]; [exact Hok|].
  pose proof (layer_ok_used lay Hok Hused) as Hw.
  destruct (lay_flag lay <? 3).
  - destruct ((0 <? lay_fade lay) && (lay_cursor lay <? lay_end lay)).
    + destruct (snd_cha (lay_sound lay) =? 1);
        match goal with |- context [mix_fade ?f ?g' lay (lay_cursor lay) buff fnum] =>
          pose proof (mix_fade_window f g' lay buff fnum Hw) as [H1 _];
          destruct (mix_fade f g' lay (lay_cursor lay) buff fnum) as [[lay1 cur1] buff1]
        end;
        simpl in *; apply layer_ok_window;
        match goal with |- context [if ?c then _ else _] => destruct c end;
        rewrite ?window_ok_flag; exact H1.
    + simpl. apply layer_ok_window.
      match goal with |- context [if ?c then _ else _] => destruct c end;
        rewrite ?window_ok_flag; exact Hw.
  - destruct (snd_cha (lay_sound lay) =? 1);
      match goal with |- context [mix_play ?f ?g' lay ?lp (lay_cursor lay) buff fnum] =>
        pose proof (mix_play_window f g' lay lp buff fnum Hw) as [H1 _];
        destruct (mix_play f g' lay lp (lay_cursor lay) buff fnum) as [[lay1 cur1] buff1]
      end;
      simpl in *; apply layer_ok_window;
      match goal with |- context [if ?c then _ else _] => destruct c end;
      rewrite ?window_ok_flag; exact H1.
Qed.

Lemma mix_layers_ok lays : forall vol buff fnum,
  Forall (fun lay => layer_ok lay = true) lays ->
  Forall (fun lay => layer_ok lay = true) (mix_layers lays vol buff fnum).1.
Proof.
  induction lays as [|lay lays IH]; intros vol buff fnum Hall; [constructor|].
  inversion Hall as [|? ? Hlay Hrest]; subst. simpl.
  pose proof (atmxMixLayer_ok lay vol buff fnum Hlay) as H1.
  destruct (atmxMixLayer lay vol buff fnum) as [lay' buff1].
  pose proof (IH vol buff1 fnum Hrest) as H2.
  destruct (mix_layers lays vol buff1 fnum) as [lays' buff2].
  simpl in *. constructor; assumption.
Qed.

End ScalarWindow.

Ltac mod_lia := Z.div_mod_to_equations; lia.

Lemma window_aligned_elim lay :
  window_aligned lay = true ->
  lay_cursor lay mod 4 = 0 /\ lay_end lay mod 4 = 0 /\
  lay_fade lay mod 4 = 0 /\ lay_fmax lay mod 4 = 0.
Proof.
  unfold window_aligned. intros H.
  repeat (apply andb_true_iff in H as [H ?]). lia.
Qed.

Lemma window_aligned_intro lay :
  lay_cursor lay mod 4 = 0 -> lay_end lay mod 4 = 0 ->
  lay_fade lay mod 4 = 0 -> lay_fmax lay mod 4 = 0 ->
  window_aligned lay = true.
Proof.
  unfold window_aligned. intros. repeat (apply andb_true_iff; split); lia.
Qed.

Lemma layer_aligned_used lay :
  layer_aligned lay = true -> lay_flag lay <> 0 -> window_aligned lay = true.
Proof.
  unfold layer_aligned. intros H Hf. apply orb_true_iff in H as [H|H]; [lia|exact H].
Qed.

(** ** The SSE kernels keep an occupied layer in its window and aligned *)

Module SSEWindow.
Import SSE.

Section Kernels.

Variable frames : Z -> __m128 * __m128.
Variable gmul : __m128.

Ltac window_facts Hok Hal :=
  let Hw := fresh "Hw" in
  let Ha := fresh "Ha" in
  pose proof (window_ok_elim _ Hok) as Hw;
  pose proof (window_aligned_elim _ Hal) as Ha;
  simpl in Hw, Ha;
  destruct Hw as (? & ? & ? & ? & ? & ? & ?);
  destruct Ha as (? & ? & ? & ?).

Ltac window_done :=
  split; [apply window_ok_intro | split; [apply window_aligned_intro | reflexivity]];
  simpl; try mod_lia.

Lemma play_out_loop_window n : forall i lay cur align,
  window_ok (set_lay_cursor lay cur) = true ->
  window_aligned (set_lay_cursor lay cur) = true ->
  let r := play_out_loop frames gmul n i lay cur align in
  window_ok (set_lay_cursor r.1.1 r.1.2) = true /\
  window_aligned (set_lay_cursor r.1.1 r.1.2) = true /\
  lay_cursor r.1.1 = lay_cursor lay.
Proof.
  induction n as [|n IH]; intros i lay cur align Hok Hal.
  - simpl. auto.
  - cbn [play_out_loop]. destruct (Z.eqb_spec cur (lay_end lay)); [simpl; auto|].
    window_facts Hok Hal.
    rewrite wrap_i32_small by mod_lia.
    apply IH; [apply window_ok_intro | apply window_aligned_intro]; simpl; mod_lia.
Qed.

Lemma fade_out_loop_window n : forall i lay cur align,
  window_ok (set_lay_cursor lay cur) = true ->
  window_aligned (set_lay_cursor lay cur) = true ->
  cur + lay_fade lay <= lay_end lay ->
  let r := fade_out_loop frames gmul n i lay cur align in
  window_ok (set_lay_cursor r.1.1 r.1.2) = true /\
  window_aligned (set_lay_cursor r.1.1 r.1.2) = true /\
  lay_cursor r.1.1 = lay_cursor lay.
Proof.
  induction n as [|n IH]; intros i lay cur align Hok Hal Hroom.
  - simpl. auto.
  - cbn [fade_out_loop]. destruct (Z.eqb_spec (lay_fade lay) 0); [simpl; auto|].
    window_facts Hok Hal.
    rewrite !wrap_i32_small by mod_lia.
    match goal with |- context [fade_out_loop _ _ _ ?i' ?l' ?c' ?a'] =>
      destruct (IH i' l' c' a') as (Hr1 & Hr2 & Hr3)
    end;
      [apply window_ok_intro; simpl; mod_lia
      |apply window_aligned_intro; simpl; mod_lia
      |simpl; lia|].
    cbv zeta. auto.
Qed.

Lemma fade_in_loop_window loop n : forall i lay cur align,
  window_ok (set_lay_cursor lay cur) = true ->
  window_aligned (set_lay_cursor lay cur) = true ->
  let r := fade_in_loop frames gmul loop n i lay cur align in
  window_ok (set_lay_cursor r.1.1 r.1.2) = true /\
  window_aligned (set_lay_cursor r.1.1 r.1.2) = true /\
  lay_cursor r.1.1 = lay_cursor lay.
Proof.
  induction n as [|n IH]; intros i lay cur align Hok Hal.
  - simpl. auto.
  - cbn [fade_in_loop]. window_facts Hok Hal.
    destruct (Z.eqb_spec cur (lay_end lay)) as [Heq|Hne]; destruct loop;
      cbn [negb andb]; try (simpl; auto; fail).
    + rewrite (wrap_i32_small (lay_start lay + 4)) by mod_lia.
      destruct (Z.ltb_spec (lay_fade lay) (lay_fmax lay)).
      * rewrite wrap_i32_small by mod_lia.
        match goal with |- context [fade_in_loop _ _ _ _ ?i' ?l' ?c' ?a'] =>
          destruct (IH i' l' c' a') as (Hr1 & Hr2 & Hr3)
        end;
          [apply window_ok_intro; simpl; mod_lia
          |apply window_aligned_intro; simpl; mod_lia|].
        cbv zeta. auto.
      * apply IH; [apply window_ok_intro | apply window_aligned_intro]; simpl; mod_lia.
    + rewrite (wrap_i32_small (cur + 4)) by mod_lia.
      destruct (Z.ltb_spec (lay_fade lay) (lay_fmax lay)).
      * rewrite wrap_i32_small by mod_lia.
        match goal with |- context [fade_in_loop _ _ _ _ ?i' ?l' ?c' ?a'] =>
          destruct (IH i' l' c' a') as (Hr1 & Hr2 & Hr3)
        end;
          [apply window_ok_intro; simpl; mod_lia
          |apply window_aligned_intro; simpl; mod_lia|].
        cbv zeta. auto.
      * apply IH; [apply window_ok_intro | apply window_aligned_intro]; simpl; mod_lia.
    + rewrite (wrap_i32_small (cur + 4)) by mod_lia.
      destruct (Z.ltb_spec (lay_fade lay) (lay_fmax lay)).
      * rewrite wrap_i32_small by mod_lia.
        match goal with |- context [fade_in_loop _ _ _ _ ?i' ?l' ?c' ?a'] =>
          destruct (IH i' l' c' a') as (Hr1 & Hr2 & Hr3)
        end;
          [apply window_ok_intro; simpl; mod_lia
          |apply window_aligned_intro; simpl; mod_lia|].
        cbv zeta. auto.
      * apply IH; [apply window_ok_intro | apply window_aligned_intro]; simpl; mod_lia.
Qed.

Lemma play_loop_window loop n : forall i lay cur align,
  window_ok (set_lay_cursor lay cur) = true ->
  window_aligned (set_lay_cursor lay cur) = true ->
  let r := play_loop frames gmul loop n i lay cur align in
  window_ok (set_lay_cursor r.1.1 r.1.2) = true /\
  window_aligned (set_lay_cursor r.1.1 r.1.2) = true /\
  lay_cursor r.1.1 = lay_cursor lay.
Proof.
  induction n as [|n IH]; intros i lay cur align Hok Hal.
  - simpl. auto.
  - cbn [play_loop]. window_facts Hok Hal.
    destruct (Z.eqb_spec cur (lay_end lay)) as [Heq|Hne]; destruct loop;
      cbn [negb andb]; try (simpl; auto; fail).
    + rewrite (wrap_i32_small (lay_start lay + 4)) by mod_lia.
      apply IH; [apply window_ok_intro | apply window_aligned_intro]; simpl; mod_lia.
    + rewrite (wrap_i32_small (cur + 4)) by mod_lia.
      apply IH; [apply window_ok_intro | apply window_aligned_intro]; simpl; mod_lia.
    + rewrite (wrap_i32_small (cur + 4)) by mod_lia.
      apply IH; [apply window_ok_intro | apply window_aligned_intro]; simpl; mod_lia.
Qed.

End Kernels.
End SSEWindow.

Module SSELayer.
Import SSE SSEWindow.

Lemma window_aligned_flag lay flag :
  window_aligned (set_lay_flag lay flag) = window_aligned lay.
Proof. reflexivity. Qed.

Lemma layer_aligned_window lay : window_aligned lay = true -> layer_aligned lay = true.
Proof. unfold layer_aligned. intros ->. apply orb_true_r. Qed.

Section Kernels.

Variable frames : Z -> __m128 * __m128.
Variable gmul : __m128.

Lemma sse_mix_play_window lay loop align asize :
  window_ok lay = true -> window_aligned lay = true ->
  let r := mix_play frames gmul lay loop (lay_cursor lay) align asize in
  window_ok r.1.1 = true /\ window_aligned r.1.1 = true.
Proof.
  intros Hok Hal. rewrite <- (set_lay_cursor_id lay) in Hok, Hal.
  unfold mix_play, swap_cursor.
  destruct (lay_fade lay <? lay_fmax lay).
  - pose proof (fade_in_loop_window frames gmul loop (blocks asize) 0 lay
                  (lay_cursor lay) align Hok Hal) as (H1 & H2 & H3).
    destruct (fade_in_loop _ _ _ _ _ _ _ _) as [[lay1 cur1] align1].
    simpl in H1, H2, H3. simpl. unfold ATMX_CSWAP. rewrite H3, Z.eqb_refl.
    simpl. split; assumption.
  - pose proof (play_loop_window frames gmul loop (blocks asize) 0 lay
                  (lay_cursor lay) align Hok Hal) as (H1 & H2 & H3).
    destruct (play_loop _ _ _ _ _ _ _ _) as [[lay1 cur1] align1].
    simpl in H1, H2, H3. simpl. unfold ATMX_CSWAP. rewrite H3, Z.eqb_refl.
    simpl. split; assumption.
Qed.

Lemma sse_mix_fade_window lay align asize :
  window_ok lay = true -> window_aligned lay = true ->
  let r := mix_fade frames gmul lay (lay_cursor lay) align asize in
  window_ok r.1.1 = true /\ window_aligned r.1.1 = true.
Proof.
  intros Hok Hal.
  pose proof (window_ok_elim lay Hok) as (Hs & Hs4 & Hse & Hc & He & Hf & Hm).
  rewrite <- (set_lay_cursor_id lay) in Hok, Hal.
  unfold mix_fade, swap_cursor.
  destruct (Z.ltb_spec (lay_fade lay) (wrap_i32 (lay_end lay - lay_cursor lay)))
    as [Hlt|Hge].
  - assert (Hgap : lay_end lay - lay_cursor lay < 2 ^ 31).
    { destruct (Z.lt_ge_cases (lay_end lay - lay_cursor lay) (2 ^ 31)) as [|Hbig];
        [assumption|].
      rewrite ScalarWindow.wrap_i32_high in Hlt by lia. lia. }
    rewrite wrap_i32_small in Hlt by lia.
    pose proof (fade_out_loop_window frames gmul (blocks asize) 0 lay
                  (lay_cursor lay) align Hok Hal ltac:(lia)) as (H1 & H2 & H3).
    destruct (fade_out_loop _ _ _ _ _ _ _) as [[lay1 cur1] align1].
    simpl in H1, H2, H3. simpl. unfold ATMX_CSWAP. rewrite H3, Z.eqb_refl.
    simpl. split; assumption.
  - pose proof (play_out_loop_window frames gmul (blocks asize) 0 lay
                  (lay_cursor lay) align Hok Hal) as (H1 & H2 & H3).
    destruct (play_out_loop _ _ _ _ _ _ _) as [[lay1 cur1] align1].
    simpl in H1, H2, H3. simpl. unfold ATMX_CSWAP. rewrite H3, Z.eqb_refl.
    simpl. split; assumption.
Qed.

End Kernels.

Lemma sse_atmxMixLayer_ok lay vol align asize :
  layer_ok lay = true -> layer_aligned lay = true ->
  let lay' := (atmxMixLayer lay vol align asize).1 in
  layer_ok lay' = true /\ layer_aligned lay' = true.
Proof.
  intros Hok Hal. unfold atmxMixLayer, atmxMixFadeMono, atmxMixFadeStereo,
    atmxMixPlayMono, atmxMixPlayStereo.
  destruct (Z.eqb_spec (lay_flag lay) 0) as [|Hused]; [split; assumption|].
  pose proof (layer_ok_used lay Hok Hused) as Hw.
  pose proof (layer_aligned_used lay Hal Hused) as Ha.
  destruct (lay_flag lay <? 3).
  - destruct ((0 <? lay_fade lay) && (lay_cursor lay <? lay_end lay)).
    + destruct (snd_cha (lay_sound lay) =? 1);
        match goal with |- context [mix_fade ?f ?g' lay (lay_cursor lay) align asize] =>
          pose proof (sse_mix_fade_window f g' lay align asize Hw Ha) as [H1 H2];
          destruct (mix_fade f g' lay (lay_cursor lay) align asize) as [[lay1 cur1] align1]
        end;
        simpl in *;
        (split; [apply ScalarWindow.layer_ok_window | apply layer_aligned_window]);
        match goal with |- context [if ?c then _ else _] => destruct c end;
        rewrite ?ScalarWindow.window_ok_flag, ?window_aligned_flag; assumption.
    + simpl.
      (split; [apply ScalarWindow.layer_ok_window | apply layer_aligned_window]);
        match goal with |- context [if ?c then _ else _] => destruct c end;
        rewrite ?ScalarWindow.window_ok_flag, ?window_aligned_flag; assumption.
  - destruct (snd_cha (lay_sound lay) =? 1);
      match goal with |- context [mix_play ?f ?g' lay ?lp (lay_cursor lay) align asize] =>
        pose proof (sse_mix_play_window f g' lay lp align asize Hw Ha) as [H1 H2];
        destruct (mix_play f g' lay lp (lay_cursor lay) align asize) as [[lay1 cur1] align1]
      end;
      simpl in *;
      (split; [apply ScalarWindow.layer_ok_window | apply layer_aligned_window]);
      match goal with |- context [if ?c then _ else _] => destruct c end;
      rewrite ?ScalarWindow.window_ok_flag, ?window_aligned_flag; assumption.
Qed.

Lemma sse_mix_layers_ok lays : forall vol align asize,
  Forall (fun lay => layer_ok lay = true /\ layer_aligned lay = true) lays ->
  Forall (fun lay => layer_ok lay = true /\ layer_aligned lay = true)
         (mix_layers lays vol align asize).1.
Proof.
  induction lays as [|lay lays IH]; intros vol align asize Hall; [constructor|].
  inversion Hall as [|? ? [Hlay Hal] Hrest]; subst. simpl.
  pose proof (sse_atmxMixLayer_ok lay vol align asize Hlay Hal) as H1.
  destruct (atmxMixLayer lay vol align asize) as [lay' align1].
  pose proof (IH vol align1 asize Hrest) as H2.
  destruct (mix_layers lays vol align1 asize) as [lays' align2].
  simpl in *. constructor; assumption.
Qed.

Lemma sse_mix_new_window clip mix out rnum fnum :
  Forall (fun lay => layer_ok lay = true /\ layer_aligned lay = true) (mix_lays mix) ->
  Forall (fun lay => layer_ok lay = true /\ layer_aligned lay = true)
         (mix_lays (mix_new clip mix out rnum fnum).1.1).
Proof.
  intros Hall. unfold mix_new.
  match goal with
  | |- context [mix_layers ?l ?v ?b ?n] =>
      pose proof (sse_mix_layers_ok l v b n Hall) as H;
      destruct (mix_layers l v b n) as [lays align]
  end.
  simpl in *. exact H.
Qed.

Lemma sse_atomixMixerMix_window clip mix fnum :
  Forall (fun lay => layer_ok lay = true /\ layer_aligned lay = true) (mix_lays mix) ->
  Forall (fun lay => layer_ok lay = true /\ layer_aligned lay = true)
         (mix_lays (atomixMixerMix clip mix fnum).1.1).
Proof.
  intros Hall. unfold atomixMixerMix.
  destruct (mix_rem mix =? 0); [apply sse_mix_new_window; exact Hall|].
  destruct (mix_rem mix <? fnum).
  - apply (sse_mix_new_window clip (set_mix_carry mix 0 (mix_data mix))). exact Hall.
  - simpl. exact Hall.
Qed.

End SSELayer.

Section Fits.

Variable sse : bool.

Local Abbreviation fits := (fun lay => layer_fits sse lay = true).

Lemma forallb_Forall (ok : atmx_layer -> bool) (lays : list atmx_layer) :
  forallb ok lays = true <-> Forall (fun lay => ok lay = true) lays.
Proof.
  induction lays as [|lay lays IH]; simpl.
  - split; [constructor|reflexivity].
  - rewrite andb_true_iff, IH. split.
    + intros [H1 H2]. constructor; assumption.
    + intros H. inversion H; subst. split; assumption.
Qed.

Lemma mixer_fits_parts mix :
  mixer_fits sse mix = true <->
  0 <= mix_fade mix < 2 ^ 31 /\ mix_fade mix mod 4 = 0 /\ Forall fits (mix_lays mix).
Proof.
  unfold mixer_fits. rewrite !andb_true_iff, forallb_Forall.
  rewrite Z.leb_le, Z.ltb_lt, Z.eqb_eq. tauto.
Qed.

Lemma layer_fits_intro lay :
  window_ok lay = true -> window_aligned lay = true -> layer_fits sse lay = true.
Proof.
  intros Hw Ha. unfold layer_fits, layer_ok, layer_aligned. rewrite Hw, Ha.
  rewrite !orb_true_r. reflexivity.
Qed.

Lemma layer_fits_free lay : lay_flag lay = 0 -> layer_fits sse lay = true.
Proof.
  intros H. unfold layer_fits, layer_ok, layer_aligned. rewrite H. simpl.
  apply orb_true_r.
Qed.

Lemma layer_fits_flag lay flag :
  layer_fits sse lay = true -> lay_flag lay <> 0 ->
  layer_fits sse (set_lay_flag lay flag) = true.
Proof.
  unfold layer_fits, layer_ok, layer_aligned.
  intros H Hused. destruct (Z.eqb_spec (lay_flag lay) 0); [contradiction|].
  rewrite !orb_false_l in H. apply andb_true_iff in H as [Hw Ha].
  change (window_ok (set_lay_flag lay flag)) with (window_ok lay).
  change (window_aligned (set_lay_flag lay flag)) with (window_aligned lay).
  rewrite Hw, orb_true_r. destruct sse; [|reflexivity].
  simpl in Ha |- *. rewrite Ha. apply orb_true_r.
Qed.

Lemma layer_fits_gain lay gain :
  layer_fits sse (set_lay_gain lay gain) = layer_fits sse lay.
Proof. reflexivity. Qed.

Lemma new_layer_fits id snd flag gain pan start end_ fade :
  - 2 ^ 31 <= start < 2 ^ 31 -> - 2 ^ 31 <= end_ < 2 ^ 31 ->
  - 2 ^ 31 <= fade < 2 ^ 31 ->
  4 <= wrap_i32 (end_ - start) -> 4 <= end_ ->
  layer_fits sse (new_layer id snd flag gain pan start end_ fade) = true.
Proof.
  intros Hs He Hf Hgap H4.
  assert (Hlen : start + 4 <= end_).
  { destruct (Z.lt_ge_cases (end_ - start) (2 ^ 31)) as [Hlt|Hge].
    - rewrite wrap_i32_small in Hgap by lia. lia.
    - rewrite ScalarWindow.wrap_i32_high in Hgap by lia. lia. }
  pose proof (trunc4_mod start). pose proof (trunc4_bounds start).
  pose proof (trunc4_mod end_). pose proof (trunc4_bounds end_).
  pose proof (trunc4_gap start end_ Hlen).
  pose proof (trunc4_mono (- 2 ^ 31) start ltac:(lia)) as Hlow.
  rewrite (trunc4_fixed (- 2 ^ 31)) in Hlow by reflexivity.
  pose proof (fade_norm fade) as (Hf0 & Hf4 & Hfb & Hfn). cbv zeta in *.
  set (fmax := if fade <? 0 then 0 else trunc4 fade) in *.
  assert (Hfm : fmax < 2 ^ 31).
  { destruct (Z.lt_ge_cases fade 0); [rewrite Hfn by assumption; lia|].
    specialize (Hfb ltac:(assumption)). lia. }
  apply layer_fits_intro.
  - apply window_ok_intro; simpl; fold fmax; try lia.
    destruct (flag <? 3); lia.
  - apply window_aligned_intro; simpl; fold fmax; try assumption.
    destruct (flag <? 3); [reflexivity|assumption].
Qed.

Lemma map_fits (f : atmx_layer -> atmx_layer) mix :
  (forall lay, layer_fits sse lay = true -> layer_fits sse (f lay) = true) ->
  mixer_fits sse mix = true ->
  mixer_fits sse (set_mix_lays mix (map f (mix_lays mix))) = true.
Proof.
  intros Hf Hfit. apply mixer_fits_parts in Hfit as (Hfade & Hfade4 & Hall).
  apply mixer_fits_parts. simpl. split; [exact Hfade|]. split; [exact Hfade4|].
  apply Forall_fmap. eapply Forall_impl; [exact Hall|]. exact Hf.
Qed.

Lemma stop_layer_fits lay :
  layer_fits sse lay = true -> layer_fits sse (stop_layer lay) = true.
Proof.
  intros H. unfold stop_layer. destruct (Z.ltb_spec 1 (lay_flag lay)); [|exact H].
  apply layer_fits_flag; [exact H|lia].
Qed.

Lemma halt_layer_fits lay :
  layer_fits sse lay = true -> layer_fits sse (halt_layer lay) = true.
Proof.
  intros H. unfold halt_layer. destruct (Z.ltb_spec 2 (lay_flag lay)); [|exact H].
  apply layer_fits_flag; [exact H|lia].
Qed.

Lemma play_layer_fits lay :
  layer_fits sse lay = true -> layer_fits sse (play_layer lay) = true.
Proof.
  intros H. unfold play_layer, ATMX_CSWAP.
  destruct (Z.eqb_spec (lay_flag lay) ATOMIX_HALT) as [Hh|]; simpl.
  - apply layer_fits_flag; [exact H|rewrite Hh; discriminate].
  - rewrite set_lay_flag_id. exact H.
Qed.

Lemma atomixMixerMix_fits clip mix fnum :
  mixer_fits sse mix = true ->
  mixer_fits sse (if sse then SSE.atomixMixerMix clip mix fnum
                  else Scalar.atomixMixerMix clip mix fnum).1.1 = true.
Proof.
  intros Hfit. apply mixer_fits_parts in Hfit as (Hfade & Hfade4 & Hall).
  apply mixer_fits_parts.
  rewrite (atomixMixerMix_fade sse clip mix fnum). split; [exact Hfade|]. split; [exact Hfade4|].
  unfold layer_fits in *. destruct sse; simpl in *.
  - assert (Hall' : Forall (fun lay => layer_ok lay = true /\ layer_aligned lay = true)
                      (mix_lays mix)).
    { eapply Forall_impl; [exact Hall|]. intros lay H. apply andb_true_iff in H. exact H. }
    pose proof (SSELayer.sse_atomixMixerMix_window clip mix fnum Hall') as H.
    eapply Forall_impl; [exact H|]. intros lay [H1 H2]. rewrite H1, H2. reflexivity.
  - assert (Hall' : Forall (fun lay => layer_ok lay = true) (mix_lays mix)).
    { eapply Forall_impl; [exact Hall|]. intros lay H. apply andb_true_iff in H as [H _].
      exact H. }
    unfold Scalar.atomixMixerMix.
    match goal with
    | |- context [Scalar.mix_layers ?l ?v ?b ?n] =>
        pose proof (ScalarWindow.mix_layers_ok l v b n Hall') as H;
        destruct (Scalar.mix_layers l v b n) as [lays buff]
    end.
    simpl in *. eapply Forall_impl; [exact H|]. intros lay H1. rewrite H1. reflexivity.
Qed.

End Fits.

Section FitsController.

Variable LBITS : Z.
Hypothesis LBITS_range : 0 <= LBITS <= 30.
Variable sse : bool.

Local Abbreviation fits := (fun lay => layer_fits sse lay = true).

Lemma play_probe_fits n : forall mix snd flag gain pan start end_ fade,
  (forall id, layer_fits sse (new_layer id snd flag gain pan start end_ fade) = true) ->
  Forall fits (mix_lays mix) ->
  Forall fits (mix_lays (play_probe LBITS n mix snd flag gain pan start end_ fade).1).
Proof.
  induction n as [|n IH]; intros mix snd flag gain pan start end_ fade Hnew Hall;
    [exact Hall|].
  simpl. destruct (_ =? 0).
  - simpl. apply Forall_insert; [exact Hall|apply Hnew].
  - apply IH; assumption.
Qed.

Lemma atomixMixerPlayAdv_fits mix snd flag gain pan start end_ fade :
  - 2 ^ 31 <= start < 2 ^ 31 -> - 2 ^ 31 <= end_ < 2 ^ 31 ->
  - 2 ^ 31 <= fade < 2 ^ 31 ->
  mixer_fits sse mix = true ->
  mixer_fits sse (atomixMixerPlayAdv LBITS mix snd flag gain pan start end_ fade).1 = true.
Proof.
  intros Hs He Hf Hfit. apply (mixer_fits_parts sse) in Hfit as (Hfade & Hfade4 & Hall).
  apply (proj2 (mixer_fits_parts sse _)).
  destruct (play_adv_settings LBITS mix snd flag gain pan start end_ fade) as [_ Hkeep].
  rewrite Hkeep. split; [exact Hfade|]. split; [exact Hfade4|].
  unfold atomixMixerPlayAdv. destruct (_ || _); [exact Hall|].
  destruct (Z.ltb_spec (wrap_i32 (end_ - start)) 4); [exact Hall|].
  destruct (Z.ltb_spec end_ 4); [exact Hall|]. simpl.
  apply play_probe_fits; [|exact Hall].
  intros id. apply new_layer_fits; assumption.
Qed.

Lemma fits_lookup mix i :
  mixer_ok LBITS mix = true -> Forall fits (mix_lays mix) ->
  (i < Z.to_nat (ATMX_LAYERS LBITS))%nat -> layer_fits sse (mix_lays mix !!! i) = true.
Proof.
  intros Hok Hall Hi.
  apply (Forall_lookup_total_1 fits); [exact Hall|].
  rewrite (mixer_ok_length LBITS mix Hok). exact Hi.
Qed.

Lemma atomixMixerSetGainPan_fits mix id gain pan :
  mixer_ok LBITS mix = true -> mixer_fits sse mix = true ->
  mixer_fits sse (atomixMixerSetGainPan LBITS mix id gain pan).1 = true.
Proof.
  intros Hok Hfit. pose proof Hfit as Hfit0.
  apply (mixer_fits_parts sse) in Hfit as (Hfade & Hfade4 & Hall).
  unfold atomixMixerSetGainPan. destruct (_ && _); [|exact Hfit0].
  apply (proj2 (mixer_fits_parts sse _)). simpl. split; [exact Hfade|]. split; [exact Hfade4|].
  apply Forall_insert; [exact Hall|]. rewrite layer_fits_gain.
  apply fits_lookup; [assumption..|apply slot_lt; assumption].
Qed.

Lemma atomixMixerSetCursor_fits mix id cursor :
  mixer_ok LBITS mix = true -> mixer_fits sse mix = true ->
  mixer_fits sse (atomixMixerSetCursor LBITS mix id cursor).1 = true.
Proof.
  intros Hok Hfit. pose proof Hfit as Hfit0.
  apply (mixer_fits_parts sse) in Hfit as (Hfade & Hfade4 & Hall).
  unfold atomixMixerSetCursor.
  set (lay := mix_lays mix !!! slot LBITS id).
  destruct (id =? lay_id lay); [|exact Hfit0].
  destruct (Z.ltb_spec 1 (lay_flag lay)) as [Hflag|]; [|exact Hfit0].
  apply (proj2 (mixer_fits_parts sse _)). simpl. split; [exact Hfade|]. split; [exact Hfade4|].
  apply Forall_insert; [exact Hall|].
  pose proof (fits_lookup mix (slot LBITS id) Hok Hall (slot_lt LBITS LBITS_range id))
    as Hlay. fold lay in Hlay.
  unfold layer_fits, layer_ok, layer_aligned in Hlay |- *. simpl.
  destruct (Z.eqb_spec (lay_flag lay) 0); [lia|]. simpl in Hlay |- *.
  apply andb_true_iff in Hlay as [Hw Ha].
  pose proof (window_ok_elim lay Hw) as (Hs & Hs4 & Hse & Hc & He & Hf & Hm).
  pose proof (trunc4_mod cursor). pose proof (trunc4_bounds cursor).
  assert (Hmono : lay_start lay <= cursor -> lay_start lay <= trunc4 cursor).
  { intros Hle. rewrite <- (trunc4_fixed (lay_start lay)) at 1 by assumption.
    apply trunc4_mono, Hle. }
  apply andb_true_iff. split.
  - apply window_ok_intro; simpl; try lia.
    destruct (Z.ltb_spec cursor (lay_start lay)); [lia|].
    destruct (Z.ltb_spec (lay_end lay) cursor); [lia|].
    specialize (Hmono ltac:(assumption)). lia.
  - destruct sse; [|reflexivity]. simpl in Ha |- *.
    pose proof (window_aligned_elim lay Ha) as (Hc4 & He4 & Hf4 & Hm4).
    apply window_aligned_intro; simpl; try assumption.
    destruct (cursor <? lay_start lay); [assumption|].
    destruct (lay_end lay <? cursor); assumption.
Qed.

Lemma atomixMixerSetState_fits mix id flag :
  mixer_ok LBITS mix = true -> mixer_fits sse mix = true ->
  mixer_fits sse (atomixMixerSetState LBITS mix id flag).1 = true.
Proof.
  intros Hok Hfit.
  destruct (set_state_cases LBITS mix id flag) as [Hr|(Hflag & Hused & _ & _ & Hr)];
    cbv zeta in Hr; rewrite Hr; [exact Hfit|].
  apply (mixer_fits_parts sse) in Hfit as (Hfade & Hfade4 & Hall).
  apply (proj2 (mixer_fits_parts sse _)). simpl. split; [exact Hfade|]. split; [exact Hfade4|].
  apply Forall_insert; [exact Hall|].
  apply layer_fits_flag; [|lia].
  apply fits_lookup; [assumption..|apply slot_lt; assumption].
Qed.

End FitsController.

(** X14: In every mixer a program can reach with arguments in the range of
    their C types, in either build, every occupied layer has start <=
    cursor <= end inside int32, start < end, and 0 <= fade <= fmax; in the
    SSE build cursor, end, fade and fmax are multiples of four as well;
    the default fade is a multiple of four, at least 0 and below 2^31. *)
Theorem X14_layers_stay_inside_their_window (LBITS : Z) (sse : bool) (mix : atomix_mixer) :
  0 <= LBITS <= 30 -> runs LBITS sse mix ->
  mixer_ok LBITS mix = true /\ mixer_fits sse mix = true.
Proof.
  intros HL Hrun. induction Hrun as
    [ vol fade Hf
    | mix snd flag gain pan Hlen _ [IH1 IH2]
    | mix snd flag gain pan start end_ fade Hs He Hf _ [IH1 IH2]
    | mix id gain pan _ [IH1 IH2]
    | mix id cursor Hc _ [IH1 IH2]
    | mix id flag _ [IH1 IH2]
    | mix vol _ [IH1 IH2]
    | mix fade Hf _ [IH1 IH2]
    | mix _ [IH1 IH2]
    | mix _ [IH1 IH2]
    | mix _ [IH1 IH2]
    | clip mix fnum Hfnum _ [IH1 IH2] ].
  - split; [apply atomixMixerNew_ok|].
    apply (proj2 (mixer_fits_parts sse _)). simpl.
    pose proof (fade_norm fade) as (H0 & H4 & Hb & Hn). cbv zeta in *.
    split; [|split; [exact H4|]].
    + destruct (Z.lt_ge_cases fade 0); [rewrite Hn by assumption; lia|].
      specialize (Hb ltac:(assumption)). lia.
    + apply Forall_replicate. apply layer_fits_free. reflexivity.
  - split; [apply atomixMixerPlayAdv_ok; assumption|].
    destruct (proj1 (mixer_fits_parts sse _) IH2) as (Hfade & _).
    apply atomixMixerPlayAdv_fits; try assumption; lia.
  - split; [apply atomixMixerPlayAdv_ok; assumption|].
    apply atomixMixerPlayAdv_fits; assumption.
  - split; [apply atomixMixerSetGainPan_ok; assumption|].
    apply atomixMixerSetGainPan_fits; assumption.
  - split; [apply atomixMixerSetCursor_ok; assumption|].
    apply atomixMixerSetCursor_fits; assumption.
  - split; [apply atomixMixerSetState_ok; assumption|].
    apply atomixMixerSetState_fits; assumption.
  - split; [exact IH1|exact IH2].
  - split; [exact IH1|].
    destruct (proj1 (mixer_fits_parts sse _) IH2) as (_ & _ & Hall).
    apply (proj2 (mixer_fits_parts sse _)). simpl.
    pose proof (fade_norm fade) as (H0 & H4 & Hb & Hn). cbv zeta in *.
    split; [|split; [exact H4|exact Hall]].
    destruct (Z.lt_ge_cases fade 0); [rewrite Hn by assumption; lia|].
    specialize (Hb ltac:(assumption)). lia.
  - split; [apply atomixMixerStopAll_ok; assumption|].
    apply map_fits; [apply stop_layer_fits|exact IH2].
  - split; [apply atomixMixerHaltAll_ok; assumption|].
    apply map_fits; [apply halt_layer_fits|exact IH2].
  - split; [apply atomixMixerPlayAll_ok; assumption|].
    apply map_fits; [apply play_layer_fits|exact IH2].
  - split; [|apply atomixMixerMix_fits; exact IH2].
    destruct sse; [apply sse_atomixMixerMix_ok|apply scalar_atomixMixerMix_ok]; assumption.
Qed.

(** ** Before the sound: a negative cursor *)

Module ScalarPreroll.
Import Scalar.

Section Loops.

Variable frame : Z -> float32 * float32.
Variable g : atmx_f2.

Lemma fade_out_loop_quiet n : forall i lay cur buff,
  - 2 ^ 31 <= cur -> cur + Z.of_nat n <= 0 ->
  (fade_out_loop frame g n i lay cur buff).2 = buff.
Proof.
  induction n as [|n IH]; intros i lay cur buff Hc Hn; [reflexivity|].
  rewrite Nat2Z.inj_succ in Hn. cbn [fade_out_loop].
  destruct (lay_fade lay =? 0); [reflexivity|].
  destruct (Z.leb_spec 0 cur); [lia|].
  rewrite (wrap_i32_small (cur + 1)) by lia. apply IH; lia.
Qed.

Lemma play_out_loop_quiet n : forall i lay cur buff,
  - 2 ^ 31 <= cur -> cur + Z.of_nat n <= 0 ->
  (play_out_loop frame g n i lay cur buff).2 = buff.
Proof.
  induction n as [|n IH]; intros i lay cur buff Hc Hn; [reflexivity|].
  rewrite Nat2Z.inj_succ in Hn. cbn [play_out_loop].
  destruct (cur =? lay_end lay); [reflexivity|].
  destruct (Z.leb_spec 0 cur); [lia|].
  rewrite (wrap_i32_small (cur + 1)) by lia. apply IH; lia.
Qed.

Lemma fade_in_loop_quiet loop n : forall i lay cur buff,
  0 <= lay_end lay -> - 2 ^ 31 <= cur -> cur + Z.of_nat n <= 0 ->
  (fade_in_loop frame g loop n i lay cur buff).2 = buff.
Proof.
  induction n as [|n IH]; intros i lay cur buff He Hc Hn; [reflexivity|].
  rewrite Nat2Z.inj_succ in Hn. cbn [fade_in_loop].
  destruct (Z.eqb_spec cur (lay_end lay)); [lia|]. cbn [andb].
  destruct (Z.leb_spec 0 cur); [lia|].
  rewrite (wrap_i32_small (cur + 1)) by lia.
  destruct (lay_fade lay <? lay_fmax lay); apply IH; simpl; lia.
Qed.

Lemma play_loop_quiet loop n : forall i lay cur buff,
  0 <= lay_end lay -> - 2 ^ 31 <= cur -> cur + Z.of_nat n <= 0 ->
  (play_loop frame g loop n i lay cur buff).2 = buff.
Proof.
  induction n as [|n IH]; intros i lay cur buff He Hc Hn; [reflexivity|].
  rewrite Nat2Z.inj_succ in Hn. cbn [play_loop].
  destruct (Z.eqb_spec cur (lay_end lay)); [lia|]. cbn [andb].
  destruct (Z.leb_spec 0 cur); [lia|].
  rewrite (wrap_i32_small (cur + 1)) by lia. apply IH; lia.
Qed.

Lemma mix_fade_quiet lay buff fnum :
  - 2 ^ 31 <= lay_cursor lay -> lay_cursor lay + Z.of_nat (frames fnum) <= 0 ->
  (mix_fade frame g lay (lay_cursor lay) buff fnum).2 = buff.
Proof.
  intros Hc Hn. unfold mix_fade. rewrite ScalarFacts.swap_cursor_buffer.
  destruct (_ <? _); [apply fade_out_loop_quiet | apply play_out_loop_quiet]; assumption.
Qed.

Lemma mix_play_quiet lay loop buff fnum :
  0 <= lay_end lay ->
  - 2 ^ 31 <= lay_cursor lay -> lay_cursor lay + Z.of_nat (frames fnum) <= 0 ->
  (mix_play frame g lay loop (lay_cursor lay) buff fnum).2 = buff.
Proof.
  intros He Hc Hn. unfold mix_play. rewrite ScalarFacts.swap_cursor_buffer.
  destruct (_ <? _); [apply fade_in_loop_quiet | apply play_loop_quiet]; assumption.
Qed.

End Loops.

Lemma atmxMixLayer_quiet lay vol buff fnum :
  lay_flag lay = 0 \/
  (0 <= lay_end lay /\ - 2 ^ 31 <= lay_cursor lay /\
   lay_cursor lay + Z.of_nat (frames fnum) <= 0) ->
  (atmxMixLayer lay vol buff fnum).2 = buff.
Proof.
  intros H. unfold atmxMixLayer, atmxMixFadeMono, atmxMixFadeStereo,
    atmxMixPlayMono, atmxMixPlayStereo.
  destruct (Z.eqb_spec (lay_flag lay) 0) as [|Hused]; [reflexivity|].
  destruct H as [|(He & Hc & Hn)]; [contradiction|].
  destruct (lay_flag lay <? 3).
  - destruct ((0 <? lay_fade lay) && (lay_cursor lay <? lay_end lay)); [|reflexivity].
    destruct (snd_cha (lay_sound lay) =? 1);
      match goal with |- context [mix_fade ?f ?g' lay (lay_cursor lay) buff fnum] =>
        pose proof (mix_fade_quiet f g' lay buff fnum Hc Hn) as Hq;
        destruct (mix_fade f g' lay (lay_cursor lay) buff fnum) as [[lay1 cur1] buff1]
      end; exact Hq.
  - destruct (snd_cha (lay_sound lay) =? 1);
      match goal with |- context [mix_play ?f ?g' lay ?lp (lay_cursor lay) buff fnum] =>
        pose proof (mix_play_quiet f g' lay lp buff fnum He Hc Hn) as Hq;
        destruct (mix_play f g' lay lp (lay_cursor lay) buff fnum) as [[lay1 cur1] buff1]
      end; exact Hq.
Qed.

Lemma mix_layers_quiet lays : forall vol buff fnum,
  Forall (fun lay =>
            lay_flag lay = 0 \/
            (0 <= lay_end lay /\ - 2 ^ 31 <= lay_cursor lay /\
             lay_cursor lay + Z.of_nat (frames fnum) <= 0)) lays ->
  (mix_layers lays vol buff fnum).2 = buff.
Proof.
  induction lays as [|lay lays IH]; intros vol buff fnum Hall; [reflexivity|].
  inversion Hall as [|? ? Hlay Hrest]; subst. simpl.
  pose proof (atmxMixLayer_quiet lay vol buff fnum Hlay) as H1.
  destruct (atmxMixLayer lay vol buff fnum) as [lay' buff1]. simpl in H1. subst buff1.
  pose proof (IH vol buff fnum Hrest) as H2.
  destruct (mix_layers lays vol buff fnum) as [lays' buff2]. exact H2.
Qed.

End ScalarPreroll.

(** X15: Scalar build: while every occupied layer has its cursor at -N or
    before (a negative start is a delay) and its end at 0 or later, a mix
    of N < 2^31 frames writes only zeros. *)
Theorem X15_layers_before_their_start_are_silent (clip : bool) (mix : atomix_mixer)
    (fnum : Z) :
  0 <= fnum < 2 ^ 31 ->
  Forall (fun lay =>
            lay_flag lay = 0 \/
            (0 <= lay_end lay /\ - 2 ^ 31 <= lay_cursor lay /\
             lay_cursor lay + fnum <= 0)) (mix_lays mix) ->
  (Scalar.atomixMixerMix clip mix fnum).1.2 = replicate (Z.to_nat (2 * fnum)) F32.zero.
Proof.
  intros Hfnum Hall. unfold Scalar.atomixMixerMix.
  pose proof (ScalarLayer.frames_small fnum Hfnum) as Hn.
  match goal with
  | |- context [Scalar.mix_layers ?l ?v ?b ?n] =>
      pose proof (ScalarPreroll.mix_layers_quiet l v b n) as H;
      destruct (Scalar.mix_layers l v b n) as [lays buff]
  end.
  simpl in *. rewrite H by (rewrite Hn; exact Hall).
  rewrite (wrap_u32_small (fnum * 2)) by lia.
  replace (fnum * 2) with (2 * fnum) by lia.
  destruct clip; [|reflexivity]. rewrite SilenceFacts.map_replicate. reflexivity.
Qed.

(** ** What a playing layer adds to the buffer *)

Module ScalarSamples.
Import Scalar.

Lemma accum_lookup buff i v j :
  (i < length buff)%nat ->
  accum buff i v !!! j = if decide (i = j) then F32.add (buff !!! i) v else buff !!! j.
Proof.
  intros Hi. unfold accum. destruct (decide (i = j)) as [->|Hne].
  - apply list_lookup_total_insert_eq. exact Hi.
  - apply list_lookup_total_insert_ne. exact Hne.
Qed.

Lemma mix_plain_lookup buff i fr g j :
  (i + 1 < length buff)%nat ->
  mix_plain buff i fr g !!! j =
  if decide (j = i) then F32.add (buff !!! i) (F32.mul (fst fr) (f2_l g))
  else if decide (j = (i + 1)%nat) then F32.add (buff !!! (i + 1)%nat) (F32.mul (snd fr) (f2_r g))
  else buff !!! j.
Proof.
  intros Hi. unfold mix_plain.
  rewrite accum_lookup by (rewrite ScalarFacts.accum_length; lia).
  rewrite !accum_lookup by lia.
  destruct (decide (j = i)) as [->|Hji].
  - destruct (decide ((i + 1)%nat = i)); [lia|].
    destruct (decide (i = i)); [reflexivity|lia].
  - destruct (decide (j = (i + 1)%nat)) as [->|Hj1].
    + destruct (decide ((i + 1)%nat = (i + 1)%nat)); [|lia].
      destruct (decide (i = (i + 1)%nat)); [lia|reflexivity].
    + destruct (decide ((i + 1)%nat = j)); [lia|].
      destruct (decide (i = j)); [lia|reflexivity].
Qed.

Section Loops.

Variable frame : Z -> float32 * float32.
Variable g : atmx_f2.

Lemma play_loop_below loop n : forall i lay cur buff j,
  (i + 2 * n <= length buff)%nat -> (j < i)%nat ->
  (play_loop frame g loop n i lay cur buff).2 !!! j = buff !!! j.
Proof.
  induction n as [|n IH]; intros i lay cur buff j Hlen Hj; [reflexivity|].
  cbn [play_loop]. destruct ((cur =? lay_end lay) && negb loop); [reflexivity|].
  rewrite IH by (try (destruct (0 <=? _); rewrite ?ScalarFacts.mix_plain_length); lia).
  destruct (0 <=? _); [|reflexivity].
  rewrite mix_plain_lookup by lia.
  destruct (decide (j = i)); [lia|]. destruct (decide (j = (i + 1)%nat)); [lia|].
  reflexivity.
Qed.

Lemma play_loop_writes loop n : forall i lay cur buff t,
  0 <= cur -> cur + Z.of_nat n <= lay_end lay -> lay_end lay < 2 ^ 31 ->
  (i + 2 * n <= length buff)%nat -> (t < n)%nat ->
  let out := (play_loop frame g loop n i lay cur buff).2 in
  let fr := frame (cur + Z.of_nat t) in
  out !!! (i + 2 * t)%nat =
    F32.add (buff !!! (i + 2 * t)%nat) (F32.mul (fst fr) (f2_l g)) /\
  out !!! (i + 2 * t + 1)%nat =
    F32.add (buff !!! (i + 2 * t + 1)%nat) (F32.mul (snd fr) (f2_r g)).
Proof.
  induction n as [|n IH]; intros i lay cur buff t Hc He Hm Hlen Ht; [lia|].
  rewrite Nat2Z.inj_succ in He. cbn [play_loop].
  destruct (Z.eqb_spec cur (lay_end lay)); [lia|]. cbn [andb].
  destruct (Z.leb_spec 0 cur); [|lia].
  rewrite (wrap_i32_small (cur + 1)) by lia.
  destruct t as [|t].
  - cbv zeta. rewrite !play_loop_below
      by (rewrite ?ScalarFacts.mix_plain_length; lia).
    rewrite !mix_plain_lookup by lia.
    replace (i + 2 * 0)%nat with i by lia. rewrite Z.add_0_r.
    destruct (decide (i = i)); [|lia].
    destruct (decide ((i + 1)%nat = i)); [lia|].
    destruct (decide ((i + 1)%nat = (i + 1)%nat)); [|lia].
    split; reflexivity.
  - match goal with |- context [play_loop _ _ _ _ ?i' ?l' ?c' ?b'] =>
      destruct (IH i' l' c' b' t) as [H1 H2];
        rewrite ?ScalarFacts.mix_plain_length; try lia
    end.
    cbv zeta in H1, H2 |- *.
    replace (i + 2 * S t)%nat with (i + 2 + 2 * t)%nat by lia.
    replace (cur + Z.of_nat (S t)) with (cur + 1 + Z.of_nat t) by lia.
    rewrite H1, H2. rewrite !mix_plain_lookup by lia.
    destruct (decide ((i + 2 + 2 * t)%nat = i)); [lia|].
    destruct (decide ((i + 2 + 2 * t)%nat = (i + 1)%nat)); [lia|].
    destruct (decide ((i + 2 + 2 * t + 1)%nat = i)); [lia|].
    destruct (decide ((i + 2 + 2 * t + 1)%nat = (i + 1)%nat)); [lia|].
    split; reflexivity.
Qed.

End Loops.

Lemma mix_layers_app l1 : forall l2 vol buff fnum,
  mix_layers (l1 ++ l2) vol buff fnum =
  let r1 := mix_layers l1 vol buff fnum in
  let r2 := mix_layers l2 vol r1.2 fnum in
  (r1.1 ++ r2.1, r2.2).
Proof.
  induction l1 as [|lay l1 IH]; intros l2 vol buff fnum.
  - simpl. destruct (mix_layers l2 vol buff fnum); reflexivity.
  - simpl. destruct (atmxMixLayer lay vol buff fnum) as [lay' buff1].
    rewrite IH. cbv zeta.
    destruct (mix_layers l1 vol buff1 fnum) as [l1' buff2]. simpl.
    destruct (mix_layers l2 vol buff2 fnum) as [l2' buff3]. reflexivity.
Qed.

Lemma single_layer_output (clip : bool) (mix : atomix_mixer) (i : nat) (fnum : Z)
    (j : nat) :
  (i < length (mix_lays mix))%nat ->
  (forall k, k <> i -> lay_flag (mix_lays mix !!! k) = 0) ->
  0 <= fnum < 2 ^ 31 -> (j < Z.to_nat (2 * fnum))%nat ->
  let buff0 := replicate (Z.to_nat (2 * fnum)) F32.zero in
  (atomixMixerMix clip mix fnum).1.2 !!! j =
  (if clip then clip_sample else fun x => x)
    ((atmxMixLayer (mix_lays mix !!! i) (mix_volume mix) buff0 fnum).2 !!! j).
Proof.
  intros Hi Hfree Hfnum Hj buff0.
  set (lay := mix_lays mix !!! i).
  assert (Hsplit : mix_lays mix = take i (mix_lays mix) ++ lay :: drop (S i) (mix_lays mix)).
  { unfold lay. rewrite <- (take_drop_middle (mix_lays mix) i (mix_lays mix !!! i)) at 1;
      [reflexivity|]. apply list_lookup_lookup_total_lt. exact Hi. }
  assert (Hbefore : forallb (fun lay => lay_flag lay =? 0) (take i (mix_lays mix)) = true).
  { apply forallb_forall. intros x Hin. apply list_elem_of_In in Hin.
    apply list_elem_of_lookup in Hin as [k Hk].
    pose proof (lookup_lt_Some _ _ _ Hk) as Hlt. rewrite length_take in Hlt.
    rewrite lookup_take_lt in Hk by lia.
    pose proof (list_lookup_total_correct _ _ _ Hk) as Hk'.
    rewrite <- Hk', Hfree by lia. reflexivity. }
  assert (Hafter : forallb (fun lay => lay_flag lay =? 0) (drop (S i) (mix_lays mix)) = true).
  { apply forallb_forall. intros x Hin. apply list_elem_of_In in Hin.
    apply list_elem_of_lookup in Hin as [k Hk].
    rewrite lookup_drop in Hk.
    pose proof (list_lookup_total_correct _ _ _ Hk) as Hk'.
    rewrite <- Hk', Hfree by lia. reflexivity. }
  unfold atomixMixerMix.
  rewrite (wrap_u32_small (fnum * 2)) by lia.
  replace (fnum * 2) with (2 * fnum) by lia. fold buff0.
  assert (Hbuf : (mix_layers (mix_lays mix) (mix_volume mix) buff0 fnum).2
                 = (atmxMixLayer lay (mix_volume mix) buff0 fnum).2).
  { rewrite Hsplit at 1. rewrite mix_layers_app. cbv zeta.
    rewrite SilenceFacts.scalar_mix_layers_free by exact Hbefore. simpl.
    destruct (atmxMixLayer lay (mix_volume mix) buff0 fnum) as [lay' buff1].
    rewrite SilenceFacts.scalar_mix_layers_free by exact Hafter. reflexivity. }
  pose proof (ScalarFacts.mix_layers_length (mix_lays mix) (mix_volume mix) buff0 fnum)
    as Hlen.
  destruct (mix_layers (mix_lays mix) (mix_volume mix) buff0 fnum) as [lays buff1].
  cbn [fst snd] in Hbuf, Hlen |- *. subst buff1.
  destruct clip; [|reflexivity].
  apply (@list_lookup_total_fmap _ _ clip_sample float32_inhabited float32_inhabited).
  rewrite Hlen. unfold buff0. rewrite length_replicate. exact Hj.
Qed.

End ScalarSamples.

Import ScalarSamples.

(** X16: Scalar build: with one layer playing or looping at full fade, the
    others free and the call staying between frame 0 and the layer's end,
    frame t of the output is, left and right, the sound's sample at
    cursor+t times (gain times volume), added to zero and then clipped if
    clipping is on. *)
Theorem X16_playing_layer_adds_gain_times_sample (clip : bool) (mix : atomix_mixer)
    (i : nat) (fnum : Z) (t : nat) :
  let lay := mix_lays mix !!! i in
  let sound := lay_sound lay in
  let fr := if snd_cha sound =? 1
            then Scalar.frame_mono sound (lay_cursor lay + Z.of_nat t)
            else Scalar.frame_stereo sound (lay_cursor lay + Z.of_nat t) in
  let out := (Scalar.atomixMixerMix clip mix fnum).1.2 in
  let post := fun x => if clip then Scalar.clip_sample x else x in
  (i < length (mix_lays mix))%nat ->
  (forall j, j <> i -> lay_flag (mix_lays mix !!! j) = 0) ->
  lay_flag lay = ATOMIX_PLAY \/ lay_flag lay = ATOMIX_LOOP ->
  lay_fmax lay <= lay_fade lay ->
  0 <= lay_cursor lay -> lay_cursor lay + fnum <= lay_end lay -> lay_end lay < 2 ^ 31 ->
  0 <= fnum < 2 ^ 31 -> Z.of_nat t < fnum ->
  out !!! (2 * t)%nat =
    post (F32.add F32.zero
            (F32.mul (fst fr) (F32.mul (f2_l (lay_gain lay)) (mix_volume mix)))) /\
  out !!! (2 * t + 1)%nat =
    post (F32.add F32.zero
            (F32.mul (snd fr) (F32.mul (f2_r (lay_gain lay)) (mix_volume mix)))).
Proof.
  intros lay sound fr out post Hi Hfree Hflag Hfade Hc He Hm Hfnum Ht.
  pose proof (ScalarLayer.frames_small fnum Hfnum) as Hn.
  unfold out, post.
  rewrite !(single_layer_output clip mix i fnum) by (assumption || lia).
  fold lay. set (buff0 := replicate (Z.to_nat (2 * fnum)) F32.zero).
  assert (Hlen0 : length buff0 = Z.to_nat (2 * fnum))
    by (unfold buff0; apply length_replicate).
  unfold Scalar.atmxMixLayer, Scalar.atmxMixPlayMono, Scalar.atmxMixPlayStereo.
  destruct (Z.eqb_spec (lay_flag lay) 0);
    [unfold ATOMIX_PLAY, ATOMIX_LOOP in Hflag; lia|].
  destruct (Z.ltb_spec (lay_flag lay) 3);
    [unfold ATOMIX_PLAY, ATOMIX_LOOP in Hflag; lia|].
  unfold fr, sound.
  destruct (snd_cha (lay_sound lay) =? 1); unfold Scalar.mix_play;
    (destruct (Z.ltb_spec (lay_fade lay) (lay_fmax lay)); [lia|]);
    match goal with |- context [Scalar.play_loop ?f ?g' ?lp ?n 0 lay ?c buff0] =>
      pose proof (play_loop_writes f g' lp n 0 lay c buff0 t Hc
                    ltac:(rewrite Hn; lia) Hm ltac:(lia) ltac:(lia)) as [H1 H2];
      destruct (Scalar.play_loop f g' lp n 0 lay c buff0) as [[lay1 cur1] buff1]
    end;
    cbn [fst snd plus] in H1, H2 |- *;
    unfold Scalar.swap_cursor; destruct (ATMX_CSWAP _ _ _); cbn [fst snd];
    rewrite H1, H2; unfold buff0;
    rewrite !lookup_total_replicate_2 by lia;
    destruct clip; split; reflexivity.
Qed.

Module ScalarRamp.
Import Scalar ScalarSamples.

Lemma mix_faded_lookup buff i fr fade g j :
  (i + 1 < length buff)%nat ->
  mix_faded buff i fr fade g !!! j =
  if decide (j = i)
  then F32.add (buff !!! i) (F32.mul (F32.mul (fst fr) fade) (f2_l g))
  else if decide (j = (i + 1)%nat)
  then F32.add (buff !!! (i + 1)%nat) (F32.mul (F32.mul (snd fr) fade) (f2_r g))
  else buff !!! j.
Proof.
  intros Hi. unfold mix_faded.
  rewrite accum_lookup by (rewrite ScalarFacts.accum_length; lia).
  rewrite !accum_lookup by lia.
  destruct (decide (j = i)) as [->|Hji].
  - destruct (decide ((i + 1)%nat = i)); [lia|].
    destruct (decide (i = i)); [reflexivity|lia].
  - destruct (decide (j = (i + 1)%nat)) as [->|Hj1].
    + destruct (decide ((i + 1)%nat = (i + 1)%nat)); [|lia].
      destruct (decide (i = (i + 1)%nat)); [lia|reflexivity].
    + destruct (decide ((i + 1)%nat = j)); [lia|].
      destruct (decide (i = j)); [lia|reflexivity].
Qed.

Section Loops.

Variable frame : Z -> float32 * float32.
Variable g : atmx_f2.

Lemma fade_in_loop_below loop n : forall i lay cur buff j,
  (i + 2 * n <= length buff)%nat -> (j < i)%nat ->
  (fade_in_loop frame g loop n i lay cur buff).2 !!! j = buff !!! j.
Proof.
  induction n as [|n IH]; intros i lay cur buff j Hlen Hj; [reflexivity|].
  cbn [fade_in_loop]. destruct ((cur =? lay_end lay) && negb loop); [reflexivity|].
  rewrite IH by (try (destruct (0 <=? _); rewrite ?ScalarFacts.mix_faded_length); lia).
  destruct (0 <=? _); [|reflexivity].
  rewrite mix_faded_lookup by lia.
  destruct (decide (j = i)); [lia|]. destruct (decide (j = (i + 1)%nat)); [lia|].
  reflexivity.
Qed.

Lemma fade_in_loop_writes loop n : forall i lay cur buff t,
  0 <= cur -> cur + Z.of_nat n <= lay_end lay -> lay_end lay < 2 ^ 31 ->
  - 2 ^ 31 <= lay_fade lay <= lay_fmax lay -> lay_fmax lay < 2 ^ 31 ->
  (i + 2 * n <= length buff)%nat -> (t < n)%nat ->
  let out := (fade_in_loop frame g loop n i lay cur buff).2 in
  let fr := frame (cur + Z.of_nat t) in
  let fade := F32.div (F32.of_int (Z.min (lay_fade lay + Z.of_nat t) (lay_fmax lay)))
                      (F32.of_int (lay_fmax lay)) in
  out !!! (i + 2 * t)%nat =
    F32.add (buff !!! (i + 2 * t)%nat) (F32.mul (F32.mul (fst fr) fade) (f2_l g)) /\
  out !!! (i + 2 * t + 1)%nat =
    F32.add (buff !!! (i + 2 * t + 1)%nat) (F32.mul (F32.mul (snd fr) fade) (f2_r g)).
Proof.
  induction n as [|n IH]; intros i lay cur buff t Hc He Hm Hf Hfm Hlen Ht; [lia|].
  rewrite Nat2Z.inj_succ in He. cbn [fade_in_loop].
  destruct (Z.eqb_spec cur (lay_end lay)); [lia|]. cbn [andb].
  destruct (Z.leb_spec 0 cur); [|lia].
  rewrite (wrap_i32_small (cur + 1)) by lia.
  destruct t as [|t].
  - cbv zeta. rewrite !fade_in_loop_below
      by (rewrite ?ScalarFacts.mix_faded_length; lia).
    rewrite !mix_faded_lookup by lia.
    replace (i + 2 * 0)%nat with i by lia. rewrite !Z.add_0_r.
    rewrite (Z.min_l (lay_fade lay)) by lia.
    destruct (decide (i = i)); [|lia].
    destruct (decide ((i + 1)%nat = i)); [lia|].
    destruct (decide ((i + 1)%nat = (i + 1)%nat)); [|lia].
    split; reflexivity.
  - set (lay' := if lay_fade lay <? lay_fmax lay
                  then set_lay_fade lay (wrap_i32 (lay_fade lay + 1)) else lay).
    assert (Hramp : Z.min (lay_fade lay' + Z.of_nat t) (lay_fmax lay')
                    = Z.min (lay_fade lay + Z.of_nat (S t)) (lay_fmax lay)).
    { unfold lay'. destruct (Z.ltb_spec (lay_fade lay) (lay_fmax lay)); simpl;
        rewrite ?wrap_i32_small by lia; lia. }
    assert (Hmax : lay_fmax lay' = lay_fmax lay)
      by (unfold lay'; destruct (_ <? _); reflexivity).
    assert (Hend : lay_end lay' = lay_end lay)
      by (unfold lay'; destruct (_ <? _); reflexivity).
    assert (Hf' : - 2 ^ 31 <= lay_fade lay' <= lay_fmax lay').
    { unfold lay'. destruct (Z.ltb_spec (lay_fade lay) (lay_fmax lay)); simpl;
        rewrite ?wrap_i32_small by lia; lia. }
    match goal with |- context [fade_in_loop _ _ _ _ ?i' lay' ?c' ?b'] =>
      destruct (IH i' lay' c' b' t ltac:(lia) ltac:(rewrite Hend; lia)
                  ltac:(rewrite Hend; lia) Hf' ltac:(rewrite Hmax; lia)
                  ltac:(rewrite ScalarFacts.mix_faded_length; lia) ltac:(lia))
        as [H1 H2]
    end.
    cbv zeta in H1, H2 |- *.
    replace (i + 2 * S t)%nat with (i + 2 + 2 * t)%nat by lia.
    replace (cur + Z.of_nat (S t)) with (cur + 1 + Z.of_nat t) by lia.
    rewrite H1, H2. rewrite !mix_faded_lookup by lia.
    destruct (decide ((i + 2 + 2 * t)%nat = i)); [lia|].
    destruct (decide ((i + 2 + 2 * t)%nat = (i + 1)%nat)); [lia|].
    destruct (decide ((i + 2 + 2 * t + 1)%nat = i)); [lia|].
    destruct (decide ((i + 2 + 2 * t + 1)%nat = (i + 1)%nat)); [lia|].
    rewrite Hramp, Hmax. split; reflexivity.
Qed.

End Loops.
End ScalarRamp.

(** X17: Scalar build: with one layer playing or looping below its fade
    maximum, the others free and the call staying between frame 0 and the
    layer's end, frame t of the output is (the sound's sample at cursor+t
    times min(fade+t, fmax)/fmax) times (gain times volume), added to zero
    and then clipped if clipping is on. *)
Theorem X17_fading_in_layer_ramps_up (clip : bool) (mix : atomix_mixer)
    (i : nat) (fnum : Z) (t : nat) :
  let lay := mix_lays mix !!! i in
  let sound := lay_sound lay in
  let fr := if snd_cha sound =? 1
            then Scalar.frame_mono sound (lay_cursor lay + Z.of_nat t)
            else Scalar.frame_stereo sound (lay_cursor lay + Z.of_nat t) in
  let ramp := F32.div (F32.of_int (Z.min (lay_fade lay + Z.of_nat t) (lay_fmax lay)))
                      (F32.of_int (lay_fmax lay)) in
  let out := (Scalar.atomixMixerMix clip mix fnum).1.2 in
  let post := fun x => if clip then Scalar.clip_sample x else x in
  (i < length (mix_lays mix))%nat ->
  (forall j, j <> i -> lay_flag (mix_lays mix !!! j) = 0) ->
  lay_flag lay = ATOMIX_PLAY \/ lay_flag lay = ATOMIX_LOOP ->
  0 <= lay_fade lay < lay_fmax lay -> lay_fmax lay < 2 ^ 31 ->
  0 <= lay_cursor lay -> lay_cursor lay + fnum <= lay_end lay -> lay_end lay < 2 ^ 31 ->
  0 <= fnum < 2 ^ 31 -> Z.of_nat t < fnum ->
  out !!! (2 * t)%nat =
    post (F32.add F32.zero
            (F32.mul (F32.mul (fst fr) ramp)
                     (F32.mul (f2_l (lay_gain lay)) (mix_volume mix)))) /\
  out !!! (2 * t + 1)%nat =
    post (F32.add F32.zero
            (F32.mul (F32.mul (snd fr) ramp)
                     (F32.mul (f2_r (lay_gain lay)) (mix_volume mix)))).
Proof.
  intros lay sound fr ramp out post Hi Hfree Hflag Hfade Hfm Hc He Hm Hfnum Ht.
  pose proof (ScalarLayer.frames_small fnum Hfnum) as Hn.
  unfold out, post.
  rewrite !(ScalarSamples.single_layer_output clip mix i fnum) by (assumption || lia).
  fold lay. set (buff0 := replicate (Z.to_nat (2 * fnum)) F32.zero).
  assert (Hlen0 : length buff0 = Z.to_nat (2 * fnum))
    by (unfold buff0; apply length_replicate).
  unfold Scalar.atmxMixLayer, Scalar.atmxMixPlayMono, Scalar.atmxMixPlayStereo.
  destruct (Z.eqb_spec (lay_flag lay) 0);
    [unfold ATOMIX_PLAY, ATOMIX_LOOP in Hflag; lia|].
  destruct (Z.ltb_spec (lay_flag lay) 3);
    [unfold ATOMIX_PLAY, ATOMIX_LOOP in Hflag; lia|].
  unfold fr, ramp, sound.
  destruct (snd_cha (lay_sound lay) =? 1); unfold Scalar.mix_play;
    (destruct (Z.ltb_spec (lay_fade lay) (lay_fmax lay)); [|lia]);
    match goal with |- context [Scalar.fade_in_loop ?f ?g' ?lp ?n 0 lay ?c buff0] =>
      pose proof (ScalarRamp.fade_in_loop_writes f g' lp n 0 lay c buff0 t Hc
                    ltac:(rewrite Hn; lia) Hm ltac:(lia) Hfm ltac:(lia) ltac:(lia))
        as [H1 H2];
      destruct (Scalar.fade_in_loop f g' lp n 0 lay c buff0) as [[lay1 cur1] buff1]
    end;
    cbn [fst snd plus] in H1, H2 |- *;
    unfold Scalar.swap_cursor; destruct (ATMX_CSWAP _ _ _); cbn [fst snd];
    rewrite H1, H2; unfold buff0;
    rewrite !lookup_total_replicate_2 by lia;
    destruct clip; split; reflexivity.
Qed.

(** ** The blocks the SSE kernels load

    [snd->data[(cur % snd->len) >> 2]] (mono, then unpacked) and
    [snd->data[(cur % snd->len) >> 1]] with its successor (stereo) against
    the scalar [snd->data[cur % snd->len]]. *)

Lemma block_in_sound (len cur : Z) :
  0 < len -> len mod 4 = 0 -> 0 <= cur -> cur mod 4 = 0 ->
  (cur mod len) mod 4 = 0 /\ cur mod len + 4 <= len /\
  forall k, 0 <= k < 4 -> Z.rem (cur + k) len = cur mod len + k.
Proof.
  intros Hlen Hlen4 Hcur Hcur4.
  assert (Hq : 0 <= cur mod len < len) by (apply Z.mod_pos_bound; lia).
  assert (Hq4 : (cur mod len) mod 4 = 0).
  { rewrite Z.mod_mod_divide by (apply Z.mod_divide; lia). exact Hcur4. }
  assert (Hroom : cur mod len + 4 <= len) by (Z.div_mod_to_equations; lia).
  split; [exact Hq4|]. split; [exact Hroom|].
  intros k Hk. rewrite Z.rem_mod_nonneg by lia.
  rewrite <- Zplus_mod_idemp_l. apply Z.mod_small. lia.
Qed.

(** X18: For a sound whose length is a multiple of four and a cursor that
    is a non-negative multiple of four, the two __m128 the SSE kernels
    load are exactly the four frames the scalar kernels read at cursor,
    cursor+1, cursor+2 and cursor+3, and all four lie inside the sound. *)
Theorem X18_sse_block_is_four_scalar_frames (snd0 : atomix_sound) (cur : Z) :
  0 < snd_len snd0 -> snd_len snd0 mod 4 = 0 -> 0 <= cur -> cur mod 4 = 0 ->
  let f := fun k => if snd_cha snd0 =? 1 then Scalar.frame_mono snd0 (cur + k)
                    else Scalar.frame_stereo snd0 (cur + k) in
  (if snd_cha snd0 =? 1 then SSE.frames_mono snd0 cur else SSE.frames_stereo snd0 cur)
  = (SSE._mm_setr_ps (f 0).1 (f 0).2 (f 1).1 (f 1).2,
     SSE._mm_setr_ps (f 2).1 (f 2).2 (f 3).1 (f 3).2) /\
  cur mod snd_len snd0 + 4 <= snd_len snd0.
Proof.
  intros Hlen Hlen4 Hcur Hcur4 f.
  destruct (block_in_sound (snd_len snd0) cur Hlen Hlen4 Hcur Hcur4)
    as (Hq4 & Hroom & Hrem).
  set (len := snd_len snd0) in *.
  set (q := cur mod len) in *.
  assert (Hq : 0 <= q < len) by (apply Z.mod_pos_bound; lia).
  split; [|exact Hroom].
  unfold f, Scalar.frame_mono, Scalar.frame_stereo, SSE.frames_mono,
    SSE.frames_stereo, SSE.snd_m128, SSE._mm_unpacklo_ps, SSE._mm_unpackhi_ps,
    SSE._mm_setr_ps.
  fold len. rewrite !Hrem by lia. rewrite Z.add_0_r in *.
  rewrite (Z.rem_mod_nonneg cur len) by lia. fold q.
  rewrite Z.shiftr_div_pow2, Z.shiftr_div_pow2 by lia.
  rewrite !Z.shiftl_mul_pow2 by lia.
  change (2 ^ 2) with 4. change (2 ^ 1) with 2.
  assert (H4 : 4 * (q / 4) = q) by (Z.div_mod_to_equations; lia).
  assert (H2 : 4 * (q / 2) = 2 * q) by (Z.div_mod_to_equations; lia).
  assert (H2' : 4 * (q / 2 + 1) = 2 * q + 4) by lia.
  rewrite H4, H2, H2'.
  destruct (snd_cha snd0 =? 1);
    cbn [SSE.ps0 SSE.ps1 SSE.ps2 SSE.ps3 fst snd];
    f_equal; f_equal; f_equal; lia.
Qed.

Module SSEStream.
Import SSE.

Lemma asize_whole_blocks rnum :
  0 <= rnum < 2 ^ 31 ->
  let rem := wrap_u32 (asize_of rnum * 2 - rnum) in
  asize_of rnum * 2 = rnum + rem /\ 0 <= rem <= 3 /\
  asize_of rnum mod 2 = 0 /\ 0 <= asize_of rnum.
Proof.
  intros Hr. cbv zeta. rewrite CarryFacts.asize_of_spec. unfold wrap_u32.
  Z.div_mod_to_equations. lia.
Qed.

Lemma blocks_even asize :
  0 <= asize -> asize mod 2 = 0 -> 4 * Z.of_nat (blocks asize) = asize * 2.
Proof.
  intros H0 H2. unfold blocks. rewrite Z2Nat.id by (Z.div_mod_to_equations; lia).
  Z.div_mod_to_equations. lia.
Qed.

Lemma mix_new_rem clip mix out rnum fnum :
  mix_rem (mix_new clip mix out rnum fnum).1.1 = wrap_u32 (asize_of rnum * 2 - rnum).
Proof.
  unfold mix_new. destruct (mix_layers _ _ _ _) as [lays align]. reflexivity.
Qed.

Lemma mix_new_lays clip mix out rnum fnum :
  mix_lays (mix_new clip mix out rnum fnum).1.1 =
  (mix_layers (mix_lays mix) (_mm_set_ps1 (mix_volume mix))
     (replicate (Z.to_nat (asize_of rnum)) _mm_setzero_ps) (asize_of rnum)).1.
Proof.
  unfold mix_new. destruct (mix_layers _ _ _ _) as [lays align]. reflexivity.
Qed.

Section Loops.

Variable frames : Z -> __m128 * __m128.
Variable gmul : __m128.

Lemma play_loop_cursor n : forall i lay cur align,
  - 2 ^ 31 <= cur <= lay_end lay -> lay_end lay < 2 ^ 31 ->
  cur mod 4 = 0 -> lay_end lay mod 4 = 0 ->
  let r := play_loop frames gmul false n i lay cur align in
  r.1.2 = Z.min (cur + 4 * Z.of_nat n) (lay_end lay) /\
  lay_cursor r.1.1 = lay_cursor lay /\ lay_end r.1.1 = lay_end lay.
Proof.
  induction n as [|n IH]; intros i lay cur align Hc He Hc4 He4.
  - simpl. split; [lia|split; reflexivity].
  - rewrite Nat2Z.inj_succ. cbn [play_loop].
    destruct (Z.eqb_spec cur (lay_end lay)); [simpl; split; [lia|split; reflexivity]|].
    cbn [negb andb].
    assert (Hroom : cur + 4 <= lay_end lay) by (Z.div_mod_to_equations; lia).
    rewrite wrap_i32_small by lia.
    match goal with |- context [play_loop _ _ _ _ ?i' _ _ ?a'] =>
      destruct (IH i' lay (cur + 4) a' ltac:(lia) He
                  ltac:(Z.div_mod_to_equations; lia) He4) as (H1 & H2 & H3)
    end.
    cbv zeta. rewrite H1, H2, H3. split; [lia|split; reflexivity].
Qed.

Lemma fade_in_loop_cursor n : forall i lay cur align,
  - 2 ^ 31 <= cur <= lay_end lay -> lay_end lay < 2 ^ 31 ->
  cur mod 4 = 0 -> lay_end lay mod 4 = 0 ->
  let r := fade_in_loop frames gmul false n i lay cur align in
  r.1.2 = Z.min (cur + 4 * Z.of_nat n) (lay_end lay) /\
  lay_cursor r.1.1 = lay_cursor lay /\ lay_end r.1.1 = lay_end lay.
Proof.
  induction n as [|n IH]; intros i lay cur align Hc He Hc4 He4.
  - simpl. split; [lia|split; reflexivity].
  - rewrite Nat2Z.inj_succ. cbn [fade_in_loop].
    destruct (Z.eqb_spec cur (lay_end lay)); [simpl; split; [lia|split; reflexivity]|].
    cbn [negb andb].
    assert (Hroom : cur + 4 <= lay_end lay) by (Z.div_mod_to_equations; lia).
    rewrite (wrap_i32_small (cur + 4)) by lia.
    match goal with |- context [fade_in_loop _ _ _ _ ?i' ?l' _ ?a'] =>
      assert (Hend : lay_end l' = lay_end lay) by (destruct (_ <? _); reflexivity);
      assert (Hcur : lay_cursor l' = lay_cursor lay) by (destruct (_ <? _); reflexivity);
      destruct (IH i' l' (cur + 4) a' ltac:(rewrite Hend; lia)
                  ltac:(rewrite Hend; lia)
                  ltac:(Z.div_mod_to_equations; lia)
                  ltac:(rewrite Hend; exact He4)) as (H1 & H2 & H3)
    end.
    cbv zeta. rewrite H1, H2, H3, Hend, Hcur. split; [lia|split; reflexivity].
Qed.

Lemma mix_play_cursor lay align asize :
  window_ok lay = true -> window_aligned lay = true ->
  0 <= asize -> asize mod 2 = 0 ->
  lay_cursor (mix_play frames gmul lay false (lay_cursor lay) align asize).1.1 =
  Z.min (lay_cursor lay + asize * 2) (lay_end lay) /\
  (mix_play frames gmul lay false (lay_cursor lay) align asize).1.2 =
  Z.min (lay_cursor lay + asize * 2) (lay_end lay).
Proof.
  intros Hw Ha H0 H2.
  pose proof (window_ok_elim lay Hw) as (Hs & Hs4 & Hse & Hc & He & Hf & Hm).
  pose proof (window_aligned_elim lay Ha) as (Hc4 & He4 & Hf4 & Hm4).
  pose proof (blocks_even asize H0 H2) as Hb.
  unfold mix_play, swap_cursor.
  destruct (lay_fade lay <? lay_fmax lay).
  - pose proof (fade_in_loop_cursor (blocks asize) 0 lay (lay_cursor lay) align
                  ltac:(lia) He Hc4 He4) as (H1 & H3 & _).
    destruct (fade_in_loop _ _ _ _ _ _ _ _) as [[lay1 cur1] align1].
    simpl in H1, H3 |- *. unfold ATMX_CSWAP. rewrite H3, Z.eqb_refl. simpl.
    rewrite H1, Hb. split; reflexivity.
  - pose proof (play_loop_cursor (blocks asize) 0 lay (lay_cursor lay) align
                  ltac:(lia) He Hc4 He4) as (H1 & H3 & _).
    destruct (play_loop _ _ _ _ _ _ _ _) as [[lay1 cur1] align1].
    simpl in H1, H3 |- *. unfold ATMX_CSWAP. rewrite H3, Z.eqb_refl. simpl.
    rewrite H1, Hb. split; reflexivity.
Qed.

End Loops.

Lemma atmxMixLayer_cursor lay vol align asize :
  lay_flag lay = ATOMIX_PLAY ->
  window_ok lay = true -> window_aligned lay = true ->
  0 <= asize -> asize mod 2 = 0 ->
  lay_cursor (atmxMixLayer lay vol align asize).1 =
  Z.min (lay_cursor lay + asize * 2) (lay_end lay).
Proof.
  intros Hflag Hw Ha H0 H2.
  unfold atmxMixLayer, atmxMixPlayMono, atmxMixPlayStereo.
  rewrite Hflag. cbn [Z.eqb Z.ltb Z.compare ATOMIX_PLAY ATOMIX_LOOP Pos.compare
                      Pos.compare_cont Pos.eqb andb].
  destruct (snd_cha (lay_sound lay) =? 1);
    match goal with |- context [mix_play ?f ?g' lay false (lay_cursor lay) align asize] =>
      pose proof (mix_play_cursor f g' lay align asize Hw Ha H0 H2) as [H1 _];
      destruct (mix_play f g' lay false (lay_cursor lay) align asize)
        as [[lay1 cur1] align1]
    end;
    cbn [fst snd] in H1 |- *;
    match goal with |- context [if ?c then _ else _] => destruct c end;
    exact H1.
Qed.

Lemma mix_layers_cursor lays : forall vol align asize,
  0 <= asize -> asize mod 2 = 0 ->
  Forall2 (fun lay lay' =>
             lay_flag lay = ATOMIX_PLAY ->
             window_ok lay = true -> window_aligned lay = true ->
             lay_cursor lay' = Z.min (lay_cursor lay + asize * 2) (lay_end lay))
          lays (mix_layers lays vol align asize).1.
Proof.
  induction lays as [|lay lays IH]; intros vol align asize H0 H2; [constructor|].
  simpl. pose proof (fun a b c => atmxMixLayer_cursor lay vol align asize a b c H0 H2) as H1.
  destruct (atmxMixLayer lay vol align asize) as [lay' align1].
  pose proof (IH vol align1 asize H0 H2) as H3.
  destruct (mix_layers lays vol align1 asize) as [lays' align2].
  simpl in *. constructor; assumption.
Qed.

End SSEStream.

Import SSEStream.

(** X19: SSE build, on a mixer with a well-formed carry and for a request
    of N < 2^31 frames: a mix call mixes a whole number of four-frame
    blocks, namely the frames requested less the frames carried in plus
    the frames carried out (at most three); a request the carry can serve
    mixes nothing and moves no layer; a playing layer's cursor advances by
    the frames mixed or to its end. *)
Theorem X19_carry_counts_whole_blocks (clip : bool) (mix : atomix_mixer) (fnum : Z) :
  carry_ok mix = true -> 0 <= fnum < 2 ^ 31 ->
  let mix' := (SSE.atomixMixerMix clip mix fnum).1.1 in
  let mixed := fnum - mix_rem mix + mix_rem mix' in
  0 <= mix_rem mix' <= 3 /\ 0 <= mixed /\ mixed mod 4 = 0 /\
  (mix_rem mix <> 0 -> fnum <= mix_rem mix -> mixed = 0 /\ mix_lays mix' = mix_lays mix) /\
  Forall2 (fun lay lay' =>
             lay_flag lay = ATOMIX_PLAY ->
             window_ok lay = true -> window_aligned lay = true ->
             lay_cursor lay' = Z.min (lay_cursor lay + mixed) (lay_end lay))
          (mix_lays mix) (mix_lays mix').
Proof.
  intros Hok Hfnum. destruct (CarryFacts.carry_ok_elim _ Hok) as (Hrem & _).
  cbv zeta. unfold SSE.atomixMixerMix.
  destruct (Z.eqb_spec (mix_rem mix) 0) as [H0|Hn0].
  - rewrite mix_new_rem, mix_new_lays, H0.
    pose proof (asize_whole_blocks fnum Hfnum) as (Hsum & Hr & H2 & Hnn). cbv zeta in *.
    split; [exact Hr|]. split; [lia|]. split; [Z.div_mod_to_equations; lia|].
    split; [intros Hc; contradiction|].
    replace (fnum - 0 + wrap_u32 (SSE.asize_of fnum * 2 - fnum))
      with (SSE.asize_of fnum * 2) by lia.
    apply mix_layers_cursor; assumption.
  - destruct (Z.ltb_spec (mix_rem mix) fnum) as [Hlt|Hge].
    + rewrite mix_new_rem, mix_new_lays.
      rewrite (wrap_u32_small (fnum - mix_rem mix)) by lia.
      pose proof (asize_whole_blocks (fnum - mix_rem mix) ltac:(lia))
        as (Hsum & Hr & H2 & Hnn). cbv zeta in *.
      split; [exact Hr|]. split; [lia|]. split; [Z.div_mod_to_equations; lia|].
      split; [intros _ Hc; lia|].
      replace (fnum - mix_rem mix
               + wrap_u32 (SSE.asize_of (fnum - mix_rem mix) * 2 - (fnum - mix_rem mix)))
        with (SSE.asize_of (fnum - mix_rem mix) * 2) by lia.
      apply (mix_layers_cursor (mix_lays mix)); assumption.
    + cbn [fst snd mix_rem mix_lays set_mix_carry].
      rewrite (wrap_u32_small (mix_rem mix - fnum)) by lia.
      replace (fnum - mix_rem mix + (mix_rem mix - fnum)) with 0 by lia.
      split; [lia|]. split; [lia|]. split; [reflexivity|].
      split; [intros _ _; split; reflexivity|].
      apply Forall_Forall2_diag. apply Forall_forall. intros lay _ Hflag Hw Ha.
      pose proof (window_ok_elim lay Hw) as (Hs & Hs4 & Hse & Hc & He & Hf & Hm).
      rewrite Z.add_0_r, Z.min_l by lia. reflexivity.
Qed.

Module SSEFadeOut.
Import SSE SSEStream.

Section Loops.

Variable frames : Z -> __m128 * __m128.
Variable gmul : __m128.

Lemma sse_fade_out_loop_spec n : forall i lay cur align,
  0 <= lay_fade lay < 2 ^ 31 -> lay_fade lay mod 4 = 0 ->
  - 2 ^ 31 <= cur -> cur + lay_fade lay < 2 ^ 31 ->
  let r := fade_out_loop frames gmul n i lay cur align in
  lay_fade r.1.1 = lay_fade lay - Z.min (4 * Z.of_nat n) (lay_fade lay) /\
  r.1.2 = cur + Z.min (4 * Z.of_nat n) (lay_fade lay) /\
  lay_cursor r.1.1 = lay_cursor lay /\ lay_end r.1.1 = lay_end lay.
Proof.
  induction n as [|n IH]; intros i lay cur align Hf Hf4 Hc Hcf.
  - simpl. repeat split; lia.
  - rewrite Nat2Z.inj_succ. cbn [fade_out_loop].
    destruct (Z.eqb_spec (lay_fade lay) 0) as [H0|Hn0].
    + simpl. repeat split; lia.
    + assert (H4 : 4 <= lay_fade lay) by (Z.div_mod_to_equations; lia).
      rewrite !wrap_i32_small by lia.
      match goal with |- context [fade_out_loop _ _ _ ?i' ?l' ?c' ?a'] =>
        destruct (IH i' l' c' a' ltac:(simpl; lia)
                    ltac:(simpl; Z.div_mod_to_equations; lia)
                    ltac:(lia) ltac:(simpl; lia)) as (H1 & H2 & H3 & H5)
      end.
      cbv zeta. rewrite H1, H2, H3, H5. simpl. repeat split; lia.
Qed.

Lemma sse_play_out_loop_spec n : forall i lay cur align,
  - 2 ^ 31 <= cur <= lay_end lay -> lay_end lay < 2 ^ 31 ->
  cur mod 4 = 0 -> lay_end lay mod 4 = 0 ->
  let r := play_out_loop frames gmul n i lay cur align in
  r.1.1 = lay /\ r.1.2 = Z.min (cur + 4 * Z.of_nat n) (lay_end lay).
Proof.
  induction n as [|n IH]; intros i lay cur align Hc He Hc4 He4.
  - simpl. split; [reflexivity|lia].
  - rewrite Nat2Z.inj_succ. cbn [play_out_loop].
    destruct (Z.eqb_spec cur (lay_end lay)); [simpl; split; [reflexivity|lia]|].
    assert (Hroom : cur + 4 <= lay_end lay) by (Z.div_mod_to_equations; lia).
    rewrite wrap_i32_small by lia.
    match goal with |- context [play_out_loop _ _ _ ?i' _ _ ?a'] =>
      destruct (IH i' lay (cur + 4) a' ltac:(lia) He
                  ltac:(Z.div_mod_to_equations; lia) He4) as (H1 & H2)
    end.
    cbv zeta. rewrite H1, H2. split; [reflexivity|lia].
Qed.

(** After enough blocks the fade-out kernel has brought the fade counter
    to 0 or the cursor to the end. *)
Lemma sse_mix_fade_done lay align asize :
  window_ok lay = true -> window_aligned lay = true ->
  lay_end lay - lay_cursor lay < 2 ^ 31 ->
  0 <= asize -> asize mod 2 = 0 -> lay_fade lay <= asize * 2 ->
  let r := mix_fade frames gmul lay (lay_cursor lay) align asize in
  lay_fade r.1.1 = 0 \/ r.1.2 = lay_end r.1.1.
Proof.
  intros Hw Ha Hgap H0 H2 Hfade.
  pose proof (window_ok_elim lay Hw) as (Hs & Hs4 & Hse & Hc & He & Hf & Hm).
  pose proof (window_aligned_elim lay Ha) as (Hc4 & He4 & Hf4 & Hm4).
  pose proof (blocks_even asize H0 H2) as Hb.
  unfold mix_fade, swap_cursor. rewrite wrap_i32_small by lia.
  destruct (Z.ltb_spec (lay_fade lay) (lay_end lay - lay_cursor lay)).
  - pose proof (sse_fade_out_loop_spec (blocks asize) 0 lay (lay_cursor lay) align
                  ltac:(lia) Hf4 ltac:(lia) ltac:(lia)) as (H1 & H3 & H5 & H6).
    destruct (fade_out_loop _ _ _ _ _ _ _) as [[lay1 cur1] align1].
    simpl in H1, H3, H5, H6 |- *. unfold ATMX_CSWAP. rewrite H5, Z.eqb_refl. simpl.
    left. lia.
  - pose proof (sse_play_out_loop_spec (blocks asize) 0 lay (lay_cursor lay) align
                  ltac:(lia) He Hc4 He4) as (H1 & H3).
    destruct (play_out_loop _ _ _ _ _ _ _) as [[lay1 cur1] align1].
    simpl in H1, H3 |- *. subst lay1. unfold ATMX_CSWAP. rewrite Z.eqb_refl. simpl.
    right. lia.
Qed.

End Loops.

Lemma sse_stopped_layer_freed lay vol align asize :
  layer_ok lay = true -> layer_aligned lay = true ->
  lay_flag lay = 0 \/ lay_flag lay = ATOMIX_STOP ->
  lay_end lay - lay_cursor lay < 2 ^ 31 ->
  0 <= asize -> asize mod 2 = 0 -> lay_fade lay <= asize * 2 ->
  lay_flag (atmxMixLayer lay vol align asize).1 = 0.
Proof.
  intros Hok Hal [H0|Hstop] Hgap Hn H2 Hfade.
  - unfold atmxMixLayer. rewrite H0. exact H0.
  - assert (Hused : lay_flag lay <> 0) by (rewrite Hstop; discriminate).
    pose proof (layer_ok_used lay Hok Hused) as Hw.
    pose proof (layer_aligned_used lay Hal Hused) as Ha.
    pose proof (window_ok_elim lay Hw) as (Hs & Hs4 & Hse & Hc & He & Hf & Hm).
    unfold atmxMixLayer, atmxMixFadeMono, atmxMixFadeStereo.
    rewrite Hstop. cbn [Z.eqb Z.ltb Z.compare ATOMIX_STOP Pos.compare
                        Pos.compare_cont Pos.eqb andb].
    destruct (Z.ltb_spec 0 (lay_fade lay)) as [Hpos|Hzero];
      [destruct (Z.ltb_spec (lay_cursor lay) (lay_end lay)) as [Hlt|Hend]|];
      cbn [andb].
    + destruct (snd_cha (lay_sound lay) =? 1);
        match goal with |- context [mix_fade ?f ?g' lay (lay_cursor lay) align asize] =>
          pose proof (sse_mix_fade_done f g' lay align asize Hw Ha Hgap Hn H2 Hfade)
            as Hdone;
          destruct (mix_fade f g' lay (lay_cursor lay) align asize)
            as [[lay1 cur1] align1]
        end;
        cbn [fst snd] in Hdone |- *;
        (destruct Hdone as [Hd|Hd];
         [replace (lay_fade lay1 =? 0) with true by lia
         |replace (cur1 =? lay_end lay1) with true by lia; rewrite orb_true_r]);
        reflexivity.
    + replace (lay_cursor lay =? lay_end lay) with true by lia.
      rewrite orb_true_r. reflexivity.
    + replace (lay_fade lay =? 0) with true by lia. reflexivity.
Qed.

Lemma sse_mix_layers_freed lays : forall vol align asize,
  Forall (fun lay =>
            layer_ok lay = true /\ layer_aligned lay = true /\
            (lay_flag lay = 0 \/ lay_flag lay = ATOMIX_STOP) /\
            lay_end lay - lay_cursor lay < 2 ^ 31 /\ lay_fade lay <= asize * 2) lays ->
  0 <= asize -> asize mod 2 = 0 ->
  forallb (fun lay => lay_flag lay =? 0) (mix_layers lays vol align asize).1 = true.
Proof.
  induction lays as [|lay lays IH]; intros vol align asize Hall Hn H2; [reflexivity|].
  inversion Hall as [|? ? (Hok & Hal & Hflag & Hgap & Hfade) Hrest]; subst.
  simpl.
  pose proof (sse_stopped_layer_freed lay vol align asize Hok Hal Hflag Hgap Hn H2 Hfade)
    as H1.
  destruct (atmxMixLayer lay vol align asize) as [lay' align1].
  pose proof (IH vol align1 asize Hrest Hn H2) as H3.
  destruct (mix_layers lays vol align1 asize) as [lays' align2].
  simpl in *. rewrite H1, H3. reflexivity.
Qed.

End SSEFadeOut.

Lemma stop_layer_stopped lay :
  0 <= lay_flag lay <= 4 ->
  lay_flag (stop_layer lay) = 0 \/ lay_flag (stop_layer lay) = ATOMIX_STOP.
Proof. apply stop_layer_flag. Qed.

Lemma stop_layer_numbers lay :
  lay_cursor (stop_layer lay) = lay_cursor lay /\ lay_end (stop_layer lay) = lay_end lay /\
  lay_fade (stop_layer lay) = lay_fade lay.
Proof. unfold stop_layer. destruct (_ <? _); repeat split; reflexivity. Qed.

(** X20: atomixMixerStopAll followed by one atomixMixerMix of N < 2^31
    frames frees every layer, in both builds, when the layers are inside
    their windows with fewer than 2^31 frames between cursor and end, and
    the call mixes at least as many frames as the largest fade counter (in
    the SSE build the frames requested less the carried ones, the carry
    being well-formed and either empty or smaller than the request). *)
Theorem X20_stop_all_then_mix_frees_every_layer (LBITS : Z) (sse clip : bool)
    (mix : atomix_mixer) (fnum : Z) :
  mixer_ok LBITS mix = true -> 0 <= fnum < 2 ^ 31 ->
  (sse = true -> carry_ok mix = true /\ (mix_rem mix = 0 \/ mix_rem mix < fnum)) ->
  Forall (fun lay => layer_fits sse lay = true /\
                     lay_end lay - lay_cursor lay < 2 ^ 31 /\
                     lay_fade lay <= fnum - (if sse then mix_rem mix else 0))
         (mix_lays mix) ->
  all_free (if sse then SSE.atomixMixerMix clip (atomixMixerStopAll mix) fnum
            else Scalar.atomixMixerMix clip (atomixMixerStopAll mix) fnum).1.1 = true.
Proof.
  intros Hok Hfnum Hcarry Hall.
  assert (Hflags : Forall (fun lay => 0 <= lay_flag lay <= 4) (mix_lays mix)).
  { apply (Forall_lookup_total_2 (fun lay => 0 <= lay_flag lay <= 4)).
    intros i _. apply (mixer_ok_flag LBITS mix i Hok). }
  assert (Hstopped :
    Forall (fun lay =>
              layer_fits sse lay = true /\
              (lay_flag lay = 0 \/ lay_flag lay = ATOMIX_STOP) /\
              lay_end lay - lay_cursor lay < 2 ^ 31 /\
              lay_fade lay <= fnum - (if sse then mix_rem mix else 0))
           (mix_lays (atomixMixerStopAll mix))).
  { unfold atomixMixerStopAll. cbn [mix_lays set_mix_lays].
    apply Forall_fmap. rewrite Forall_forall in Hall, Hflags |- *.
    intros lay Hin. destruct (Hall lay Hin) as (Hfit & Hgap & Hfade).
    destruct (stop_layer_numbers lay) as (Hc & He & Hf). unfold compose.
    rewrite Hc, He, Hf.
    split; [apply stop_layer_fits; exact Hfit|].
    split; [apply stop_layer_stopped, Hflags, Hin|]. split; assumption. }
  unfold all_free. destruct sse.
  - destruct (Hcarry eq_refl) as (Hcok & Hrem).
    destruct (CarryFacts.carry_ok_elim _ Hcok) as (Hrange & _).
    assert (Haligned : forall rnum, fnum - mix_rem mix <= rnum -> 0 <= rnum < 2 ^ 31 ->
              forallb (fun lay => lay_flag lay =? 0)
                (SSE.mix_layers (mix_lays (atomixMixerStopAll mix))
                   (SSE._mm_set_ps1 (mix_volume mix))
                   (replicate (Z.to_nat (SSE.asize_of rnum)) SSE._mm_setzero_ps)
                   (SSE.asize_of rnum)).1 = true).
    { intros rnum Hge Hr.
      pose proof (SSEStream.asize_whole_blocks rnum Hr) as (Hsum & Hrm & H2 & Hnn).
      cbv zeta in *.
      apply SSEFadeOut.sse_mix_layers_freed; [|exact Hnn|exact H2].
      eapply Forall_impl; [exact Hstopped|].
      intros lay (Hfit & Hflag & Hgap & Hfade). cbv beta in *.
      unfold layer_fits in Hfit. apply andb_true_iff in Hfit as [Hlok Hlal].
      simpl in Hlal. repeat split; try assumption. lia. }
    unfold SSE.atomixMixerMix.
    change (mix_rem (atomixMixerStopAll mix)) with (mix_rem mix).
    destruct (Z.eqb_spec (mix_rem mix) 0) as [H0|Hn0].
    + rewrite SSEStream.mix_new_lays. apply Haligned; lia.
    + destruct (Z.ltb_spec (mix_rem mix) fnum) as [Hlt|Hge]; [|lia].
      rewrite SSEStream.mix_new_lays.
      rewrite (wrap_u32_small (fnum - mix_rem mix)) by lia.
      apply (Haligned (fnum - mix_rem mix)); lia.
  - unfold Scalar.atomixMixerMix.
    match goal with
    | |- context [Scalar.mix_layers ?l ?v ?b ?n] =>
        pose proof (scalar_mix_layers_freed l v b n) as H;
        destruct (Scalar.mix_layers l v b n) as [lays buff]
    end.
    cbn [fst snd mix_lays set_mix_lays] in H |- *. apply H; [|exact Hfnum].
    eapply Forall_impl; [exact Hstopped|].
    intros lay (Hfit & Hflag & Hgap & Hfade). cbv beta in *.
    unfold layer_fits in Hfit. apply andb_true_iff in Hfit as [Hlok _].
    repeat split; try assumption. lia.
Qed.

(** ** The two builds side by side

    The scalar build works on the floats of the buffer, the SSE build on
    the same floats four at a time. *)

Module Builds.

Lemma floats_of_cons m align :
  SSE.floats_of (m :: align) =
  SSE.ps0 m :: SSE.ps1 m :: SSE.ps2 m :: SSE.ps3 m :: SSE.floats_of align.
Proof. reflexivity. Qed.

Lemma four_times_succ (k : nat) : (4 * S k = S (S (S (S (4 * k)))))%nat.
Proof. lia. Qed.

(** Four scalar frames are one SSE block. *)
Lemma four_frames_one_block (align : list SSE.__m128) : forall (i : nat)
    (f0 f1 f2 f3 : float32 * float32) (g : atmx_f2),
  (i + 1 < length align)%nat ->
  Scalar.mix_plain
    (Scalar.mix_plain
       (Scalar.mix_plain
          (Scalar.mix_plain (SSE.floats_of align) (4 * i) f0 g)
          (4 * i + 2) f1 g)
       (4 * i + 2 + 2) f2 g)
    (4 * i + 2 + 2 + 2) f3 g
  = SSE.floats_of
      (SSE.mix_block align i
         (SSE._mm_setr_ps (fst f0) (snd f0) (fst f1) (snd f1),
          SSE._mm_setr_ps (fst f2) (snd f2) (fst f3) (snd f3))
         (SSE._mm_setr_ps (f2_l g) (f2_r g) (f2_l g) (f2_r g))).
Proof.
  induction align as [|m align IH]; intros i f0 f1 f2 f3 g Hi; [simpl in Hi; lia|].
  destruct i as [|i].
  - destruct align as [|m' align]; [simpl in Hi; lia|]. reflexivity.
  - rewrite four_times_succ.
    specialize (IH i f0 f1 f2 f3 g ltac:(simpl in Hi; lia)).
    unfold SSE.mix_block, SSE.accum, Scalar.mix_plain, Scalar.accum in *.
    rewrite !floats_of_cons.
    cbn [Nat.add insert list_insert lookup_total list_lookup_total] in *.
    rewrite !floats_of_cons. do 4 f_equal. exact IH.
Qed.

End Builds.

Module BuildLoops.
Import Builds.

Section Loops.

Variable frame : Z -> float32 * float32.
Variable frames : Z -> SSE.__m128 * SSE.__m128.
Variable g : atmx_f2.

Hypothesis frames_block : forall c, 0 <= c -> c mod 4 = 0 ->
  frames c =
  (SSE._mm_setr_ps (frame c).1 (frame c).2 (frame (c + 1)).1 (frame (c + 1)).2,
   SSE._mm_setr_ps (frame (c + 2)).1 (frame (c + 2)).2
                   (frame (c + 3)).1 (frame (c + 3)).2).

Local Abbreviation gmul := (SSE._mm_setr_ps (f2_l g) (f2_r g) (f2_l g) (f2_r g)).

(** Four turns of the scalar loop from an aligned cursor inside the
    window: no turn ends the loop or wraps, and all four are on the same
    side of frame 0. *)
Lemma play_loop_four loop n i lay cur buff :
  - 2 ^ 31 <= cur -> cur + 4 <= lay_end lay -> lay_end lay < 2 ^ 31 ->
  cur mod 4 = 0 ->
  Scalar.play_loop frame g loop (S (S (S (S n)))) i lay cur buff =
  Scalar.play_loop frame g loop n (i + 2 + 2 + 2 + 2) lay (cur + 4)
    (if 0 <=? cur
     then Scalar.mix_plain
            (Scalar.mix_plain
               (Scalar.mix_plain (Scalar.mix_plain buff i (frame cur) g)
                  (i + 2) (frame (cur + 1)) g)
               (i + 2 + 2) (frame (cur + 2)) g)
            (i + 2 + 2 + 2) (frame (cur + 3)) g
     else buff).
Proof.
  intros Hc He Hm Hc4.
  assert (E1 : (cur =? lay_end lay) = false) by lia.
  assert (E2 : (cur + 1 =? lay_end lay) = false) by lia.
  assert (E3 : (cur + 1 + 1 =? lay_end lay) = false) by lia.
  assert (E4 : (cur + 1 + 1 + 1 =? lay_end lay) = false) by lia.
  assert (P2 : (0 <=? cur + 1) = (0 <=? cur)) by (Z.div_mod_to_equations; lia).
  assert (P3 : (0 <=? cur + 1 + 1) = (0 <=? cur)) by (Z.div_mod_to_equations; lia).
  assert (P4 : (0 <=? cur + 1 + 1 + 1) = (0 <=? cur)) by (Z.div_mod_to_equations; lia).
  cbn [Scalar.play_loop]. rewrite E1. cbn [andb].
  rewrite (wrap_i32_small (cur + 1)) by lia. rewrite E2. cbn [andb].
  rewrite (wrap_i32_small (cur + 1 + 1)) by lia. rewrite E3. cbn [andb].
  rewrite (wrap_i32_small (cur + 1 + 1 + 1)) by lia. rewrite E4. cbn [andb].
  rewrite (wrap_i32_small (cur + 1 + 1 + 1 + 1)) by lia.
  rewrite P2, P3, P4.
  replace (cur + 1 + 1 + 1 + 1) with (cur + 4) by lia.
  replace (cur + 1 + 1 + 1) with (cur + 3) by lia.
  replace (cur + 1 + 1) with (cur + 2) by lia.
  destruct (0 <=? cur); reflexivity.
Qed.

Lemma play_loop_agrees loop n : forall i lay cur align,
  (i + 2 * n <= length align)%nat ->
  - 2 ^ 31 <= lay_start lay -> lay_start lay mod 4 = 0 ->
  lay_start lay < lay_end lay -> lay_start lay <= cur <= lay_end lay ->
  lay_end lay < 2 ^ 31 -> cur mod 4 = 0 -> lay_end lay mod 4 = 0 ->
  Scalar.play_loop frame g loop (4 * n) (4 * i) lay cur (SSE.floats_of align) =
  let r := SSE.play_loop frames gmul loop n i lay cur align in
  (r.1.1, r.1.2, SSE.floats_of r.2).
Proof.
  induction n as [|n IH]; intros i lay cur align Hlen Hs Hs4 Hse Hc He Hc4 He4;
    [reflexivity|].
  rewrite four_times_succ. cbn [SSE.play_loop].
  destruct ((cur =? lay_end lay) && negb loop) eqn:Hstop.
  - cbn [Scalar.play_loop]. rewrite Hstop. reflexivity.
  - set (cur1 := if cur =? lay_end lay then lay_start lay else cur).
    assert (Hc1 : lay_start lay <= cur1 /\ cur1 + 4 <= lay_end lay /\ cur1 mod 4 = 0).
    { unfold cur1. destruct (Z.eqb_spec cur (lay_end lay));
        repeat split; try assumption; Z.div_mod_to_equations; lia. }
    destruct Hc1 as (Hc1 & Hroom & Hc14).
    assert (Hfirst : forall k b,
              Scalar.play_loop frame g loop (S k) (4 * i) lay cur b =
              Scalar.play_loop frame g loop (S k) (4 * i) lay cur1 b).
    { intros k b. cbn [Scalar.play_loop]. rewrite Hstop. unfold cur1.
      destruct (Z.eqb_spec cur (lay_end lay)) as [Heq|Hne].
      - destruct loop; [|simpl in Hstop; discriminate].
        cbn [negb]. rewrite andb_false_r.
        destruct (Z.eqb_spec (lay_start lay) (lay_end lay)); [lia|]. reflexivity.
      - rewrite (proj2 (Z.eqb_neq cur (lay_end lay)) Hne). reflexivity. }
    rewrite Hfirst. rewrite play_loop_four by lia.
    rewrite (wrap_i32_small (cur1 + 4)) by lia.
    replace (4 * i + 2 + 2 + 2 + 2)%nat with (4 * (i + 2))%nat by lia.
    assert (Hbuf :
      (if 0 <=? cur1
       then Scalar.mix_plain
              (Scalar.mix_plain
                 (Scalar.mix_plain
                    (Scalar.mix_plain (SSE.floats_of align) (4 * i) (frame cur1) g)
                    (4 * i + 2) (frame (cur1 + 1)) g)
                 (4 * i + 2 + 2) (frame (cur1 + 2)) g)
              (4 * i + 2 + 2 + 2) (frame (cur1 + 3)) g
       else SSE.floats_of align)
      = SSE.floats_of (if 0 <=? cur1 then SSE.mix_block align i (frames cur1) gmul
                       else align)).
    { destruct (Z.leb_spec 0 cur1); [|reflexivity].
      rewrite frames_block by assumption.
      apply four_frames_one_block. lia. }
    rewrite Hbuf.
    apply IH; try assumption; try lia.
    + destruct (0 <=? cur1); rewrite ?SSEFacts.mix_block_length; lia.
    + Z.div_mod_to_equations; lia.
Qed.

End Loops.
End BuildLoops.

Module BuildLayers.
Import Builds BuildLoops.

Lemma frames_mono_block (snd0 : atomix_sound) (c : Z) :
  0 < snd_len snd0 -> snd_len snd0 mod 4 = 0 -> 0 <= c -> c mod 4 = 0 ->
  let f := Scalar.frame_mono snd0 in
  SSE.frames_mono snd0 c =
  (SSE._mm_setr_ps (f c).1 (f c).2 (f (c + 1)).1 (f (c + 1)).2,
   SSE._mm_setr_ps (f (c + 2)).1 (f (c + 2)).2 (f (c + 3)).1 (f (c + 3)).2).
Proof.
  intros Hlen Hlen4 Hc Hc4 f.
  destruct (block_in_sound (snd_len snd0) c Hlen Hlen4 Hc Hc4) as (Hq4 & Hroom & Hrem).
  pose proof (Hrem 0 ltac:(lia)) as Hrem0. rewrite !Z.add_0_r in Hrem0.
  assert (Hq : 0 <= c mod snd_len snd0) by (apply Z.mod_pos_bound; lia).
  unfold f, Scalar.frame_mono, SSE.frames_mono, SSE.snd_m128, SSE._mm_unpacklo_ps,
    SSE._mm_unpackhi_ps, SSE._mm_setr_ps.
  rewrite !Hrem by lia. rewrite Hrem0.
  set (q := c mod snd_len snd0) in *.
  rewrite Z.shiftr_div_pow2 by lia. change (2 ^ 2) with 4.
  assert (H4 : 4 * (q / 4) = q) by (Z.div_mod_to_equations; lia).
  rewrite H4.
  cbn [SSE.ps0 SSE.ps1 SSE.ps2 SSE.ps3 fst snd].
  f_equal; f_equal; f_equal; lia.
Qed.

Lemma frames_stereo_block (snd0 : atomix_sound) (c : Z) :
  0 < snd_len snd0 -> snd_len snd0 mod 4 = 0 -> 0 <= c -> c mod 4 = 0 ->
  let f := Scalar.frame_stereo snd0 in
  SSE.frames_stereo snd0 c =
  (SSE._mm_setr_ps (f c).1 (f c).2 (f (c + 1)).1 (f (c + 1)).2,
   SSE._mm_setr_ps (f (c + 2)).1 (f (c + 2)).2 (f (c + 3)).1 (f (c + 3)).2).
Proof.
  intros Hlen Hlen4 Hc Hc4 f.
  destruct (block_in_sound (snd_len snd0) c Hlen Hlen4 Hc Hc4) as (Hq4 & Hroom & Hrem).
  pose proof (Hrem 0 ltac:(lia)) as Hrem0. rewrite !Z.add_0_r in Hrem0.
  assert (Hq : 0 <= c mod snd_len snd0) by (apply Z.mod_pos_bound; lia).
  unfold f, Scalar.frame_stereo, SSE.frames_stereo, SSE.snd_m128, SSE._mm_setr_ps.
  rewrite !Hrem by lia. rewrite Hrem0.
  set (q := c mod snd_len snd0) in *.
  rewrite Z.shiftr_div_pow2 by lia. rewrite !Z.shiftl_mul_pow2 by lia.
  change (2 ^ 1) with 2.
  assert (H2 : 4 * (q / 2) = 2 * q) by (Z.div_mod_to_equations; lia).
  assert (H2' : 4 * (q / 2 + 1) = 2 * q + 4) by lia.
  rewrite H2, H2'.
  cbn [SSE.ps0 SSE.ps1 SSE.ps2 SSE.ps3 fst snd].
  f_equal; f_equal; f_equal; lia.
Qed.

Lemma frames_blocks fnum :
  0 <= fnum < 2 ^ 31 -> fnum mod 4 = 0 ->
  SSE.asize_of fnum * 2 = fnum /\
  Scalar.frames fnum = (4 * SSE.blocks (SSE.asize_of fnum))%nat /\
  (2 * SSE.blocks (SSE.asize_of fnum))%nat = Z.to_nat (SSE.asize_of fnum).
Proof.
  intros Hf H4.
  assert (Ha : SSE.asize_of fnum * 2 = fnum).
  { rewrite CarryFacts.asize_of_spec, wrap_u32_small by lia.
    Z.div_mod_to_equations. lia. }
  assert (Hn : 0 <= SSE.asize_of fnum) by apply CarryFacts.asize_of_nonneg.
  pose proof (ScalarLayer.frames_small fnum Hf) as Hfr.
  pose proof (SSEStream.blocks_even (SSE.asize_of fnum) Hn
                ltac:(Z.div_mod_to_equations; lia)) as Hb.
  split; [exact Ha|]. split; lia.
Qed.

Section Kernels.

Variable frame : Z -> float32 * float32.
Variable frames : Z -> SSE.__m128 * SSE.__m128.
Variable g : atmx_f2.

Hypothesis frames_block : forall c, 0 <= c -> c mod 4 = 0 ->
  frames c =
  (SSE._mm_setr_ps (frame c).1 (frame c).2 (frame (c + 1)).1 (frame (c + 1)).2,
   SSE._mm_setr_ps (frame (c + 2)).1 (frame (c + 2)).2
                   (frame (c + 3)).1 (frame (c + 3)).2).

Lemma mix_play_agrees lay loop align fnum :
  0 <= fnum < 2 ^ 31 -> fnum mod 4 = 0 ->
  length align = Z.to_nat (SSE.asize_of fnum) ->
  window_ok lay = true -> window_aligned lay = true ->
  lay_fmax lay <= lay_fade lay ->
  Scalar.mix_play frame g lay loop (lay_cursor lay) (SSE.floats_of align) fnum =
  let r := SSE.mix_play frames
             (SSE._mm_setr_ps (f2_l g) (f2_r g) (f2_l g) (f2_r g))
             lay loop (lay_cursor lay) align (SSE.asize_of fnum) in
  (r.1.1, r.1.2, SSE.floats_of r.2).
Proof.
  intros Hf Hf4 Hlen Hw Ha Hfull.
  apply window_ok_elim in Hw as (Hs & Hs4 & Hse & Hc & He & Hfade & Hfmax).
  apply window_aligned_elim in Ha as (Hc4 & He4 & _ & _).
  destruct (frames_blocks fnum Hf Hf4) as (_ & Hfr & Hbl).
  unfold Scalar.mix_play, SSE.mix_play.
  destruct (Z.ltb_spec (lay_fade lay) (lay_fmax lay)); [lia|].
  rewrite Hfr.
  pose proof (play_loop_agrees frame frames g frames_block loop
                (SSE.blocks (SSE.asize_of fnum)) 0 lay (lay_cursor lay) align
                ltac:(lia) Hs Hs4 Hse Hc He Hc4 He4) as Hloop.
  change (4 * 0)%nat with 0%nat in Hloop. rewrite Hloop. cbv zeta.
  destruct (SSE.play_loop frames _ loop _ 0 lay (lay_cursor lay) align)
    as [[lay1 cur1] align1].
  unfold Scalar.swap_cursor, SSE.swap_cursor. cbn [fst snd].
  destruct (ATMX_CSWAP (lay_cursor lay1) (lay_cursor lay) cur1) as [cell swapped].
  reflexivity.
Qed.

End Kernels.

Lemma atmxMixLayer_agrees lay vol align fnum :
  0 <= fnum < 2 ^ 31 -> fnum mod 4 = 0 ->
  length align = Z.to_nat (SSE.asize_of fnum) ->
  layer_fits true lay = true -> plays_steadily lay = true ->
  Scalar.atmxMixLayer lay vol (SSE.floats_of align) fnum =
  let r := SSE.atmxMixLayer lay (SSE._mm_set_ps1 vol) align (SSE.asize_of fnum) in
  (r.1, SSE.floats_of r.2).
Proof.
  intros Hf Hf4 Hlen Hfits Hsteady.
  unfold Scalar.atmxMixLayer, SSE.atmxMixLayer. cbv zeta.
  destruct (Z.eqb_spec (lay_flag lay) 0) as [|Hused]; [reflexivity|].
  unfold plays_steadily in Hsteady.
  destruct (Z.ltb_spec (lay_flag lay) 3) as [Hlow|Hhigh].
  - assert (Hfade : lay_fade lay = 0).
    { destruct (Z.eqb_spec (lay_flag lay) 0); [contradiction|].
      destruct (Z.leb_spec 3 (lay_flag lay)); [lia|].
      rewrite andb_false_l, orb_false_r, orb_false_l in Hsteady.
      apply andb_true_iff in Hsteady as [_ Hz]. lia. }
    rewrite Hfade. reflexivity.
  - assert (Hplay : lay_fmax lay <= lay_fade lay /\ 0 < snd_len (lay_sound lay) /\
                    snd_len (lay_sound lay) mod 4 = 0).
    { destruct (Z.eqb_spec (lay_flag lay) 0); [contradiction|].
      destruct (Z.ltb_spec (lay_flag lay) 3); [lia|].
      rewrite andb_false_l, !orb_false_l in Hsteady.
      repeat (apply andb_true_iff in Hsteady as [Hsteady ?]). lia. }
    destruct Hplay as (Hfull & Hlen0 & Hlen4).
    unfold layer_fits in Hfits. apply andb_true_iff in Hfits as [Hw Ha].
    apply layer_ok_used in Hw; [|exact Hused].
    apply layer_aligned_used in Ha; [|exact Hused].
    set (g := {| f2_l := F32.mul (f2_l (lay_gain lay)) vol;
                 f2_r := F32.mul (f2_r (lay_gain lay)) vol |}).
    change (SSE._mm_mul_ps
              (SSE._mm_setr_ps (f2_l (lay_gain lay)) (f2_r (lay_gain lay))
                 (f2_l (lay_gain lay)) (f2_r (lay_gain lay)))
              (SSE._mm_set_ps1 vol))
      with (SSE._mm_setr_ps (f2_l g) (f2_r g) (f2_l g) (f2_r g)).
    unfold Scalar.atmxMixPlayMono, Scalar.atmxMixPlayStereo, SSE.atmxMixPlayMono,
      SSE.atmxMixPlayStereo.
    destruct (snd_cha (lay_sound lay) =? 1).
    + rewrite (mix_play_agrees _ (SSE.frames_mono (lay_sound lay)) g
                 (fun c => frames_mono_block (lay_sound lay) c Hlen0 Hlen4)
                 lay _ align fnum Hf Hf4 Hlen Hw Ha Hfull).
      cbv zeta.
      destruct (SSE.mix_play _ _ lay _ (lay_cursor lay) align _) as [[lay1 cur1] align1].
      reflexivity.
    + rewrite (mix_play_agrees _ (SSE.frames_stereo (lay_sound lay)) g
                 (fun c => frames_stereo_block (lay_sound lay) c Hlen0 Hlen4)
                 lay _ align fnum Hf Hf4 Hlen Hw Ha Hfull).
      cbv zeta.
      destruct (SSE.mix_play _ _ lay _ (lay_cursor lay) align _) as [[lay1 cur1] align1].
      reflexivity.
Qed.

Lemma mix_layers_agree vol fnum : forall lays align,
  0 <= fnum < 2 ^ 31 -> fnum mod 4 = 0 ->
  length align = Z.to_nat (SSE.asize_of fnum) ->
  Forall (fun lay => layer_fits true lay = true) lays ->
  Forall (fun lay => plays_steadily lay = true) lays ->
  Scalar.mix_layers lays vol (SSE.floats_of align) fnum =
  let r := SSE.mix_layers lays (SSE._mm_set_ps1 vol) align (SSE.asize_of fnum) in
  (r.1, SSE.floats_of r.2).
Proof.
  induction lays as [|lay lays IH]; intros align Hf Hf4 Hlen Hfits Hsteady;
    [reflexivity|].
  inversion Hfits as [|? ? Hfit Hfits']; subst.
  inversion Hsteady as [|? ? Hst Hsteady']; subst.
  cbn [Scalar.mix_layers SSE.mix_layers].
  rewrite (atmxMixLayer_agrees lay vol align fnum Hf Hf4 Hlen Hfit Hst). cbv zeta.
  pose proof (SSEFacts.sse_atmxMixLayer_length lay (SSE._mm_set_ps1 vol) align
                (SSE.asize_of fnum)) as Hlen1.
  destruct (SSE.atmxMixLayer lay (SSE._mm_set_ps1 vol) align (SSE.asize_of fnum))
    as [lay1 align1].
  cbn [fst snd] in *.
  rewrite (IH align1 Hf Hf4 ltac:(lia) Hfits' Hsteady'). cbv zeta.
  destruct (SSE.mix_layers lays (SSE._mm_set_ps1 vol) align1 (SSE.asize_of fnum))
    as [lays1 align2].
  reflexivity.
Qed.

Lemma floats_of_clip_m128 align :
  SSE.floats_of (map SSE.clip_m128 align) =
  map (fun x => SSE.ps0 (SSE.clip_m128 (SSE._mm_set_ps1 x))) (SSE.floats_of align).
Proof.
  induction align as [|v align IH]; [reflexivity|].
  rewrite map_cons, !floats_of_cons, IH. reflexivity.
Qed.

Lemma mix_new_agrees clip mix fnum :
  mix_rem mix = 0 -> 0 <= fnum < 2 ^ 31 -> fnum mod 4 = 0 ->
  mixer_fits true mix = true ->
  forallb plays_steadily (mix_lays mix) = true ->
  SSE.mix_new clip mix [] fnum fnum =
  let r := Scalar.atomixMixerMix false mix fnum in
  (r.1.1,
   if clip then map (fun x => SSE.ps0 (SSE.clip_m128 (SSE._mm_set_ps1 x))) r.1.2
   else r.1.2,
   r.2).
Proof.
  intros Hrem Hf Hf4 Hfits Hsteady.
  apply (mixer_fits_parts true) in Hfits as (_ & _ & Hfits).
  apply forallb_Forall in Hsteady.
  destruct (frames_blocks fnum Hf Hf4) as (Ha & _ & _).
  assert (Hn : 0 <= SSE.asize_of fnum) by apply CarryFacts.asize_of_nonneg.
  unfold SSE.mix_new, Scalar.atomixMixerMix. cbv zeta.
  rewrite (wrap_u32_small (fnum * 2)) by lia.
  replace (Z.to_nat (fnum * 2)) with (4 * Z.to_nat (SSE.asize_of fnum))%nat by lia.
  rewrite <- SilenceFacts.floats_of_zero.
  rewrite (mix_layers_agree (mix_volume mix) fnum (mix_lays mix)
             (replicate (Z.to_nat (SSE.asize_of fnum)) SSE._mm_setzero_ps)
             Hf Hf4 ltac:(apply length_replicate) Hfits Hsteady).
  cbv zeta.
  pose proof (SSEFacts.sse_mix_layers_length (mix_lays mix)
                (SSE._mm_set_ps1 (mix_volume mix))
                (replicate (Z.to_nat (SSE.asize_of fnum)) SSE._mm_setzero_ps)
                (SSE.asize_of fnum)) as Hlen.
  rewrite length_replicate in Hlen.
  destruct (SSE.mix_layers (mix_lays mix) _ _ (SSE.asize_of fnum)) as [lays align].
  cbn [fst snd] in *.
  replace (SSE.asize_of fnum * 2 - fnum) with 0 by lia.
  change (wrap_u32 0 =? 0) with true. cbv iota.
  change (wrap_u32 0) with 0.
  assert (Hmix : set_mix_carry (set_mix_lays mix lays) 0 (mix_data mix)
                 = set_mix_lays mix lays).
  { destruct mix; simpl in *; subst; reflexivity. }
  rewrite Hmix. rewrite app_nil_l.
  assert (Htake : forall a : list SSE.__m128, length a = Z.to_nat (SSE.asize_of fnum) ->
            take (4 * Z.to_nat (SSE.asize_of fnum)) (SSE.floats_of a) = SSE.floats_of a).
  { intros a Hl. apply take_ge. rewrite SSEFacts.floats_of_length. lia. }
  destruct clip.
  - rewrite Htake by (rewrite length_map; exact Hlen).
    rewrite floats_of_clip_m128. reflexivity.
  - rewrite Htake by exact Hlen. reflexivity.
Qed.

End BuildLayers.

(** ** Layers that do not fade stay so *)

Module Steady.

Lemma play_loop_lay frame g loop n : forall i lay cur buff,
  (Scalar.play_loop frame g loop n i lay cur buff).1.1 = lay.
Proof.
  induction n as [|n IH]; intros i lay cur buff; [reflexivity|].
  cbn [Scalar.play_loop].
  destruct ((cur =? lay_end lay) && negb loop); [reflexivity|]. apply IH.
Qed.

Lemma mix_play_steady frame g lay loop buff fnum :
  lay_fmax lay <= lay_fade lay ->
  exists cell,
    (Scalar.mix_play frame g lay loop (lay_cursor lay) buff fnum).1.1
    = set_lay_cursor lay cell.
Proof.
  intros Hfull. unfold Scalar.mix_play.
  destruct (Z.ltb_spec (lay_fade lay) (lay_fmax lay)); [lia|].
  pose proof (play_loop_lay frame g loop (Scalar.frames fnum) 0 lay (lay_cursor lay)
                buff) as Hlay.
  destruct (Scalar.play_loop frame g loop _ 0 lay (lay_cursor lay) buff)
    as [[lay1 cur1] buff1].
  cbn [fst snd] in Hlay. subst lay1. unfold Scalar.swap_cursor.
  destruct (ATMX_CSWAP (lay_cursor lay) (lay_cursor lay) cur1) as [cell swapped].
  exists cell. reflexivity.
Qed.

Lemma atmxMixLayer_steady lay vol buff fnum :
  plays_steadily lay = true ->
  plays_steadily (Scalar.atmxMixLayer lay vol buff fnum).1 = true.
Proof.
  intros Hsteady. unfold Scalar.atmxMixLayer. cbv zeta.
  destruct (Z.eqb_spec (lay_flag lay) 0) as [|Hused]; [exact Hsteady|].
  destruct (Z.ltb_spec (lay_flag lay) 3) as [Hlow|Hhigh].
  - assert (Hfade : lay_fade lay = 0).
    { unfold plays_steadily in Hsteady.
      destruct (Z.eqb_spec (lay_flag lay) 0); [contradiction|].
      destruct (Z.leb_spec 3 (lay_flag lay)); [lia|].
      rewrite andb_false_l, orb_false_r, orb_false_l in Hsteady.
      apply andb_true_iff in Hsteady as [_ Hz]. lia. }
    rewrite Hfade. cbn [Z.ltb Z.compare andb fst snd].
    destruct ((lay_flag lay =? ATOMIX_STOP) && _); [reflexivity|exact Hsteady].
  - assert (Hfull : lay_fmax lay <= lay_fade lay).
    { unfold plays_steadily in Hsteady.
      destruct (Z.eqb_spec (lay_flag lay) 0); [contradiction|].
      destruct (Z.ltb_spec (lay_flag lay) 3); [lia|].
      rewrite andb_false_l, !orb_false_l in Hsteady.
      repeat (apply andb_true_iff in Hsteady as [Hsteady ?]). lia. }
    unfold Scalar.atmxMixPlayMono, Scalar.atmxMixPlayStereo.
    destruct (snd_cha (lay_sound lay) =? 1).
    + destruct (mix_play_steady (Scalar.frame_mono (lay_sound lay))
                  {| f2_l := F32.mul (f2_l (lay_gain lay)) vol;
                     f2_r := F32.mul (f2_r (lay_gain lay)) vol |}
                  lay (lay_flag lay =? ATOMIX_LOOP) buff fnum Hfull) as [cell Hlay].
      destruct (Scalar.mix_play _ _ lay _ (lay_cursor lay) buff fnum)
        as [[lay1 cur1] buff1].
      cbn [fst snd] in *. subst lay1.
      destruct ((lay_flag lay =? ATOMIX_PLAY) && _); [|exact Hsteady].
      cbn [lay_flag set_lay_cursor]. unfold ATMX_CSWAP. rewrite Z.eqb_refl. reflexivity.
    + destruct (mix_play_steady (Scalar.frame_stereo (lay_sound lay))
                  {| f2_l := F32.mul (f2_l (lay_gain lay)) vol;
                     f2_r := F32.mul (f2_r (lay_gain lay)) vol |}
                  lay (lay_flag lay =? ATOMIX_LOOP) buff fnum Hfull) as [cell Hlay].
      destruct (Scalar.mix_play _ _ lay _ (lay_cursor lay) buff fnum)
        as [[lay1 cur1] buff1].
      cbn [fst snd] in *. subst lay1.
      destruct ((lay_flag lay =? ATOMIX_PLAY) && _); [|exact Hsteady].
      cbn [lay_flag set_lay_cursor]. unfold ATMX_CSWAP. rewrite Z.eqb_refl. reflexivity.
Qed.

Lemma mix_layers_steady vol fnum : forall lays buff,
  forallb plays_steadily lays = true ->
  forallb plays_steadily (Scalar.mix_layers lays vol buff fnum).1 = true.
Proof.
  induction lays as [|lay lays IH]; intros buff Hall; [reflexivity|].
  cbn [forallb] in Hall. apply andb_true_iff in Hall as [Hlay Hall].
  cbn [Scalar.mix_layers].
  pose proof (atmxMixLayer_steady lay vol buff fnum Hlay) as H1.
  destruct (Scalar.atmxMixLayer lay vol buff fnum) as [lay1 buff1].
  pose proof (IH buff1 Hall) as H2.
  destruct (Scalar.mix_layers lays vol buff1 fnum) as [lays1 buff2].
  cbn [fst snd forallb] in *. rewrite H1, H2. reflexivity.
Qed.

End Steady.

(** X21: While nothing fades the two builds agree bit for bit: in a mixer
    with an empty carry whose occupied layers are inside their windows and
    aligned, each either playing or looping at its full fade a sound whose
    length is a positive multiple of four, or stopped or halted with the
    fade counter at 0, a request for a multiple of four frames below 2^31
    makes the SSE atomixMixerMix return the same mixer and, without
    clipping, the same samples as the scalar one; with clipping it returns
    the scalar build's unclipped samples passed through min(max(x,-1),1).
    The mixer left behind meets the same conditions, so this holds call
    after call. *)
Theorem X21_builds_agree_while_nothing_fades (mix : atomix_mixer) (fnum : Z) :
  mix_rem mix = 0 -> 0 <= fnum < 2 ^ 31 -> fnum mod 4 = 0 ->
  mixer_fits true mix = true ->
  forallb plays_steadily (mix_lays mix) = true ->
  let r := Scalar.atomixMixerMix false mix fnum in
  SSE.atomixMixerMix false mix fnum = r /\
  SSE.atomixMixerMix true mix fnum =
    (r.1.1, map (fun x => SSE.ps0 (SSE.clip_m128 (SSE._mm_set_ps1 x))) r.1.2, r.2) /\
  mix_rem r.1.1 = 0 /\ mixer_fits true r.1.1 = true /\
  forallb plays_steadily (mix_lays r.1.1) = true.
Proof.
  intros Hrem Hf Hf4 Hfits Hsteady r.
  assert (Hplain : SSE.atomixMixerMix false mix fnum = r).
  { unfold SSE.atomixMixerMix. rewrite Hrem. cbn [Z.eqb].
    rewrite (BuildLayers.mix_new_agrees false mix fnum Hrem Hf Hf4 Hfits Hsteady).
    cbv zeta. fold r. destruct r as [[m o] n]. reflexivity. }
  split; [exact Hplain|]. split.
  { unfold SSE.atomixMixerMix. rewrite Hrem. cbn [Z.eqb].
    rewrite (BuildLayers.mix_new_agrees true mix fnum Hrem Hf Hf4 Hfits Hsteady).
    reflexivity. }
  split.
  { unfold r, Scalar.atomixMixerMix.
    destruct (Scalar.mix_layers _ _ _ _) as [lays buff]. exact Hrem. }
  split.
  { pose proof (atomixMixerMix_fits true false mix fnum Hfits) as H.
    cbv iota in H. rewrite Hplain in H. exact H. }
  unfold r, Scalar.atomixMixerMix.
  pose proof (Steady.mix_layers_steady (mix_volume mix) fnum (mix_lays mix)
                (replicate (Z.to_nat (wrap_u32 (fnum * 2))) F32.zero) Hsteady) as H.
  destruct (Scalar.mix_layers _ _ _ _) as [lays buff]. exact H.
Qed.

(** ** The further theorems at concrete inputs *)

(** [Forall] over the layers of a concrete mixer, one layer at a time. *)
Ltac each_layer lays tac :=
  let l := eval vm_compute in lays in
  change lays with l;
  repeat (apply List.Forall_cons; [tac|]); apply List.Forall_nil.

Lemma X1_witness :
  1 <= 2 <= 2 /\ 1 <= 3 <= 2 ^ 31 / 2 - 4 /\
  length (replicate 6 F32.one) = Z.to_nat (3 * 2) /\
  exists snd, atomixSoundNew 2 (replicate 6 F32.one) 3 = Some snd /\
              atomixSoundLength snd = 4 /\
              snd_data snd = replicate 6 F32.one ++ replicate 2 F32.zero.
Proof.
  assert (Hc : 1 <= 2 <= 2) by lia.
  assert (Hl : 1 <= 3 <= 2 ^ 31 / 2 - 4) by (vm_compute; split; discriminate).
  assert (Hd : length (replicate 6 F32.one) = Z.to_nat (3 * 2)) by reflexivity.
  refine (conj Hc (conj Hl (conj Hd _))).
  destruct (X1_sound_new_pads_to_block 2 (replicate 6 F32.one) 3 Hc Hl Hd)
    as (snd & Hnew & _ & Hmod & Hlen & _ & Hdata).
  exists snd. split; [exact Hnew|].
  assert (H4 : atomixSoundLength snd = 4).
  { revert Hmod Hlen. generalize (atomixSoundLength snd). intros z Hmod Hlen.
    Z.div_mod_to_equations. lia. }
  split; [exact H4|]. rewrite Hdata, H4. reflexivity.
Defined.

Lemma X8_witness :
  0 <= 2 <= 30 /\ mixer_ok 2 small_mixer = true /\
  1 <= 2 <= 2 /\ 1 <= 3 <= 2 ^ 31 / 2 - 4 /\ 1 <= ATOMIX_LOOP <= 4 /\
  (0 < Z.to_nat (ATMX_LAYERS 2))%nat /\ lay_flag (mix_lays small_mixer !!! 0%nat) = 0 /\
  exists snd, atomixSoundNew 2 (replicate 6 F32.one) 3 = Some snd /\
              (atomixMixerPlay 2 small_mixer snd ATOMIX_LOOP F32.one F32.zero).2 <> 0.
Proof.
  assert (HL : 0 <= 2 <= 30) by lia.
  assert (Hok : mixer_ok 2 small_mixer = true) by (vm_compute; reflexivity).
  assert (Hc : 1 <= 2 <= 2) by lia.
  assert (Hl : 1 <= 3 <= 2 ^ 31 / 2 - 4) by (vm_compute; split; discriminate).
  assert (Hf : 1 <= ATOMIX_LOOP <= 4) by (vm_compute; split; discriminate).
  assert (Hi : (0 < Z.to_nat (ATMX_LAYERS 2))%nat) by (vm_compute; lia).
  assert (Hfree : lay_flag (mix_lays small_mixer !!! 0%nat) = 0) by reflexivity.
  refine (conj HL (conj Hok (conj Hc (conj Hl (conj Hf (conj Hi (conj Hfree _))))))).
  destruct (X8_play_accepts_every_sound 2 HL small_mixer 2 (replicate 6 F32.one) 3
              ATOMIX_LOOP F32.one F32.zero 0%nat Hok Hc Hl Hf Hi Hfree)
    as (snd & Hnew & Hr & _).
  exists snd. split; [exact Hnew|exact Hr].
Defined.

Lemma X2_witness :
  0 <= 2 <= 30 /\ mixer_ok 2 small_mixer = true /\
  (atomixMixerPlay 2 (atomixMixerFade small_mixer 10) (constant_one 8) ATOMIX_HALT
     F32.one F32.zero).2 <> 0 /\
  mix_fade (atomixMixerFade small_mixer 10) <= 10 < mix_fade (atomixMixerFade small_mixer 10) + 4.
Proof.
  assert (HL : 0 <= 2 <= 30) by lia.
  assert (Hok : mixer_ok 2 small_mixer = true) by (vm_compute; reflexivity).
  assert (Hr : (atomixMixerPlay 2 (atomixMixerFade small_mixer 10) (constant_one 8)
                  ATOMIX_HALT F32.one F32.zero).2 <> 0) by (vm_compute; discriminate).
  refine (conj HL (conj Hok (conj Hr _))).
  destruct (X2_default_fade_reaches_new_layers 2 HL small_mixer 10 (constant_one 8)
              ATOMIX_HALT F32.one F32.zero Hok Hr) as (_ & _ & _ & Hb & _).
  apply Hb. lia.
Defined.

Lemma X3_witness :
  0 <= 2 <= 30 /\ mixer_ok 2 small_mixer = true /\
  - 2 ^ 31 <= 1 < 2 ^ 31 /\ - 2 ^ 31 <= 7 < 2 ^ 31 /\
  (atomixMixerPlayAdv 2 small_mixer (constant_one 8) ATOMIX_PLAY F32.one F32.zero 1 7 0).2
    <> 0 /\
  lay_start (mix_lays (atomixMixerPlayAdv 2 small_mixer (constant_one 8) ATOMIX_PLAY
                         F32.one F32.zero 1 7 0).1 !!! 0%nat) mod 4 = 0.
Proof.
  assert (HL : 0 <= 2 <= 30) by lia.
  assert (Hok : mixer_ok 2 small_mixer = true) by (vm_compute; reflexivity).
  assert (Hs : - 2 ^ 31 <= 1 < 2 ^ 31) by lia.
  assert (He : - 2 ^ 31 <= 7 < 2 ^ 31) by lia.
  assert (Hr : (atomixMixerPlayAdv 2 small_mixer (constant_one 8) ATOMIX_PLAY F32.one
                  F32.zero 1 7 0).2 <> 0) by (vm_compute; discriminate).
  refine (conj HL (conj Hok (conj Hs (conj He (conj Hr _))))).
  apply (X3_play_adv_window 2 HL small_mixer (constant_one 8) ATOMIX_PLAY F32.one F32.zero
           1 7 0 Hok Hs He Hr).
Defined.

Lemma X7_witness :
  0 <= 2 <= 30 /\ 1 <= ATOMIX_PLAY <= 4 /\ 4 <= wrap_i32 (8 - 0) /\ 4 <= 8 /\
  lay_flag (mix_lays small_mixer !!! 0%nat) = 0 /\
  (mix_nid small_mixer = 0 \/ mix_nid small_mixer = ATMX_LAYERS 2) /\
  (atomixMixerPlayAdv 2 small_mixer (constant_one 8) ATOMIX_PLAY F32.one F32.zero 0 8 0).2
    = ATMX_LAYERS 2.
Proof.
  assert (HL : 0 <= 2 <= 30) by lia.
  assert (Hf : 1 <= ATOMIX_PLAY <= 4) by (vm_compute; split; discriminate).
  assert (Hd : 4 <= wrap_i32 (8 - 0)) by (vm_compute; discriminate).
  assert (He : 4 <= 8) by lia.
  assert (Hfree : lay_flag (mix_lays small_mixer !!! 0%nat) = 0) by reflexivity.
  assert (Hn : mix_nid small_mixer = 0 \/ mix_nid small_mixer = ATMX_LAYERS 2)
    by (left; reflexivity).
  refine (conj HL (conj Hf (conj Hd (conj He (conj Hfree (conj Hn _)))))).
  apply (X7_first_handle_issued_twice 2 HL small_mixer (constant_one 8) ATOMIX_PLAY F32.one
           F32.zero 0 8 0 Hf Hd He Hfree Hn).
Defined.

Lemma X4_witness :
  0 <= 2 <= 30 /\ mixer_ok 2 small_playing.1 = true /\
  lay_id (layer_of 2 small_playing.1 4) = 4 /\
  1 < lay_flag (layer_of 2 small_playing.1 4) /\
  lay_start (layer_of 2 small_playing.1 4) mod 4 = 0 /\
  lay_end (layer_of 2 small_playing.1 4) mod 4 = 0 /\
  lay_start (layer_of 2 small_playing.1 4) <= lay_end (layer_of 2 small_playing.1 4) /\
  (atomixMixerSetCursor 2 small_playing.1 4 6).2 = 1.
Proof.
  assert (HL : 0 <= 2 <= 30) by lia.
  assert (Hok : mixer_ok 2 small_playing.1 = true) by (vm_compute; reflexivity).
  assert (Hid : lay_id (layer_of 2 small_playing.1 4) = 4) by (vm_compute; reflexivity).
  assert (Hf : 1 < lay_flag (layer_of 2 small_playing.1 4)) by (vm_compute; reflexivity).
  assert (Hs : lay_start (layer_of 2 small_playing.1 4) mod 4 = 0)
    by (vm_compute; reflexivity).
  assert (He : lay_end (layer_of 2 small_playing.1 4) mod 4 = 0)
    by (vm_compute; reflexivity).
  assert (Hse : lay_start (layer_of 2 small_playing.1 4)
                <= lay_end (layer_of 2 small_playing.1 4))
    by (vm_compute; discriminate).
  refine (conj HL (conj Hok (conj Hid (conj Hf (conj Hs (conj He (conj Hse _))))))).
  apply (X4_set_cursor_clamps 2 HL small_playing.1 4 6 Hok Hid Hf Hs He Hse).
Defined.

Lemma X5_witness :
  0 <= 2 <= 30 /\ mixer_ok 2 small_playing.1 = true /\
  lay_id (layer_of 2 small_playing.1 4) = 4 /\
  1 < lay_flag (layer_of 2 small_playing.1 4) /\
  atomixMixerSetCursor 2 (atomixMixerSetGainPan 2 small_playing.1 4 F32.two F32.one).1 4 6
  = atomixMixerSetGainPan 2 (atomixMixerSetCursor 2 small_playing.1 4 6).1 4 F32.two F32.one.
Proof.
  assert (HL : 0 <= 2 <= 30) by lia.
  assert (Hok : mixer_ok 2 small_playing.1 = true) by (vm_compute; reflexivity).
  assert (Hid : lay_id (layer_of 2 small_playing.1 4) = 4) by (vm_compute; reflexivity).
  assert (Hf : 1 < lay_flag (layer_of 2 small_playing.1 4)) by (vm_compute; reflexivity).
  refine (conj HL (conj Hok (conj Hid (conj Hf _)))).
  apply (X5_set_gain_pan_and_set_cursor_commute 2 HL small_playing.1 4 4 F32.two F32.one 6
           Hok Hid Hf Hid Hf).
Defined.

Lemma X6_witness :
  mixer_ok 2 full_mixer = true /\ (0 < Z.to_nat (ATMX_LAYERS 2))%nat /\
  lay_flag (mix_lays (atomixMixerPlayAll (atomixMixerHaltAll full_mixer)) !!! 0%nat)
    = ATOMIX_PLAY.
Proof.
  assert (Hok : mixer_ok 2 full_mixer = true) by (vm_compute; reflexivity).
  assert (Hi : (0 < Z.to_nat (ATMX_LAYERS 2))%nat) by (vm_compute; lia).
  refine (conj Hok (conj Hi _)).
  destruct (X6_halt_all_then_play_all 2 full_mixer 0%nat Hok Hi) as (_ & Hp & _).
  rewrite Hp. reflexivity.
Defined.

Lemma X10_witness :
  all_free fresh_mixer = true /\ 0 <= 64 < 2 ^ 31 /\
  mix_data fresh_mixer = replicate 6 0 /\ 0 <= mix_rem fresh_mixer <= 3 /\
  (SSE.atomixMixerMix true fresh_mixer 64).1.2 = replicate (Z.to_nat (2 * 64)) F32.zero.
Proof.
  assert (Hfree : all_free fresh_mixer = true) by (vm_compute; reflexivity).
  assert (Hf : 0 <= 64 < 2 ^ 31) by lia.
  assert (Hd : mix_data fresh_mixer = replicate 6 0) by reflexivity.
  assert (Hr : 0 <= mix_rem fresh_mixer <= 3) by (vm_compute; split; discriminate).
  refine (conj Hfree (conj Hf (conj Hd (conj Hr _)))).
  apply (X10_free_mixer_is_silent true true fresh_mixer 64 Hfree Hf Hd Hr).
Defined.

Lemma X15_witness :
  0 <= 8 < 2 ^ 31 /\
  Forall (fun lay =>
            lay_flag lay = 0 \/
            (0 <= lay_end lay /\ - 2 ^ 31 <= lay_cursor lay /\ lay_cursor lay + 8 <= 0))
         (mix_lays small_delayed) /\
  (Scalar.atomixMixerMix true small_delayed 8).1.2 = replicate (Z.to_nat (2 * 8)) F32.zero.
Proof.
  assert (Hf : 0 <= 8 < 2 ^ 31) by lia.
  assert (Hall : Forall (fun lay =>
            lay_flag lay = 0 \/
            (0 <= lay_end lay /\ - 2 ^ 31 <= lay_cursor lay /\ lay_cursor lay + 8 <= 0))
         (mix_lays small_delayed)).
  { each_layer (mix_lays small_delayed)
      ltac:(first [left; reflexivity
                  | right; repeat split; vm_compute; first [reflexivity | discriminate]]). }
  refine (conj Hf (conj Hall _)).
  apply (X15_layers_before_their_start_are_silent true small_delayed 8 Hf Hall).
Defined.

Lemma X11_witness :
  layer_ok (layer_of 2 small_playing.1 4) = true /\
  lay_flag (layer_of 2 small_playing.1 4) = ATOMIX_PLAY /\ 0 <= 3 < 2 ^ 31 /\
  lay_cursor (Scalar.atmxMixLayer (layer_of 2 small_playing.1 4) F32.one
                (replicate 6 F32.zero) 3).1 = 3.
Proof.
  assert (Hok : layer_ok (layer_of 2 small_playing.1 4) = true) by (vm_compute; reflexivity).
  assert (Hflag : lay_flag (layer_of 2 small_playing.1 4) = ATOMIX_PLAY)
    by (vm_compute; reflexivity).
  assert (Hf : 0 <= 3 < 2 ^ 31) by lia.
  refine (conj Hok (conj Hflag (conj Hf _))).
  rewrite (X11_playing_layer_runs_to_its_end (layer_of 2 small_playing.1 4) F32.one
             (replicate 6 F32.zero) 3 Hok Hflag Hf).
  reflexivity.
Defined.

Lemma X12_witness :
  layer_ok (mix_lays full_mixer !!! 0%nat) = true /\
  lay_flag (mix_lays full_mixer !!! 0%nat) = ATOMIX_LOOP /\ 0 <= 6 < 2 ^ 31 /\
  lay_cursor (Scalar.atmxMixLayer (mix_lays full_mixer !!! 0%nat) F32.one
                (replicate 12 F32.zero) 6).1 = 2.
Proof.
  assert (Hok : layer_ok (mix_lays full_mixer !!! 0%nat) = true)
    by (vm_compute; reflexivity).
  assert (Hflag : lay_flag (mix_lays full_mixer !!! 0%nat) = ATOMIX_LOOP)
    by (vm_compute; reflexivity).
  assert (Hf : 0 <= 6 < 2 ^ 31) by lia.
  refine (conj Hok (conj Hflag (conj Hf _))).
  rewrite (proj1 (X12_looping_layer_wraps_around (mix_lays full_mixer !!! 0%nat) F32.one
                    (replicate 12 F32.zero) 6 Hok Hflag Hf)).
  reflexivity.
Defined.

Lemma X13_witness :
  layer_ok (mix_lays small_stopping !!! 0%nat) = true /\
  (lay_flag (mix_lays small_stopping !!! 0%nat) = ATOMIX_STOP \/
   lay_flag (mix_lays small_stopping !!! 0%nat) = ATOMIX_HALT) /\
  0 <= 2 < 2 ^ 31 /\ 0 <= 4 < 2 ^ 31 /\
  lay_fade (mix_lays small_stopping !!! 0%nat) = 4 /\
  lay_fade (Scalar.atmxMixLayer (mix_lays small_stopping !!! 0%nat) F32.one
              (replicate 4 F32.zero) 2).1 = 2 /\
  lay_cursor (Scalar.atmxMixLayer (mix_lays small_stopping !!! 0%nat) F32.one
                (replicate 4 F32.zero) 2).1 = 2 /\
  lay_flag (Scalar.atmxMixLayer (mix_lays small_stopping !!! 0%nat) F32.one
              (replicate 4 F32.zero) 2).1 = ATOMIX_STOP /\
  lay_flag (Scalar.atmxMixLayer (mix_lays small_stopping !!! 0%nat) F32.one
              (replicate 8 F32.zero) 4).1 = 0.
Proof.
  assert (Hok : layer_ok (mix_lays small_stopping !!! 0%nat) = true)
    by (vm_compute; reflexivity).
  assert (Hflag : lay_flag (mix_lays small_stopping !!! 0%nat) = ATOMIX_STOP \/
                  lay_flag (mix_lays small_stopping !!! 0%nat) = ATOMIX_HALT)
    by (left; vm_compute; reflexivity).
  assert (Hf : 0 <= 2 < 2 ^ 31) by lia.
  assert (Hf' : 0 <= 4 < 2 ^ 31) by lia.
  assert (Hfade : lay_fade (mix_lays small_stopping !!! 0%nat) = 4) by reflexivity.
  refine (conj Hok (conj Hflag (conj Hf (conj Hf' (conj Hfade _))))).
  rewrite (X13_stopped_layer_fades_out (mix_lays small_stopping !!! 0%nat) F32.one
             (replicate 4 F32.zero) 2 Hok Hflag Hf).
  rewrite (X13_stopped_layer_fades_out (mix_lays small_stopping !!! 0%nat) F32.one
             (replicate 8 F32.zero) 4 Hok Hflag Hf').
  vm_compute. repeat split.
Defined.

Lemma X20_witness :
  mixer_ok 2 full_mixer = true /\ 0 <= 4 < 2 ^ 31 /\
  (true = true -> carry_ok full_mixer = true /\
                  (mix_rem full_mixer = 0 \/ mix_rem full_mixer < 4)) /\
  Forall (fun lay => layer_fits true lay = true /\
                     lay_end lay - lay_cursor lay < 2 ^ 31 /\
                     lay_fade lay <= 4 - mix_rem full_mixer)
         (mix_lays full_mixer) /\
  all_free (SSE.atomixMixerMix true (atomixMixerStopAll full_mixer) 4).1.1 = true.
Proof.
  assert (Hok : mixer_ok 2 full_mixer = true) by (vm_compute; reflexivity).
  assert (Hf : 0 <= 4 < 2 ^ 31) by lia.
  assert (Hc : true = true -> carry_ok full_mixer = true /\
                 (mix_rem full_mixer = 0 \/ mix_rem full_mixer < 4))
    by (intros _; split; [vm_compute; reflexivity | left; reflexivity]).
  assert (Hall : Forall (fun lay => layer_fits true lay = true /\
                     lay_end lay - lay_cursor lay < 2 ^ 31 /\
                     lay_fade lay <= 4 - mix_rem full_mixer)
         (mix_lays full_mixer)).
  { each_layer (mix_lays full_mixer)
      ltac:(repeat split; vm_compute; first [reflexivity | discriminate]). }
  refine (conj Hok (conj Hf (conj Hc (conj Hall _)))).
  apply (X20_stop_all_then_mix_frees_every_layer 2 true true full_mixer 4 Hok Hf Hc Hall).
Defined.

Lemma small_mixer_others_free (mix : atomix_mixer) :
  length (mix_lays mix) = 4%nat ->
  forallb (fun lay => lay_flag lay =? 0) (drop 1 (mix_lays mix)) = true ->
  forall j : nat, j <> 0%nat -> lay_flag (mix_lays mix !!! j) = 0.
Proof.
  intros Hlen Hfree j Hj.
  destruct (mix_lays mix) as [|l0 [|l1 [|l2 [|l3 [|l4 rest]]]]]; try discriminate.
  simpl in Hfree. repeat (apply andb_true_iff in Hfree as [? Hfree]).
  destruct j as [|[|[|[|j]]]]; simpl; try lia; reflexivity.
Qed.

Lemma X16_witness :
  (0 < length (mix_lays small_playing.1))%nat /\
  (forall j : nat, j <> 0%nat -> lay_flag (mix_lays small_playing.1 !!! j) = 0) /\
  (lay_flag (mix_lays small_playing.1 !!! 0%nat) = ATOMIX_PLAY \/
   lay_flag (mix_lays small_playing.1 !!! 0%nat) = ATOMIX_LOOP) /\
  lay_fmax (mix_lays small_playing.1 !!! 0%nat)
    <= lay_fade (mix_lays small_playing.1 !!! 0%nat) /\
  0 <= lay_cursor (mix_lays small_playing.1 !!! 0%nat) /\
  lay_cursor (mix_lays small_playing.1 !!! 0%nat) + 4
    <= lay_end (mix_lays small_playing.1 !!! 0%nat) /\
  lay_end (mix_lays small_playing.1 !!! 0%nat) < 2 ^ 31 /\
  0 <= 4 < 2 ^ 31 /\ Z.of_nat 1 < 4 /\
  (Scalar.atomixMixerMix true small_playing.1 4).1.2 !!! (2 * 1)%nat = F32.half.
Proof.
  assert (Hi : (0 < length (mix_lays small_playing.1))%nat) by (vm_compute; lia).
  assert (Hfree : forall j : nat, j <> 0%nat ->
                    lay_flag (mix_lays small_playing.1 !!! j) = 0)
    by (apply small_mixer_others_free; reflexivity).
  assert (Hflag : lay_flag (mix_lays small_playing.1 !!! 0%nat) = ATOMIX_PLAY \/
                  lay_flag (mix_lays small_playing.1 !!! 0%nat) = ATOMIX_LOOP)
    by (left; reflexivity).
  assert (Hfade : lay_fmax (mix_lays small_playing.1 !!! 0%nat)
                  <= lay_fade (mix_lays small_playing.1 !!! 0%nat))
    by (vm_compute; discriminate).
  assert (Hc : 0 <= lay_cursor (mix_lays small_playing.1 !!! 0%nat))
    by (vm_compute; discriminate).
  assert (He : lay_cursor (mix_lays small_playing.1 !!! 0%nat) + 4
               <= lay_end (mix_lays small_playing.1 !!! 0%nat))
    by (vm_compute; discriminate).
  assert (Hm : lay_end (mix_lays small_playing.1 !!! 0%nat) < 2 ^ 31)
    by (vm_compute; reflexivity).
  assert (Hf : 0 <= 4 < 2 ^ 31) by lia.
  assert (Ht : Z.of_nat 1 < 4) by (vm_compute; reflexivity).
  refine (conj Hi (conj Hfree (conj Hflag (conj Hfade (conj Hc (conj He (conj Hm
            (conj Hf (conj Ht _))))))))).
  rewrite (proj1 (X16_playing_layer_adds_gain_times_sample true small_playing.1 0%nat 4 1%nat
                    Hi Hfree Hflag Hfade Hc He Hm Hf Ht)).
  vm_compute. reflexivity.
Defined.

Lemma X17_witness :
  (0 < length (mix_lays small_fading))%nat /\
  (forall j : nat, j <> 0%nat -> lay_flag (mix_lays small_fading !!! j) = 0) /\
  (lay_flag (mix_lays small_fading !!! 0%nat) = ATOMIX_PLAY \/
   lay_flag (mix_lays small_fading !!! 0%nat) = ATOMIX_LOOP) /\
  0 <= lay_fade (mix_lays small_fading !!! 0%nat)
    < lay_fmax (mix_lays small_fading !!! 0%nat) /\
  lay_fmax (mix_lays small_fading !!! 0%nat) < 2 ^ 31 /\
  0 <= lay_cursor (mix_lays small_fading !!! 0%nat) /\
  lay_cursor (mix_lays small_fading !!! 0%nat) + 8
    <= lay_end (mix_lays small_fading !!! 0%nat) /\
  lay_end (mix_lays small_fading !!! 0%nat) < 2 ^ 31 /\
  0 <= 8 < 2 ^ 31 /\ Z.of_nat 1 < 8 /\
  (Scalar.atomixMixerMix true small_fading 8).1.2 !!! (2 * 1)%nat = ratio 1 8.
Proof.
  assert (Hi : (0 < length (mix_lays small_fading))%nat) by (vm_compute; lia).
  assert (Hfree : forall j : nat, j <> 0%nat ->
                    lay_flag (mix_lays small_fading !!! j) = 0)
    by (apply small_mixer_others_free; reflexivity).
  assert (Hflag : lay_flag (mix_lays small_fading !!! 0%nat) = ATOMIX_PLAY \/
                  lay_flag (mix_lays small_fading !!! 0%nat) = ATOMIX_LOOP)
    by (left; reflexivity).
  assert (Hfade : 0 <= lay_fade (mix_lays small_fading !!! 0%nat)
                  < lay_fmax (mix_lays small_fading !!! 0%nat))
    by (vm_compute; split; [discriminate|reflexivity]).
  assert (Hfm : lay_fmax (mix_lays small_fading !!! 0%nat) < 2 ^ 31)
    by (vm_compute; reflexivity).
  assert (Hc : 0 <= lay_cursor (mix_lays small_fading !!! 0%nat))
    by (vm_compute; discriminate).
  assert (He : lay_cursor (mix_lays small_fading !!! 0%nat) + 8
               <= lay_end (mix_lays small_fading !!! 0%nat))
    by (vm_compute; discriminate).
  assert (Hm : lay_end (mix_lays small_fading !!! 0%nat) < 2 ^ 31)
    by (vm_compute; reflexivity).
  assert (Hf : 0 <= 8 < 2 ^ 31) by lia.
  assert (Ht : Z.of_nat 1 < 8) by (vm_compute; reflexivity).
  refine (conj Hi (conj Hfree (conj Hflag (conj Hfade (conj Hfm (conj Hc (conj He
            (conj Hm (conj Hf (conj Ht _)))))))))).
  rewrite (proj1 (X17_fading_in_layer_ramps_up true small_fading 0%nat 8 1%nat
                    Hi Hfree Hflag Hfade Hfm Hc He Hm Hf Ht)).
  vm_compute. reflexivity.
Defined.

Lemma X14_witness :
  0 <= 2 <= 30 /\
  runs 2 true (SSE.atomixMixerMix true small_delayed 5).1.1 /\
  mixer_fits true (SSE.atomixMixerMix true small_delayed 5).1.1 = true.
Proof.
  assert (HL : 0 <= 2 <= 30) by lia.
  assert (Hrun : runs 2 true (SSE.atomixMixerMix true small_delayed 5).1.1).
  { apply (run_mix 2 true true small_delayed 5); [lia|].
    apply (run_play_adv 2 true small_mixer (constant_one 8) ATOMIX_PLAY F32.one F32.zero
             (-8) 8 0); [lia|lia|lia|].
    apply run_new. lia. }
  refine (conj HL (conj Hrun _)).
  apply (X14_layers_stay_inside_their_window 2 true _ HL Hrun).
Defined.

Lemma X18_witness :
  0 < snd_len (constant_one 8) /\ snd_len (constant_one 8) mod 4 = 0 /\
  0 <= 12 /\ 12 mod 4 = 0 /\
  12 mod snd_len (constant_one 8) + 4 <= snd_len (constant_one 8).
Proof.
  assert (Hl : 0 < snd_len (constant_one 8)) by reflexivity.
  assert (Hl4 : snd_len (constant_one 8) mod 4 = 0) by reflexivity.
  assert (Hc : 0 <= 12) by lia.
  assert (Hc4 : 12 mod 4 = 0) by reflexivity.
  refine (conj Hl (conj Hl4 (conj Hc (conj Hc4 _)))).
  apply (X18_sse_block_is_four_scalar_frames (constant_one 8) 12 Hl Hl4 Hc Hc4).
Defined.

Lemma X19_witness :
  carry_ok small_playing.1 = true /\ 0 <= 5 < 2 ^ 31 /\
  0 <= mix_rem (SSE.atomixMixerMix true small_playing.1 5).1.1 <= 3.
Proof.
  assert (Hok : carry_ok small_playing.1 = true) by (vm_compute; reflexivity).
  assert (Hf : 0 <= 5 < 2 ^ 31) by lia.
  refine (conj Hok (conj Hf _)).
  apply (X19_carry_counts_whole_blocks true small_playing.1 5 Hok Hf).
Defined.

Lemma X21_witness :
  mix_rem small_playing.1 = 0 /\ 0 <= 4 < 2 ^ 31 /\ 4 mod 4 = 0 /\
  mixer_fits true small_playing.1 = true /\
  forallb plays_steadily (mix_lays small_playing.1) = true /\
  SSE.atomixMixerMix false small_playing.1 4 =
  Scalar.atomixMixerMix false small_playing.1 4.
Proof.
  assert (Hrem : mix_rem small_playing.1 = 0) by reflexivity.
  assert (Hf : 0 <= 4 < 2 ^ 31) by lia.
  assert (Hf4 : 4 mod 4 = 0) by reflexivity.
  assert (Hfits : mixer_fits true small_playing.1 = true) by (vm_compute; reflexivity).
  assert (Hsteady : forallb plays_steadily (mix_lays small_playing.1) = true)
    by (vm_compute; reflexivity).
  refine (conj Hrem (conj Hf (conj Hf4 (conj Hfits (conj Hsteady _))))).
  destruct (X21_builds_agree_while_nothing_fades small_playing.1 4 Hrem Hf Hf4 Hfits
              Hsteady) as [H _].
  exact H.
Defined.

